(** * books-crawler: crawl orchestration and change detection

    A shallow embedding of [src/crawler/storage.py] and
    [src/crawler/scraper.py].  Python values are modelled by an inductive
    type of scalars, dictionaries by association lists in insertion order,
    the MongoDB collections by lists of documents, and exceptions by a
    small state-and-error monad.  The network, the store's failures and
    the HTML parser are oracles gathered in an environment record. *)

From Stdlib Require Import ZArith List String Ascii Bool Lia Arith.
From Stdlib Require Import Permutation.
From Stdlib Require Import SpecFloat.
Import ListNotations.

Local Open Scope string_scope.
Local Open Scope Z_scope.

(* ================================================================== *)
(** * Text helpers *)
(* ================================================================== *)

Module Text.

Definition code (c : ascii) : Z := Z.of_N (N_of_ascii c).
Definition chr (z : Z) : ascii := ascii_of_N (Z.to_N (z mod 256)).

Fixpoint bytes_of (s : string) : list Z :=
  match s with
  | EmptyString => []
  | String c r => code c :: bytes_of r
  end.

Definition digit_char (d : Z) : ascii :=
  chr (if d <? 10 then 48 + d else 87 + d).

(** Digits of a non-negative number in base [b], most significant
    first.  [n] bounds the number of digits. *)
Fixpoint digits_fuel (n : nat) (b z : Z) (acc : string) : string :=
  match n with
  | O => acc
  | S n' =>
      let acc' := String (digit_char (z mod b)) acc in
      if z / b =? 0 then acc' else digits_fuel n' b (z / b) acc'
  end.

Definition nat_digits (b z : Z) : string :=
  digits_fuel (S (Z.to_nat (Z.log2 z))) b z "".

(** [str(z)] for a Python [int]. *)
Definition str_int (z : Z) : string :=
  if z <? 0 then "-" ++ nat_digits 10 (- z) else nat_digits 10 z.

Fixpoint repeat_char (c : ascii) (n : nat) : string :=
  match n with
  | O => ""
  | S n' => String c (repeat_char c n')
  end.

(** Left padding with zeros up to a width, as in [%0wx]. *)
Definition zfill (w : nat) (s : string) : string :=
  repeat_char "0"%char (w - String.length s) ++ s.

Definition hex (w : nat) (z : Z) : string := zfill w (nat_digits 16 z).

Fixpoint drop (n : nat) (s : string) : string :=
  match n, s with
  | O, _ => s
  | S n', String _ r => drop n' r
  | S _, EmptyString => ""
  end.

Fixpoint take (n : nat) (s : string) : string :=
  match n, s with
  | S n', String c r => String c (take n' r)
  | _, _ => ""
  end.

End Text.

(* ================================================================== *)
(** * hashlib.sha256 *)
(* ================================================================== *)

Module Sha256.

Definition w32 (x : Z) : Z := x mod 4294967296.
Definition add32 (x y : Z) : Z := w32 (x + y).
Definition rotr (n x : Z) : Z :=
  Z.lor (Z.shiftr x n) (w32 (Z.shiftl x (32 - n))).
Definition ch (x y z : Z) : Z :=
  Z.lxor (Z.land x y) (Z.land (Z.lxor x 4294967295) z).
Definition maj (x y z : Z) : Z :=
  Z.lxor (Z.lxor (Z.land x y) (Z.land x z)) (Z.land y z).
Definition bsig0 (x : Z) : Z :=
  Z.lxor (Z.lxor (rotr 2 x) (rotr 13 x)) (rotr 22 x).
Definition bsig1 (x : Z) : Z :=
  Z.lxor (Z.lxor (rotr 6 x) (rotr 11 x)) (rotr 25 x).
Definition ssig0 (x : Z) : Z :=
  Z.lxor (Z.lxor (rotr 7 x) (rotr 18 x)) (Z.shiftr x 3).
Definition ssig1 (x : Z) : Z :=
  Z.lxor (Z.lxor (rotr 17 x) (rotr 19 x)) (Z.shiftr x 10).

(** The first 32 bits of the fractional parts of the cube roots of the
    first 64 primes (FIPS 180-4, 4.2.2). *)
Definition round_constants : list Z :=
  [
    1116352408; 1899447441; 3049323471; 3921009573; 961987163;
    1508970993; 2453635748; 2870763221; 3624381080; 310598401;
    607225278; 1426881987; 1925078388; 2162078206; 2614888103;
    3248222580; 3835390401; 4022224774; 264347078; 604807628;
    770255983; 1249150122; 1555081692; 1996064986; 2554220882;
    2821834349; 2952996808; 3210313671; 3336571891; 3584528711;
    113926993; 338241895; 666307205; 773529912; 1294757372;
    1396182291; 1695183700; 1986661051; 2177026350; 2456956037;
    2730485921; 2820302411; 3259730800; 3345764771; 3516065817;
    3600352804; 4094571909; 275423344; 430227734; 506948616;
    659060556; 883997877; 958139571; 1322822218; 1537002063;
    1747873779; 1955562222; 2024104815; 2227730452; 2361852424;
    2428436474; 2756734187; 3204031479; 3329325298 ].

(** The same of the square roots of the first 8 primes (5.3.3). *)
Definition initial_state : list Z :=
  [
    1779033703; 3144134277; 1013904242; 2773480762;
    1359893119; 2600822924; 528734635; 1541459225 ].

(** Big-endian bytes of [z], [n] of them. *)
Fixpoint be_bytes (n : nat) (z : Z) : list Z :=
  match n with
  | O => []
  | S n' => (z / 256 ^ Z.of_nat n') mod 256 :: be_bytes n' z
  end.

Definition pad (msg : list Z) : list Z :=
  let len := Z.of_nat (List.length msg) in
  let zeros := Z.to_nat ((55 - len) mod 64) in
  msg ++ [128] ++ repeat 0 zeros ++ be_bytes 8 (8 * len).

Fixpoint words (n : nat) (bs : list Z) : list Z :=
  match n, bs with
  | S n', b0 :: b1 :: b2 :: b3 :: r =>
      (((b0 * 256 + b1) * 256 + b2) * 256 + b3) :: words n' r
  | _, _ => []
  end.

(** The message schedule, most recent word first. *)
Fixpoint schedule (n : nat) (rev_w : list Z) : list Z :=
  match n with
  | O => rev_w
  | S n' =>
      let w :=
        add32 (add32 (ssig1 (nth 1 rev_w 0)) (nth 6 rev_w 0))
              (add32 (ssig0 (nth 14 rev_w 0)) (nth 15 rev_w 0)) in
      schedule n' (w :: rev_w)
  end.

Record regs := Regs { ra : Z; rb : Z; rc : Z; rd : Z;
                      re : Z; rf : Z; rg : Z; rh : Z }.

Definition round (r : regs) (kw : Z * Z) : regs :=
  let t1 := add32 (add32 (add32 (rh r) (bsig1 (re r)))
                         (add32 (ch (re r) (rf r) (rg r)) (fst kw)))
                  (snd kw) in
  let t2 := add32 (bsig0 (ra r)) (maj (ra r) (rb r) (rc r)) in
  Regs (add32 t1 t2) (ra r) (rb r) (rc r) (add32 (rd r) t1) (re r) (rf r) (rg r).

Definition regs_of (h : list Z) : regs :=
  Regs (nth 0 h 0) (nth 1 h 0) (nth 2 h 0) (nth 3 h 0)
       (nth 4 h 0) (nth 5 h 0) (nth 6 h 0) (nth 7 h 0).

Definition compress (h : list Z) (block : list Z) : list Z :=
  let w := rev (schedule 48 (rev (words 16 block))) in
  let r0 := regs_of h in
  let r := fold_left round (combine round_constants w) r0 in
  [ add32 (ra r0) (ra r); add32 (rb r0) (rb r); add32 (rc r0) (rc r);
    add32 (rd r0) (rd r); add32 (re r0) (re r); add32 (rf r0) (rf r);
    add32 (rg r0) (rg r); add32 (rh r0) (rh r) ].

Fixpoint blocks (n : nat) (h : list Z) (bs : list Z) : list Z :=
  match n with
  | O => h
  | S n' =>
      match bs with
      | [] => h
      | _ => blocks n' (compress h (firstn 64 bs)) (skipn 64 bs)
      end
  end.

Definition digest (msg : list Z) : list Z :=
  let p := pad msg in
  blocks (List.length p) initial_state p.

(** [hashlib.sha256(data).hexdigest()] *)
Definition hexdigest (msg : list Z) : string :=
  String.concat "" (map (Text.hex 8) (digest msg)).

End Sha256.

(* ================================================================== *)
(** * Python values and dictionaries *)
(* ================================================================== *)

Module Py.

(** The scalars a book document or the crawl state holds.  A [str] is a
    sequence of code points below 256; a [float] is an IEEE binary64
    value; a [datetime] is a count of clock ticks. *)
Inductive value : Type :=
| VNone
| VBool (b : bool)
| VInt (z : Z)
| VFloat (f : spec_float)
| VStr (s : string)
| VDatetime (t : Z).

(** ** [==] *)

Definition float_eq_int (f : spec_float) (z : Z) : bool :=
  match f with
  | S754_zero _ => z =? 0
  | S754_finite s m e =>
      let sm := if s then Z.neg m else Z.pos m in
      if 0 <=? e then z =? sm * 2 ^ e else z * 2 ^ (- e) =? sm
  | _ => false
  end.

Definition int_of_bool (b : bool) : Z := if b then 1 else 0.

Definition py_eqb (a b : value) : bool :=
  match a, b with
  | VNone, VNone => true
  | VBool x, VBool y => Bool.eqb x y
  | VBool x, VInt y => int_of_bool x =? y
  | VInt x, VBool y => x =? int_of_bool y
  | VInt x, VInt y => x =? y
  | VBool x, VFloat y => float_eq_int y (int_of_bool x)
  | VFloat x, VBool y => float_eq_int x (int_of_bool y)
  | VInt x, VFloat y => float_eq_int y x
  | VFloat x, VInt y => float_eq_int x y
  | VFloat x, VFloat y => SFeqb x y
  | VStr x, VStr y => String.eqb x y
  | VDatetime x, VDatetime y => x =? y
  | _, _ => false
  end.

(** ** Truth value, as tested by [if v:] and [if not v:] *)

Definition truthy (v : value) : bool :=
  match v with
  | VNone => false
  | VBool b => b
  | VInt z => negb (z =? 0)
  | VFloat (S754_zero _) => false
  | VFloat _ => true
  | VStr s => negb (String.eqb s "")
  | VDatetime _ => true
  end.

Definition str_truthy (s : string) : bool := negb (String.eqb s "").

(** ** [dict], in insertion order *)

Definition dict : Type := list (string * value).

Fixpoint dict_lookup (k : string) (d : dict) : option value :=
  match d with
  | [] => None
  | (k', v) :: r => if String.eqb k k' then Some v else dict_lookup k r
  end.

(** [k in d] *)
Definition dict_mem (k : string) (d : dict) : bool :=
  match dict_lookup k d with Some _ => true | None => false end.

(** [d.get(k)] *)
Definition dict_get (k : string) (d : dict) : value :=
  match dict_lookup k d with Some v => v | None => VNone end.

(** [d[k] = v]: an existing key keeps its position, a new one goes last. *)
Fixpoint dict_set (k : string) (v : value) (d : dict) : dict :=
  match d with
  | [] => [(k, v)]
  | (k', v') :: r =>
      if String.eqb k k' then (k, v) :: r else (k', v') :: dict_set k v r
  end.

(** [{**d, **u}], also the effect of MongoDB's [$set] with [u] on [d]. *)
Definition dict_update (d u : dict) : dict :=
  fold_left (fun acc kv => dict_set (fst kv) (snd kv) acc) u d.

(** A dictionary literal, evaluated left to right. *)
Definition dict_of (kvs : list (string * value)) : dict := dict_update [] kvs.

End Py.

(* ================================================================== *)
(** * json.dumps *)
(* ================================================================== *)

Module Json.
Import Py.

(** ** [float.__repr__]: the shortest decimal string that reads back to
    the same binary64 value, in positional or exponent notation. *)

(** [10^k <= num/den] *)
Definition pow10_le (k num den : Z) : bool :=
  if 0 <=? k then 10 ^ k * den <=? num else den <=? num * 10 ^ (- k).

Definition bit_length (m : positive) : Z := Z.log2 (Z.pos m) + 1.

(** [floor (log10 (num/den))], from an estimate by the binary exponent. *)
Definition decimal_exponent (m : positive) (e num den : Z) : Z :=
  let kest := ((e + bit_length m - 1) * 30103) / 100000 in
  if pow10_le (kest + 1) num den then kest + 1
  else if pow10_le kest num den then kest
  else if pow10_le (kest - 1) num den then kest - 1
  else kest - 2.

(** The [n]-digit candidates around [m * 2^e]; [Some (d, k)] stands for
    [d * 10^k] when one of them reads back to the same float. *)
Definition candidate (m : positive) (e : Z) (k0 : Z) (n : Z) : option (Z * Z) :=
  let s := Z.min (e - 2) 0 in
  let V := Z.pos m * 2 ^ (e - s) in
  let D := 2 ^ (- s) in
  let UP := 2 ^ (e - 1 - s) in
  let LOW := if (Z.pos m =? 2 ^ 52) && (-1074 <? e)
             then 2 ^ (e - 2 - s) else 2 ^ (e - 1 - s) in
  let k := k0 - (n - 1) in
  let P := 10 ^ Z.max (- k) 0 in
  let Q := D * 10 ^ Z.max k 0 in
  let dlo := (V * P) / Q in
  let dhi := dlo + 1 in
  let inside d :=
    let c := d * Q in
    if Z.even (Z.pos m)
    then ((V - LOW) * P <=? c) && (c <=? (V + UP) * P)
    else ((V - LOW) * P <? c) && (c <? (V + UP) * P) in
  let il := inside dlo && (0 <? dlo) in
  let ih := inside dhi in
  if il && ih then
    let a := V * P - dlo * Q in
    let b := dhi * Q - V * P in
    Some (if a <? b then dlo else if b <? a then dhi
          else if Z.even dlo then dlo else dhi, k)
  else if il then Some (dlo, k)
  else if ih then Some (dhi, k)
  else None.

Fixpoint shortest_from (fuel : nat) (m : positive) (e k0 n : Z) : Z * Z :=
  match fuel with
  | O => (Z.pos m, 0)
  | S fuel' =>
      match candidate m e k0 n with
      | Some dk => dk
      | None => shortest_from fuel' m e k0 (n + 1)
      end
  end.

Definition shortest (m : positive) (e : Z) : Z * Z :=
  let s := Z.min (e - 2) 0 in
  let k0 := decimal_exponent m e (Z.pos m * 2 ^ (e - s)) (2 ^ (- s)) in
  shortest_from 17 m e k0 1.

(** [s.rstrip('0')] *)
Fixpoint rstrip0 (s : string) : string :=
  match s with
  | EmptyString => ""
  | String c r =>
      match rstrip0 r with
      | EmptyString => if Ascii.eqb c "0" then "" else String c ""
      | r' => String c r'
      end
  end.

Definition repr_finite (m : positive) (e : Z) : string :=
  let (d, k) := shortest m e in
  let ds0 := Text.str_int d in
  let decpt := Z.of_nat (String.length ds0) + k in
  let ds := rstrip0 ds0 in
  let n := Z.of_nat (String.length ds) in
  if (16 <? decpt) || (decpt <? -3) then
    let ex := decpt - 1 in
    Text.take 1 ds
    ++ (if 1 <? n then "." ++ Text.drop 1 ds else "")
    ++ "e" ++ (if ex <? 0 then "-" else "+")
    ++ Text.zfill 2 (Text.str_int (Z.abs ex))
  else if decpt <=? 0 then
    "0." ++ Text.repeat_char "0" (Z.to_nat (- decpt)) ++ ds
  else if n <=? decpt then
    ds ++ Text.repeat_char "0" (Z.to_nat (decpt - n)) ++ ".0"
  else
    Text.take (Z.to_nat decpt) ds ++ "." ++ Text.drop (Z.to_nat decpt) ds.

Definition sign_str (s : bool) : string := if s then "-" else "".

(** What [json.dumps] writes for a float ([allow_nan] is on by default). *)
Definition dumps_float (f : spec_float) : string :=
  match f with
  | S754_zero s => sign_str s ++ "0.0"
  | S754_infinity s => sign_str s ++ "Infinity"
  | S754_nan => "NaN"
  | S754_finite s m e => sign_str s ++ repr_finite m e
  end.

(** ** Strings, with [ensure_ascii] on *)

Definition dquote : string := String "034"%char "".

Definition escape_char (c : ascii) : string :=
  let n := Text.code c in
  if n =? 34 then "\" ++ dquote
  else if n =? 92 then "\\"
  else if n =? 10 then "\n"
  else if n =? 13 then "\r"
  else if n =? 9 then "\t"
  else if n =? 8 then "\b"
  else if n =? 12 then "\f"
  else if (32 <=? n) && (n <=? 126) then String c ""
  else "\u" ++ Text.hex 4 n.

Fixpoint escape (s : string) : string :=
  match s with
  | EmptyString => ""
  | String c r => escape_char c ++ escape r
  end.

Definition dumps_str (s : string) : string := dquote ++ escape s ++ dquote.

(** A scalar; [None] when [json.dumps] raises [TypeError]. *)
Definition dumps_value (v : value) : option string :=
  match v with
  | VNone => Some "null"
  | VBool b => Some (if b then "true" else "false")
  | VInt z => Some (Text.str_int z)
  | VFloat f => Some (dumps_float f)
  | VStr s => Some (dumps_str s)
  | VDatetime _ => None
  end.

(** ** Objects, with [sort_keys] on *)

Fixpoint str_leb (a b : string) : bool :=
  match a, b with
  | EmptyString, _ => true
  | String _ _, EmptyString => false
  | String x a', String y b' =>
      if Text.code x <? Text.code y then true
      else if Text.code y <? Text.code x then false
      else str_leb a' b'
  end.

Fixpoint insert_sorted (kv : string * value) (d : dict) : dict :=
  match d with
  | [] => [kv]
  | kv' :: r =>
      if str_leb (fst kv) (fst kv') then kv :: d else kv' :: insert_sorted kv r
  end.

Definition sort_items (d : dict) : dict := fold_right insert_sorted [] d.

Fixpoint dumps_items (d : dict) : option (list string) :=
  match d with
  | [] => Some []
  | (k, v) :: r =>
      match dumps_value v, dumps_items r with
      | Some sv, Some sr => Some ((dumps_str k ++ ": " ++ sv) :: sr)
      | _, _ => None
      end
  end.

(** [json.dumps(d, sort_keys=True)]; [None] stands for [TypeError]. *)
Definition dumps_sorted (d : dict) : option string :=
  match dumps_items (sort_items d) with
  | Some items => Some ("{" ++ String.concat ", " items ++ "}")
  | None => None
  end.

End Json.

(* ================================================================== *)
(** * The world the crawler runs in *)
(* ================================================================== *)

Import Py.

(** ** Exceptions *)

Inductive exn : Type :=
| HTTPStatusError (status_code : Z)   (* httpx.HTTPStatusError *)
| RequestError (msg : string)         (* httpx.RequestError, TimeoutException *)
| PyMongoError (msg : string)         (* a failed store operation *)
| OSError (msg : string)              (* a failed file operation *)
| KeyError (key : string)
| TypeError (msg : string)
| AttributeError (msg : string)
| ValueError (msg : string)
| OtherException (msg : string).

Definition squote : string := String "039"%char "".

(** [str(e)] *)
Definition str_exn (e : exn) : string :=
  match e with
  | HTTPStatusError c => "HTTP status " ++ Text.str_int c
  | KeyError k => squote ++ k ++ squote
  | RequestError m | PyMongoError m | OSError m | TypeError m
  | AttributeError m | ValueError m | OtherException m => m
  end.

(** Why a call does not return: the page loop ran out of fuel, or a task
    waits on a semaphore nobody will release. *)
Inductive stuck : Type := OutOfFuel | Deadlock.

Inductive result (A : Type) : Type :=
| Ok (a : A)
| Raise (e : exn)
| NoReturn (s : stuck).
Arguments Ok {A} a.
Arguments Raise {A} e.
Arguments NoReturn {A} s.

(** ** Persistent and transient state *)

(** A MongoDB document: its [_id] and its other fields. *)
Record document : Type := Document { doc_id : Z; doc_fields : dict }.

(** An entry of the [changes] collection (models/book.py, BookChange). *)
Record change_log : Type := ChangeLog {
  change_id : Z;
  book_id : string;
  book_name : value;
  change_type : string;
  changed_fields : list (string * (value * value));   (* field -> old, new *)
  timestamp : Z
}.

Inductive level : Type := DEBUG | INFO | WARNING | ERROR.

Record world : Type := World {
  books : list document;              (* collection books *)
  changes : list change_log;          (* collection changes *)
  crawler_state : option dict;        (* collection crawler_state *)
  html_files : list (string * string);(* snapshot directory: path, content *)
  next_oid : Z;                       (* ObjectId generator *)
  clock : Z;                          (* datetime.now *)
  io_count : nat;                     (* store and file operations so far *)
  http_count : nat;                   (* requests sent so far *)
  requests : list string;             (* URLs requested, oldest first *)
  sleeps : list Z;                    (* asyncio.sleep arguments, oldest first *)
  sem_value : Z;                      (* self.semaphore *)
  visited_urls : list string;         (* self.visited_urls *)
  log : list (level * string)         (* logger output, oldest first *)
}.

(** ** Collaborators *)

(** What [client.get] followed by [raise_for_status] does. *)
Inductive http_outcome : Type :=
| Response (text : string)            (* a success status, the body *)
| StatusError (status_code : Z)       (* raise_for_status raised *)
| TransportError (msg : string)       (* RequestError or TimeoutException *)
| Unexpected (msg : string).          (* any other Exception *)

(** utils/config.py, the crawler part of Settings. *)
Record settings : Type := Settings {
  crawler_max_retries : Z;
  crawler_retry_delay : Z;
  crawler_concurrent_requests : Z;
  crawler_request_timeout : Z;
  html_snapshot_dir : string
}.

Definition default_settings : settings := Settings 3 2 10 30 "html_snapshots".

Record env : Type := Env {
  cfg : settings;
  (** the outcome of the [n]-th request of the run, sent to a URL *)
  http : nat -> string -> http_outcome;
  (** whether the [n]-th store or file operation raises *)
  io_fault : nat -> bool;
  (** crawler/parser.py, BookParser: total functions of the page *)
  parse_book_page : string -> string -> option dict;
  extract_book_links : string -> string -> list string;
  get_next_page_url : string -> string -> option string;
  (** hashlib.md5(...).hexdigest() and strftime on the clock *)
  md5_hexdigest : string -> string;
  strftime : Z -> string
}.

(** ** The monad of effects *)

Definition M (A : Type) : Type := world -> result A * world.

Definition ret {A} (a : A) : M A := fun w => (Ok a, w).

Definition bind {A B} (m : M A) (k : A -> M B) : M B :=
  fun w =>
    match m w with
    | (Ok a, w') => k a w'
    | (Raise e, w') => (Raise e, w')
    | (NoReturn s, w') => (NoReturn s, w')
    end.

Definition raise {A} (e : exn) : M A := fun w => (Raise e, w).
Definition no_return {A} (s : stuck) : M A := fun w => (NoReturn s, w).

(** [try: m except Exception as e: h e] *)
Definition try_except {A} (m : M A) (h : exn -> M A) : M A :=
  fun w =>
    match m w with
    | (Raise e, w') => h e w'
    | r => r
    end.

Notation "x <- m ;; k" := (bind m (fun x => k))
  (at level 61, m at next level, right associativity).
Notation "m ;;; k" := (bind m (fun _ => k))
  (at level 61, right associativity).

Definition set_books (f : list document -> list document) (w : world) : world :=
  World (f (books w)) (changes w) (crawler_state w) (html_files w) (next_oid w)
        (clock w) (io_count w) (http_count w) (requests w) (sleeps w)
        (sem_value w) (visited_urls w) (log w).
Definition set_changes (f : list change_log -> list change_log) (w : world) : world :=
  World (books w) (f (changes w)) (crawler_state w) (html_files w) (next_oid w)
        (clock w) (io_count w) (http_count w) (requests w) (sleeps w)
        (sem_value w) (visited_urls w) (log w).
Definition set_crawler_state (f : option dict -> option dict) (w : world) : world :=
  World (books w) (changes w) (f (crawler_state w)) (html_files w) (next_oid w)
        (clock w) (io_count w) (http_count w) (requests w) (sleeps w)
        (sem_value w) (visited_urls w) (log w).
Definition set_html_files (f : list (string * string) -> list (string * string))
    (w : world) : world :=
  World (books w) (changes w) (crawler_state w) (f (html_files w)) (next_oid w)
        (clock w) (io_count w) (http_count w) (requests w) (sleeps w)
        (sem_value w) (visited_urls w) (log w).
Definition set_next_oid (f : Z -> Z) (w : world) : world :=
  World (books w) (changes w) (crawler_state w) (html_files w) (f (next_oid w))
        (clock w) (io_count w) (http_count w) (requests w) (sleeps w)
        (sem_value w) (visited_urls w) (log w).
Definition set_clock (f : Z -> Z) (w : world) : world :=
  World (books w) (changes w) (crawler_state w) (html_files w) (next_oid w)
        (f (clock w)) (io_count w) (http_count w) (requests w) (sleeps w)
        (sem_value w) (visited_urls w) (log w).
Definition set_io_count (f : nat -> nat) (w : world) : world :=
  World (books w) (changes w) (crawler_state w) (html_files w) (next_oid w)
        (clock w) (f (io_count w)) (http_count w) (requests w) (sleeps w)
        (sem_value w) (visited_urls w) (log w).
Definition set_http (f : nat -> nat) (g : list string -> list string)
    (w : world) : world :=
  World (books w) (changes w) (crawler_state w) (html_files w) (next_oid w)
        (clock w) (io_count w) (f (http_count w)) (g (requests w)) (sleeps w)
        (sem_value w) (visited_urls w) (log w).
Definition set_sleeps (f : list Z -> list Z) (w : world) : world :=
  World (books w) (changes w) (crawler_state w) (html_files w) (next_oid w)
        (clock w) (io_count w) (http_count w) (requests w) (f (sleeps w))
        (sem_value w) (visited_urls w) (log w).
Definition set_sem_value (f : Z -> Z) (w : world) : world :=
  World (books w) (changes w) (crawler_state w) (html_files w) (next_oid w)
        (clock w) (io_count w) (http_count w) (requests w) (sleeps w)
        (f (sem_value w)) (visited_urls w) (log w).
Definition set_visited_urls (f : list string -> list string) (w : world) : world :=
  World (books w) (changes w) (crawler_state w) (html_files w) (next_oid w)
        (clock w) (io_count w) (http_count w) (requests w) (sleeps w)
        (sem_value w) (f (visited_urls w)) (log w).
Definition set_log (f : list (level * string) -> list (level * string))
    (w : world) : world :=
  World (books w) (changes w) (crawler_state w) (html_files w) (next_oid w)
        (clock w) (io_count w) (http_count w) (requests w) (sleeps w)
        (sem_value w) (visited_urls w) (f (log w)).

(** ** Primitive effects *)

Definition get_world : M world := fun w => (Ok w, w).
Definition modify (f : world -> world) : M unit := fun w => (Ok tt, f w).

(** [logger.debug], [logger.info], [logger.warning], [logger.error] *)
Definition logger (l : level) (msg : string) : M unit :=
  modify (set_log (fun lg => (lg ++ [(l, msg)])%list)).

(** [datetime.now(timezone.utc)]: the clock advances at each reading. *)
Definition datetime_now : M Z :=
  fun w => (Ok (clock w), set_clock Z.succ w).

(** One store or file operation: it raises [e] when the oracle says so. *)
Definition io_op (E : env) (e : exn) : M unit :=
  fun w =>
    let w' := set_io_count S w in
    if io_fault E (io_count w) then (Raise e, w') else (Ok tt, w').

(** A fresh [ObjectId]. *)
Definition new_oid : M Z :=
  fun w => (Ok (next_oid w), set_next_oid Z.succ w).

(** [str(ObjectId)]: 24 hexadecimal digits. *)
Definition str_oid (i : Z) : string := Text.hex 24 i.

(** [asyncio.sleep(d)] *)
Definition asyncio_sleep (d : Z) : M unit :=
  modify (set_sleeps (fun l => (l ++ [d])%list)).

(** [async with self.semaphore]: entering takes a permit, or waits. *)
Definition semaphore_acquire : M unit :=
  fun w =>
    if 0 <? sem_value w then (Ok tt, set_sem_value Z.pred w)
    else (NoReturn Deadlock, w).
Definition semaphore_release : M unit := modify (set_sem_value Z.succ).

(** [client.get(url, ...)] then [response.raise_for_status()] *)
Definition client_get (E : env) (url : string) : M http_outcome :=
  fun w =>
    (Ok (http E (http_count w) url), set_http S (fun l => (l ++ [url])%list) w).

(** [str(v)], as an f-string formats a value. *)
Definition py_str (v : value) : string :=
  match v with
  | VNone => "None"
  | VBool b => if b then "True" else "False"
  | VInt z => Text.str_int z
  | VFloat (S754_infinity s) => Json.sign_str s ++ "inf"
  | VFloat S754_nan => "nan"
  | VFloat f => Json.dumps_float f
  | VStr s => s
  | VDatetime t => "datetime(" ++ Text.str_int t ++ ")"
  end.

(** [d[k]]: [KeyError] when the key is missing. *)
Definition getitem (d : dict) (k : string) : M value :=
  match dict_lookup k d with
  | Some v => ret v
  | None => raise (KeyError k)
  end.

(* ================================================================== *)
(** * crawler/storage.py: BookStorage *)
(* ================================================================== *)

(** ** The collections, as pymongo drives them *)

Definition store_error : exn := PyMongoError "store operation failed".
Definition file_error : exn := OSError "file operation failed".

Definition has_source_url (url : value) (d : document) : bool :=
  py_eqb (dict_get "source_url" (doc_fields d)) url.

(** [collection.find_one({'source_url': url})] on [books] *)
Definition books_find_one (E : env) (url : value) : M (option document) :=
  io_op E store_error ;;;
  w <- get_world ;;
  ret (find (has_source_url url) (books w)).

(** [collection.insert_one(doc)] on [books]; the index on [source_url]
    is unique.  Returns [result.inserted_id]. *)
Definition books_insert_one (E : env) (fields : dict) : M Z :=
  io_op E store_error ;;;
  w <- get_world ;;
  if existsb (has_source_url (dict_get "source_url" fields)) (books w)
  then raise (PyMongoError "duplicate key")
  else
    i <- new_oid ;;
    modify (set_books (fun b => (b ++ [Document i fields])%list)) ;;;
    ret i.

Fixpoint set_fields_of (i : Z) (u : dict) (b : list document) : list document :=
  match b with
  | [] => []
  | d :: r =>
      if doc_id d =? i
      then Document (doc_id d) (dict_update (doc_fields d) u) :: r
      else d :: set_fields_of i u r
  end.

(** [collection.update_one({'_id': i}, {'$set': u})] on [books] *)
Definition books_update_one (E : env) (i : Z) (u : dict) : M unit :=
  io_op E store_error ;;;
  modify (set_books (set_fields_of i u)).

(** [changes_collection.insert_one(change_log)] *)
Definition changes_insert_one (E : env)
    (bid : string) (name : value) (ty : string)
    (fields : list (string * (value * value))) (ts : Z) : M unit :=
  io_op E store_error ;;;
  i <- new_oid ;;
  modify (set_changes (fun c => (c ++ [ChangeLog i bid name ty fields ts])%list)).

(** [state_collection.find_one({})] *)
Definition state_find_one (E : env) : M (option dict) :=
  io_op E store_error ;;;
  w <- get_world ;;
  ret (crawler_state w).

(** [state_collection.update_one({}, {'$set': u}, upsert=True)] *)
Definition state_update_one (E : env) (u : dict) : M unit :=
  io_op E store_error ;;;
  modify (set_crawler_state (fun s =>
    match s with
    | Some d => Some (dict_update d u)
    | None => Some (dict_of u)
    end)).

(** ** save_html_snapshot *)

Definition save_html_snapshot (E : env) (html : string) (book_url : value)
    : M string :=
  try_except
    (match book_url with
     | VStr url =>
         let url_hash := md5_hexdigest E url in
         t <- datetime_now ;;
         let filename := "book_" ++ url_hash ++ "_" ++ strftime E t ++ ".html" in
         let filepath := html_snapshot_dir (cfg E) ++ "/" ++ filename in
         io_op E file_error ;;;
         modify (set_html_files (fun fs => (fs ++ [(filepath, html)])%list)) ;;;
         logger DEBUG ("Saved HTML snapshot: " ++ filepath) ;;;
         ret filepath
     | _ => raise (AttributeError "object has no attribute encode")
     end)
    (fun e =>
       logger ERROR ("Error saving HTML snapshot for " ++ py_str book_url
                     ++ ": " ++ str_exn e) ;;;
       ret "").

(** ** compute_content_hash *)

Definition relevant_fields : list string :=
  [ "name"; "description"; "category";
    "price_including_tax"; "price_excluding_tax";
    "availability"; "number_of_reviews"; "rating" ].

(** [{k: book_data.get(k) for k in relevant_fields if k in book_data}] *)
Definition content_dict (book_data : dict) : dict :=
  dict_of (map (fun k => (k, dict_get k book_data))
               (filter (fun k => dict_mem k book_data) relevant_fields)).

Definition compute_content_hash (book_data : dict) : result string :=
  match Json.dumps_sorted (content_dict book_data) with
  | Some content_str => Ok (Sha256.hexdigest (Text.bytes_of content_str))
  | None => Raise (TypeError "Object is not JSON serializable")
  end.

Definition lift {A} (r : result A) : M A := fun w => (r, w).

(** ** _log_changes and _log_new_book *)

Definition tracked_fields : list string :=
  [ "price_including_tax"; "price_excluding_tax";
    "availability"; "number_of_reviews"; "rating"; "description" ].

(** The loop over [tracked_fields] that fills [changed_fields]. *)
Fixpoint diff_fields (fields : list string) (old_book new_data : dict)
    : list (string * (value * value)) :=
  match fields with
  | [] => []
  | field :: r =>
      let old_value := dict_get field old_book in
      let new_value := dict_get field new_data in
      if negb (py_eqb old_value new_value)
      then (field, (old_value, new_value)) :: diff_fields r old_book new_data
      else diff_fields r old_book new_data
  end.

Definition is_empty {A} (l : list A) : bool :=
  match l with [] => true | _ => false end.

Definition _log_changes (E : env) (old_book : document) (new_data : dict)
    (new_hash : string) : M unit :=
  try_except
    (let changed := diff_fields tracked_fields (doc_fields old_book) new_data in
     if negb (is_empty changed) then
       name <- getitem new_data "name" ;;
       t <- datetime_now ;;
       changes_insert_one E (str_oid (doc_id old_book)) name "updated" changed t ;;;
       logger INFO ("Logged changes for book: " ++ py_str name)
     else ret tt)
    (fun e => logger ERROR ("Error logging changes: " ++ str_exn e)).

Definition _log_new_book (E : env) (bid : string) (book_data : dict) : M unit :=
  try_except
    (name <- getitem book_data "name" ;;
     t <- datetime_now ;;
     changes_insert_one E bid name "new" [] t ;;;
     logger INFO ("Logged new book: " ++ py_str name))
    (fun e => logger ERROR ("Error logging new book: " ++ str_exn e)).

(** ** save_book *)

Definition save_book (E : env) (book_data : dict) (html : string)
    : M (option string) :=
  try_except
    (source_url <- getitem book_data "source_url" ;;
     html_path <- save_html_snapshot E html source_url ;;
     content_hash <- lift (compute_content_hash book_data) ;;
     existing_book <- books_find_one E source_url ;;
     match existing_book with
     | Some existing =>
         if negb (py_eqb (dict_get "content_hash" (doc_fields existing))
                         (VStr content_hash))
         then
           _log_changes E existing book_data content_hash ;;;
           t <- datetime_now ;;
           let update_data :=
             dict_update book_data
               [ ("content_hash", VStr content_hash);
                 ("last_updated", VDatetime t);
                 ("html_snapshot_path", VStr html_path) ] in
           books_update_one E (doc_id existing) update_data ;;;
           name <- getitem book_data "name" ;;
           logger INFO ("Updated book: " ++ py_str name) ;;;
           ret (Some (str_oid (doc_id existing)))
         else
           name <- getitem book_data "name" ;;
           logger DEBUG ("No changes detected for: " ++ py_str name) ;;;
           ret (Some (str_oid (doc_id existing)))
     | None =>
         t1 <- datetime_now ;;
         t2 <- datetime_now ;;
         let book_in_db :=
           dict_update book_data
             [ ("crawl_timestamp", VDatetime t1);
               ("last_updated", VDatetime t2);
               ("status", VStr "active");
               ("content_hash", VStr content_hash);
               ("html_snapshot_path", VStr html_path) ] in
         inserted_id <- books_insert_one E book_in_db ;;
         _log_new_book E (str_oid inserted_id) book_data ;;;
         name <- getitem book_data "name" ;;
         logger INFO ("Inserted new book: " ++ py_str name) ;;;
         ret (Some (str_oid inserted_id))
     end)
    (fun e =>
       let name := match dict_lookup "name" book_data with
                   | Some v => py_str v
                   | None => "Unknown"
                   end in
       logger ERROR ("Error saving book " ++ name ++ ": " ++ str_exn e) ;;;
       ret None).

(** ** get_crawl_state and update_crawl_state *)

Definition default_crawl_state : dict :=
  dict_of [ ("last_successful_url", VNone);
            ("last_crawl_time", VNone);
            ("total_books_crawled", VInt 0);
            ("status", VStr "idle");
            ("error_message", VNone) ].

Definition get_crawl_state (E : env) : M dict :=
  try_except
    (state <- state_find_one E ;;
     ret (match state with
          | Some d => d
          | None => default_crawl_state
          end))
    (fun e =>
       logger ERROR ("Error getting crawl state: " ++ str_exn e) ;;;
       ret []).

Definition update_crawl_state (E : env) (state_data : dict) : M unit :=
  try_except
    (state_update_one E state_data ;;;
     logger DEBUG "Updated crawl state")
    (fun e => logger ERROR ("Error updating crawl state: " ++ str_exn e)).

(* ================================================================== *)
(** * crawler/scraper.py: BookScraper *)
(* ================================================================== *)

Definition base_url : string := "https://books.toscrape.com/".

Definition attempt_of (attempt max_retries : Z) : string :=
  "(attempt " ++ Text.str_int (attempt + 1) ++ "/"
  ++ Text.str_int (max_retries + 1) ++ ")".

(** ** fetch_with_retry

    The body of [for attempt in range(max_retries + 1)], with [n] the
    number of iterations left. *)
Fixpoint fetch_attempts (E : env) (n : nat) (attempt max_retries : Z)
    (url : string) : M (option string) :=
  match n with
  | O => ret None
  | S n' =>
      semaphore_acquire ;;;
      outcome <- client_get E url ;;
      match outcome with
      | Response text =>
          logger DEBUG ("Successfully fetched: " ++ url) ;;;
          semaphore_release ;;;
          ret (Some text)
      | StatusError status_code =>
          semaphore_release ;;;
          logger WARNING ("HTTP error " ++ Text.str_int status_code ++ " for "
                          ++ url ++ " " ++ attempt_of attempt max_retries) ;;;
          if status_code =? 404 then ret None
          else if attempt <? max_retries then
            asyncio_sleep (crawler_retry_delay (cfg E) * (attempt + 1)) ;;;
            fetch_attempts E n' (attempt + 1) max_retries url
          else
            logger ERROR ("Failed to fetch " ++ url ++ " after "
                          ++ Text.str_int (max_retries + 1) ++ " attempts") ;;;
            ret None
      | TransportError msg =>
          semaphore_release ;;;
          logger WARNING ("Request error for " ++ url ++ ": " ++ msg ++ " "
                          ++ attempt_of attempt max_retries) ;;;
          if attempt <? max_retries then
            asyncio_sleep (crawler_retry_delay (cfg E) * (attempt + 1)) ;;;
            fetch_attempts E n' (attempt + 1) max_retries url
          else
            logger ERROR ("Failed to fetch " ++ url ++ " after "
                          ++ Text.str_int (max_retries + 1) ++ " attempts: "
                          ++ msg) ;;;
            ret None
      | Unexpected msg =>
          semaphore_release ;;;
          logger ERROR ("Unexpected error fetching " ++ url ++ ": " ++ msg) ;;;
          ret None
      end
  end.

Definition fetch_with_retry (E : env) (url : string) (max_retries : option Z)
    : M (option string) :=
  let max_retries :=
    match max_retries with
    | Some n => n
    | None => crawler_max_retries (cfg E)
    end in
  fetch_attempts E (Z.to_nat (max_retries + 1)) 0 max_retries url.

(** ** scrape_book *)

Definition mem (x : string) (l : list string) : bool := existsb (String.eqb x) l.

(** [self.visited_urls.add(url)] *)
Definition visited_add (url : string) : M unit :=
  modify (set_visited_urls (fun v => if mem url v then v else (v ++ [url])%list)).

Definition opt_str_truthy (o : option string) : bool :=
  match o with Some s => str_truthy s | None => false end.

(** The coroutine, from the outcome [visited] of its membership test
    [url in self.visited_urls] on. *)
Definition scrape_book_task (E : env) (visited : bool) (url : string) : M bool :=
  try_except
    (if visited then ret true
     else
       html <- fetch_with_retry E url None ;;
       match html with
       | Some html =>
           if str_truthy html then
             match parse_book_page E html url with
             | Some ((_ :: _) as book_data) =>
                 book_id <- save_book E book_data html ;;
                 if opt_str_truthy book_id then
                   visited_add url ;;;
                   ret true
                 else ret false
             | _ =>
                 logger WARNING ("Failed to parse book data from " ++ url) ;;;
                 ret false
             end
           else ret false
       | None => ret false
       end)
    (fun e =>
       logger ERROR ("Error scraping book " ++ url ++ ": " ++ str_exn e) ;;;
       ret false).

Definition scrape_book (E : env) (url : string) : M bool :=
  w <- get_world ;;
  scrape_book_task E (mem url (visited_urls w)) url.

(** ** scrape_catalog_page *)

(** What the function returns: the bare [[]] of line 137, or a pair. *)
Inductive catalog_result : Type :=
| EmptyList
| LinksAndNext (book_links : list string) (next_page_url : option string).

Definition scrape_catalog_page (E : env) (url : string) : M catalog_result :=
  try_except
    (html <- fetch_with_retry E url None ;;
     match html with
     | Some html =>
         if str_truthy html then
           let book_links := extract_book_links E html url in
           let next_page_url := get_next_page_url E html url in
           ret (LinksAndNext book_links next_page_url)
         else ret EmptyList
     | None => ret EmptyList
     end)
    (fun e =>
       logger ERROR ("Error scraping catalog page " ++ url ++ ": " ++ str_exn e) ;;;
       ret (LinksAndNext [] None)).

(** [book_links, next_page_url = ...]: unpacking the empty list raises. *)
Definition unpack_pair (r : catalog_result)
    : M (list string * option string) :=
  match r with
  | LinksAndNext l n => ret (l, n)
  | EmptyList =>
      raise (ValueError "not enough values to unpack (expected 2, got 0)")
  end.

(** ** crawl_all_books *)

Fixpoint mapM {A B} (f : A -> M B) (l : list A) : M (list B) :=
  match l with
  | [] => ret []
  | x :: r => y <- f x ;; ys <- mapM f r ;; ret (y :: ys)
  end.

(** [asyncio.gather] over the [scrape_book] coroutines of one page.  Every
    task runs up to its first request when the batch starts, so each
    membership test reads the visited set of that moment; the tasks are
    then completed in list order. *)
Definition gather_scrape_book (E : env) (book_links : list string)
    : M (list bool) :=
  w <- get_world ;;
  mapM (fun url => scrape_book_task E (mem url (visited_urls w)) url) book_links.

(** [sum(1 for r in results if r is True)] *)
Definition count_true (results : list bool) : Z :=
  Z.of_nat (List.length (filter (fun r => r) results)).

(** How one pass through the body of [while current_page_url:] ends. *)
Inductive loop_signal : Type :=
| Break
| NextPage (next_page_url : option string) (total_books : Z).

(** The body of the loop, lines 184-212. *)
Definition crawl_page (E : env) (url : string) (total_books : Z)
    : M loop_signal :=
  logger INFO ("Processing catalog page: " ++ url) ;;;
  r <- scrape_catalog_page E url ;;
  p <- unpack_pair r ;;
  let book_links := fst p in
  let next_page_url := snd p in
  if is_empty book_links then
    logger WARNING ("No book links found on " ++ url) ;;;
    ret Break
  else
    results <- gather_scrape_book E book_links ;;
    let successes := count_true results in
    let total_books := total_books + successes in
    logger INFO ("Scraped " ++ Text.str_int successes ++ "/"
                 ++ Text.str_int (Z.of_nat (List.length book_links))
                 ++ " books from page") ;;;
    t <- datetime_now ;;
    update_crawl_state E
      [ ("last_successful_url", VStr url);
        ("last_crawl_time", VDatetime t);
        ("total_books_crawled", VInt total_books);
        ("status", VStr "running") ] ;;;
    ret (NextPage next_page_url total_books).

(** The loop [while current_page_url:]; [fuel] bounds the pages. *)
Fixpoint crawl_pages (E : env) (fuel : nat) (current_page_url : option string)
    (total_books : Z) : M Z :=
  if opt_str_truthy current_page_url then
    match fuel, current_page_url with
    | S fuel', Some url =>
        s <- crawl_page E url total_books ;;
        match s with
        | Break => ret total_books
        | NextPage next_page_url total_books' =>
            crawl_pages E fuel' next_page_url total_books'
        end
    | _, _ => no_return OutOfFuel
    end
  else ret total_books.

Definition first_page : string := base_url ++ "catalogue/page-1.html".

(** Lines 168-175: where the traversal starts.  The stored cursor is an
    [Optional[str]] (models/book.py, CrawlState). *)
Definition start_url (E : env) (resume : bool) : M string :=
  if resume then
    state <- get_crawl_state E ;;
    match dict_get "last_successful_url" state with
    | VStr url =>
        if str_truthy url then
          logger INFO ("Resuming from: " ++ url) ;;;
          ret url
        else ret first_page
    | _ => ret first_page
    end
  else ret first_page.

(** Lines 160-175: the state is set to running, the start is chosen. *)
Definition begin_crawl (E : env) (resume : bool) : M string :=
  update_crawl_state E
    [ ("status", VStr "running"); ("error_message", VNone) ] ;;;
  logger INFO "Starting book crawl..." ;;;
  start_url E resume.

Definition crawl_all_books (E : env) (fuel : nat) (resume : bool) : M unit :=
  try_except
    (url <- begin_crawl E resume ;;
     total_books <- crawl_pages E fuel (Some url) 0 ;;
     t <- datetime_now ;;
     update_crawl_state E
       [ ("status", VStr "completed");
         ("last_crawl_time", VDatetime t);
         ("total_books_crawled", VInt total_books);
         ("error_message", VNone) ] ;;;
     logger INFO ("Crawl completed! Total books processed: "
                  ++ Text.str_int total_books))
    (fun e =>
       logger ERROR ("Crawl failed: " ++ str_exn e) ;;;
       update_crawl_state E
         [ ("status", VStr "failed"); ("error_message", VStr (str_exn e)) ] ;;;
       raise e).

Definition crawl_for_changes (E : env) (fuel : nat) : M unit :=
  logger INFO "Starting change detection crawl..." ;;;
  crawl_all_books E fuel false ;;;
  logger INFO "Change detection crawl completed".

(** An [ObjectId] no document of the store carries. *)
Definition fresh_oid (b : list document) (c : list change_log) : Z :=
  1 + fold_right Z.max 0 (map doc_id b ++ map change_id c).

(** A fresh [BookScraper] over a store: nothing visited, nothing sent,
    the semaphore at [crawler_concurrent_requests]. *)
Definition new_scraper (E : env) (b : list document) (c : list change_log)
    (s : option dict) : world :=
  World b c s [] (fresh_oid b c) 0 0 0 [] []
        (crawler_concurrent_requests (cfg E)) [] [].

(* ================================================================== *)
(** * The fetches of a run under asyncio *)
(* ================================================================== *)

(** The coroutines of a page run interleaved; a coroutine is suspended
    only where [fetch_with_retry] awaits: entering the semaphore, the
    request, and the sleep before a retry.  [Pool] follows the tasks of a
    run through these points. *)

Module Pool.

Inductive task : Type :=
| Acquiring (attempt : Z)          (* at [async with self.semaphore] *)
| InFlight (attempt : Z)           (* inside it, awaiting [client.get] *)
| Sleeping (attempt : Z)           (* in [asyncio.sleep] before a retry *)
| Returned (r : option string).    (* [fetch_with_retry] has returned *)

Record state : Type := State {
  permits : Z;                     (* the value of [self.semaphore] *)
  tasks : list task
}.

Inductive event : Type :=
| Gather (n : nat)                 (* a page starts [n] fetches *)
| Acquire (i : nat)                (* task [i] enters the semaphore *)
| Respond (i : nat) (o : http_outcome)   (* its request ends, it leaves *)
| Wake (i : nat).                  (* its sleep ends *)

(** Where [fetch_with_retry] starts: [range(max_retries + 1)] may be empty. *)
Definition start (max_retries : Z) : task :=
  if 0 <? max_retries + 1 then Acquiring 0 else Returned None.

(** What the [except] clauses make of an outcome at a given attempt. *)
Definition after_response (max_retries attempt : Z) (o : http_outcome) : task :=
  match o with
  | Response text => Returned (Some text)
  | StatusError status_code =>
      if status_code =? 404 then Returned None
      else if attempt <? max_retries then Sleeping attempt else Returned None
  | TransportError _ =>
      if attempt <? max_retries then Sleeping attempt else Returned None
  | Unexpected _ => Returned None
  end.

Definition is_returned (t : task) : bool :=
  match t with Returned _ => true | _ => false end.

Definition is_in_flight (t : task) : bool :=
  match t with InFlight _ => true | _ => false end.

Fixpoint update {A} (i : nat) (x : A) (l : list A) : list A :=
  match l, i with
  | [], _ => []
  | _ :: r, O => x :: r
  | y :: r, S i' => y :: update i' x r
  end.

Definition step (max_retries : Z) (s : state) (ev : event) : option state :=
  match ev with
  | Gather n =>
      if forallb is_returned (tasks s)
      then Some (State (permits s) (repeat (start max_retries) n))
      else None
  | Acquire i =>
      match nth_error (tasks s) i with
      | Some (Acquiring a) =>
          if 0 <? permits s
          then Some (State (permits s - 1) (update i (InFlight a) (tasks s)))
          else None
      | _ => None
      end
  | Respond i o =>
      match nth_error (tasks s) i with
      | Some (InFlight a) =>
          Some (State (permits s + 1)
                      (update i (after_response max_retries a o) (tasks s)))
      | _ => None
      end
  | Wake i =>
      match nth_error (tasks s) i with
      | Some (Sleeping a) =>
          Some (State (permits s) (update i (Acquiring (a + 1)) (tasks s)))
      | _ => None
      end
  end.

Fixpoint run (max_retries : Z) (s : state) (evs : list event) : option state :=
  match evs with
  | [] => Some s
  | ev :: r =>
      match step max_retries s ev with
      | Some s' => run max_retries s' r
      | None => None
      end
  end.

(** A new scraper: the semaphore at the configured limit, no task yet. *)
Definition init (K : Z) : state := State K [].

(** The number of requests in flight. *)
Definition in_flight (s : state) : Z :=
  Z.of_nat (List.length (filter is_in_flight (tasks s))).

(** What a task adds to the count of requests in flight. *)
Definition weight (t : task) : Z := if is_in_flight t then 1 else 0.

Definition flying (l : list task) : Z :=
  Z.of_nat (List.length (filter is_in_flight l)).

(** The semaphore counts the requests in flight. *)
Definition balanced (K : Z) (s : state) : Prop :=
  in_flight s + permits s = K /\ 0 <= permits s.

(** The first [n] tasks enter the semaphore, in order. *)
Definition acquire_all (n : nat) : list event := map Acquire (seq 0 n).

End Pool.

(* ================================================================== *)
(** * Vocabulary of the statements *)
(* ================================================================== *)

(** A failure [fetch_with_retry] retries: any error status but 404, a
    network error or a timeout. *)
Definition transient (o : http_outcome) : bool :=
  match o with
  | StatusError status_code => negb (status_code =? 404)
  | TransportError _ => true
  | _ => false
  end.

(** What a fetch returns when its last request ended with [o]. *)
Definition body_of (o : http_outcome) : option string :=
  match o with
  | Response text => Some text
  | _ => None
  end.

(** The delays [d * 1, d * 2, ..., d * k]. *)
Definition linear_delays (d : Z) (k : nat) : list Z :=
  map (fun i => d * Z.of_nat (S i)) (seq 0 k).

(** A store and a file system that never fail. *)
Definition reliable (E : env) : Prop := forall n, io_fault E n = false.

(** The [status] field of the stored crawl state. *)
Definition stored_status (w : world) : value :=
  match crawler_state w with
  | Some d => dict_get "status" d
  | None => VNone
  end.

(** The stored cursor. *)
Definition stored_cursor (w : world) : value :=
  match crawler_state w with
  | Some d => dict_get "last_successful_url" d
  | None => VNone
  end.

(** The invariant of a change event (spec, data model). *)
Definition event_ok (c : change_log) : Prop :=
  (change_type c = "new" -> changed_fields c = []) /\
  (change_type c = "updated" ->
     changed_fields c <> [] /\
     forall f, In f (map fst (changed_fields c)) -> In f relevant_fields) /\
  (change_type c = "new" \/ change_type c = "updated").

(** [l'] extends [l] by entries that all satisfy [P]. *)
Definition extends_by {A} (P : A -> Prop) (l l' : list A) : Prop :=
  exists added, l' = (l ++ added)%list /\ Forall P added.

Definition count_type (ty : string) (l : list change_log) : nat :=
  List.length (filter (fun c => String.eqb (change_type c) ty) l).

(** The loop, started on [cur] with [total] books so far, comes to run its
    body on the page [url] from the state [(total', w')]. *)
Inductive visits (E : env)
    : nat -> option string -> Z -> world -> string -> Z -> world -> Prop :=
| visits_here fuel url total w :
    str_truthy url = true ->
    visits E (S fuel) (Some url) total w url total w
| visits_later fuel u total w nxt total1 w1 url total' w' :
    str_truthy u = true ->
    crawl_page E u total w = (Ok (NextPage nxt total1), w1) ->
    visits E fuel nxt total1 w1 url total' w' ->
    visits E (S fuel) (Some u) total w url total' w'.

(** An error of the store or of the file system. *)
Definition is_store_error (e : exn) : bool :=
  match e with
  | PyMongoError _ | OSError _ => true
  | _ => false
  end.

(** The outcomes of the requests sent between two states. *)
Definition outcomes_seen (E : env) (url : string) (w w' : world)
    : list http_outcome :=
  map (fun n => http E n url)
      (seq (http_count w) (http_count w' - http_count w)).

(** The retry bound in force: the argument, or the configured one. *)
Definition resolve (E : env) (max_retries : option Z) : Z :=
  match max_retries with
  | Some n => n
  | None => crawler_max_retries (cfg E)
  end.

(** What a fetch leaves alone. *)
Definition same_store (w w' : world) : Prop :=
  books w' = books w /\ changes w' = changes w /\
  crawler_state w' = crawler_state w /\ io_count w' = io_count w /\
  visited_urls w' = visited_urls w /\ html_files w' = html_files w /\
  next_oid w' = next_oid w /\ clock w' = clock w.

(** What [changes_insert_one] may be given. *)
Definition event_args_ok (ty : string)
    (fields : list (string * (value * value))) : Prop :=
  (ty = "new" /\ fields = []) \/
  (ty = "updated" /\ fields <> [] /\
   forall f, In f (map fst fields) -> In f relevant_fields).

(** Every run of [m] relates the state before to the state after. *)
Definition preserves (R : world -> world -> Prop) {A} (m : M A) : Prop :=
  forall w, R w (snd (m w)).

(** The change log only grows, by well-formed events. *)
Definition log_grows (w w' : world) : Prop :=
  extends_by event_ok (changes w) (changes w').

(** The requests of a run only grow. *)
Definition requests_grow (w w' : world) : Prop :=
  exists sent, requests w' = (requests w ++ sent)%list.

(** [m] returns, or raises an exception in [P], or is stuck for a reason
    in [Q]. *)
Definition ends (P : exn -> Prop) (Q : stuck -> Prop) {A} (m : M A) : Prop :=
  forall w,
    match fst (m w) with
    | Ok _ => True
    | Raise e => P e
    | NoReturn s => Q s
    end.

Definition anything {A} : A -> Prop := fun _ => True.
Definition nothing {A} : A -> Prop := fun _ => False.

(** What a run may raise: never an error of the store. *)
Definition not_from_store (e : exn) : Prop := is_store_error e = false.

(** The start the code chooses, from the stored cursor and from whether
    the state can be read. *)
Definition chosen_start (E : env) (resume : bool) (w : world) : string :=
  if resume then
    if io_fault E (S (io_count w)) then first_page
    else match stored_cursor w with
         | VStr url => if str_truthy url then url else first_page
         | _ => first_page
         end
  else first_page.

(** What the handler of [save_book] logs for an error of the store. *)
Definition saving_error (book_data : dict) : level * string :=
  (ERROR,
   "Error saving book "
   ++ match dict_lookup "name" book_data with
      | Some v => py_str v
      | None => "Unknown"
      end
   ++ ": " ++ str_exn store_error).

(** Between [w] and [w'] the status failed was not stored. *)
Definition not_marked_failed (w w' : world) : Prop :=
  stored_status w' = VStr "failed" -> stored_status w = VStr "failed".

(* ================================================================== *)
(** * Sample data *)
(* ================================================================== *)

(** The prices 51.77 and 49.99 as binary64 values. *)
Definition float_51_77 : spec_float := S754_finite false 7285979772155331 (-47).
Definition float_49_99 : spec_float := S754_finite false 7035467042882847 (-47).

Definition attic_url : string :=
  "https://books.toscrape.com/catalogue/a-light-in-the-attic_1000/index.html".
Definition velvet_url : string :=
  "https://books.toscrape.com/catalogue/tipping-the-velvet_999/index.html".

(** The example record of models/book.py, by name and price. *)
Definition book_record (url name : string) (price : spec_float) : dict :=
  [ ("name", VStr name);
    ("description", VStr "A collection of poems and drawings by Shel Silverstein");
    ("category", VStr "Poetry");
    ("price_including_tax", VFloat price);
    ("price_excluding_tax", VFloat float_51_77);
    ("availability", VStr "In stock (22 available)");
    ("number_of_reviews", VInt 0);
    ("image_url", VStr "https://books.toscrape.com/media/cache/2c/da/2cdad67c.jpg");
    ("rating", VInt 3);
    ("source_url", VStr url) ].

Definition attic (price : spec_float) : dict :=
  book_record attic_url "A Light in the Attic" price.

Definition page_2 : string := base_url ++ "catalogue/page-2.html".
Definition page_5 : string := base_url ++ "catalogue/page-5.html".

(** A site of two catalog pages: the first lists two books and a next
    page, the second lists nothing.  [script] overrides the outcome of
    chosen requests, [fault] fails chosen store operations. *)
Definition demo_env (script : nat -> option http_outcome) (fault : nat -> bool)
    : env :=
  Env default_settings
    (fun n url =>
       match script n with
       | Some o => o
       | None => Response ("<html>" ++ url ++ "</html>")
       end)
    fault
    (fun html url =>
       if String.eqb url attic_url then Some (attic float_51_77)
       else if String.eqb url velvet_url
       then Some (book_record velvet_url "Tipping the Velvet" float_49_99)
       else None)
    (fun html url =>
       if String.eqb url first_page then [attic_url; velvet_url] else [])
    (fun html url =>
       if String.eqb url first_page then Some page_2 else None)
    (fun url => Text.hex 32 (Z.of_nat (String.length url)))
    (fun t => Text.str_int t).

Definition no_script : nat -> option http_outcome := fun _ => None.
Definition no_fault : nat -> bool := fun _ => false.

(** The plain site, and an empty store. *)
Definition demo : env := demo_env no_script no_fault.
Definition fresh_world (E : env) : world := new_scraper E [] [] None.

(** The store after the attic record was saved once at 51.77. *)
Definition attic_world : world :=
  snd (save_book demo (attic float_51_77) "<html>" (fresh_world demo)).

(** A site whose first two requests time out. *)
Definition flaky : env :=
  demo_env (fun n => if (n <? 2)%nat then Some (TransportError "timed out")
                     else None)
           no_fault.

(** A site whose first catalog page is not found. *)
Definition missing_site : env :=
  demo_env (fun n => if (n =? 0)%nat then Some (StatusError 404) else None)
           no_fault.

(** A store that refuses its fourth operation, the insert of the first
    book. *)
Definition failing_store : env :=
  demo_env no_script (fun n => (n =? 3)%nat).

(** The attic record under a new name, and with its fields in another
    order and other metadata. *)
Definition attic_renamed : dict :=
  book_record attic_url "A Light in the Attic (2nd ed.)" float_51_77.

Definition attic_shuffled : dict :=
  [ ("source_url", VStr attic_url);
    ("rating", VInt 3);
    ("scraped_by", VStr "worker-7");
    ("price_excluding_tax", VFloat float_51_77);
    ("price_including_tax", VFloat float_51_77);
    ("name", VStr "A Light in the Attic");
    ("image_url", VStr "https://books.toscrape.com/media/other.jpg");
    ("number_of_reviews", VInt 0);
    ("availability", VStr "In stock (22 available)");
    ("category", VStr "Poetry");
    ("description", VStr "A collection of poems and drawings by Shel Silverstein") ].

(** A store whose crawl state holds the cursor of page 5. *)
Definition resumed_world : world :=
  new_scraper demo [] []
    (Some [ ("status", VStr "running");
            ("error_message", VNone);
            ("last_successful_url", VStr page_5);
            ("total_books_crawled", VInt 80) ]).

(** A first run over the plain site, and one over the failing store. *)
Definition demo_run : result unit * world :=
  crawl_all_books demo 5 false (fresh_world demo).

Definition failing_run : result unit * world :=
  crawl_all_books failing_store 5 false (fresh_world failing_store).

(** The state of a run over the failing store when it has begun: one
    operation of the store is over, the write of the status running. *)
Definition begun_run : world :=
  snd (begin_crawl failing_store false (fresh_world failing_store)).


(* ================================================================== *)
(** * Vocabulary of the properties of the storage layer *)
(* ================================================================== *)

(** What unpacking the bare list of line 137 of the scraper raises. *)
Definition unpack_error : exn :=
  ValueError "not enough values to unpack (expected 2, got 0)".

(** The [error_message] field of the stored crawl state. *)
Definition stored_error_message (w : world) : value :=
  match crawler_state w with
  | Some d => dict_get "error_message" d
  | None => VNone
  end.

(** The document an insert stores, and the fields an update sets. *)
Definition inserted_fields (data : dict) (t1 t2 : Z) (h path : string) : dict :=
  dict_update data
    [ ("crawl_timestamp", VDatetime t1);
      ("last_updated", VDatetime t2);
      ("status", VStr "active");
      ("content_hash", VStr h);
      ("html_snapshot_path", VStr path) ].

Definition updated_fields (data : dict) (h : string) (t : Z) (path : string)
    : dict :=
  dict_update data
    [ ("content_hash", VStr h);
      ("last_updated", VDatetime t);
      ("html_snapshot_path", VStr path) ].

(** At most one event, of a given type, for a given book. *)
Definition one_event (ty : string) (bid : string)
    (fields : list (string * (value * value))) (evs : list change_log) : Prop :=
  evs = [] \/
  exists cid name ts, evs = [ChangeLog cid bid name ty fields ts].

(** The effects [save_book] can have on the collections: none; an insert
    under a key that was absent, with at most a new event; or, the key
    being stored under another hash, at most an update of that document
    and at most an updated event. *)
Inductive upsert_effect (data : dict) (w w' : world) : Prop :=
| effect_none :
    books w' = books w -> changes w' = changes w ->
    upsert_effect data w w'
| effect_insert src t1 t2 h path evs :
    dict_lookup "source_url" data = Some src ->
    find (has_source_url src) (books w) = None ->
    compute_content_hash data = Ok h ->
    books w'
    = (books w ++ [Document (next_oid w) (inserted_fields data t1 t2 h path)])%list ->
    changes w' = (changes w ++ evs)%list ->
    one_event "new" (str_oid (next_oid w)) [] evs ->
    next_oid w < next_oid w' ->
    upsert_effect data w w'
| effect_update src existing h t path evs :
    dict_lookup "source_url" data = Some src ->
    find (has_source_url src) (books w) = Some existing ->
    compute_content_hash data = Ok h ->
    py_eqb (dict_get "content_hash" (doc_fields existing)) (VStr h) = false ->
    books w' = books w \/
    books w'
    = set_fields_of (doc_id existing) (updated_fields data h t path) (books w) ->
    changes w' = (changes w ++ evs)%list ->
    one_event "updated" (str_oid (doc_id existing))
      (diff_fields tracked_fields (doc_fields existing) data) evs ->
    upsert_effect data w w'.

(** The natural key of a stored document. *)
Definition source_key (d : document) : value :=
  dict_get "source_url" (doc_fields d).

(** Each [_id] once, all of them issued already, and each key once. *)
Definition store_ok (w : world) : Prop :=
  NoDup (map doc_id (books w)) /\
  (forall d, In d (books w) -> doc_id d < next_oid w) /\
  NoDup (map source_key (books w)).

(** A record as [parse_book_page] builds it: a dictionary (each key
    once) whose natural key is a string. *)
Definition keyed (data : dict) : Prop :=
  NoDup (map fst data) /\
  exists url, dict_lookup "source_url" data = Some (VStr url).

(** No document leaves the collection and no [_id] changes. *)
Definition books_kept (w w' : world) : Prop :=
  exists added, map doc_id (books w') = (map doc_id (books w) ++ added)%list.

(** Every change event carries the id of a stored book. *)
Definition refs_ok (w : world) : Prop :=
  forall c, In c (changes w) ->
    exists d, In d (books w) /\ book_id c = str_oid (doc_id d).

Definition keeps_refs (w w' : world) : Prop :=
  books_kept w w' /\ (refs_ok w -> refs_ok w').

(** A document whose [content_hash] is the hash of its own fields. *)
Definition hash_ok (d : document) : Prop :=
  exists h,
    compute_content_hash (doc_fields d) = Ok h /\
    dict_lookup "content_hash" (doc_fields d) = Some (VStr h).

(** A record with each key once and all the fields the hash reads, as
    [parse_book_page] builds it. *)
Definition complete (data : dict) : Prop :=
  NoDup (map fst data) /\
  forall k, In k relevant_fields -> dict_mem k data = true.



(** A record with a key and no name. *)
Definition nameless : dict :=
  [ ("source_url", VStr attic_url);
    ("price_including_tax", VFloat float_51_77);
    ("rating", VInt 3) ].

(** A file system that refuses its first write, over a reliable store. *)
Definition read_only_disk : env := demo_env no_script (fun n => (n =? 0)%nat).

(* ================================================================== *)
(** * api/rate_limiter.py: RateLimiter *)
(* ================================================================== *)

(** The limiter keeps, for each API key, the times of the requests it
    let through.  A [datetime] is a count of microseconds and a
    [timedelta] a difference of such counts, both without bounds; the
    clock is an oracle that gives the value of each reading in turn. *)

Module Api.

(** What the API layer raises. *)
Inductive exn : Type :=
| HTTPException (status_code : Z) (detail : string)
                (headers : list (string * string))   (* fastapi *)
| ValueError (msg : string)
| UnboundLocalError (name : string).

Inductive outcome (A : Type) : Type :=
| Return (a : A)
| Raise (e : exn).
Arguments Return {A} a.
Arguments Raise {A} e.

(** models/user.py *)
Record APIKey : Type := Build_APIKey {
  id : option string;
  key : string;
  user_id : string;
  name : string;
  is_active : bool;
  created_at : Z;
  last_used : option Z;
  request_count : Z;
  rate_limit : Z;
  rate_period : Z
}.

Record RateLimitInfo : Type := Build_RateLimitInfo {
  remaining : Z;
  limit : Z;
  reset_time : Z
}.

Record env : Type := Env {
  (** the value of the [n]-th reading of [datetime.now(timezone.utc)] *)
  now_at : nat -> Z;
  (** [datetime.isoformat] *)
  isoformat : Z -> string
}.

(** The process: the windows of the global [rate_limiter], the clock
    readings so far, the logger output. *)
Record world : Type := World {
  request_windows : list (string * list Z);
  clock_reads : nat;
  log : list (level * string)
}.

Definition set_request_windows
    (f : list (string * list Z) -> list (string * list Z)) (w : world) : world :=
  World (f (request_windows w)) (clock_reads w) (log w).
Definition set_log (f : list (level * string) -> list (level * string))
    (w : world) : world :=
  World (request_windows w) (clock_reads w) (f (log w)).

(** [datetime.now(timezone.utc)] *)
Definition datetime_now (E : env) (w : world) : Z * world :=
  (now_at E (clock_reads w),
   World (request_windows w) (S (clock_reads w)) (log w)).

Definition logger (l : level) (msg : string) (w : world) : world :=
  set_log (fun lg => (lg ++ [(l, msg)])%list) w.

(** [timedelta(seconds=n)], [timedelta(hours=n)] and [timedelta(days=n)] *)
Definition seconds (n : Z) : Z := n * 1000000.
Definition hours (n : Z) : Z := seconds (n * 3600).
Definition days (n : Z) : Z := seconds (n * 86400).

(** ** The dictionary [request_windows], in insertion order *)

Fixpoint lookup {V} (k : string) (d : list (string * V)) : option V :=
  match d with
  | [] => None
  | (k', v) :: r => if String.eqb k k' then Some v else lookup k r
  end.

(** [d[k] = v] *)
Fixpoint assign {V} (k : string) (v : V) (d : list (string * V))
    : list (string * V) :=
  match d with
  | [] => [(k, v)]
  | (k', v') :: r =>
      if String.eqb k k' then (k, v) :: r else (k', v') :: assign k v r
  end.

(** [del d[k]] *)
Fixpoint remove {V} (k : string) (d : list (string * V)) : list (string * V) :=
  match d with
  | [] => []
  | (k', v') :: r =>
      if String.eqb k k' then r else (k', v') :: remove k r
  end.

(** [d[k]] for a key the code has just made sure of. *)
Definition window (k : string) (d : list (string * list Z)) : list Z :=
  match lookup k d with
  | Some l => l
  | None => []
  end.

(** [min(l)] and [max(l)]: [None] stands for the [ValueError] on an
    empty list. *)
Definition minimum (l : list Z) : option Z :=
  match l with
  | [] => None
  | t :: r => Some (fold_left Z.min r t)
  end.

Definition maximum (l : list Z) : option Z :=
  match l with
  | [] => None
  | t :: r => Some (fold_left Z.max r t)
  end.

Definition min_of_empty : exn := ValueError "min() arg is an empty sequence".

(** ** check_rate_limit *)

Definition limit_detail (E : env) (rate_limit rate_period reset_time : Z)
    : string :=
  "Rate limit exceeded. Limit: " ++ Text.str_int rate_limit
  ++ " requests per " ++ Text.str_int rate_period ++ " seconds. "
  ++ "Reset at: " ++ isoformat E reset_time.

Definition limit_headers (E : env) (rate_limit reset_time : Z)
    : list (string * string) :=
  [ ("X-RateLimit-Limit", Text.str_int rate_limit);
    ("X-RateLimit-Remaining", "0");
    ("X-RateLimit-Reset", isoformat E reset_time) ].

Definition check_rate_limit (E : env) (api_key_obj : APIKey) (w : world)
    : outcome RateLimitInfo * world :=
  let api_key := key api_key_obj in
  let rate_limit := rate_limit api_key_obj in
  let rate_period := rate_period api_key_obj in
  let (current_time, w) := datetime_now E w in
  let window_start := current_time - seconds rate_period in
  (* initialize the window of this key *)
  let w :=
    match lookup api_key (request_windows w) with
    | Some _ => w
    | None => set_request_windows (assign api_key []) w
    end in
  (* clean the requests outside the window *)
  let kept :=
    filter (fun req_time => window_start <? req_time)
           (window api_key (request_windows w)) in
  let w := set_request_windows (assign api_key kept) w in
  let request_count := Z.of_nat (List.length kept) in
  if rate_limit <=? request_count then
    match minimum kept with
    | None => (Raise min_of_empty, w)
    | Some oldest_request =>
        let reset_time := oldest_request + seconds rate_period in
        let w :=
          logger WARNING
            ("Rate limit exceeded for API key " ++ Text.take 10 api_key
             ++ "... (" ++ Text.str_int request_count ++ "/"
             ++ Text.str_int rate_limit ++ ")") w in
        (Raise (HTTPException 429
                  (limit_detail E rate_limit rate_period reset_time)
                  (limit_headers E rate_limit reset_time)),
         w)
    end
  else
    let w :=
      set_request_windows (assign api_key (kept ++ [current_time])%list) w in
    let remaining := rate_limit - (request_count + 1) in
    let reset_time := current_time + seconds rate_period in
    (Return (Build_RateLimitInfo remaining rate_limit reset_time), w).

(** ** cleanup_old_windows *)

(** The second loop: the keys with no request, or none within the hour. *)
Definition stale (cleanup_threshold : Z) (requests : list Z) : bool :=
  match maximum requests with
  | None => true
  | Some newest => newest <? cleanup_threshold
  end.

Definition cleanup_old_windows (E : env) (w : world) : outcome unit * world :=
  let (current_time, w) := datetime_now E w in
  let cleanup_threshold := current_time - hours 1 in
  (* the first loop reads [keys_to_remove] before line 98 binds it *)
  if existsb (fun kv => is_empty (snd kv)) (request_windows w)
  then (Raise (UnboundLocalError "keys_to_remove"), w)
  else
    let keys_to_remove :=
      map fst (filter (fun kv => stale cleanup_threshold (snd kv))
                      (request_windows w)) in
    let w :=
      set_request_windows
        (fun d => fold_left (fun d key => remove key d) keys_to_remove d) w in
    let w :=
      if negb (is_empty keys_to_remove)
      then logger DEBUG
             ("Cleaned up "
              ++ Text.str_int (Z.of_nat (List.length keys_to_remove))
              ++ " old rate limit windows") w
      else w in
    (Return tt, w).

(** A new process: [rate_limiter = RateLimiter()]. *)
Definition start : world := World [] 0 [].

(** ** A sequence of requests *)

(** The calls of [check_rate_limit] for the requests of [keys], in
    order: for each the time read, and how the call ended. *)
Fixpoint serve (E : env) (keys : list APIKey) (w : world)
    : list (Z * outcome RateLimitInfo) * world :=
  match keys with
  | [] => ([], w)
  | k :: r =>
      let (o, w1) := check_rate_limit E k w in
      let (os, w2) := serve E r w1 in
      ((now_at E (clock_reads w), o) :: os, w2)
  end.

Definition is_return {A} (o : outcome A) : bool :=
  match o with Return _ => true | Raise _ => false end.

(** The times of the requests of the key [k] that were let through. *)
Fixpoint accepted (k : string) (keys : list APIKey)
    (served : list (Z * outcome RateLimitInfo)) : list Z :=
  match keys, served with
  | c :: keys', (t, o) :: served' =>
      if String.eqb (key c) k && is_return o
      then t :: accepted k keys' served'
      else accepted k keys' served'
  | _, _ => []
  end.

(** The times of [l] in the window of [period] seconds that ends at [t]. *)
Definition within (period t : Z) (l : list Z) : list Z :=
  filter (fun a => (t - seconds period <? a) && (a <=? t)) l.

(** The clock never goes back. *)
Definition monotone (E : env) : Prop := forall n, now_at E n <= now_at E (S n).

(** The requests of the window of a key still counted at the next
    reading of the clock, and whether the call lets its request through. *)
Definition kept_at (E : env) (c : APIKey) (w : world) : list Z :=
  filter (fun req_time =>
            now_at E (clock_reads w) - seconds (rate_period c) <? req_time)
         (window (key c) (request_windows w)).

Definition passes (E : env) (c : APIKey) (w : world) : bool :=
  negb (rate_limit c <=? Z.of_nat (List.length (kept_at E c w))).

(** What the window of [k] holds of the requests let through so far,
    and the bound on the requests let through in any window. *)
Definition tracks (E : env) (k : string) (P : Z) (hist : list Z) (w : world)
    : Prop :=
  (exists s,
     window k (request_windows w) = filter (fun a => s <? a) hist /\
     s <= now_at E (clock_reads w) - seconds P) /\
  (forall a, In a hist -> a <= now_at E (clock_reads w)).

Definition bounded (P L : Z) (hist : list Z) : Prop :=
  forall t, Z.of_nat (List.length (within P t hist)) <= Z.max 0 L.

(** What the [i]-th of a series of requests let through is told, [j]
    requests being counted already. *)
Definition granted (E : env) (c : APIKey) (first : nat) (j : nat) (i : nat)
    : Z * outcome RateLimitInfo :=
  (now_at E (first + i)%nat,
   Return (Build_RateLimitInfo
             (rate_limit c - (Z.of_nat (j + i) + 1))
             (rate_limit c)
             (now_at E (first + i)%nat + seconds (rate_period c)))).

(** [request_windows] is a dictionary: each key once. *)
Definition well_formed (w : world) : Prop :=
  NoDup (map fst (request_windows w)).

(** No key has an empty window. *)
Definition no_empty_window (w : world) : Prop :=
  forall k, lookup k (request_windows w) <> Some [].

(** The process after one reading of the clock and nothing else. *)
Definition tick (w : world) : world :=
  World (request_windows w) (S (clock_reads w)) (log w).

(** The cleaned process [b] against the process [a] that was not
    cleaned, [T] being the threshold of the cleanup: the window of a key
    is the same in both, or it was dropped from [b] and all its requests
    are older than [T]. *)
Definition cleaned (E : env) (T : Z) (a b : world) : Prop :=
  clock_reads b = clock_reads a /\
  T + hours 1 <= now_at E (clock_reads a) /\
  forall k,
    window k (request_windows b) = window k (request_windows a) \/
    (window k (request_windows b) = [] /\
     forall t, In t (window k (request_windows a)) -> t < T).

(** ** Sample data *)

(** A clock read once a second, and a key as the tests build it. *)
Definition every_second : env :=
  Env (fun n => Z.of_nat n * 1000000) (fun t => Text.str_int t).

Definition sample_key (rate_limit : Z) : APIKey :=
  Build_APIKey None "sk_live_test" "user_1" "Test" true 0 None 0
               rate_limit 3600.

(** A process whose key has used its two requests, and one that holds a
    window two hours old beside a fresh one. *)
Definition used_up : world :=
  World [("sk_live_test", [0; 1000000])] 2 [].

(** A clock read once an hour. *)
Definition every_hour : env :=
  Env (fun n => Z.of_nat n * 3600000000) (fun t => Text.str_int t).

Definition two_hours_later : world :=
  World [("old_key", [0]); ("sk_live_test", [7200000000])] 3 [].

End Api.


(* ================================================================== *)
(** * Vocabulary of the visited set and of refused updates *)
(* ================================================================== *)

(** Every visited URL is the key of a stored book. *)
Definition visited_stored (w : world) : Prop :=
  forall u, In u (visited_urls w) -> In (VStr u) (map source_key (books w)).

(** The parser hands on, in a dictionary, the URL it was given (lines
    92-103 of the parser). *)
Definition keeps_url (E : env) : Prop :=
  forall html url data,
    parse_book_page E html url = Some data ->
    NoDup (map fst data) /\ dict_lookup "source_url" data = Some (VStr url).

Definition keeps_visited_stored (w w' : world) : Prop :=
  store_ok w /\ visited_stored w -> store_ok w' /\ visited_stored w'.

(** The event [_log_changes] writes for the record [data] found stored
    as [ex]. *)
Definition updated_event (ex : document) (data : dict) (name : value)
    (c : change_log) : Prop :=
  book_id c = str_oid (doc_id ex) /\
  book_name c = name /\
  change_type c = "updated" /\
  changed_fields c = diff_fields tracked_fields (doc_fields ex) data.

(** The attic record stored at 51.77 under an outdated hash. *)
Definition outdated_attic : document :=
  Document 1 (dict_set "content_hash" (VStr "outdated") (attic float_51_77)).

(* ================================================================== *)
(** * crawler/parser.py: BookParser *)
(* ================================================================== *)

(** The parser reads a page through BeautifulSoup.  The parsed page is a
    collaborator: a set of tags with, for each tag, its text, its
    attributes and the tags a CSS selector finds below it, in document
    order.  What the parser does with the strings it gets is Python's
    own: [str.strip], [re.sub], [float], [int].  A [str] is a sequence of
    code points below 256, as everywhere in this development; among
    these the decimal digits (the class [\d]) are [0] to [9]. *)

Module Parser.

(** ** Strings *)

(** [str.isspace] on one code point. *)
Definition isspace (c : ascii) : bool :=
  let n := Text.code c in
  ((9 <=? n) && (n <=? 13)) || ((28 <=? n) && (n <=? 32))
  || (n =? 133) || (n =? 160).

(** The white space [int] skips around a literal. *)
Definition int_space (c : ascii) : bool :=
  let n := Text.code c in
  ((9 <=? n) && (n <=? 13)) || (n =? 32) || (n =? 133) || (n =? 160).

Definition isdigit (c : ascii) : bool :=
  let n := Text.code c in (48 <=? n) && (n <=? 57).

Fixpoint lstrip_by (space : ascii -> bool) (s : string) : string :=
  match s with
  | String c r => if space c then lstrip_by space r else s
  | EmptyString => EmptyString
  end.

Fixpoint reversed_onto (acc s : string) : string :=
  match s with
  | String c r => reversed_onto (String c acc) r
  | EmptyString => acc
  end.

Definition reversed (s : string) : string := reversed_onto "" s.

Definition strip_by (space : ascii -> bool) (s : string) : string :=
  reversed (lstrip_by space (reversed (lstrip_by space s))).

(** [s.strip()] *)
Definition strip (s : string) : string := strip_by isspace s.

(** [re.sub(r'[^\d.]', '', s)] *)
Fixpoint digits_and_dots (s : string) : string :=
  match s with
  | String c r =>
      if isdigit c || Ascii.eqb c "."
      then String c (digits_and_dots r)
      else digits_and_dots r
  | EmptyString => EmptyString
  end.

(** ** float *)

(** The leading digits of a string, read in base ten from [acc] on, how
    many they are, and what follows them. *)
Fixpoint digits_from (acc : Z) (n : nat) (s : string) : Z * nat * string :=
  match s with
  | String c r =>
      if isdigit c then digits_from (10 * acc + (Text.code c - 48)) (S n) r
      else (acc, n, s)
  | EmptyString => (acc, n, s)
  end.

(** The binary64 value nearest to [m / 10 ^ k], ties to even; infinity
    from [2 ^ 1024 - 2 ^ 970] on. *)
Definition nearest (m : Z) (k : nat) : spec_float :=
  match m with
  | Z0 => S754_zero false
  | _ =>
      let '(q, e, l) := SFdiv_core_binary 53 1024 m 0 (10 ^ Z.of_nat k) 0 in
      binary_round_aux 53 1024 false q e l
  end.

(** [float(s)] for a string of digits and dots, as [re.sub] leaves it:
    digits, at most one dot among them, at least one digit; [None] is
    the [ValueError] of any other such string. *)
Definition float_of_digits (s : string) : option spec_float :=
  let '(whole, n, rest) := digits_from 0 0 s in
  match rest with
  | EmptyString => if (n =? 0)%nat then None else Some (nearest whole 0)
  | String c frac =>
      if Ascii.eqb c "." then
        let '(m, k, rest') := digits_from whole 0 frac in
        match rest' with
        | EmptyString =>
            if ((n =? 0) && (k =? 0))%nat then None else Some (nearest m k)
        | String _ _ => None
        end
      else None
  end.

(** ** _parse_price *)

Definition _parse_price (price_str : string) : spec_float :=
  let price_clean := digits_and_dots price_str in
  match float_of_digits price_clean with
  | Some f => f
  | None => S754_zero false
  end.

(** ** int *)

Inductive try (A : Type) : Type :=
| Done (a : A)
| Fail (e : exn).
Arguments Done {A} a.
Arguments Fail {A} e.

Definition and_then {A B} (m : try A) (k : A -> try B) : try B :=
  match m with
  | Done a => k a
  | Fail e => Fail e
  end.

(** Digits with single underscores between them: the value and the
    number of digits. *)
Fixpoint int_digits (after_digit : bool) (acc n : Z) (s : string)
    : option (Z * Z) :=
  match s with
  | String c r =>
      if isdigit c then int_digits true (10 * acc + (Text.code c - 48)) (n + 1) r
      else if Ascii.eqb c "_" && after_digit then int_digits false acc n r
      else None
  | EmptyString => if after_digit then Some (acc, n) else None
  end.

Definition signed (s : string) : bool * string :=
  match s with
  | String c r =>
      if Ascii.eqb c "-" then (true, r)
      else if Ascii.eqb c "+" then (false, r)
      else (false, s)
  | EmptyString => (false, s)
  end.

(** [int(s)] in base ten.  [max_str_digits] is
    [sys.get_int_max_str_digits()], zero for no limit; [repr] is the
    [repr] of a [str]. *)
Definition int_of_str (max_str_digits : Z) (repr : string -> string)
    (s : string) : try Z :=
  let '(negative, digits) := signed (strip_by int_space s) in
  match int_digits false 0 0 digits with
  | Some (v, n) =>
      if (0 <? max_str_digits) && (max_str_digits <? n) then
        Fail (ValueError
                ("Exceeds the limit (" ++ Text.str_int max_str_digits
                 ++ " digits) for integer string conversion: value has "
                 ++ Text.str_int n
                 ++ " digits; use sys.set_int_max_str_digits() to increase the limit"))
      else Done (if negative then - v else v)
  | None =>
      Fail (ValueError ("invalid literal for int() with base 10: " ++ repr s))
  end.

(** ** The parsed page *)

(** The value of an attribute: a string, or a list of strings for the
    attributes bs4 splits, [class] among them. *)
Inductive attr : Type :=
| Str (s : string)
| StrList (l : list string).

Definition attr_truthy (a : attr) : bool :=
  match a with
  | Str s => str_truthy s
  | StrList l => negb (is_empty l)
  end.

Definition tag : Type := nat.

Record soup : Type := Soup {
  root : tag;                              (* the BeautifulSoup object *)
  select : tag -> string -> list tag;      (* tag.select(selector) *)
  text : tag -> string;                    (* tag.text *)
  get : tag -> string -> option attr       (* tag.get(name) *)
}.

(** [tag.select_one(selector)] *)
Definition select_one (page : soup) (t : tag) (selector : string) : option tag :=
  hd_error (select page t selector).

Record env : Type := Env {
  BeautifulSoup : string -> exn + soup;    (* BeautifulSoup(html, 'lxml') *)
  (** [urllib.parse.urljoin] on two strings: the URL, or what it raises
      ([ValueError] for a host it cannot read) *)
  urljoin : string -> string -> exn + string;
  int_max_str_digits : Z;
  repr : string -> string
}.

(** [urljoin(base, tag[name])], the attribute being set and truthy. *)
Definition urljoin_attr (P : env) (base : string) (a : attr) : try string :=
  match a with
  | Str url =>
      match urljoin P base url with
      | inl e => Fail e
      | inr joined => Done joined
      end
  | StrList _ => Fail (TypeError "Cannot mix str and non-str arguments")
  end.

(** ** parse_book_page *)

Definition RATING_MAP : dict :=
  [ ("One", VInt 1); ("Two", VInt 2); ("Three", VInt 3);
    ("Four", VInt 4); ("Five", VInt 5) ].

(** [product_info], a dict from [str] to [str]. *)
Definition info : Type := list (string * string).

Fixpoint info_get (k : string) (d : info) : option string :=
  match d with
  | [] => None
  | (k', v) :: r => if String.eqb k k' then Some v else info_get k r
  end.

Fixpoint info_set (k v : string) (d : info) : info :=
  match d with
  | [] => [(k, v)]
  | (k', v') :: r =>
      if String.eqb k k' then (k, v) :: r else (k', v') :: info_set k v r
  end.

(** [d.get(k, default)] *)
Definition info_get_or (k default : string) (d : info) : string :=
  match info_get k d with Some v => v | None => default end.

(** The loop over the rows of the product table, lines 55-59. *)
Fixpoint table_rows (page : soup) (info_table : list tag) (product_info : info)
    : info :=
  match info_table with
  | [] => product_info
  | row :: rows =>
      match select_one page row "th", select_one page row "td" with
      | Some header, Some value =>
          table_rows page rows
            (info_set (strip (text page header)) (strip (text page value))
                      product_info)
      | _, _ => table_rows page rows product_info
      end
  end.

(** The loop over the classes of the rating element, lines 87-90. *)
Fixpoint first_rating (rating_class : list string) : value :=
  match rating_class with
  | [] => VInt 0
  | cls :: r =>
      match dict_lookup cls RATING_MAP with
      | Some rating => rating
      | None => first_rating r
      end
  end.

(** Iterating over a [str] gives its characters. *)
Fixpoint chars (s : string) : list string :=
  match s with
  | String c r => String c "" :: chars r
  | EmptyString => []
  end.

Definition pound : string := String "163"%char "".

(** The body of the [try], lines 35-103: the record, [None] of line 41,
    or the exception raised. *)
Definition book_page (P : env) (html url : string) : try (option dict) :=
  match BeautifulSoup P html with
  | inl e => Fail e
  | inr page =>
      match select_one page (root page) "div.product_main h1" with
      | None => Done None
      | Some name_elem =>
          let name := strip (text page name_elem) in
          let description :=
            match select_one page (root page) "#product_description ~ p" with
            | Some description_elem =>
                if str_truthy (text page description_elem)
                then strip (text page description_elem) else ""
            | None => ""
            end in
          let breadcrumb := select page (root page) "ul.breadcrumb li" in
          let category :=
            match nth_error breadcrumb 2 with
            | Some li => strip (text page li)
            | None => "Unknown"
            end in
          let product_info :=
            table_rows page (select page (root page) "table.table-striped tr") [] in
          let price_including_tax :=
            _parse_price
              (info_get_or "Price (incl. tax)" (pound ++ "0.00") product_info) in
          let price_excluding_tax :=
            _parse_price
              (info_get_or "Price (excl. tax)" (pound ++ "0.00") product_info) in
          let availability := info_get_or "Availability" "Unknown" product_info in
          and_then
            (match info_get "Number of reviews" product_info with
             | Some s => int_of_str (int_max_str_digits P) (repr P) s
             | None => Done 0
             end)
            (fun number_of_reviews =>
          and_then
            (match select_one page (root page) "div.item.active img" with
             | Some image_elem =>
                 match get page image_elem "src" with
                 | Some src =>
                     if attr_truthy src
                     then urljoin_attr P "https://books.toscrape.com/" src
                     else Done ""
                 | None => Done ""
                 end
             | None => Done ""
             end)
            (fun image_url =>
          let rating :=
            match select_one page (root page) "p.star-rating" with
            | Some rating_elem =>
                match get page rating_elem "class" with
                | Some (StrList rating_class) => first_rating rating_class
                | Some (Str rating_class) => first_rating (chars rating_class)
                | None => first_rating []
                end
            | None => VInt 0
            end in
          Done (Some (dict_of
            [ ("name", VStr name);
              ("description", VStr description);
              ("category", VStr category);
              ("price_including_tax", VFloat price_including_tax);
              ("price_excluding_tax", VFloat price_excluding_tax);
              ("availability", VStr availability);
              ("number_of_reviews", VInt number_of_reviews);
              ("image_url", VStr image_url);
              ("rating", rating);
              ("source_url", VStr url) ]))))
      end
  end.

(** What the call returns, and what it logs. *)
Definition parse_book_page (P : env) (html url : string)
    : option dict * list (level * string) :=
  match book_page P html url with
  | Done (Some book_data) => (Some book_data, [])
  | Done None => (None, [(WARNING, "Could not find book name in " ++ url)])
  | Fail e =>
      (None, [(ERROR, "Error parsing book page " ++ url ++ ": " ++ str_exn e)])
  end.

(** ** extract_book_links and get_next_page_url *)

(** The loop over the articles, lines 137-143. *)
Fixpoint article_links (P : env) (page : soup) (base_url : string)
    (articles : list tag) (book_links : list string) : try (list string) :=
  match articles with
  | [] => Done book_links
  | article :: r =>
      match select_one page article "h3 a" with
      | Some link_elem =>
          match get page link_elem "href" with
          | Some relative_url =>
              if attr_truthy relative_url then
                and_then (urljoin_attr P base_url relative_url)
                  (fun absolute_url =>
                     article_links P page base_url r
                       (book_links ++ [absolute_url])%list)
              else article_links P page base_url r book_links
          | None => article_links P page base_url r book_links
          end
      | None => article_links P page base_url r book_links
      end
  end.

Definition extract_book_links (P : env) (html base_url : string)
    : list string * list (level * string) :=
  match
    match BeautifulSoup P html with
    | inl e => Fail e
    | inr page =>
        article_links P page base_url
          (select page (root page) "article.product_pod") []
    end
  with
  | Done book_links =>
      (book_links,
       [(INFO, "Extracted " ++ Text.str_int (Z.of_nat (List.length book_links))
               ++ " book links from catalog page")])
  | Fail e => ([], [(ERROR, "Error extracting book links: " ++ str_exn e)])
  end.

Definition get_next_page_url (P : env) (html current_url : string)
    : option string * list (level * string) :=
  match
    match BeautifulSoup P html with
    | inl e => Fail e
    | inr page =>
        match select_one page (root page) "li.next a" with
        | Some next_elem =>
            match get page next_elem "href" with
            | Some href =>
                if attr_truthy href then
                  and_then (urljoin_attr P current_url href)
                    (fun next_url => Done (Some next_url))
                else Done None
            | None => Done None
            end
        | None => Done None
        end
    end
  with
  | Done r => (r, [])
  | Fail e => (None, [(ERROR, "Error extracting next page URL: " ++ str_exn e)])
  end.

End Parser.

(** The scraper's collaborators with [BookParser] in the place of the
    parser.  The lines the parser logs are left out of the log of the
    run, as for every parser. *)
Definition with_parser (P : Parser.env) (E : env) : env :=
  Env (cfg E) (http E) (io_fault E)
      (fun html url => fst (Parser.parse_book_page P html url))
      (fun html url => fst (Parser.extract_book_links P html url))
      (fun html url => fst (Parser.get_next_page_url P html url))
      (md5_hexdigest E) (strftime E).

(** The keys of a parsed record, in order. *)
Definition book_keys : list string :=
  [ "name"; "description"; "category";
    "price_including_tax"; "price_excluding_tax";
    "availability"; "number_of_reviews"; "image_url"; "rating";
    "source_url" ].

(** A float that is zero, positive or plus infinity. *)
Definition is_price (f : spec_float) : Prop :=
  match f with
  | S754_zero false | S754_finite false _ _ | S754_infinity false => True
  | _ => False
  end.

(** The number of dots of a string, whether it is made of digits, and
    the number its digits spell. *)
Fixpoint dots (s : string) : nat :=
  match s with
  | String c r => (if Ascii.eqb c "." then 1 else 0) + dots r
  | EmptyString => 0
  end.

Fixpoint all_digits (s : string) : bool :=
  match s with
  | String c r => Parser.isdigit c && all_digits r
  | EmptyString => true
  end.

Definition number (s : string) : Z := fst (fst (Parser.digits_from 0 0 s)).

(** The pages [parse_book_page] gives no record for: the page cannot be
    read, it has no name element, the text of its review count is not an
    integer, the source of its image is a list, or it is a string that
    [urljoin] cannot join to the host. *)
Definition no_record (P : Parser.env) (html : string) : Prop :=
  match Parser.BeautifulSoup P html with
  | inl _ => True
  | inr page =>
      let top := Parser.root page in
      Parser.select_one page top "div.product_main h1" = None \/
      (exists s e,
         Parser.info_get "Number of reviews"
           (Parser.table_rows page
              (Parser.select page top "table.table-striped tr") []) = Some s /\
         Parser.int_of_str (Parser.int_max_str_digits P) (Parser.repr P) s
         = Parser.Fail e) \/
      (exists image_elem l,
         Parser.select_one page top "div.item.active img" = Some image_elem /\
         Parser.get page image_elem "src" = Some (Parser.StrList l) /\
         l <> []) \/
      (exists image_elem src e,
         Parser.select_one page top "div.item.active img" = Some image_elem /\
         Parser.get page image_elem "src" = Some (Parser.Str src) /\
         src <> "" /\
         Parser.urljoin P "https://books.toscrape.com/" src = inl e)
  end.

(** A stored book that the filter [{'status': 'active'}] of the API
    selects. *)
Definition listed (d : document) : Prop :=
  dict_lookup "status" (doc_fields d) = Some (VStr "active").

(** What a run keeps of the store and of the visited set. *)
Definition consistent (w : world) : Prop :=
  store_ok w /\ Forall hash_ok (books w) /\ Forall listed (books w) /\
  visited_stored w.

(** ** A sample page

    The page of the attic record: tag 0 is the page, tags 1 to 4 the
    name, the description, the image and the rating, 10 to 12 the
    breadcrumb, 20 to 24 the rows of the product table, with their
    header at +10 and their cell at +20. *)
Definition attic_text (t : Parser.tag) : string :=
  match t with
  | 1 => "  A Light in the Attic "
  | 2 => "A collection of poems and drawings by Shel Silverstein"
  | 10 => "Home"
  | 11 => "Books"
  | 12 => " Poetry "
  | 30 => "UPC"
  | 31 => "Price (excl. tax)"
  | 32 => "Price (incl. tax)"
  | 33 => "Availability"
  | 34 => "Number of reviews"
  | 40 => "a897fe39b1053632"
  | 41 => Parser.pound ++ "51.77"
  | 42 => Parser.pound ++ "51.77"
  | 43 => " In stock (22 available) "
  | 44 => "0"
  | _ => ""
  end%nat.

Definition attic_select (t : Parser.tag) (selector : string)
    : list Parser.tag :=
  match t with
  | O =>
      if String.eqb selector "div.product_main h1" then [1%nat]
      else if String.eqb selector "#product_description ~ p" then [2%nat]
      else if String.eqb selector "div.item.active img" then [3%nat]
      else if String.eqb selector "p.star-rating" then [4%nat]
      else if String.eqb selector "ul.breadcrumb li" then [10; 11; 12]%nat
      else if String.eqb selector "table.table-striped tr"
      then [20; 21; 22; 23; 24]%nat
      else []
  | _ =>
      if ((20 <=? t) && (t <=? 24))%nat then
        if String.eqb selector "th" then [(t + 10)%nat]
        else if String.eqb selector "td" then [(t + 20)%nat]
        else []
      else []
  end.

Definition attic_get (t : Parser.tag) (name : string) : option Parser.attr :=
  match t with
  | 3%nat =>
      if String.eqb name "src"
      then Some (Parser.Str "../../media/cache/2c/da/2cdad67c.jpg")
      else None
  | 4%nat =>
      if String.eqb name "class"
      then Some (Parser.StrList ["star-rating"; "Three"])
      else None
  | _ => None
  end.

Definition attic_page : Parser.soup :=
  Parser.Soup 0%nat attic_select attic_text attic_get.

(** A reader that finds the attic page behind every text, and joins a
    relative URL to the host. *)
Definition attic_reader : Parser.env :=
  Parser.Env (fun _ => inr attic_page)
             (fun base url => inr (base ++ Text.drop 6 url))
             4300
             (fun s => squote ++ s ++ squote).

(* ================================================================== *)
(** * api/auth.py and api/routes.py: the API over the store *)
(* ================================================================== *)

(** The handlers run one at a time in the server process (none of them
    awaits), over the collections [users], [api_keys] and [books], the
    global rate limiter and the clock.  The store is reached through
    pymongo; its [n]-th operation raises when the oracle says so.  A
    pydantic model built from values that have exactly the types of its
    fields keeps them as they are; what pydantic makes of other values
    is left to an oracle.  Integers are not bounded. *)

Module Server.

(** What a handler or a dependency raises: [HTTPException], or any other
    exception. *)
Inductive failure : Type :=
| HTTPException (status_code : Z) (detail : string)
                (headers : list (string * string))
| Error (e : exn).

Inductive outcome (A : Type) : Type :=
| Return (a : A)
| Raise (e : failure).
Arguments Return {A} a.
Arguments Raise {A} e.

(** What the rate limiter raises, as the handlers see it. *)
Definition of_limiter (e : Api.exn) : failure :=
  match e with
  | Api.HTTPException status_code detail headers =>
      HTTPException status_code detail headers
  | Api.ValueError msg => Error (ValueError msg)
  | Api.UnboundLocalError name =>
      Error (OtherException
               ("cannot access local variable " ++ squote ++ name ++ squote
                ++ " where it is not associated with a value"))
  end.

(** routes.py: the response models. *)
Record BookResponse : Type := Build_BookResponse {
  book_id : string;
  book_name : string;
  description : string;
  category : string;
  price_including_tax : spec_float;
  price_excluding_tax : spec_float;
  availability : string;
  number_of_reviews : Z;
  image_url : string;
  rating : Z;
  source_url : string;
  last_updated : string
}.

Record CreateUserResponse : Type := Build_CreateUserResponse {
  created_user_id : string;
  created_username : string;
  created_email : string;
  message : string
}.

Record state : Type := State {
  users : list document;        (* collection users *)
  api_keys : list document;     (* collection api_keys *)
  books : list document;        (* collection books *)
  next_oid : Z;                 (* ObjectId generator *)
  store_ops : nat;              (* store operations so far *)
  tokens : nat;                 (* tokens drawn so far *)
  process : Api.world           (* rate limiter, clock, logger *)
}.

Record env : Type := Env {
  clock : Api.env;
  (** whether the [n]-th store operation raises *)
  store_fault : nat -> bool;
  (** the [n]-th value of [secrets.token_urlsafe(32)] *)
  token_urlsafe : nat -> string;
  (** pydantic on the fields of an [APIKey] and of a [BookResponse] that
      are not all of the exact types: the model, or a validation error *)
  lax_api_key : dict -> option Api.APIKey;
  lax_book : string -> list value -> string -> option BookResponse;
  (** what [bytes.fromhex] makes of 24 characters that are not all
      hexadecimal digits: an id, or [InvalidId] *)
  lax_object_id : string -> option Z
}.

(** ** The monad of a handler *)

Definition M (A : Type) : Type := state -> outcome A * state.

Definition ret {A} (a : A) : M A := fun s => (Return a, s).
Definition raise {A} (e : failure) : M A := fun s => (Raise e, s).

Definition bind {A B} (m : M A) (k : A -> M B) : M B :=
  fun s =>
    match m s with
    | (Return a, s') => k a s'
    | (Raise e, s') => (Raise e, s')
    end.

(** [try: m except HTTPException: raise except Exception as e: h e] *)
Definition except_exception {A} (m : M A) (h : exn -> M A) : M A :=
  fun s =>
    match m s with
    | (Raise (Error e), s') => h e s'
    | r => r
    end.

Notation "x <~ m ;; k" := (bind m (fun x => k))
  (at level 61, m at next level, right associativity).
Notation "m ~~ k" := (bind m (fun _ => k))
  (at level 61, right associativity).

Definition set_process (f : Api.world -> Api.world) (s : state) : state :=
  State (users s) (api_keys s) (books s) (next_oid s) (store_ops s)
        (tokens s) (f (process s)).
Definition set_users (f : list document -> list document) (s : state) : state :=
  State (f (users s)) (api_keys s) (books s) (next_oid s) (store_ops s)
        (tokens s) (process s).
Definition set_api_keys (f : list document -> list document) (s : state)
    : state :=
  State (users s) (f (api_keys s)) (books s) (next_oid s) (store_ops s)
        (tokens s) (process s).

Definition logger (l : level) (msg : string) : M unit :=
  fun s => (Return tt, set_process (Api.logger l msg) s).

(** [datetime.now(timezone.utc)] *)
Definition datetime_now (E : env) : M Z :=
  fun s =>
    (Return (fst (Api.datetime_now (clock E) (process s))),
     set_process (fun p => snd (Api.datetime_now (clock E) p)) s).

(** One store operation. *)
Definition store_op (E : env) : M unit :=
  fun s =>
    let s' := State (users s) (api_keys s) (books s) (next_oid s)
                    (S (store_ops s)) (tokens s) (process s) in
    if store_fault E (store_ops s) then (Raise (Error store_error), s')
    else (Return tt, s').

Definition new_oid : M Z :=
  fun s =>
    (Return (next_oid s),
     State (users s) (api_keys s) (books s) (Z.succ (next_oid s))
           (store_ops s) (tokens s) (process s)).

(** [rate_limiter.check_rate_limit(api_key)] *)
Definition check_rate_limit (E : env) (api_key : Api.APIKey)
    : M Api.RateLimitInfo :=
  fun s =>
    match Api.check_rate_limit (clock E) api_key (process s) with
    | (Api.Return info, p) => (Return info, set_process (fun _ => p) s)
    | (Api.Raise e, p) => (Raise (of_limiter e), set_process (fun _ => p) s)
    end.

(** ** ObjectId *)

Definition hex_value (c : ascii) : option Z :=
  let n := Text.code c in
  if (48 <=? n) && (n <=? 57) then Some (n - 48)
  else if (97 <=? n) && (n <=? 102) then Some (n - 87)
  else if (65 <=? n) && (n <=? 70) then Some (n - 55)
  else None.

(** The number a string of hexadecimal digits spells, from [acc] on. *)
Fixpoint int_of_hex (acc : Z) (s : string) : option Z :=
  match s with
  | String c r =>
      match hex_value c with
      | Some d => int_of_hex (16 * acc + d) r
      | None => None
      end
  | EmptyString => Some acc
  end.

(** [ObjectId(s)] for a [str]: the id, or [None] for [InvalidId].
    [ObjectId.is_valid(s)] holds when there is an id. *)
Definition ObjectId (E : env) (s : string) : option Z :=
  if (String.length s =? 24)%nat then
    match int_of_hex 0 s with
    | Some i => Some i
    | None => lax_object_id E s
    end
  else None.

(** ** The collections *)

Definition field_is (k : string) (v : value) (d : document) : bool :=
  py_eqb (dict_get k (doc_fields d)) v.

(** [collection.find_one({k: v})], [v] a string *)
Definition find_one_by (E : env) (coll : state -> list document)
    (k v : string) : M (option document) :=
  store_op E ~~
  fun s => (Return (find (field_is k (VStr v)) (coll s)), s).

(** [collection.find_one({'_id': i})] *)
Definition find_one_id (E : env) (coll : state -> list document) (i : Z)
    : M (option document) :=
  store_op E ~~
  fun s => (Return (find (fun d => doc_id d =? i) (coll s)), s).

Definition duplicate_key : exn := PyMongoError "duplicate key".

(** [users_collection.insert_one(doc)]: the indexes on [username] and on
    [email] are unique. *)
Definition users_insert_one (E : env) (fields : dict) : M Z :=
  store_op E ~~
  fun s =>
    if existsb (field_is "username" (dict_get "username" fields)) (users s)
       || existsb (field_is "email" (dict_get "email" fields)) (users s)
    then (Raise (Error duplicate_key), s)
    else
      (i <~ new_oid ;;
       (fun s => (Return tt,
                  set_users (fun u => (u ++ [Document i fields])%list) s)) ~~
       ret i) s.

(** [api_keys_collection.insert_one(doc)]: the index on [key] is unique. *)
Definition api_keys_insert_one (E : env) (fields : dict) : M Z :=
  store_op E ~~
  fun s =>
    if existsb (field_is "key" (dict_get "key" fields)) (api_keys s)
    then (Raise (Error duplicate_key), s)
    else
      (i <~ new_oid ;;
       (fun s => (Return tt,
                  set_api_keys (fun u => (u ++ [Document i fields])%list) s)) ~~
       ret i) s.

Definition float_one : spec_float := S754_finite false 4503599627370496 (-52).

(** [$inc] by one: the new value of the field, or [None] when the stored
    value is not a number. *)
Definition inc (v : option value) : option value :=
  match v with
  | None => Some (VInt 1)
  | Some (VInt n) => Some (VInt (n + 1))
  | Some (VFloat f) => Some (VFloat (SFadd 53 1024 f float_one))
  | Some _ => None
  end.

(** The document after
    [{'$set': {'last_used': now}, '$inc': {'request_count': 1}}]. *)
Definition used (now : Z) (fields : dict) : option dict :=
  match inc (dict_lookup "request_count" fields) with
  | Some n =>
      Some (dict_set "request_count" n
              (dict_set "last_used" (VDatetime now) fields))
  | None => None
  end.

Fixpoint mark_used (i : Z) (now : Z) (keys : list document)
    : option (list document) :=
  match keys with
  | [] => Some []
  | d :: r =>
      if doc_id d =? i then
        match used now (doc_fields d) with
        | Some fields => Some (Document (doc_id d) fields :: r)
        | None => None
        end
      else
        match mark_used i now r with
        | Some r' => Some (d :: r')
        | None => None
        end
  end.

(** [api_keys_collection.update_one({'_id': i}, {'$set': ..., '$inc': ...})] *)
Definition api_keys_update_one (E : env) (i : Z) (now : Z) : M unit :=
  store_op E ~~
  fun s =>
    match mark_used i now (api_keys s) with
    | Some keys => (Return tt, set_api_keys (fun _ => keys) s)
    | None =>
        (Raise (Error (PyMongoError
                         "Cannot apply $inc to a value of non-numeric type")), s)
    end.

(** ** The model APIKey *)

(** The model [APIKey] built from the fields of a document that have
    the exact types; [None] otherwise. *)
Definition exact_api_key (doc : dict) : option Api.APIKey :=
  match dict_lookup "_id" doc, dict_lookup "key" doc,
        dict_lookup "user_id" doc, dict_lookup "name" doc,
        dict_lookup "created_at" doc with
  | Some (VStr id), Some (VStr key), Some (VStr user_id), Some (VStr name),
    Some (VDatetime created_at) =>
      match dict_lookup "is_active" doc, dict_lookup "last_used" doc,
            dict_lookup "request_count" doc, dict_lookup "rate_limit" doc,
            dict_lookup "rate_period" doc with
      | Some (VBool is_active), Some last_used, Some (VInt request_count),
        Some (VInt rate_limit), Some (VInt rate_period) =>
          match last_used with
          | VNone =>
              Some (Api.Build_APIKey (Some id) key user_id name is_active
                      created_at None request_count rate_limit rate_period)
          | VDatetime t =>
              Some (Api.Build_APIKey (Some id) key user_id name is_active
                      created_at (Some t) request_count rate_limit rate_period)
          | _ => None
          end
      | _, _, _, _, _ => None
      end
  | _, _, _, _, _ => None
  end.

Definition validation_error : exn := ValueError "validation error for APIKey".

(** The model [APIKey] built from the fields of a document. *)
Definition api_key_model (E : env) (doc : dict) : M Api.APIKey :=
  match exact_api_key doc with
  | Some k => ret k
  | None =>
      match lax_api_key E doc with
      | Some k => ret k
      | None => raise (Error validation_error)
      end
  end.

(** ** auth.py: AuthManager *)

Definition generate_api_key (E : env) : M string :=
  fun s =>
    (Return ("sk_live_" ++ token_urlsafe E (tokens s)),
     State (users s) (api_keys s) (books s) (next_oid s) (store_ops s)
           (S (tokens s)) (process s)).

Definition create_api_key (E : env) (user_id name : string)
    (rate_limit rate_period : Z) : M Api.APIKey :=
  except_exception
    (key <~ generate_api_key E ;;
     now <~ datetime_now E ;;
     let api_key_data :=
       dict_of [ ("key", VStr key);
                 ("user_id", VStr user_id);
                 ("name", VStr name);
                 ("is_active", VBool true);
                 ("created_at", VDatetime now);
                 ("last_used", VNone);
                 ("request_count", VInt 0);
                 ("rate_limit", VInt rate_limit);
                 ("rate_period", VInt rate_period) ] in
     inserted_id <~ api_keys_insert_one E api_key_data ;;
     let api_key_data := dict_set "_id" (VStr (str_oid inserted_id)) api_key_data in
     logger INFO ("Created API key " ++ squote ++ name ++ squote
                  ++ " for user " ++ user_id) ~~
     api_key_model E api_key_data)
    (fun e =>
       logger ERROR ("Error creating API key: " ++ str_exn e) ~~
       raise (Error e)).

Definition bearer : list (string * string) := [("WWW-Authenticate", "Bearer")].

Definition verify_token (E : env) (credentials : option string)
    : M Api.APIKey :=
  match credentials with
  | None =>
      raise (HTTPException 401
               "Missing authentication token. Provide Bearer token in Authorization header."
               bearer)
  | Some token =>
      except_exception
        (key_doc <~ find_one_by E api_keys "key" token ;;
         match key_doc with
         | None => raise (HTTPException 401 "Invalid authentication token" bearer)
         | Some key_doc =>
             if negb (truthy (dict_get "is_active" (doc_fields key_doc))) then
               raise (HTTPException 401 "Authentication token is inactive" bearer)
             else
               now <~ datetime_now E ;;
               api_keys_update_one E (doc_id key_doc) now ~~
               api_key_model E
                 (dict_set "_id" (VStr (str_oid (doc_id key_doc)))
                           (doc_fields key_doc))
         end)
        (fun e =>
           logger ERROR ("Error verifying token: " ++ str_exn e) ~~
           raise (HTTPException 500 "Error verifying authentication token" []))
  end.

Definition create_user (E : env) (username email : string) : M string :=
  except_exception
    (now <~ datetime_now E ;;
     let user_data :=
       dict_of [ ("username", VStr username);
                 ("email", VStr email);
                 ("is_active", VBool true);
                 ("created_at", VDatetime now) ] in
     inserted_id <~ users_insert_one E user_data ;;
     let user_id := str_oid inserted_id in
     logger INFO ("Created user: " ++ username) ~~
     ret user_id)
    (fun e =>
       logger ERROR ("Error creating user: " ++ str_exn e) ~~
       raise (Error e)).

(** ** routes.py *)

Definition register_user (E : env) (username email : string)
    : M CreateUserResponse :=
  except_exception
    (by_name <~ find_one_by E users "username" username ;;
     match by_name with
     | Some _ =>
         raise (HTTPException 400
                  ("Username " ++ squote ++ username ++ squote
                   ++ " already exists") [])
     | None =>
         by_email <~ find_one_by E users "email" email ;;
         match by_email with
         | Some _ =>
             raise (HTTPException 400
                      ("Email " ++ squote ++ email ++ squote
                       ++ " already registered") [])
         | None =>
             user_id <~ create_user E username email ;;
             ret (Build_CreateUserResponse user_id username email
                    ("User " ++ squote ++ username ++ squote
                     ++ " created successfully. Use the user_id to create API keys."))
         end
     end)
    (fun e =>
       logger ERROR ("Error creating user: " ++ str_exn e) ~~
       raise (HTTPException 500 "Error creating user" [])).

Definition item (book_doc : dict) (k : string) : M value :=
  match dict_lookup k book_doc with
  | Some v => ret v
  | None => raise (Error (KeyError k))
  end.

(** [BookResponse(id=..., name=..., ...)]: the model of values of the
    exact types, or what pydantic makes of the others. *)
Definition book_response (E : env) (id : string)
    (name description category price_including_tax price_excluding_tax
     availability number_of_reviews image_url rating source_url : value)
    (last_updated : string) : outcome BookResponse :=
  match name, description, category, price_including_tax, price_excluding_tax,
        availability, number_of_reviews, image_url, rating, source_url with
  | VStr name, VStr description, VStr category, VFloat price_including_tax,
    VFloat price_excluding_tax, VStr availability, VInt number_of_reviews,
    VStr image_url, VInt rating, VStr source_url =>
      Return (Build_BookResponse id name description category
                price_including_tax price_excluding_tax availability
                number_of_reviews image_url rating source_url last_updated)
  | _, _, _, _, _, _, _, _, _, _ =>
      match lax_book E id
              [ name; description; category; price_including_tax;
                price_excluding_tax; availability; number_of_reviews;
                image_url; rating; source_url ] last_updated with
      | Some r => Return r
      | None => Raise (Error (ValueError "validation error for BookResponse"))
      end
  end.

(** [format_book]: [book_doc] with its ['_id']. *)
Definition format_book (E : env) (book : document) : M BookResponse :=
  let book_doc := doc_fields book in
  let id := str_oid (doc_id book) in
  name <~ item book_doc "name" ;;
  description <~ item book_doc "description" ;;
  category <~ item book_doc "category" ;;
  price_including_tax <~ item book_doc "price_including_tax" ;;
  price_excluding_tax <~ item book_doc "price_excluding_tax" ;;
  availability <~ item book_doc "availability" ;;
  number_of_reviews <~ item book_doc "number_of_reviews" ;;
  image_url <~ item book_doc "image_url" ;;
  rating <~ item book_doc "rating" ;;
  source_url <~ item book_doc "source_url" ;;
  let last_updated :=
    match dict_lookup "last_updated" book_doc with
    | Some (VDatetime t) => Api.isoformat (clock E) t
    | Some v => py_str v
    | None => ""
    end in
  fun s =>
    (book_response E id name description category price_including_tax
       price_excluding_tax availability number_of_reviews image_url rating
       source_url last_updated, s).

(** [GET /books/{book_id}], the API key being verified. *)
Definition get_book_by_id (E : env) (book_id : string) (api_key : Api.APIKey)
    : M BookResponse :=
  except_exception
    (check_rate_limit E api_key ~~
     match ObjectId E book_id with
     | None => raise (HTTPException 400 "Invalid book ID format" [])
     | Some oid =>
         book <~ find_one_id E books oid ;;
         match book with
         | None => raise (HTTPException 404 "Book not found" [])
         | Some book => format_book E book
         end
     end)
    (fun e =>
       logger ERROR ("Error fetching book " ++ book_id ++ ": " ++ str_exn e) ~~
       raise (HTTPException 500 "Error fetching book" [])).

(** A request to an endpoint that depends on [verify_token]: the
    dependency runs first, the handler only when it returns. *)
Definition authenticated {A} (E : env) (credentials : option string)
    (handler : Api.APIKey -> M A) : M A :=
  api_key <~ verify_token E credentials ;;
  handler api_key.

(** ** Pagination, lines 340-345 and 449-453 of routes.py *)

(** [skip = (page - 1) * page_size] *)
Definition skip (page page_size : Z) : Z := (page - 1) * page_size.

(** [total_pages = (total + page_size - 1) // page_size] *)
Definition total_pages (total page_size : Z) : Z :=
  (total + page_size - 1) / page_size.

(** [cursor.skip(skip).limit(page_size)] over the sorted matches. *)
Definition page_of {A} (page page_size : Z) (matches : list A) : list A :=
  firstn (Z.to_nat page_size) (skipn (Z.to_nat (skip page page_size)) matches).

End Server.

(** ** Vocabulary of the properties of the API *)

Definition is_str (v : value) : bool :=
  match v with VStr _ => true | _ => false end.
Definition is_int (v : value) : bool :=
  match v with VInt _ => true | _ => false end.
Definition is_float (v : value) : bool :=
  match v with VFloat _ => true | _ => false end.

(** The fields of a book that [format_book] reads, with the types
    [BookResponse] gives them. *)
Definition book_fields : list (string * (value -> bool)) :=
  [ ("name", is_str); ("description", is_str); ("category", is_str);
    ("price_including_tax", is_float); ("price_excluding_tax", is_float);
    ("availability", is_str); ("number_of_reviews", is_int);
    ("image_url", is_str); ("rating", is_int); ("source_url", is_str) ].

(** A dictionary, and a stored book, that has them all. *)
Definition presentable_fields (fields : dict) : Prop :=
  forall k ty, In (k, ty) book_fields ->
    exists v, dict_lookup k fields = Some v /\ ty v = true.

Definition presentable (d : document) : Prop :=
  presentable_fields (doc_fields d).

(** The response shows the stored book. *)
Definition shows (r : Server.BookResponse) (d : document) : Prop :=
  Server.book_id r = str_oid (doc_id d) /\
  dict_lookup "name" (doc_fields d) = Some (VStr (Server.book_name r)) /\
  dict_lookup "description" (doc_fields d) = Some (VStr (Server.description r)) /\
  dict_lookup "category" (doc_fields d) = Some (VStr (Server.category r)) /\
  dict_lookup "price_including_tax" (doc_fields d)
  = Some (VFloat (Server.price_including_tax r)) /\
  dict_lookup "price_excluding_tax" (doc_fields d)
  = Some (VFloat (Server.price_excluding_tax r)) /\
  dict_lookup "availability" (doc_fields d)
  = Some (VStr (Server.availability r)) /\
  dict_lookup "number_of_reviews" (doc_fields d)
  = Some (VInt (Server.number_of_reviews r)) /\
  dict_lookup "image_url" (doc_fields d) = Some (VStr (Server.image_url r)) /\
  dict_lookup "rating" (doc_fields d) = Some (VInt (Server.rating r)) /\
  dict_lookup "source_url" (doc_fields d) = Some (VStr (Server.source_url r)).

(** Each user name and each e-mail address is stored once. *)
Definition users_unique (s : Server.state) : Prop :=
  NoDup (map (fun d => dict_get "username" (doc_fields d)) (Server.users s)) /\
  NoDup (map (fun d => dict_get "email" (doc_fields d)) (Server.users s)).

(** The three collections are as they were. *)
Definition same_collections (s s' : Server.state) : Prop :=
  Server.users s' = Server.users s /\
  Server.api_keys s' = Server.api_keys s /\
  Server.books s' = Server.books s.

(** ** Sample data *)

Definition quiet : Server.env :=
  Server.Env Api.every_second (fun _ => false)
             (fun n => "token" ++ Text.str_int (Z.of_nat n))
             (fun _ => None) (fun _ _ _ => None) (fun _ => None).

Definition empty_server : Server.state :=
  Server.State [] [] [] 1 0 0 Api.start.

(* ================================================================== *)
(** * Proofs *)
(* ================================================================== *)

Local Open Scope list_scope.

(** * Stepping through the monad *)

Ltac run_step :=
  unfold bind, ret, raise, modify, logger, asyncio_sleep, semaphore_release,
    client_get, get_world, datetime_now, new_oid, lift, no_return; cbn.

Lemma same_store_refl w : same_store w w.
Proof. repeat split. Qed.

Lemma same_store_trans w1 w2 w3 :
  same_store w1 w2 -> same_store w2 w3 -> same_store w1 w3.
Proof.
  unfold same_store. intros H1 H2.
  decompose [and] H1. decompose [and] H2. repeat split; congruence.
Qed.

Lemma exists_final (f : nat -> bool) (bound : nat) :
  exists k, (k <= bound)%nat /\
    (forall i, (i < k)%nat -> f i = true) /\ (f k = false \/ k = bound).
Proof.
  induction bound as [|b (k & Hk & Hpre & Hend)].
  - exists 0%nat. repeat split; [lia | intros; lia | now right].
  - destruct Hend as [Hend | ->].
    + exists k. repeat split; [lia | exact Hpre | now left].
    + destruct (f b) eqn:Hb.
      * exists (S b). repeat split; [lia | | now right].
        intros i Hi. destruct (Nat.eq_dec i b) as [->|]; [exact Hb|].
        apply Hpre. lia.
      * exists b. repeat split; [lia | exact Hpre | now left].
Qed.

Section Fetch.
Variable E : env.
Variable url : string.
Variable mr : Z.

Let delay := crawler_retry_delay (cfg E).

(** A request that ends the fetch: a body, a 404, an unexpected error,
    or a failure at the last attempt. *)
Lemma attempt_final n a w :
  0 < sem_value w ->
  transient (http E (http_count w) url) = false \/ a = mr ->
  exists w',
    fetch_attempts E (S n) a mr url w
      = (Ok (body_of (http E (http_count w) url)), w') /\
    http_count w' = S (http_count w) /\
    requests w' = (requests w ++ [url])%list /\
    sleeps w' = sleeps w /\
    sem_value w' = sem_value w /\ same_store w w'.
Proof.
  intros Hsem Hend.
  cbn [fetch_attempts]. unfold bind at 1. unfold semaphore_acquire.
  destruct (0 <? sem_value w) eqn:Hs; [|apply Z.ltb_ge in Hs; lia].
  run_step.
  assert (a = mr -> (a <? mr) = false) as Hlast
    by (intros ->; apply Z.ltb_irrefl).
  destruct (http E (http_count w) url) as [text|code|msg|msg] eqn:Ho; cbn.
  - eexists; split; [reflexivity|]. cbn. unfold same_store. cbn.
    repeat split; lia.
  - destruct (code =? 404) eqn:Hc.
    + eexists; split; [reflexivity|]. cbn. unfold same_store. cbn.
      repeat split; lia.
    + destruct Hend as [Hend|Hend];
        [cbn in Hend; rewrite Hc in Hend; discriminate|].
      rewrite (Hlast Hend).
      eexists; split; [reflexivity|]. cbn. unfold same_store. cbn.
      repeat split; lia.
  - destruct Hend as [Hend|Hend]; [discriminate|].
    rewrite (Hlast Hend).
    eexists; split; [reflexivity|]. cbn. unfold same_store. cbn.
    repeat split; lia.
  - eexists; split; [reflexivity|]. cbn. unfold same_store. cbn.
    repeat split; lia.
Qed.

(** A transient failure before the last attempt: sleep, then go on. *)
Lemma attempt_retry n a w :
  0 < sem_value w ->
  transient (http E (http_count w) url) = true ->
  a < mr ->
  exists w1,
    fetch_attempts E (S n) a mr url w = fetch_attempts E n (a + 1) mr url w1 /\
    http_count w1 = S (http_count w) /\
    requests w1 = (requests w ++ [url])%list /\
    sleeps w1 = (sleeps w ++ [delay * (a + 1)])%list /\
    sem_value w1 = sem_value w /\ same_store w w1.
Proof.
  intros Hsem Htr Ha.
  cbn [fetch_attempts]. unfold bind at 1. unfold semaphore_acquire.
  destruct (0 <? sem_value w) eqn:Hs; [|apply Z.ltb_ge in Hs; lia].
  run_step.
  apply Z.ltb_lt in Ha.
  destruct (http E (http_count w) url) as [text|code|msg|msg] eqn:Ho;
    cbn in Htr; try discriminate.
  - apply negb_true_iff in Htr. rewrite Htr. cbn. rewrite Ha. cbn.
    eexists; split; [reflexivity|]. cbn. unfold same_store. cbn.
    repeat split; lia.
  - rewrite Ha. cbn.
    eexists; split; [reflexivity|]. cbn. unfold same_store. cbn.
    repeat split; lia.
Qed.

Lemma linear_delays_shift (a : Z) (k : nat) :
  (delay * (a + 1) ::
     map (fun i => delay * (a + 1 + Z.of_nat (S i))) (seq 0 k))%list
  = map (fun i => delay * (a + Z.of_nat (S i))) (seq 0 (S k)).
Proof.
  cbn [seq map]. f_equal.
  rewrite <- seq_shift, map_map.
  apply map_ext. intros i. f_equal. lia.
Qed.

(** [k] transient failures, then a request that ends the fetch. *)
Lemma fetch_attempts_spec :
  forall (k n : nat) (a : Z) (w : world),
    0 < sem_value w ->
    (k < n)%nat ->
    a + Z.of_nat k <= mr ->
    (forall i, (i < k)%nat -> transient (http E (http_count w + i) url) = true) ->
    (transient (http E (http_count w + k) url) = false \/ a + Z.of_nat k = mr) ->
    exists w',
      fetch_attempts E n a mr url w
        = (Ok (body_of (http E (http_count w + k) url)), w') /\
      http_count w' = (http_count w + k + 1)%nat /\
      requests w' = (requests w ++ repeat url (k + 1))%list /\
      sleeps w' = (sleeps w ++ map (fun i => delay * (a + Z.of_nat (S i)))
                                   (seq 0 k))%list /\
      sem_value w' = sem_value w /\ same_store w w'.
Proof.
  induction k as [|k IH]; intros n a w Hsem Hn Ha Htr Hend.
  - destruct n as [|n]; [lia|].
    rewrite Nat.add_0_r in *.
    destruct (attempt_final n a w Hsem) as (w' & Hrun & Hc & Hr & Hs & Hv & Hst).
    { destruct Hend; [now left | right; lia]. }
    exists w'. rewrite Hrun, Hc, Hr, Hs, Hv. cbn.
    rewrite app_nil_r.
    repeat (split; [solve [lia | reflexivity]|]). exact Hst.
  - destruct n as [|n]; [lia|].
    destruct (attempt_retry n a w Hsem) as (w1 & Hrun & Hc & Hr & Hs & Hv & Hst).
    { specialize (Htr 0%nat). rewrite Nat.add_0_r in Htr. apply Htr. lia. }
    { lia. }
    destruct (IH n (a + 1) w1) as (w' & Hrun' & Hc' & Hr' & Hs' & Hv' & Hst').
    + lia.
    + lia.
    + lia.
    + intros i Hi. rewrite Hc.
      replace (S (http_count w) + i)%nat with (http_count w + S i)%nat by lia.
      apply Htr. lia.
    + rewrite Hc.
      replace (S (http_count w) + k)%nat with (http_count w + S k)%nat by lia.
      destruct Hend; [now left | right; lia].
    + exists w'. rewrite Hrun, Hrun', Hc', Hr', Hs', Hv', Hc, Hr, Hs, Hv.
      replace (S (http_count w) + k)%nat with (http_count w + S k)%nat by lia.
      split; [reflexivity|].
      split; [lia|].
      split; [rewrite <- app_assoc; reflexivity|].
      split; [rewrite <- app_assoc; cbn [app]; now rewrite linear_delays_shift|].
      split; [reflexivity|].
      eapply same_store_trans; eassumption.
Qed.


End Fetch.

(** C10.  [fetch_with_retry] always returns and never raises, whatever
    the outcomes of its requests, provided the semaphore has a free
    permit.  With [seen] the outcomes of the requests it sent: it sent
    at most [max_retries + 1] of them, every outcome but the last was a
    transient failure, and it returns the body of the last outcome when
    that is a successful response and [None] in every other case (a 404,
    an unexpected exception, a failure at the last attempt, or no request
    at all). *)
Theorem C10_fetch_with_retry_total
    (E : env) (url : string) (max_retries : option Z) (w : world) :
  0 < sem_value w ->
  exists r w',
    fetch_with_retry E url max_retries w = (Ok r, w') /\
    let seen := outcomes_seen E url w w' in
    Z.of_nat (List.length seen) <= Z.max 0 (resolve E max_retries + 1) /\
    Forall (fun o => transient o = true) (removelast seen) /\
    r = match rev seen with
        | o :: _ => body_of o
        | [] => None
        end.
Proof.
  intros Hsem. unfold fetch_with_retry. fold (resolve E max_retries).
  set (mr := resolve E max_retries).
  destruct (Z.to_nat (mr + 1)) as [|n] eqn:Hn.
  - exists None, w. split; [reflexivity|].
    unfold outcomes_seen. rewrite Nat.sub_diag. cbn.
    repeat split; [lia | constructor].
  - destruct (exists_final (fun i => transient (http E (http_count w + i) url)) n)
      as (k & Hk & Hpre & Hend).
    destruct (fetch_attempts_spec E url mr k (S n) 0 w Hsem)
      as (w' & Hrun & Hc & _); try lia; try assumption.
    { destruct Hend as [Hend | ->]; [now left | right; lia]. }
    exists (body_of (http E (http_count w + k) url)), w'.
    split; [exact Hrun|].
    unfold outcomes_seen. rewrite Hc.
    replace (http_count w + k + 1 - http_count w)%nat with (S k) by lia.
    rewrite seq_S, map_app. cbn [map].
    rewrite length_app, length_map, length_seq, removelast_last, rev_unit.
    repeat split.
    + cbn. lia.
    + apply Forall_forall. intros o Ho. apply in_map_iff in Ho.
      destruct Ho as (i & <- & Hi). apply in_seq in Hi.
      replace i with (http_count w + (i - http_count w))%nat by lia.
      apply Hpre. lia.
Qed.

(** C5.  The retry policy of [fetch_with_retry], the semaphore being
    free.  (1) After [k] transient failures, [k] at most the configured
    maximum, and a request that ends the fetch (a non-transient outcome,
    or the last attempt), it has sent [k + 1] requests, has slept
    [d * 1, ..., d * k] for the configured delay [d], and returns the
    body of that last outcome.  (2) A 404 at the first request ends the
    fetch with [None], one request and no sleep.  (3) Two transient
    failures then a success return the content after the sleeps
    [d * 1; d * 2], which increase strictly when [d] is positive. *)
Theorem C5_retry_policy
    (E : env) (url : string) (max_retries : option Z) (w : world) :
  0 < sem_value w ->
  let mr := resolve E max_retries in
  let d := crawler_retry_delay (cfg E) in
  let c := http_count w in
  (forall k : nat,
     Z.of_nat k <= mr ->
     (forall i, (i < k)%nat -> transient (http E (c + i) url) = true) ->
     transient (http E (c + k) url) = false \/ Z.of_nat k = mr ->
     exists w',
       fetch_with_retry E url max_retries w
         = (Ok (body_of (http E (c + k) url)), w') /\
       requests w' = (requests w ++ repeat url (k + 1))%list /\
       sleeps w' = (sleeps w ++ linear_delays d k)%list) /\
  (0 <= mr ->
   http E c url = StatusError 404 ->
   exists w',
     fetch_with_retry E url max_retries w = (Ok None, w') /\
     requests w' = (requests w ++ [url])%list /\
     sleeps w' = sleeps w) /\
  (2 <= mr ->
   forall text,
     transient (http E c url) = true ->
     transient (http E (c + 1) url) = true ->
     http E (c + 2) url = Response text ->
     exists w',
       fetch_with_retry E url max_retries w = (Ok (Some text), w') /\
       requests w' = (requests w ++ [url; url; url])%list /\
       sleeps w' = (sleeps w ++ [d * 1; d * 2])%list /\
       (0 < d -> d * 1 < d * 2)).
Proof.
  intros Hsem mr d c.
  assert (Hgen : forall k : nat,
     Z.of_nat k <= mr ->
     (forall i, (i < k)%nat -> transient (http E (c + i) url) = true) ->
     transient (http E (c + k) url) = false \/ Z.of_nat k = mr ->
     exists w',
       fetch_with_retry E url max_retries w
         = (Ok (body_of (http E (c + k) url)), w') /\
       requests w' = (requests w ++ repeat url (k + 1))%list /\
       sleeps w' = (sleeps w ++ linear_delays d k)%list).
  { intros k Hk Hpre Hend.
    unfold fetch_with_retry. fold (resolve E max_retries). fold mr.
    destruct (fetch_attempts_spec E url mr k (Z.to_nat (mr + 1)) 0 w Hsem)
      as (w' & Hrun & _ & Hr & Hs & _); try lia; try assumption.
    exists w'. repeat split; assumption. }
  split; [exact Hgen|]. split.
  - intros Hmr H404.
    destruct (Hgen 0%nat) as (w' & Hrun & Hr & Hs).
    + lia.
    + intros i Hi. lia.
    + left. rewrite Nat.add_0_r. fold c. now rewrite H404.
    + exists w'. rewrite Nat.add_0_r in Hrun. rewrite H404 in Hrun.
      cbn in Hs. rewrite app_nil_r in Hs. now repeat split.
  - intros Hmr text H0 H1 H2.
    destruct (Hgen 2%nat) as (w' & Hrun & Hr & Hs).
    + lia.
    + intros i Hi.
      destruct i as [|[|i]]; [now rewrite Nat.add_0_r | exact H1 | lia].
    + left. now rewrite H2.
    + exists w'. rewrite H2 in Hrun.
      repeat split; [exact Hrun | exact Hr | exact Hs | lia].
Qed.

(** * Dictionaries *)

Lemma dict_lookup_set k k' v d :
  dict_lookup k (dict_set k' v d)
  = if String.eqb k k' then Some v else dict_lookup k d.
Proof.
  induction d as [|[k0 v0] d IH]; cbn.
  - reflexivity.
  - destruct (String.eqb k' k0) eqn:H0; cbn.
    + apply String.eqb_eq in H0. subst k0.
      destruct (String.eqb k k'); reflexivity.
    + rewrite IH. destruct (String.eqb k k') eqn:H1; [|reflexivity].
      apply String.eqb_eq in H1. subst k'. now rewrite H0.
Qed.

Lemma dict_lookup_update k u : forall d,
  dict_lookup k (dict_update d u)
  = match dict_lookup k (rev u) with
    | Some v => Some v
    | None => dict_lookup k d
    end.
Proof.
  unfold dict_update.
  induction u as [|[k0 v0] u IH]; intros d; cbn.
  - reflexivity.
  - rewrite IH, dict_lookup_set.
    assert (Happ : forall l, dict_lookup k (l ++ [(k0, v0)])
       = match dict_lookup k l with
         | Some v => Some v
         | None => if String.eqb k k0 then Some v0 else None
         end).
    { induction l as [|[k1 v1] l IHl]; cbn; [reflexivity|].
      destruct (String.eqb k k1); [reflexivity | exact IHl]. }
    rewrite Happ.
    destruct (dict_lookup k (rev u)); [reflexivity|].
    destruct (String.eqb k k0); reflexivity.
Qed.

Lemma dict_get_update_other k u d :
  dict_lookup k (rev u) = None ->
  dict_get k (dict_update d u) = dict_get k d.
Proof. intros H. unfold dict_get. now rewrite dict_lookup_update, H. Qed.

(** * The content hash reads the relevant fields only *)

Lemma content_items_ext (ks : list string) d1 d2 :
  (forall k, In k ks -> dict_lookup k d1 = dict_lookup k d2) ->
  map (fun k => (k, dict_get k d1)) (filter (fun k => dict_mem k d1) ks)
  = map (fun k => (k, dict_get k d2)) (filter (fun k => dict_mem k d2) ks).
Proof.
  induction ks as [|k ks IH]; intros H; [reflexivity|].
  assert (Hk : dict_lookup k d1 = dict_lookup k d2) by (apply H; now left).
  assert (Hm : dict_mem k d1 = dict_mem k d2) by (unfold dict_mem; now rewrite Hk).
  assert (Hg : dict_get k d1 = dict_get k d2) by (unfold dict_get; now rewrite Hk).
  assert (Hr := IH (fun k' Hk' => H k' (or_intror Hk'))).
  cbn [filter]. rewrite Hm.
  destruct (dict_mem k d2); cbn [map]; now rewrite ?Hg, Hr.
Qed.

Lemma content_dict_ext d1 d2 :
  (forall k, In k relevant_fields -> dict_lookup k d1 = dict_lookup k d2) ->
  content_dict d1 = content_dict d2.
Proof.
  intros H. unfold content_dict. f_equal. now apply content_items_ext.
Qed.

Lemma dict_lookup_perm d d' k :
  NoDup (map fst d) -> Permutation d d' ->
  dict_lookup k d = dict_lookup k d'.
Proof.
  intros Hnd Hp. induction Hp as [|[k0 v0] l l' Hp IH|[k0 v0] [k1 v1] l|l l' l'' Hp1 IH1 Hp2 IH2].
  - reflexivity.
  - cbn. inversion Hnd; subst. now rewrite IH.
  - cbn. destruct (String.eqb k k1) eqn:H1, (String.eqb k k0) eqn:H0; try reflexivity.
    apply String.eqb_eq in H1, H0. subst.
    inversion Hnd; subst. exfalso. apply H1. now left.
  - rewrite IH1 by assumption. apply IH2.
    eapply Permutation_NoDup; [|exact Hnd]. now apply Permutation_map.
Qed.

(** C7.  The content hash is a function of the eight relevant fields
    only: two dictionaries that agree on them (same presence, same
    value) have the same hash; so do a dictionary and any reordering of
    it, and a dictionary and its update at any other field. *)
Theorem C7_content_hash_canonical :
  (forall d1 d2 : dict,
     (forall k, In k relevant_fields -> dict_lookup k d1 = dict_lookup k d2) ->
     compute_content_hash d1 = compute_content_hash d2) /\
  (forall d d' : dict,
     NoDup (map fst d) -> Permutation d d' ->
     compute_content_hash d = compute_content_hash d') /\
  (forall (d : dict) (k : string) (v : value),
     ~ In k relevant_fields ->
     compute_content_hash (dict_set k v d) = compute_content_hash d).
Proof.
  assert (Hmain : forall d1 d2 : dict,
     (forall k, In k relevant_fields -> dict_lookup k d1 = dict_lookup k d2) ->
     compute_content_hash d1 = compute_content_hash d2).
  { intros d1 d2 H. unfold compute_content_hash.
    now rewrite (content_dict_ext d1 d2 H). }
  split; [exact Hmain|]. split.
  - intros d d' Hnd Hp. apply Hmain. intros k _.
    now apply dict_lookup_perm.
  - intros d k v Hk. apply Hmain. intros k' Hk'.
    rewrite dict_lookup_set.
    destruct (String.eqb k' k) eqn:He; [|reflexivity].
    apply String.eqb_eq in He. subst. contradiction.
Qed.

(** * Well-formed dictionaries: each key once *)

Lemma dict_set_keys k v d :
  map fst (dict_set k v d)
  = if dict_mem k d then map fst d else map fst d ++ [k].
Proof.
  unfold dict_mem.
  induction d as [|[k0 v0] d IH]; cbn; [reflexivity|].
  destruct (String.eqb k k0) eqn:H0; cbn.
  - apply String.eqb_eq in H0. now subst.
  - rewrite IH. now destruct (dict_lookup k d).
Qed.

Lemma dict_lookup_none_keys k d :
  dict_lookup k d = None -> ~ In k (map fst d).
Proof.
  induction d as [|[k0 v0] d IH]; cbn; [tauto|].
  destruct (String.eqb k k0) eqn:H0; [discriminate|].
  apply String.eqb_neq in H0. intros H [Hk|Hk]; [congruence | now apply IH].
Qed.

Lemma dict_set_nodup k v d :
  NoDup (map fst d) -> NoDup (map fst (dict_set k v d)).
Proof.
  intros H. rewrite dict_set_keys. unfold dict_mem.
  destruct (dict_lookup k d) eqn:Hk; [exact H|].
  apply NoDup_app; [exact H | repeat constructor; intros [] | ].
  intros a Ha [<-|[]]. now apply (dict_lookup_none_keys _ _ Hk).
Qed.

Lemma dict_update_nodup u : forall d,
  NoDup (map fst d) -> NoDup (map fst (dict_update d u)).
Proof.
  unfold dict_update.
  induction u as [|[k v] u IH]; intros d H; cbn; [exact H|].
  apply IH. now apply dict_set_nodup.
Qed.

Lemma dict_lookup_app k d1 d2 :
  dict_lookup k (d1 ++ d2)
  = match dict_lookup k d1 with
    | Some v => Some v
    | None => dict_lookup k d2
    end.
Proof.
  induction d1 as [|[k0 v0] d1 IH]; cbn; [reflexivity|].
  now destruct (String.eqb k k0).
Qed.

Lemma dict_lookup_rev k u :
  NoDup (map fst u) -> dict_lookup k (rev u) = dict_lookup k u.
Proof.
  induction u as [|[k0 v0] u IH]; intros H; cbn; [reflexivity|].
  inversion H as [|? ? Hnin Hnd]; subst.
  rewrite dict_lookup_app, IH by assumption. cbn.
  destruct (String.eqb k k0) eqn:H0.
  - apply String.eqb_eq in H0. subst k0.
    destruct (dict_lookup k u) eqn:Hk; [|reflexivity].
    exfalso. apply Hnin. clear - Hk.
    induction u as [|[k1 v1] u IH]; cbn in *; [discriminate|].
    destruct (String.eqb k k1) eqn:H1.
    + apply String.eqb_eq in H1. now left.
    + right. now apply IH.
  - now destruct (dict_lookup k u).
Qed.

(** Reading a dictionary after [d.update(u)]. *)
Lemma dict_lookup_update_dict k d u :
  NoDup (map fst u) ->
  dict_lookup k (dict_update d u)
  = match dict_lookup k u with
    | Some v => Some v
    | None => dict_lookup k d
    end.
Proof. intros H. now rewrite dict_lookup_update, dict_lookup_rev. Qed.

(** * The collection [books] *)

Lemma find_set_fields (f : document -> bool) (u : dict) (l : list document)
    (ex : document) :
  NoDup (map doc_id l) ->
  find f l = Some ex ->
  f (Document (doc_id ex) (dict_update (doc_fields ex) u)) = true ->
  find f (set_fields_of (doc_id ex) u l)
  = Some (Document (doc_id ex) (dict_update (doc_fields ex) u)).
Proof.
  intros Hnd Hfind Hf.
  induction l as [|d l IH]; cbn in *; [discriminate|].
  inversion Hnd as [|? ? Hnin Hnd']; subst.
  destruct (f d) eqn:Hd.
  - inversion Hfind; subst d. rewrite Z.eqb_refl. cbn. now rewrite Hf.
  - destruct (doc_id d =? doc_id ex) eqn:Hid.
    + exfalso. apply Hnin. apply Z.eqb_eq in Hid. rewrite Hid.
      apply in_map. apply find_some in Hfind. tauto.
    + cbn. rewrite Hd. now apply IH.
Qed.

Ltac msimpl :=
  cbv beta iota zeta delta
      [bind ret raise modify logger datetime_now io_op new_oid lift get_world
       try_except no_return asyncio_sleep semaphore_release client_get
       negb is_empty
       set_books set_changes set_crawler_state set_html_files set_next_oid
       set_clock set_io_count set_http set_sleeps set_sem_value
       set_visited_urls set_log];
  cbn [fst snd books changes crawler_state html_files next_oid clock io_count
       http_count requests sleeps sem_value visited_urls log].

Ltac munfold :=
  unfold save_book, _log_changes, _log_new_book, get_crawl_state,
    update_crawl_state, save_html_snapshot, books_find_one, books_insert_one,
    books_update_one, changes_insert_one, state_find_one, state_update_one,
    getitem.

Ltac fault_case :=
  match goal with
  | |- context [io_fault ?E ?n] => destruct (io_fault E n) eqn:?
  end.

(** * save_book *)

Section SaveBook.
Variable E : env.

Lemma save_book_unchanged data html w url existing h :
  dict_lookup "source_url" data = Some (VStr url) ->
  find (has_source_url (VStr url)) (books w) = Some existing ->
  compute_content_hash data = Ok h ->
  py_eqb (dict_get "content_hash" (doc_fields existing)) (VStr h) = true ->
  books (snd (save_book E data html w)) = books w /\
  changes (snd (save_book E data html w)) = changes w.
Proof.
  intros Hurl Hfind Hhash Heq.
  munfold. msimpl. rewrite Hurl. msimpl.
  fault_case; msimpl; rewrite Hhash; msimpl.
  all: fault_case; msimpl; [now split|].
  all: rewrite Hfind; msimpl; rewrite Heq; msimpl.
  all: destruct (dict_lookup "name" data); msimpl; now split.
Qed.

Hypothesis Hrel : reliable E.

Ltac reliable_run :=
  repeat (match goal with
          | |- context [io_fault E ?n] => rewrite (Hrel n)
          end; msimpl).

Lemma find_none_existsb {A} (f : A -> bool) l :
  find f l = None -> existsb f l = false.
Proof.
  induction l as [|x l IH]; cbn; [reflexivity|].
  destruct (f x); [discriminate | exact IH].
Qed.

Lemma save_book_new data html w url name h :
  dict_lookup "source_url" data = Some (VStr url) ->
  dict_lookup "name" data = Some name ->
  compute_content_hash data = Ok h ->
  find (has_source_url (VStr url)) (books w) = None ->
  exists w' t1 t2 path cid ts,
    let fields :=
      dict_update data
        [ ("crawl_timestamp", VDatetime t1);
          ("last_updated", VDatetime t2);
          ("status", VStr "active");
          ("content_hash", VStr h);
          ("html_snapshot_path", VStr path) ] in
    save_book E data html w = (Ok (Some (str_oid (next_oid w))), w') /\
    books w' = books w ++ [Document (next_oid w) fields] /\
    changes w'
      = changes w ++ [ChangeLog cid (str_oid (next_oid w)) name "new" [] ts].
Proof.
  intros Hurl Hname Hhash Hfind.
  assert (Hsrc : forall u, rev u = rev u ->
            dict_lookup "source_url" (rev u) = None ->
            dict_get "source_url" (dict_update data u) = VStr url).
  { intros u _ Hu. unfold dict_get. now rewrite dict_lookup_update, Hu, Hurl. }
  munfold. msimpl. rewrite Hurl. msimpl. reliable_run. msimpl.
  rewrite Hhash. msimpl. reliable_run. msimpl. rewrite Hfind. msimpl. reliable_run. msimpl.
  rewrite Hsrc by reflexivity.
  rewrite (find_none_existsb _ _ Hfind). msimpl.
  rewrite Hname. msimpl. reliable_run. msimpl.
  do 6 eexists. cbn zeta. repeat split; reflexivity.
Qed.

Lemma save_book_changed data html w url name h existing :
  dict_lookup "source_url" data = Some (VStr url) ->
  dict_lookup "name" data = Some name ->
  compute_content_hash data = Ok h ->
  find (has_source_url (VStr url)) (books w) = Some existing ->
  py_eqb (dict_get "content_hash" (doc_fields existing)) (VStr h) = false ->
  let changed := diff_fields tracked_fields (doc_fields existing) data in
  exists w' t path cid ts,
    save_book E data html w = (Ok (Some (str_oid (doc_id existing))), w') /\
    clock w <= t /\
    books w'
      = set_fields_of (doc_id existing)
          (dict_update data
             [ ("content_hash", VStr h);
               ("last_updated", VDatetime t);
               ("html_snapshot_path", VStr path) ])
          (books w) /\
    changes w'
      = changes w
        ++ (if is_empty changed then []
            else [ChangeLog cid (str_oid (doc_id existing)) name
                            "updated" changed ts]).
Proof.
  intros Hurl Hname Hhash Hfind Hneq changed.
  munfold. msimpl. rewrite Hurl. msimpl. reliable_run. msimpl.
  rewrite Hhash. msimpl. reliable_run. msimpl. rewrite Hfind. msimpl.
  rewrite Hneq. msimpl. fold changed.
  destruct changed as [|c cs]; msimpl.
  - reliable_run. msimpl. rewrite Hname. msimpl.
    do 3 eexists. exists 0, 0. split; [reflexivity|]. cbn.
    split; [|split; [reflexivity | now rewrite app_nil_r]]. lia.
  - rewrite Hname. msimpl. reliable_run. rewrite ?Hname. msimpl.
    do 5 eexists. split; [reflexivity|]. cbn.
    split; [|split; reflexivity]. lia.
Qed.

End SaveBook.

Lemma diff_fields_spec fs old new f o n :
  In (f, (o, n)) (diff_fields fs old new) <->
  In f fs /\ o = dict_get f old /\ n = dict_get f new /\ py_eqb o n = false.
Proof.
  induction fs as [|g fs IH]; cbn.
  - tauto.
  - destruct (py_eqb (dict_get g old) (dict_get g new)) eqn:Hg; cbn.
    + rewrite IH. split.
      * intros (Hin & Ho & Hn & Hne). auto.
      * intros ([->|Hin] & Ho & Hn & Hne); [subst; congruence | auto].
    + rewrite IH. split.
      * intros [Heq|(Hin & Ho & Hn & Hne)].
        -- inversion Heq; subst. auto.
        -- auto.
      * intros ([->|Hin] & -> & -> & Hne); [now left | right; auto].
Qed.

Lemma diff_fields_keys fs old new f :
  In f (map fst (diff_fields fs old new)) -> In f fs.
Proof.
  intros H. apply in_map_iff in H. destruct H as ([g [o n]] & <- & Hin).
  now apply diff_fields_spec in Hin.
Qed.

Lemma find_app_last {A} (f : A -> bool) l x :
  find f l = None -> f x = true -> find f (l ++ [x]) = Some x.
Proof.
  intros Hn Hx. induction l as [|y l IH]; cbn in *; [now rewrite Hx|].
  destruct (f y); [discriminate | now apply IH].
Qed.

Lemma count_type_app ty l1 l2 :
  count_type ty (l1 ++ l2) = (count_type ty l1 + count_type ty l2)%nat.
Proof. unfold count_type. now rewrite filter_app, length_app. Qed.

(** C4.  (1) When the key of a record is stored with a content hash equal
    to the computed one, [save_book] changes neither the collection
    [books] nor the collection [changes], whatever the store does.
    (2) With a reliable store, saving the same record twice, its key
    absent at first, appends exactly one event, of type new with no
    changed field: one more new event, no more updated event, and the
    second call leaves [books] as the first left it. *)
Theorem C4_upsert_idempotent (E : env) :
  (forall data html w url existing h,
     dict_lookup "source_url" data = Some (VStr url) ->
     find (has_source_url (VStr url)) (books w) = Some existing ->
     compute_content_hash data = Ok h ->
     py_eqb (dict_get "content_hash" (doc_fields existing)) (VStr h) = true ->
     books (snd (save_book E data html w)) = books w /\
     changes (snd (save_book E data html w)) = changes w) /\
  (reliable E ->
   forall data html1 html2 w url name h,
     dict_lookup "source_url" data = Some (VStr url) ->
     dict_lookup "name" data = Some name ->
     compute_content_hash data = Ok h ->
     find (has_source_url (VStr url)) (books w) = None ->
     let w1 := snd (save_book E data html1 w) in
     let w2 := snd (save_book E data html2 w1) in
     (exists ev, changes w2 = changes w ++ [ev] /\
                 change_type ev = "new" /\ changed_fields ev = []) /\
     count_type "new" (changes w2) = S (count_type "new" (changes w)) /\
     count_type "updated" (changes w2) = count_type "updated" (changes w) /\
     books w2 = books w1).
Proof.
  split.
  - intros data html w url existing h. apply save_book_unchanged.
  - intros Hrel data html1 html2 w url name h Hurl Hname Hhash Hfind w1 w2.
    destruct (save_book_new E Hrel data html1 w url name h Hurl Hname Hhash Hfind)
      as (w' & t1 & t2 & path & cid & ts & Hrun & Hbooks & Hchanges).
    cbv zeta in Hrun, Hbooks, Hchanges.
    assert (Hw1 : w1 = w') by (unfold w1; now rewrite Hrun).
    set (fields := dict_update data _) in Hbooks.
    assert (Hfind1 : find (has_source_url (VStr url)) (books w1)
                     = Some (Document (next_oid w) fields)).
    { rewrite Hw1, Hbooks. apply find_app_last; [exact Hfind|].
      unfold has_source_url, dict_get. cbn [doc_fields].
      unfold fields. rewrite dict_lookup_update.
      replace (dict_lookup "source_url" (rev _)) with (@None value)
        by reflexivity.
      rewrite Hurl. cbn [py_eqb]. apply String.eqb_refl. }
    assert (Hstored : py_eqb (dict_get "content_hash"
                                (doc_fields (Document (next_oid w) fields)))
                             (VStr h) = true).
    { unfold dict_get. cbn [doc_fields]. unfold fields.
      rewrite dict_lookup_update.
      replace (dict_lookup "content_hash" (rev _)) with (Some (VStr h))
        by reflexivity.
      cbn [py_eqb]. apply String.eqb_refl. }
    destruct (save_book_unchanged E data html2 w1 url _ h Hurl Hfind1 Hhash Hstored)
      as (Hb2 & Hc2).
    fold w2 in Hb2, Hc2. rewrite Hc2, Hw1, Hchanges.
    repeat split.
    + eexists. repeat split.
    + rewrite count_type_app. clear. cbn. lia.
    + rewrite count_type_app. clear. cbn. lia.
    + now rewrite Hb2, Hw1.
Qed.


Section Changed.
Variable E : env.
Hypothesis Hrel : reliable E.

(** The record read back after an update. *)
Lemma stored_after_update data url h t path w existing :
  dict_lookup "source_url" data = Some (VStr url) ->
  find (has_source_url (VStr url)) (books w) = Some existing ->
  NoDup (map doc_id (books w)) ->
  NoDup (map fst data) ->
  let update_data :=
    dict_update data
      [ ("content_hash", VStr h);
        ("last_updated", VDatetime t);
        ("html_snapshot_path", VStr path) ] in
  exists stored,
    find (has_source_url (VStr url))
         (set_fields_of (doc_id existing) update_data (books w)) = Some stored /\
    doc_id stored = doc_id existing /\
    dict_lookup "content_hash" (doc_fields stored) = Some (VStr h) /\
    dict_lookup "last_updated" (doc_fields stored) = Some (VDatetime t) /\
    forall k v,
      dict_lookup k data = Some v ->
      k <> "content_hash" -> k <> "last_updated" ->
      k <> "html_snapshot_path" ->
      dict_lookup k (doc_fields stored) = Some v.
Proof.
  intros Hurl Hfind Hids Hkeys update_data.
  assert (Hnd : NoDup (map fst update_data))
    by (apply dict_update_nodup; exact Hkeys).
  assert (Hup : forall k,
            dict_lookup k update_data
            = match dict_lookup k
                      (rev [ ("content_hash", VStr h);
                             ("last_updated", VDatetime t);
                             ("html_snapshot_path", VStr path) ]) with
              | Some v => Some v
              | None => dict_lookup k data
              end)
    by (intros k; apply dict_lookup_update).
  exists (Document (doc_id existing)
                   (dict_update (doc_fields existing) update_data)).
  split; [|split; [reflexivity|]].
  - apply find_set_fields; [exact Hids | exact Hfind |].
    unfold has_source_url, dict_get. cbn [doc_fields].
    rewrite dict_lookup_update_dict, Hup by exact Hnd.
    cbn [rev app dict_lookup String.eqb Ascii.eqb Bool.eqb].
    rewrite Hurl. cbn [py_eqb]. apply String.eqb_refl.
  - cbn [doc_fields]. repeat split.
    + rewrite dict_lookup_update_dict, Hup by exact Hnd. reflexivity.
    + rewrite dict_lookup_update_dict, Hup by exact Hnd. reflexivity.
    + intros k v Hk H1 H2 H3.
      rewrite dict_lookup_update_dict, Hup by exact Hnd.
      cbn [rev app dict_lookup].
      apply String.eqb_neq in H1, H2, H3. rewrite H1, H2, H3.
      now rewrite Hk.
Qed.

End Changed.

Lemma hash_attic_51_77 :
  compute_content_hash (attic float_51_77)
  = Ok "68ae923d54d9f320b7b23bbe6b652c7602c9657176e7c51bc5cfe3388500b5bd".
Proof. vm_compute. reflexivity. Qed.

Lemma hash_attic_49_99 :
  compute_content_hash (attic float_49_99)
  = Ok "fc79f94ec447ccabe957fd226b7152f48f4e6fd6c150fc8049eacb856a565ea5".
Proof. vm_compute. reflexivity. Qed.

(** C3, as amended.  With a reliable store, when the key of a record is
    stored with a content hash that differs from the computed one:
    (1) [save_book] updates the stored record (the new field values, the
    new hash, a new last-updated time) and appends an updated event
    exactly when the list [changed] of differing tracked fields is not
    empty, the event carrying [changed]; (2) [changed] holds exactly the
    tracked fields whose old and new values differ; (3) the record
    stored at 51.77 and saved again at 49.99 yields exactly one updated
    event whose changed fields are the price including tax, old 51.77,
    new 49.99. *)
Theorem C3_update_logs_tracked_changes (E : env) :
  reliable E ->
  (forall data html w url name h existing,
     dict_lookup "source_url" data = Some (VStr url) ->
     dict_lookup "name" data = Some name ->
     compute_content_hash data = Ok h ->
     find (has_source_url (VStr url)) (books w) = Some existing ->
     py_eqb (dict_get "content_hash" (doc_fields existing)) (VStr h) = false ->
     let changed := diff_fields tracked_fields (doc_fields existing) data in
     exists w' t path cid ts,
       save_book E data html w = (Ok (Some (str_oid (doc_id existing))), w') /\
       clock w <= t /\
       books w'
         = set_fields_of (doc_id existing)
             (dict_update data
                [ ("content_hash", VStr h);
                  ("last_updated", VDatetime t);
                  ("html_snapshot_path", VStr path) ])
             (books w) /\
       changes w'
         = changes w
           ++ (if is_empty changed then []
               else [ChangeLog cid (str_oid (doc_id existing)) name
                               "updated" changed ts]) /\
       (NoDup (map doc_id (books w)) -> NoDup (map fst data) ->
        exists stored,
          find (has_source_url (VStr url)) (books w') = Some stored /\
          doc_id stored = doc_id existing /\
          dict_lookup "content_hash" (doc_fields stored) = Some (VStr h) /\
          dict_lookup "last_updated" (doc_fields stored) = Some (VDatetime t) /\
          forall k v,
            dict_lookup k data = Some v ->
            k <> "content_hash" -> k <> "last_updated" ->
            k <> "html_snapshot_path" ->
            dict_lookup k (doc_fields stored) = Some v)) /\
  (forall old new f o n,
     In (f, (o, n)) (diff_fields tracked_fields old new) <->
     In f tracked_fields /\ o = dict_get f old /\ n = dict_get f new /\
     py_eqb o n = false) /\
  (forall html1 html2 w,
     find (has_source_url (VStr attic_url)) (books w) = None ->
     let w1 := snd (save_book E (attic float_51_77) html1 w) in
     let w2 := snd (save_book E (attic float_49_99) html2 w1) in
     exists ev,
       changes w2 = changes w1 ++ [ev] /\
       change_type ev = "updated" /\
       changed_fields ev
       = [("price_including_tax", (VFloat float_51_77, VFloat float_49_99))]).
Proof.
  intros Hrel. split; [|split].
  - intros data html w url name h existing Hurl Hname Hhash Hfind Hneq changed.
    destruct (save_book_changed E Hrel data html w url name h existing
                Hurl Hname Hhash Hfind Hneq)
      as (w' & t & path & cid & ts & Hrun & Ht & Hbooks & Hchanges).
    exists w', t, path, cid, ts.
    repeat (split; [assumption|]).
    intros Hids Hkeys. rewrite Hbooks.
    now apply stored_after_update.
  - intros old new f o n. apply diff_fields_spec.
  - intros html1 html2 w Hfind w1 w2.
    destruct (save_book_new E Hrel (attic float_51_77) html1 w attic_url
                (VStr "A Light in the Attic") _ eq_refl eq_refl
                hash_attic_51_77 Hfind)
      as (w' & t1 & t2 & path & cid & ts & Hrun & Hbooks & Hchanges).
    cbv zeta in Hrun, Hbooks, Hchanges.
    assert (Hw1 : w1 = w') by (unfold w1; now rewrite Hrun).
    set (fields := dict_update (attic float_51_77) _) in Hbooks.
    assert (Hfind1 : find (has_source_url (VStr attic_url)) (books w1)
                     = Some (Document (next_oid w) fields)).
    { rewrite Hw1, Hbooks. apply find_app_last; [exact Hfind|].
      vm_compute. reflexivity. }
    destruct (save_book_changed E Hrel (attic float_49_99) html2 w1 attic_url
                (VStr "A Light in the Attic") _ _ eq_refl eq_refl
                hash_attic_49_99 Hfind1)
      as (w'' & t & path' & cid' & ts' & Hrun' & _ & _ & Hchanges').
    { vm_compute. reflexivity. }
    assert (Hw2 : w2 = w'') by (unfold w2; now rewrite Hrun').
    rewrite Hw2, Hchanges'.
    replace (diff_fields tracked_fields
               (doc_fields (Document (next_oid w) fields)) (attic float_49_99))
      with [("price_including_tax", (VFloat float_51_77, VFloat float_49_99))]
      by (vm_compute; reflexivity).
    cbn [is_empty]. eexists. repeat split.
Qed.

(** C3, witness: the plain site and an empty store. *)
Lemma C3_update_logs_tracked_changes_witness :
  exists ev,
    changes (snd (save_book demo (attic float_49_99) "<html>"
                    (snd (save_book demo (attic float_51_77) "<html>"
                            (fresh_world demo)))))
    = changes (snd (save_book demo (attic float_51_77) "<html>"
                      (fresh_world demo))) ++ [ev] /\
    change_type ev = "updated" /\
    changed_fields ev
    = [("price_including_tax", (VFloat float_51_77, VFloat float_49_99))].
Proof.
  apply (proj2 (proj2 (C3_update_logs_tracked_changes demo
                         (fun n => eq_refl)))
           "<html>" "<html>" (fresh_world demo)).
  reflexivity.
Defined.


(** C4, witness: the attic record saved again, unchanged. *)
Lemma C4_upsert_idempotent_witness :
  books (snd (save_book demo (attic float_51_77) "<html>" attic_world))
  = books attic_world /\
  changes (snd (save_book demo (attic float_51_77) "<html>" attic_world))
  = changes attic_world.
Proof.
  apply (proj1 (C4_upsert_idempotent demo) (attic float_51_77) "<html>"
           attic_world attic_url
           (hd (Document 0 []) (books attic_world))
           "68ae923d54d9f320b7b23bbe6b652c7602c9657176e7c51bc5cfe3388500b5bd").
  - reflexivity.
  - vm_compute. reflexivity.
  - exact hash_attic_51_77.
  - vm_compute. reflexivity.
Defined.

(** C3, counterexample.  Only the name of the stored record changes: the
    computed hash differs from the stored one and the record is updated,
    yet no event is appended. *)
Lemma C3_counterexample :
  dict_get "content_hash" (doc_fields (hd (Document 0 []) (books attic_world)))
  = VStr "68ae923d54d9f320b7b23bbe6b652c7602c9657176e7c51bc5cfe3388500b5bd" /\
  compute_content_hash attic_renamed
  = Ok "6a321393213e711aaa7ddbafaa2a356120928b7727d3a65d0523e0711d49f685" /\
  fst (save_book demo attic_renamed "<html>" attic_world)
  = Ok (Some "000000000000000000000001") /\
  map (fun d => dict_get "name" (doc_fields d))
      (books (snd (save_book demo attic_renamed "<html>" attic_world)))
  = [VStr "A Light in the Attic (2nd ed.)"] /\
  changes (snd (save_book demo attic_renamed "<html>" attic_world))
  = changes attic_world /\
  count_type "updated"
    (changes (snd (save_book demo attic_renamed "<html>" attic_world)))
  = 0%nat.
Proof. vm_compute. repeat split. Qed.

(** * Relations every step of a run preserves *)

Create HintDb preserve discriminated.

Section Preserve.
Variable R : world -> world -> Prop.
Hypothesis R_refl : forall w, R w w.
Hypothesis R_trans : forall a b c, R a b -> R b c -> R a c.

Lemma preserves_ret {A} (a : A) : preserves R (ret a).
Proof. intros w. apply R_refl. Qed.

Lemma preserves_raise {A} (e : exn) : preserves R (@raise A e).
Proof. intros w. apply R_refl. Qed.

Lemma preserves_no_return {A} (s : stuck) : preserves R (@no_return A s).
Proof. intros w. apply R_refl. Qed.

Lemma preserves_lift {A} (r : result A) : preserves R (lift r).
Proof. intros w. apply R_refl. Qed.

Lemma preserves_get_world : preserves R get_world.
Proof. intros w. apply R_refl. Qed.

Lemma preserves_modify f : (forall w, R w (f w)) -> preserves R (modify f).
Proof. intros H w. apply H. Qed.

Lemma preserves_bind {A B} (m : M A) (k : A -> M B) :
  preserves R m -> (forall a, preserves R (k a)) -> preserves R (bind m k).
Proof.
  intros Hm Hk w. unfold bind. specialize (Hm w).
  destruct (m w) as [[a|e|s] w']; cbn in *; try assumption.
  eapply R_trans; [exact Hm | apply Hk].
Qed.

(** The state when a computation is over comes after the state when its
    first part is over. *)
Lemma after_bind {A B} (m : M A) (k : A -> M B) w :
  (forall a, preserves R (k a)) -> R (snd (m w)) (snd (bind m k w)).
Proof.
  intros Hk. unfold bind.
  destruct (m w) as [[a|e|s] w']; cbn; [apply Hk | apply R_refl..].
Qed.

Lemma after_try {A} (m : M A) (h : exn -> M A) w :
  (forall e, preserves R (h e)) -> R (snd (m w)) (snd (try_except m h w)).
Proof.
  intros Hh. unfold try_except.
  destruct (m w) as [[a|e|s] w']; cbn; [apply R_refl | apply Hh | apply R_refl].
Qed.

Lemma preserves_try {A} (m : M A) (h : exn -> M A) :
  preserves R m -> (forall e, preserves R (h e)) -> preserves R (try_except m h).
Proof.
  intros Hm Hh w. unfold try_except. specialize (Hm w).
  destruct (m w) as [[a|e|s] w']; cbn in *; try assumption.
  eapply R_trans; [exact Hm | apply Hh].
Qed.

(** The fields the relation does not look at. *)
Hypothesis R_log : forall f w, R w (set_log f w).
Hypothesis R_clock : forall f w, R w (set_clock f w).
Hypothesis R_io_count : forall f w, R w (set_io_count f w).
Hypothesis R_next_oid : forall f w, R w (set_next_oid f w).
Hypothesis R_visited : forall f w, R w (set_visited_urls f w).
Hypothesis R_files : forall f w, R w (set_html_files f w).
Hypothesis R_books : forall f w, R w (set_books f w).
Hypothesis R_state : forall f w, R w (set_crawler_state f w).

Lemma preserves_logger l msg : preserves R (logger l msg).
Proof. apply preserves_modify, R_log. Qed.

Lemma preserves_datetime_now : preserves R datetime_now.
Proof. intros w. apply R_clock. Qed.

Lemma preserves_new_oid : preserves R new_oid.
Proof. intros w. apply R_next_oid. Qed.

Lemma preserves_io_op E e : preserves R (io_op E e).
Proof. intros w. unfold io_op. destruct (io_fault E _); apply R_io_count. Qed.

Lemma preserves_visited_add url : preserves R (visited_add url).
Proof. apply preserves_modify, R_visited. Qed.

#[local] Hint Resolve preserves_ret preserves_raise preserves_no_return preserves_lift
  preserves_get_world preserves_logger preserves_datetime_now
  preserves_new_oid preserves_io_op preserves_visited_add : preserve.

(** One step of a proof that a piece of the program preserves R [R]. *)
Ltac preserve_step :=
  lazymatch goal with
  | |- preserves R (bind _ _) => apply preserves_bind; [|intro]
  | |- preserves R (try_except _ _) => apply preserves_try; [|intro]
  | |- preserves R (modify _) => apply preserves_modify; solve [auto]
  | |- preserves R (match ?x with _ => _ end) => destruct x
  | |- preserves R (if ?b then _ else _) => destruct b
  | |- preserves R (changes_insert_one _ _ _ _ _ _) => fail
  | |- preserves R _ => solve [auto with preserve]
  end.

Ltac preserve := repeat preserve_step.

(** What the relation may see: an insert into [changes] of a
    well-formed event, and the requests of a fetch. *)
Hypothesis R_insert :
  forall E bid name ty fields ts,
    event_args_ok ty fields ->
    preserves R (changes_insert_one E bid name ty fields ts).
Hypothesis R_acquire : preserves R semaphore_acquire.
Hypothesis R_release : preserves R semaphore_release.
Hypothesis R_get : forall E url, preserves R (client_get E url).
Hypothesis R_sleep : forall d, preserves R (asyncio_sleep d).

#[local] Hint Resolve R_acquire R_release R_get R_sleep : preserve.

Lemma R_fetch E n : forall a mr url, preserves R (fetch_attempts E n a mr url).
Proof.
  induction n as [|n IH]; intros a mr url; cbn [fetch_attempts]; preserve.
Qed.

Variable E : env.

Lemma preserves_save_html_snapshot html url :
  preserves R (save_html_snapshot E html url).
Proof. unfold save_html_snapshot. preserve. Qed.

Lemma preserves_log_changes old new h : preserves R (_log_changes E old new h).
Proof.
  unfold _log_changes, getitem. cbv zeta.
  apply preserves_try; [|intro; preserve].
  destruct (diff_fields tracked_fields (doc_fields old) new) as [|c cs] eqn:Hd;
    cbn [is_empty negb]; [preserve|].
  preserve. apply R_insert. right. repeat split.
  - discriminate.
  - intros f Hf. rewrite <- Hd in Hf. apply diff_fields_keys in Hf.
    cbn in Hf. cbn. tauto.
Qed.

Lemma preserves_log_new_book bid data : preserves R (_log_new_book E bid data).
Proof.
  unfold _log_new_book, getitem. preserve. apply R_insert. now left.
Qed.

#[local] Hint Resolve preserves_save_html_snapshot preserves_log_changes
  preserves_log_new_book : preserve.

Lemma preserves_save_book data html : preserves R (save_book E data html).
Proof.
  unfold save_book, getitem, books_find_one, books_insert_one,
    books_update_one.
  preserve.
Qed.

Lemma preserves_get_crawl_state : preserves R (get_crawl_state E).
Proof. unfold get_crawl_state, state_find_one. preserve. Qed.

Lemma preserves_update_crawl_state d : preserves R (update_crawl_state E d).
Proof. unfold update_crawl_state, state_update_one. preserve. Qed.

Lemma preserves_fetch_with_retry url mr : preserves R (fetch_with_retry E url mr).
Proof. unfold fetch_with_retry. apply R_fetch. Qed.

#[local] Hint Resolve preserves_save_book preserves_get_crawl_state
  preserves_update_crawl_state preserves_fetch_with_retry : preserve.

Lemma preserves_scrape_book_task visited url :
  preserves R (scrape_book_task E visited url).
Proof. unfold scrape_book_task. preserve. Qed.

Lemma preserves_scrape_catalog_page url : preserves R (scrape_catalog_page E url).
Proof. unfold scrape_catalog_page. preserve. Qed.

Lemma preserves_mapM {A B} (f : A -> M B) l :
  (forall x, preserves R (f x)) -> preserves R (mapM f l).
Proof. intros Hf. induction l as [|x l IH]; cbn [mapM]; preserve. Qed.

#[local] Hint Resolve preserves_scrape_book_task preserves_scrape_catalog_page
  : preserve.

Lemma preserves_gather links : preserves R (gather_scrape_book E links).
Proof.
  unfold gather_scrape_book. preserve. apply preserves_mapM. auto with preserve.
Qed.

#[local] Hint Resolve preserves_gather : preserve.

Lemma preserves_crawl_page url total : preserves R (crawl_page E url total).
Proof. unfold crawl_page, unpack_pair. preserve. Qed.

#[local] Hint Resolve preserves_crawl_page : preserve.

Lemma preserves_crawl_pages fuel : forall cur total,
  preserves R (crawl_pages E fuel cur total).
Proof.
  induction fuel as [|fuel IH]; intros cur total; cbn [crawl_pages]; preserve.
Qed.

Lemma preserves_begin_crawl resume : preserves R (begin_crawl E resume).
Proof. unfold begin_crawl, start_url. preserve. Qed.

#[local] Hint Resolve preserves_crawl_pages preserves_begin_crawl : preserve.

Lemma preserves_crawl_all_books fuel resume :
  preserves R (crawl_all_books E fuel resume).
Proof. unfold crawl_all_books. preserve. Qed.

(** The end of a run comes after the first fetch of its first page. *)
Lemma after_first_fetch fuel resume w start w1 :
  begin_crawl E resume w = (Ok start, w1) ->
  str_truthy start = true ->
  R (snd (fetch_with_retry E start None
            (snd (logger INFO ("Processing catalog page: " ++ start) w1))))
    (snd (crawl_all_books E (S fuel) resume w)).
Proof.
  intros Hbegin Hstart.
  unfold crawl_all_books.
  eapply R_trans; [|apply after_try; intro; preserve].
  unfold bind at 1. rewrite Hbegin.
  eapply R_trans; [|apply after_bind; intro; preserve].
  cbn [crawl_pages opt_str_truthy]. rewrite Hstart.
  eapply R_trans; [|apply after_bind; intro; preserve].
  unfold crawl_page. unfold bind at 1. cbn [logger modify].
  change (set_log ?f w1) with (snd (logger INFO ("Processing catalog page: " ++ start) w1)).
  eapply R_trans; [|apply after_bind; intro; unfold unpack_pair; preserve].
  unfold scrape_catalog_page.
  eapply R_trans; [|apply after_try; intro; preserve].
  apply after_bind. intro. preserve.
Qed.

End Preserve.

(** * The change log only grows, by well-formed events *)

Lemma extends_by_refl {A} (P : A -> Prop) l : extends_by P l l.
Proof. exists []. split; [now rewrite app_nil_r | constructor]. Qed.

Lemma extends_by_trans {A} (P : A -> Prop) l1 l2 l3 :
  extends_by P l1 l2 -> extends_by P l2 l3 -> extends_by P l1 l3.
Proof.
  intros (a & -> & Ha) (b & -> & Hb). exists (a ++ b).
  split; [now rewrite app_assoc | now apply Forall_app].
Qed.

Lemma event_args_event_ok i bid name ty fields ts :
  event_args_ok ty fields -> event_ok (ChangeLog i bid name ty fields ts).
Proof.
  intros [[-> ->]|(-> & Hne & Hkeys)]; unfold event_ok; cbn.
  - repeat split; try discriminate. now left.
  - repeat split; try discriminate; try assumption. now right.
Qed.

Lemma log_grows_insert E bid name ty fields ts :
  event_args_ok ty fields ->
  preserves log_grows (changes_insert_one E bid name ty fields ts).
Proof.
  intros Hok w. unfold log_grows, changes_insert_one, io_op, bind, new_oid, modify.
  destruct (io_fault E (io_count w)); cbn.
  - apply extends_by_refl.
  - eexists. split; [reflexivity|].
    constructor; [now apply event_args_event_ok | constructor].
Qed.

Ltac log_same :=
  unfold preserves, log_grows; intros; cbn; apply extends_by_refl.

Ltac log_side :=
  lazymatch goal with
  | |- forall a b c, log_grows _ _ -> log_grows _ _ -> log_grows _ _ =>
      intros a b c; apply extends_by_trans
  | |- forall E bid name ty fields ts, event_args_ok _ _ -> _ =>
      intros; now apply log_grows_insert
  | |- preserves _ semaphore_acquire =>
      let w := fresh "w" in
      intros w; unfold semaphore_acquire; destruct (0 <? sem_value w); log_same
  | |- _ => log_same
  end.

Lemma log_grows_crawl E fuel resume :
  preserves log_grows (crawl_all_books E fuel resume).
Proof. apply preserves_crawl_all_books; log_side. Qed.

Lemma log_grows_save_book E data html :
  preserves log_grows (save_book E data html).
Proof. apply preserves_save_book; log_side. Qed.

(** C8.  The collection [changes] after an upsert, after a whole run,
    and after a read or a write of the crawl state is the collection
    before, extended by events that satisfy the invariant: a new event
    has no changed field, an updated event has some, all among the
    relevant fields.  No entry is changed or removed. *)
Theorem C8_change_log_invariant (E : env) (w : world) :
  (forall data html,
     extends_by event_ok (changes w) (changes (snd (save_book E data html w)))) /\
  (forall fuel resume,
     extends_by event_ok (changes w)
       (changes (snd (crawl_all_books E fuel resume w)))) /\
  (forall state_data,
     changes (snd (update_crawl_state E state_data w)) = changes w) /\
  changes (snd (get_crawl_state E w)) = changes w.
Proof.
  repeat split.
  - intros data html. apply log_grows_save_book.
  - intros fuel resume. apply log_grows_crawl.
  - intros d. unfold update_crawl_state, state_update_one, io_op, bind,
      try_except, modify, logger.
    destruct (io_fault E (io_count w)); reflexivity.
  - unfold get_crawl_state, state_find_one, io_op, bind, try_except, modify,
      logger, get_world, ret.
    destruct (io_fault E (io_count w)); reflexivity.
Qed.

(** * How a computation may end *)

Section Ends.
Variable P : exn -> Prop.
Variable Q : stuck -> Prop.

Lemma ends_ret {A} (a : A) : ends P Q (ret a).
Proof. intros w. exact I. Qed.

Lemma ends_raise {A} e : P e -> ends P Q (@raise A e).
Proof. intros H w. exact H. Qed.

Lemma ends_no_return {A} s : Q s -> ends P Q (@no_return A s).
Proof. intros H w. exact H. Qed.

Lemma ends_get_world : ends P Q get_world.
Proof. intros w. exact I. Qed.

Lemma ends_modify f : ends P Q (modify f).
Proof. intros w. exact I. Qed.

Lemma ends_logger l msg : ends P Q (logger l msg).
Proof. intros w. exact I. Qed.

Lemma ends_datetime_now : ends P Q datetime_now.
Proof. intros w. exact I. Qed.

Lemma ends_new_oid : ends P Q new_oid.
Proof. intros w. exact I. Qed.

Lemma ends_asyncio_sleep d : ends P Q (asyncio_sleep d).
Proof. intros w. exact I. Qed.

Lemma ends_semaphore_release : ends P Q semaphore_release.
Proof. intros w. exact I. Qed.

Lemma ends_client_get E url : ends P Q (client_get E url).
Proof. intros w. exact I. Qed.

Lemma ends_visited_add url : ends P Q (visited_add url).
Proof. intros w. exact I. Qed.

Lemma ends_io_op E e : P e -> ends P Q (io_op E e).
Proof. intros H w. unfold io_op. now destruct (io_fault E _). Qed.

Lemma ends_semaphore_acquire : Q Deadlock -> ends P Q semaphore_acquire.
Proof. intros H w. unfold semaphore_acquire. now destruct (0 <? sem_value w). Qed.

Lemma ends_lift {A} (r : result A) :
  (forall e, r = Raise e -> P e) -> (forall s, r = NoReturn s -> Q s) ->
  ends P Q (lift r).
Proof. intros H1 H2 w. cbn. destruct r; auto. Qed.

Lemma ends_bind {A B} (m : M A) (k : A -> M B) :
  ends P Q m -> (forall a, ends P Q (k a)) -> ends P Q (bind m k).
Proof.
  intros Hm Hk w. unfold bind. specialize (Hm w).
  destruct (m w) as [[a|e|s] w']; cbn in *; try assumption. apply Hk.
Qed.

(** An [except Exception] clause catches whatever the body raises. *)
Lemma ends_try {A} (P' : exn -> Prop) (m : M A) (h : exn -> M A) :
  ends P' Q m -> (forall e, P' e -> ends P Q (h e)) ->
  ends P Q (try_except m h).
Proof.
  intros Hm Hh w. unfold try_except. specialize (Hm w).
  destruct (m w) as [[a|e|s] w']; cbn in *; try assumption. now apply Hh.
Qed.

End Ends.

Lemma ends_weaken (P P' : exn -> Prop) (Q Q' : stuck -> Prop) {A} (m : M A) :
  ends P Q m -> (forall e, P e -> P' e) -> (forall s, Q s -> Q' s) ->
  ends P' Q' m.
Proof.
  intros H HP HQ w. specialize (H w). destruct (fst (m w)); auto.
Qed.

Lemma ends_content_hash (Q : stuck -> Prop) d :
  ends anything Q (lift (compute_content_hash d)).
Proof.
  intros w. cbn. unfold compute_content_hash.
  now destruct (Json.dumps_sorted (content_dict d)).
Qed.

Create HintDb ends discriminated.

#[local] Hint Resolve ends_ret ends_get_world ends_modify ends_logger
  ends_datetime_now ends_new_oid ends_asyncio_sleep ends_semaphore_release
  ends_client_get ends_visited_add ends_content_hash : ends.

(** One step of a proof about how a piece of the program ends.  The
    body of a [try] may raise anything. *)
Ltac ends_step :=
  lazymatch goal with
  | |- ends _ _ (bind _ _) => apply ends_bind; [|intro]
  | |- ends _ _ (try_except _ _) =>
      apply (ends_try _ _ anything); [|intros ? _]
  | |- ends _ _ (raise _) => apply ends_raise; try exact I
  | |- ends _ _ (no_return _) => apply ends_no_return; try exact I
  | |- ends _ _ (io_op _ _) => apply ends_io_op; try exact I
  | |- ends _ _ semaphore_acquire => apply ends_semaphore_acquire; try exact I
  | |- ends _ _ (lift (compute_content_hash _)) => apply ends_content_hash
  | |- ends _ _ (lift _) => apply ends_lift; intros; try exact I
  | |- ends _ _ (match ?x with _ => _ end) => destruct x
  | |- ends _ _ (if ?b then _ else _) => destruct b
  | |- ends _ _ _ => solve [auto with ends]
  end.

Ltac ends_tac := repeat ends_step.

Section Contained.
Variable E : env.

(** The storage layer catches what the store raises. *)
Lemma save_html_snapshot_returns html url :
  ends nothing nothing (save_html_snapshot E html url).
Proof. unfold save_html_snapshot. ends_tac. Qed.

Lemma log_changes_returns old new h :
  ends nothing nothing (_log_changes E old new h).
Proof. unfold _log_changes, getitem, changes_insert_one. ends_tac. Qed.

Lemma log_new_book_returns bid data :
  ends nothing nothing (_log_new_book E bid data).
Proof. unfold _log_new_book, getitem, changes_insert_one. ends_tac. Qed.

Lemma get_crawl_state_returns : ends nothing nothing (get_crawl_state E).
Proof. unfold get_crawl_state, state_find_one. ends_tac. Qed.

Lemma update_crawl_state_returns d :
  ends nothing nothing (update_crawl_state E d).
Proof. unfold update_crawl_state, state_update_one. ends_tac. Qed.

Lemma save_book_returns data html :
  ends nothing nothing (save_book E data html).
Proof.
  pose proof save_html_snapshot_returns. pose proof log_changes_returns.
  pose proof log_new_book_returns.
  unfold save_book, getitem, books_find_one, books_insert_one,
    books_update_one.
  ends_tac.
  all: eapply ends_weaken; [solve [eauto] | intros ? [] | intros ? []].
Qed.


(** In any context: these calls neither raise nor get stuck. *)
Lemma save_book_ends P Q data html : ends P Q (save_book E data html).
Proof.
  eapply ends_weaken; [apply save_book_returns | intros ? [] | intros ? []].
Qed.

Lemma get_crawl_state_ends P Q : ends P Q (get_crawl_state E).
Proof.
  eapply ends_weaken; [apply get_crawl_state_returns | intros ? [] | intros ? []].
Qed.

Lemma update_crawl_state_ends P Q d : ends P Q (update_crawl_state E d).
Proof.
  eapply ends_weaken;
    [apply update_crawl_state_returns | intros ? [] | intros ? []].
Qed.

(** A fetch never raises; it may wait for the semaphore. *)
Lemma fetch_attempts_ends P n : forall a mr url,
  ends P anything (fetch_attempts E n a mr url).
Proof.
  induction n as [|n IH]; intros a mr url; cbn [fetch_attempts]; ends_tac.
  all: apply IH.
Qed.

Lemma fetch_with_retry_ends P url mr :
  ends P anything (fetch_with_retry E url mr).
Proof. unfold fetch_with_retry. apply fetch_attempts_ends. Qed.

#[local] Hint Resolve save_book_ends get_crawl_state_ends update_crawl_state_ends
  fetch_with_retry_ends : ends.

Lemma scrape_book_task_ends P visited url :
  ends P anything (scrape_book_task E visited url).
Proof. unfold scrape_book_task. ends_tac. Qed.

Lemma scrape_catalog_page_ends P url :
  ends P anything (scrape_catalog_page E url).
Proof. unfold scrape_catalog_page. ends_tac. Qed.

Lemma mapM_ends P Q {A B} (f : A -> M B) l :
  (forall x, ends P Q (f x)) -> ends P Q (mapM f l).
Proof. intros Hf. induction l as [|x l IH]; cbn [mapM]; ends_tac; auto. Qed.

#[local] Hint Resolve scrape_book_task_ends scrape_catalog_page_ends : ends.

Lemma gather_ends P links : ends P anything (gather_scrape_book E links).
Proof.
  unfold gather_scrape_book. ends_tac. apply mapM_ends. auto with ends.
Qed.

#[local] Hint Resolve gather_ends : ends.

Lemma crawl_page_ends url total :
  ends not_from_store anything (crawl_page E url total).
Proof. unfold crawl_page, unpack_pair. ends_tac. reflexivity. Qed.

#[local] Hint Resolve crawl_page_ends : ends.

Lemma crawl_pages_ends fuel : forall cur total,
  ends not_from_store anything (crawl_pages E fuel cur total).
Proof.
  induction fuel as [|fuel IH]; intros cur total; cbn [crawl_pages]; ends_tac.
  all: try apply IH.
Qed.

Lemma begin_crawl_ends P Q resume : ends P Q (begin_crawl E resume).
Proof. unfold begin_crawl, start_url. ends_tac. Qed.

#[local] Hint Resolve crawl_pages_ends begin_crawl_ends : ends.

Lemma crawl_all_books_ends fuel resume :
  ends not_from_store anything (crawl_all_books E fuel resume).
Proof.
  unfold crawl_all_books.
  apply (ends_try _ _ not_from_store).
  - ends_tac.
  - intros e He. ends_tac. exact He.
Qed.

End Contained.

(** With the store and the file system down, an upsert returns [None]
    and writes nothing. *)
Lemma save_book_store_down (E : env) data html w :
  (forall n, io_fault E n = true) ->
  fst (save_book E data html w) = Ok None /\
  books (snd (save_book E data html w)) = books w /\
  changes (snd (save_book E data html w)) = changes w.
Proof.
  intros H. munfold. unfold compute_content_hash. msimpl.
  destruct (dict_lookup "source_url" data) as [[]|];
    msimpl; rewrite ?H; msimpl;
    destruct (Json.dumps_sorted (content_dict data));
    msimpl; rewrite ?H; msimpl; repeat split.
Qed.

(** * The crawl state *)

Lemma update_crawl_state_eq E d w :
  update_crawl_state E d w
  = (Ok tt,
     if io_fault E (io_count w)
     then set_log (fun lg => lg ++ [(ERROR, ("Error updating crawl state: "
                                             ++ str_exn store_error)%string)])
                  (set_io_count S w)
     else set_log (fun lg => lg ++ [(DEBUG, "Updated crawl state")])
            (set_crawler_state
               (fun s => match s with
                         | Some s0 => Some (dict_update s0 d)
                         | None => Some (dict_of d)
                         end)
               (set_io_count S w))).
Proof. munfold. msimpl. now destruct (io_fault E (io_count w)). Qed.

Lemma status_after_update E d w v :
  io_fault E (io_count w) = false ->
  dict_lookup "status" (rev d) = Some v ->
  stored_status (snd (update_crawl_state E d w)) = v.
Proof.
  intros Hf Hd. rewrite update_crawl_state_eq, Hf. unfold stored_status. cbn.
  destruct (crawler_state w) as [s|]; unfold dict_get, dict_of;
    now rewrite dict_lookup_update, Hd.
Qed.

Section Traversal.
Variable E : env.

Lemma crawl_pages_visits fuel cur total w url total' w' wq :
  visits E fuel cur total w url total' w' ->
  crawl_page E url total' w' = (Ok Break, wq) ->
  crawl_pages E fuel cur total w = (Ok total', wq).
Proof.
  intros Hv Hpage.
  induction Hv as [fuel url total w Hurl
                  |fuel u total w nxt total1 w1 url total' w' Hu Hstep Hv IH];
    cbn [crawl_pages opt_str_truthy].
  - rewrite Hurl. unfold bind. now rewrite Hpage.
  - rewrite Hu. unfold bind. rewrite Hstep. now apply IH.
Qed.

(** The body of the loop leaves by [break] exactly when the page was
    read and lists no book. *)
Lemma crawl_page_break url total w wq :
  crawl_page E url total w = (Ok Break, wq) <->
  exists next_page_url wc,
    scrape_catalog_page E url
      (snd (logger INFO ("Processing catalog page: " ++ url) w))
    = (Ok (LinksAndNext [] next_page_url), wc) /\
    wq = snd (logger WARNING ("No book links found on " ++ url) wc).
Proof.
  unfold crawl_page. unfold bind at 1. cbn [logger modify fst snd].
  set (w0 := set_log _ w).
  unfold bind at 1.
  destruct (scrape_catalog_page E url w0) as [[[|links nxt]|e|s] wc] eqn:Hs.
  - cbn. split; [discriminate | now intros (? & ? & [=] & _)].
  - unfold bind at 1. cbn [unpack_pair ret fst snd].
    destruct links as [|l links]; cbn [is_empty].
    + cbn. split.
      * intros [= <-]. now exists nxt, wc.
      * intros (n' & wc' & [= <- <-] & ->). reflexivity.
    + split; [|now intros (? & ? & [=] & _)].
      unfold bind at 1.
      destruct (gather_scrape_book E (l :: links) wc) as [[res|e|s] w2];
        [|discriminate..].
      unfold bind at 1. cbn [logger modify].
      unfold bind at 1. cbn [datetime_now].
      unfold bind at 1. rewrite update_crawl_state_eq. discriminate.
  - cbn. split; [discriminate | now intros (? & ? & [=] & _)].
  - cbn. split; [discriminate | now intros (? & ? & [=] & _)].
Qed.

End Traversal.

(** A relation on one field, kept by every step that leaves it alone. *)
Ltac field_same :=
  unfold preserves; intros;
  repeat match goal with
         | |- context [semaphore_acquire ?w] =>
             unfold semaphore_acquire; destruct (0 <? sem_value w)
         end;
  reflexivity.

Lemma scrape_catalog_page_state E url w :
  crawler_state (snd (scrape_catalog_page E url w)) = crawler_state w.
Proof.
  apply (preserves_scrape_catalog_page
           (fun w w' => crawler_state w' = crawler_state w));
    try field_same.
  intros a b c H1 H2. congruence.
Qed.

(** C1, as amended.  (1) The body of the page loop leaves by [break]
    exactly when the catalog page was read and lists no book; it then
    logs a warning.  (2) A run whose loop comes to such a page returns
    normally; its last state update sets the status completed, which is
    the stored status when that write succeeds; the warning is in the
    log, and the empty page was not checkpointed. *)
Theorem C1_empty_page_ends_run_completed (E : env) :
  (forall url total w wq,
     crawl_page E url total w = (Ok Break, wq) <->
     exists next_page_url wc,
       scrape_catalog_page E url
         (snd (logger INFO ("Processing catalog page: " ++ url) w))
       = (Ok (LinksAndNext [] next_page_url), wc) /\
       wq = snd (logger WARNING ("No book links found on " ++ url) wc)) /\
  (forall fuel resume w start w1 url total wp wq,
     begin_crawl E resume w = (Ok start, w1) ->
     visits E fuel (Some start) 0 w1 url total wp ->
     crawl_page E url total wp = (Ok Break, wq) ->
     exists w',
       crawl_all_books E fuel resume w = (Ok tt, w') /\
       (io_fault E (io_count wq) = false ->
        stored_status w' = VStr "completed") /\
       In (WARNING, ("No book links found on " ++ url)%string) (log w') /\
       crawler_state wq = crawler_state wp).
Proof.
  split; [apply crawl_page_break|].
  intros fuel resume w start w1 url total wp wq Hbegin Hvisits Hbreak.
  pose proof (crawl_pages_visits E _ _ _ _ _ _ _ _ Hvisits Hbreak) as Hloop.
  apply crawl_page_break in Hbreak.
  destruct Hbreak as (nxt & wc & Hscrape & Hwq).
  unfold crawl_all_books, try_except.
  unfold bind at 1. rewrite Hbegin.
  unfold bind at 1. rewrite Hloop.
  unfold bind at 1. cbn [datetime_now].
  unfold bind at 1. rewrite update_crawl_state_eq.
  cbn [logger modify].
  eexists. split; [reflexivity|]. split; [|split].
  - intros Hf. cbn [io_count set_clock]. rewrite Hf.
    unfold stored_status.
    cbn [crawler_state set_log set_crawler_state set_io_count set_clock].
    destruct (crawler_state wq) as [s|]; unfold dict_get, dict_of;
      now rewrite dict_lookup_update.
  - subst wq. cbn [io_count set_clock].
    destruct (io_fault E _);
      cbn [log set_log set_crawler_state set_io_count set_clock snd logger
           modify];
      rewrite !in_app_iff; cbn [In]; tauto.
  - subst wq.
    pose proof (scrape_catalog_page_state E url
                  (snd (logger INFO ("Processing catalog page: " ++ url) wp)))
      as Hstate.
    rewrite Hscrape in Hstate. exact Hstate.
Qed.

(** * A write the store refuses *)

(** A relation on one field, kept by every step that leaves it alone. *)
Ltac field_kept :=
  first
    [ let H1 := fresh in
      let H2 := fresh in
      intros ? ? ? H1 H2; congruence
    | unfold preserves, changes_insert_one, io_op, bind, new_oid, modify,
        semaphore_acquire;
      intros;
      repeat match goal with
             | |- context [if ?b then _ else _] => destruct b
             end;
      reflexivity ].

Section Refused.
Variable E : env.

Lemma snapshot_taken html url w :
  exists p w1,
    save_html_snapshot E html url w = (Ok p, w1) /\
    books w1 = books w /\ changes w1 = changes w.
Proof.
  munfold. msimpl.
  destruct url; msimpl; try fault_case; msimpl;
    do 2 eexists; (split; [reflexivity|]); split; reflexivity.
Qed.

Lemma log_changes_keeps_books ex data h w :
  exists w1, _log_changes E ex data h w = (Ok tt, w1) /\ books w1 = books w.
Proof.
  munfold. msimpl.
  destruct (diff_fields tracked_fields (doc_fields ex) data); msimpl.
  { eexists. split; reflexivity. }
  destruct (dict_lookup "name" data); msimpl; try fault_case; msimpl;
    eexists; split; reflexivity.
Qed.

Lemma refused_insert_one data html w url h :
  dict_lookup "source_url" data = Some url ->
  compute_content_hash data = Ok h ->
  find (has_source_url url) (books w) = None ->
  let w1 := snd (save_html_snapshot E html url w) in
  io_fault E (io_count w1) = false ->
  io_fault E (S (io_count w1)) = true ->
  exists w',
    save_book E data html w = (Ok None, w') /\
    books w' = books w /\ changes w' = changes w /\
    io_count w' = S (S (io_count w1)) /\
    log w' = log w1 ++ [saving_error data].
Proof.
  intros Hurl Hhash Hfind w1 Hf1 Hf2. subst w1.
  destruct (snapshot_taken html url w) as (p & w1 & Hsnap & Hb & Hc).
  rewrite Hsnap in *. cbn [snd] in *. rewrite <- Hb in Hfind.
  unfold save_book, books_find_one, books_insert_one, getitem.
  rewrite Hurl. msimpl. rewrite Hsnap, Hhash. msimpl.
  rewrite Hf1. msimpl. rewrite Hfind. msimpl. rewrite Hf2. msimpl.
  eexists. split; [reflexivity|]. cbn [books changes io_count log].
  repeat split; assumption.
Qed.

Lemma refused_update_one data html w url h ex :
  dict_lookup "source_url" data = Some url ->
  compute_content_hash data = Ok h ->
  find (has_source_url url) (books w) = Some ex ->
  py_eqb (dict_get "content_hash" (doc_fields ex)) (VStr h) = false ->
  let w1 := snd (save_html_snapshot E html url w) in
  let w2 := snd (_log_changes E ex data h (snd (books_find_one E url w1))) in
  io_fault E (io_count w1) = false ->
  io_fault E (io_count w2) = true ->
  exists w',
    save_book E data html w = (Ok None, w') /\
    books w' = books w /\ changes w' = changes w2 /\
    io_count w' = S (io_count w2) /\
    log w' = log w2 ++ [saving_error data].
Proof.
  intros Hurl Hhash Hfind Hneq w1 w2 Hf1 Hf2. subst w2 w1.
  destruct (snapshot_taken html url w) as (p & w1 & Hsnap & Hb & Hc).
  rewrite Hsnap in *. cbn [snd] in *. rewrite <- Hb in Hfind.
  unfold books_find_one in Hf2. revert Hf2. msimpl. rewrite Hf1. msimpl.
  match goal with
  | |- context [_log_changes E ex data h ?w0] =>
      destruct (log_changes_keeps_books ex data h w0) as (w2 & Hlog & Hb2)
  end.
  rewrite Hlog. cbn [snd]. intros Hf2.
  unfold save_book, books_find_one, books_update_one, getitem.
  rewrite Hurl. msimpl. rewrite Hsnap, Hhash. msimpl.
  rewrite Hf1. msimpl. rewrite Hfind. msimpl. rewrite Hneq. msimpl.
  rewrite Hlog. msimpl. rewrite Hf2. msimpl.
  eexists. split; [reflexivity|]. cbn [books changes io_count log].
  cbn [books] in Hb2.
  repeat split; congruence.
Qed.

Lemma refused_new_event bid data w name :
  dict_lookup "name" data = Some name ->
  io_fault E (io_count w) = true ->
  exists w',
    _log_new_book E bid data w = (Ok tt, w') /\
    books w' = books w /\ changes w' = changes w /\
    io_count w' = S (io_count w) /\
    log w' = log w ++ [(ERROR, ("Error logging new book: "
                                 ++ str_exn store_error)%string)].
Proof.
  intros Hname Hf. munfold. msimpl. rewrite Hname. msimpl. rewrite Hf. msimpl.
  eexists. split; [reflexivity|]. repeat split.
Qed.

Lemma refused_updated_event ex data h w name :
  dict_lookup "name" data = Some name ->
  diff_fields tracked_fields (doc_fields ex) data <> [] ->
  io_fault E (io_count w) = true ->
  exists w',
    _log_changes E ex data h w = (Ok tt, w') /\
    books w' = books w /\ changes w' = changes w /\
    io_count w' = S (io_count w) /\
    log w' = log w ++ [(ERROR, ("Error logging changes: "
                                 ++ str_exn store_error)%string)].
Proof.
  intros Hname Hdiff Hf. munfold. msimpl.
  destruct (diff_fields tracked_fields (doc_fields ex) data); [congruence|].
  msimpl. rewrite Hname. msimpl. rewrite Hf. msimpl.
  eexists. split; [reflexivity|]. repeat split.
Qed.

Lemma refused_state_update d w :
  io_fault E (io_count w) = true ->
  exists w',
    update_crawl_state E d w = (Ok tt, w') /\
    crawler_state w' = crawler_state w /\
    io_count w' = S (io_count w) /\
    log w' = log w ++ [(ERROR, ("Error updating crawl state: "
                                 ++ str_exn store_error)%string)].
Proof.
  intros Hf. rewrite update_crawl_state_eq, Hf.
  eexists. split; [reflexivity|]. repeat split.
Qed.

Lemma save_book_leaves_visited data html w :
  visited_urls (snd (save_book E data html w)) = visited_urls w.
Proof.
  apply (preserves_save_book (fun w w' => visited_urls w' = visited_urls w));
    field_kept.
Qed.

(** A record that was not saved: the task answers [False] and the URL
    is not marked as visited. *)
Lemma unsaved_book_is_no_success url w html w1 data w2 :
  fetch_with_retry E url None w = (Ok (Some html), w1) ->
  str_truthy html = true ->
  parse_book_page E html url = Some data -> data <> [] ->
  save_book E data html w1 = (Ok None, w2) ->
  scrape_book_task E false url w = (Ok false, w2) /\
  visited_urls w2 = visited_urls w1.
Proof.
  intros Hfetch Hhtml Hparse Hdata Hsave.
  split.
  - unfold scrape_book_task, try_except. unfold bind at 1. rewrite Hfetch.
    rewrite Hhtml, Hparse.
    destruct data as [|kv data]; [congruence|].
    unfold bind at 1. rewrite Hsave. reflexivity.
  - pose proof (save_book_leaves_visited data html w1) as H.
    now rewrite Hsave in H.
Qed.

Lemma gather_leaves_state links w :
  crawler_state (snd (gather_scrape_book E links w)) = crawler_state w.
Proof.
  apply (preserves_gather (fun w w' => crawler_state w' = crawler_state w));
    field_kept.
Qed.

(** A page that was read and lists books: the pass ends with the next
    page, whatever the store does. *)
Lemma listed_page_goes_on url total w links nxt wc :
  scrape_catalog_page E url
    (snd (logger INFO ("Processing catalog page: " ++ url) w))
  = (Ok (LinksAndNext links nxt), wc) ->
  links <> [] ->
  match fst (crawl_page E url total w) with
  | Ok s => exists total', s = NextPage nxt total'
  | Raise _ => False
  | NoReturn _ => True
  end.
Proof.
  intros Hscrape Hlinks.
  unfold crawl_page. unfold bind at 1. cbn [logger modify fst snd] in *.
  unfold bind at 1. rewrite Hscrape.
  unfold bind at 1. cbn [unpack_pair ret fst snd].
  destruct links as [|l links]; [congruence|]. cbn [is_empty].
  pose proof (gather_ends E nothing (l :: links) wc) as Hg.
  unfold bind at 1.
  destruct (gather_scrape_book E (l :: links) wc) as [[res|e|s] w2];
    cbn in Hg; [|contradiction|exact I].
  unfold bind at 1. cbn [logger modify].
  unfold bind at 1. cbn [datetime_now].
  unfold bind at 1. rewrite update_crawl_state_eq. cbn. eauto.
Qed.

Lemma not_marked_failed_trans a b c :
  not_marked_failed a b -> not_marked_failed b c -> not_marked_failed a c.
Proof. unfold not_marked_failed. auto. Qed.

Lemma same_state_not_marked {A} (m : M A) :
  (forall w, crawler_state (snd (m w)) = crawler_state w) ->
  preserves not_marked_failed m.
Proof.
  intros H w. unfold not_marked_failed, stored_status. now rewrite H.
Qed.

Lemma update_not_marked d s :
  dict_lookup "status" (rev d) = Some (VStr s) -> s <> "failed" ->
  preserves not_marked_failed (update_crawl_state E d).
Proof.
  intros Hd Hs w. unfold not_marked_failed.
  destruct (io_fault E (io_count w)) eqn:Hf.
  - rewrite update_crawl_state_eq, Hf. unfold stored_status. cbn. auto.
  - rewrite (status_after_update E d w _ Hf Hd). congruence.
Qed.

Ltac status_step :=
  lazymatch goal with
  | |- preserves not_marked_failed (bind _ _) =>
      apply (preserves_bind not_marked_failed not_marked_failed_trans); [|intro]
  | |- preserves not_marked_failed (update_crawl_state _ _) =>
      eapply update_not_marked; [reflexivity | discriminate]
  | |- preserves not_marked_failed (scrape_catalog_page _ _) =>
      apply same_state_not_marked; intro; apply scrape_catalog_page_state
  | |- preserves not_marked_failed (gather_scrape_book _ _) =>
      apply same_state_not_marked; intro; apply gather_leaves_state
  | |- preserves not_marked_failed (get_crawl_state _) =>
      apply same_state_not_marked; intro; munfold; msimpl;
      destruct (io_fault E _); reflexivity
  | |- preserves not_marked_failed (match ?x with _ => _ end) => destruct x
  | |- preserves not_marked_failed (if ?b then _ else _) => destruct b
  | |- preserves not_marked_failed _ =>
      apply same_state_not_marked; intro; reflexivity
  end.

Lemma crawl_page_not_marked url total :
  preserves not_marked_failed (crawl_page E url total).
Proof. unfold crawl_page, unpack_pair. repeat status_step. Qed.

Lemma crawl_pages_not_marked fuel : forall cur total,
  preserves not_marked_failed (crawl_pages E fuel cur total).
Proof.
  induction fuel as [|fuel IH]; intros cur total; cbn [crawl_pages].
  - repeat status_step.
  - destruct (opt_str_truthy cur); [|repeat status_step].
    destruct cur as [url|]; [|repeat status_step].
    status_step; [apply crawl_page_not_marked|].
    status_step; [status_step | apply IH].
Qed.

(** The status failed is stored by the handler of [crawl_all_books]
    only, and what it re-raises is no error of the store. *)
Lemma failed_is_stored_by_the_handler fuel resume w :
  stored_status (snd (crawl_all_books E fuel resume w)) = VStr "failed" ->
  stored_status w = VStr "failed" \/
  exists e, fst (crawl_all_books E fuel resume w) = Raise e /\
            is_store_error e = false.
Proof.
  pose proof (crawl_all_books_ends E fuel resume w) as Hends.
  revert Hends. unfold crawl_all_books, try_except.
  match goal with
  | |- context [match ?m w with _ => _ end] =>
      assert (Hbody : preserves not_marked_failed m)
  end.
  { unfold begin_crawl, start_url.
    repeat first [apply crawl_pages_not_marked | status_step]. }
  specialize (Hbody w). revert Hbody.
  match goal with
  | |- context [match ?m w with _ => _ end] =>
      destruct (m w) as [[a|e|s] w1]
  end; cbn [fst snd].
  - intros Hbody _ Hst. left. now apply Hbody.
  - intros _. msimpl. rewrite !update_crawl_state_eq. cbn [fst snd].
    intros He _. right. exists e. split; [reflexivity | exact He].
  - intros Hbody _ Hst. left. now apply Hbody.
Qed.

End Refused.

(** C2, as amended.  The storage layer contains the failures of the
    store.  For every behaviour of the store:
    (1) [save_book] always returns, and (2) so does
    [update_crawl_state];
    (3) with the store down [save_book] returns [None] and writes
    nothing;
    (4) a run never raises an error of the store;
    (5) when [insert_one] is refused, [save_book] logs the error and
    returns [None]; the book and the log of changes are as before and
    the refused insert is the last operation of the call: it is not
    tried again;
    (6) the same when [update_one] is refused, the log of changes
    being as [_log_changes] left it;
    (7) and (8) when the insert of the event is refused, [_log_new_book]
    and [_log_changes] log the error and return, after that one
    operation;
    (9) when the write of the state is refused, [update_crawl_state]
    logs the error and returns, after that one operation, the state as
    it was;
    (10) a record that was not saved makes its task answer [False], the
    URL not visited;
    (11) the pass over a catalog page that was read and lists books
    ends with the next page, never with an exception;
    (12) the status failed is stored only by a run that raises, and
    then by (4) for no error of the store. *)
Theorem C2_store_failures_are_contained (E : env) :
  (forall data html w, exists r, fst (save_book E data html w) = Ok r) /\
  (forall state_data w, fst (update_crawl_state E state_data w) = Ok tt) /\
  (forall data html w,
     (forall n, io_fault E n = true) ->
     fst (save_book E data html w) = Ok None /\
     books (snd (save_book E data html w)) = books w /\
     changes (snd (save_book E data html w)) = changes w) /\
  (forall fuel resume w e w',
     crawl_all_books E fuel resume w = (Raise e, w') ->
     is_store_error e = false) /\
  (forall data html w url h,
     dict_lookup "source_url" data = Some url ->
     compute_content_hash data = Ok h ->
     find (has_source_url url) (books w) = None ->
     let w1 := snd (save_html_snapshot E html url w) in
     io_fault E (io_count w1) = false ->
     io_fault E (S (io_count w1)) = true ->
     exists w',
       save_book E data html w = (Ok None, w') /\
       books w' = books w /\ changes w' = changes w /\
       io_count w' = S (S (io_count w1)) /\
       log w' = log w1 ++ [saving_error data]) /\
  (forall data html w url h ex,
     dict_lookup "source_url" data = Some url ->
     compute_content_hash data = Ok h ->
     find (has_source_url url) (books w) = Some ex ->
     py_eqb (dict_get "content_hash" (doc_fields ex)) (VStr h) = false ->
     let w1 := snd (save_html_snapshot E html url w) in
     let w2 := snd (_log_changes E ex data h (snd (books_find_one E url w1))) in
     io_fault E (io_count w1) = false ->
     io_fault E (io_count w2) = true ->
     exists w',
       save_book E data html w = (Ok None, w') /\
       books w' = books w /\ changes w' = changes w2 /\
       io_count w' = S (io_count w2) /\
       log w' = log w2 ++ [saving_error data]) /\
  (forall bid data w name,
     dict_lookup "name" data = Some name ->
     io_fault E (io_count w) = true ->
     exists w',
       _log_new_book E bid data w = (Ok tt, w') /\
       books w' = books w /\ changes w' = changes w /\
       io_count w' = S (io_count w) /\
       log w' = log w ++ [(ERROR, ("Error logging new book: "
                                    ++ str_exn store_error)%string)]) /\
  (forall ex data h w name,
     dict_lookup "name" data = Some name ->
     diff_fields tracked_fields (doc_fields ex) data <> [] ->
     io_fault E (io_count w) = true ->
     exists w',
       _log_changes E ex data h w = (Ok tt, w') /\
       books w' = books w /\ changes w' = changes w /\
       io_count w' = S (io_count w) /\
       log w' = log w ++ [(ERROR, ("Error logging changes: "
                                    ++ str_exn store_error)%string)]) /\
  (forall state_data w,
     io_fault E (io_count w) = true ->
     exists w',
       update_crawl_state E state_data w = (Ok tt, w') /\
       crawler_state w' = crawler_state w /\
       io_count w' = S (io_count w) /\
       log w' = log w ++ [(ERROR, ("Error updating crawl state: "
                                    ++ str_exn store_error)%string)]) /\
  (forall url w html w1 data w2,
     fetch_with_retry E url None w = (Ok (Some html), w1) ->
     str_truthy html = true ->
     parse_book_page E html url = Some data -> data <> [] ->
     save_book E data html w1 = (Ok None, w2) ->
     scrape_book_task E false url w = (Ok false, w2) /\
     visited_urls w2 = visited_urls w1) /\
  (forall url total w links nxt wc,
     scrape_catalog_page E url
       (snd (logger INFO ("Processing catalog page: " ++ url) w))
     = (Ok (LinksAndNext links nxt), wc) ->
     links <> [] ->
     match fst (crawl_page E url total w) with
     | Ok s => exists total', s = NextPage nxt total'
     | Raise _ => False
     | NoReturn _ => True
     end) /\
  (forall fuel resume w,
     stored_status (snd (crawl_all_books E fuel resume w)) = VStr "failed" ->
     stored_status w = VStr "failed" \/
     exists e, fst (crawl_all_books E fuel resume w) = Raise e /\
               is_store_error e = false).
Proof.
  repeat match goal with |- _ /\ _ => split end.
  - intros data html w. pose proof (save_book_returns E data html w) as H.
    destruct (fst (save_book E data html w)) as [r|e|s]; [now exists r | easy..].
  - intros d w. pose proof (update_crawl_state_returns E d w) as H.
    destruct (fst (update_crawl_state E d w)) as [[]|e|s]; easy.
  - intros data html w. apply save_book_store_down.
  - intros fuel resume w e w' Hrun.
    pose proof (crawl_all_books_ends E fuel resume w) as H.
    now rewrite Hrun in H.
  - apply refused_insert_one.
  - apply refused_update_one.
  - apply refused_new_event.
  - apply refused_updated_event.
  - apply refused_state_update.
  - apply unsaved_book_is_no_success.
  - apply listed_page_goes_on.
  - apply failed_is_stored_by_the_handler.
Qed.

(** * Where a run starts *)

Lemma cursor_kept a b s :
  dict_get "last_successful_url"
    (dict_update s [("status", a); ("error_message", b)])
  = dict_get "last_successful_url" s.
Proof. now apply dict_get_update_other. Qed.

Lemma begin_crawl_result E resume w :
  exists w1,
    begin_crawl E resume w = (Ok (chosen_start E resume w), w1) /\
    requests w1 = requests w /\ sem_value w1 = sem_value w /\
    http_count w1 = http_count w.
Proof.
  unfold begin_crawl, chosen_start, stored_cursor.
  unfold bind at 1. rewrite update_crawl_state_eq.
  unfold bind at 1. cbn [logger modify].
  destruct resume; [|eexists; split; [reflexivity|]; 
                     destruct (io_fault E (io_count w)); now cbn].
  unfold start_url, get_crawl_state, state_find_one, try_except.
  unfold bind at 1. unfold bind at 1. unfold bind at 1. unfold io_op.
  destruct (io_fault E (io_count w)) eqn:F0;
    cbn [io_count set_log set_io_count set_crawler_state];
    destruct (io_fault E (S (io_count w))) eqn:F1;
    cbn [get_world bind ret logger modify fst snd crawler_state set_log
         set_io_count set_crawler_state];
    try (eexists; split; [reflexivity|]; now cbn).
  - destruct (crawler_state w) as [s|]; cbn [dict_get];
      [destruct (dict_get "last_successful_url" s) as [| | | |u|];
       try destruct (str_truthy u) |];
      eexists; (split; [reflexivity|]); now cbn.
  - destruct (crawler_state w) as [s|]; cbn [dict_get];
      [rewrite cursor_kept;
       destruct (dict_get "last_successful_url" s) as [| | | |u|];
       try destruct (str_truthy u) |];
      eexists; (split; [reflexivity|]); now cbn.
Qed.

Ltac requests_side :=
  lazymatch goal with
  | |- forall a b c, requests_grow _ _ -> requests_grow _ _ -> _ =>
      intros a b c (l1 & H1) (l2 & H2);
      exists (l1 ++ l2); now rewrite H2, H1, app_assoc
  | |- _ =>
      unfold preserves, requests_grow, changes_insert_one, io_op, bind,
        new_oid, modify, client_get, asyncio_sleep, semaphore_release,
        semaphore_acquire;
      intros;
      repeat match goal with
             | |- context [if ?b then _ else _] => destruct b
             end;
      cbn; first [ exists []; now rewrite app_nil_r | eexists; reflexivity ]
  end.

Lemma chosen_start_truthy E resume w :
  str_truthy (chosen_start E resume w) = true.
Proof.
  unfold chosen_start.
  destruct resume; [|reflexivity].
  destruct (io_fault E _); [reflexivity|].
  destruct (stored_cursor w) as [| | | |u|]; try reflexivity.
  destruct (str_truthy u) eqn:Hu; [exact Hu | reflexivity].
Qed.

Lemma fetch_first_request E url mr w :
  0 < sem_value w -> 0 <= resolve E mr ->
  exists rest,
    requests (snd (fetch_with_retry E url mr w)) = requests w ++ url :: rest.
Proof.
  intros Hsem Hmr. unfold fetch_with_retry. fold (resolve E mr).
  destruct (exists_final
              (fun i => transient (http E (http_count w + i) url))
              (Z.to_nat (resolve E mr)))
    as (k & Hk & Hpre & Hend).
  destruct (fetch_attempts_spec E url (resolve E mr) k
              (Z.to_nat (resolve E mr + 1)) 0 w Hsem)
    as (w' & Hrun & _ & Hreq & _); try lia; try assumption.
  { destruct Hend as [Hend | ->]; [now left | right; lia]. }
  rewrite Hrun. cbn [snd]. rewrite Hreq.
  exists (repeat url k). f_equal.
  now rewrite Nat.add_1_r.
Qed.

Lemma first_request E fuel resume w :
  0 < sem_value w -> 0 <= crawler_max_retries (cfg E) ->
  exists rest,
    requests (snd (crawl_all_books E (S fuel) resume w))
    = requests w ++ chosen_start E resume w :: rest.
Proof.
  intros Hsem Hmr.
  destruct (begin_crawl_result E resume w) as (w1 & Hbegin & Hreq & Hsem1 & _).
  assert (Hafter :
    requests_grow
      (snd (fetch_with_retry E (chosen_start E resume w) None
              (snd (logger INFO ("Processing catalog page: "
                                 ++ chosen_start E resume w) w1))))
      (snd (crawl_all_books E (S fuel) resume w))).
  { eapply (after_first_fetch requests_grow);
      [requests_side.. | exact Hbegin | apply chosen_start_truthy]. }
  destruct Hafter as (sent & Hsent).
  destruct (fetch_first_request E (chosen_start E resume w) None
              (snd (logger INFO ("Processing catalog page: "
                                 ++ chosen_start E resume w) w1)))
    as (rest & Hrest); [cbn; lia | exact Hmr |].
  rewrite Hsent, Hrest. cbn [logger modify snd requests set_log].
  rewrite Hreq, <- app_assoc. cbn [app]. now exists (rest ++ sent).
Qed.

(** C6.  (1) With [resume] on, a stored cursor that is a non-empty URL
    and a state that can be read, the traversal starts at the cursor:
    [begin_crawl] returns it and the first request of the run goes to
    it.  (2) With [resume] on and no stored cursor it starts at the
    first page.  (3) With [resume] off it starts at the first page,
    whatever the store holds. *)
Theorem C6_resume_starts_at_cursor (E : env) (w : world) :
  (forall url,
     stored_cursor w = VStr url -> url <> "" ->
     io_fault E (S (io_count w)) = false ->
     fst (begin_crawl E true w) = Ok url /\
     (0 < sem_value w -> 0 <= crawler_max_retries (cfg E) ->
      forall fuel, exists rest,
        requests (snd (crawl_all_books E (S fuel) true w))
        = requests w ++ url :: rest)) /\
  (stored_cursor w = VNone ->
   fst (begin_crawl E true w) = Ok first_page /\
   (0 < sem_value w -> 0 <= crawler_max_retries (cfg E) ->
    forall fuel, exists rest,
      requests (snd (crawl_all_books E (S fuel) true w))
      = requests w ++ first_page :: rest)) /\
  (fst (begin_crawl E false w) = Ok first_page /\
   (0 < sem_value w -> 0 <= crawler_max_retries (cfg E) ->
    forall fuel, exists rest,
      requests (snd (crawl_all_books E (S fuel) false w))
      = requests w ++ first_page :: rest)).
Proof.
  assert (Hgen : forall resume,
            fst (begin_crawl E resume w) = Ok (chosen_start E resume w) /\
            (0 < sem_value w -> 0 <= crawler_max_retries (cfg E) ->
             forall fuel, exists rest,
               requests (snd (crawl_all_books E (S fuel) resume w))
               = requests w ++ chosen_start E resume w :: rest)).
  { intros resume. split.
    - destruct (begin_crawl_result E resume w) as (w1 & -> & _). reflexivity.
    - intros Hsem Hmr fuel. now apply first_request. }
  split; [|split].
  - intros url Hcur Hurl Hread.
    assert (Hc : chosen_start E true w = url).
    { unfold chosen_start. rewrite Hread, Hcur.
      apply String.eqb_neq in Hurl. unfold str_truthy. now rewrite Hurl. }
    rewrite <- Hc. apply Hgen.
  - intros Hcur.
    assert (Hc : chosen_start E true w = first_page).
    { unfold chosen_start. rewrite Hcur. now destruct (io_fault E _). }
    rewrite <- Hc. apply Hgen.
  - apply (Hgen false).
Qed.

(** * At most K requests in flight *)

Module PoolFacts.
Import Pool.

Lemma flying_cons t l : flying (t :: l) = weight t + flying l.
Proof.
  unfold flying, weight. cbn [filter].
  destruct (is_in_flight t); cbn [List.length]; lia.
Qed.

Lemma flying_nonneg l : 0 <= flying l.
Proof. unfold flying. lia. Qed.

Lemma flying_update l : forall i t t',
  nth_error l i = Some t ->
  flying (update i t' l) = flying l - weight t + weight t'.
Proof.
  induction l as [|x l IH]; intros i t t' H.
  - destruct i; discriminate.
  - destruct i as [|i]; cbn in H; cbn [update].
    + inversion H; subst. rewrite !flying_cons. lia.
    + rewrite !flying_cons, (IH i t t' H). lia.
Qed.

Lemma flying_returned l : forallb is_returned l = true -> flying l = 0.
Proof.
  induction l as [|x l IH]; intros H; [reflexivity|].
  cbn in H. apply andb_true_iff in H. destruct H as [Hx Hl].
  rewrite flying_cons, (IH Hl). destruct x; try discriminate. reflexivity.
Qed.

Lemma flying_start mr n : flying (repeat (start mr) n) = 0.
Proof.
  induction n as [|n IH]; [reflexivity|].
  cbn [repeat]. rewrite flying_cons, IH.
  unfold start. now destruct (0 <? mr + 1).
Qed.

Lemma weight_after_response mr a o : weight (after_response mr a o) = 0.
Proof.
  unfold after_response.
  destruct o as [text|code|msg|msg]; try reflexivity.
  - destruct (code =? 404); [reflexivity|]. now destruct (a <? mr).
  - now destruct (a <? mr).
Qed.

Lemma step_balanced K mr s ev s' :
  balanced K s -> step mr s ev = Some s' -> balanced K s'.
Proof.
  unfold balanced, in_flight. fold (flying (tasks s)). fold (flying (tasks s')).
  intros [Hsum Hpos] Hstep.
  destruct ev as [n|i|i o|i]; cbn [step] in Hstep.
  - destruct (forallb is_returned (tasks s)) eqn:Hret; [|discriminate].
    inversion Hstep; subst s'. cbn [tasks permits].
    rewrite flying_start. rewrite (flying_returned _ Hret) in Hsum. lia.
  - destruct (nth_error (tasks s) i) as [[a|a|a|r]|] eqn:Hi; try discriminate.
    destruct (0 <? permits s) eqn:Hp; [|discriminate].
    apply Z.ltb_lt in Hp. inversion Hstep; subst s'. cbn [tasks permits].
    rewrite (flying_update _ _ _ _ Hi). cbn [weight is_in_flight]. lia.
  - destruct (nth_error (tasks s) i) as [[a|a|a|r]|] eqn:Hi; try discriminate.
    inversion Hstep; subst s'. cbn [tasks permits].
    rewrite (flying_update _ _ _ _ Hi), weight_after_response.
    cbn [weight is_in_flight]. pose proof (flying_nonneg (tasks s)). lia.
  - destruct (nth_error (tasks s) i) as [[a|a|a|r]|] eqn:Hi; try discriminate.
    inversion Hstep; subst s'. cbn [tasks permits].
    rewrite (flying_update _ _ _ _ Hi). cbn [weight is_in_flight]. lia.
Qed.

Lemma run_balanced K mr evs : forall s s',
  balanced K s -> run mr s evs = Some s' -> balanced K s'.
Proof.
  induction evs as [|ev evs IH]; intros s s' Hb Hrun; cbn [run] in Hrun.
  - now inversion Hrun; subst.
  - destruct (step mr s ev) as [s1|] eqn:Hstep; [|discriminate].
    eapply IH; [|exact Hrun]. eapply step_balanced; eassumption.
Qed.

End PoolFacts.

(** C9.  In every state a run can reach, whatever the interleaving of
    its tasks and the outcomes of their requests, the number of requests
    in flight is at most the limit [K] of the semaphore, and what is
    missing to [K] are the free permits.  For a page of 50 books and
    [K = 10] there are never more than 10; the bound is reached, and an
    eleventh task cannot enter. *)
Theorem C9_at_most_K_in_flight :
  (forall (K max_retries : Z) (evs : list Pool.event) (s : Pool.state),
     0 <= K ->
     Pool.run max_retries (Pool.init K) evs = Some s ->
     0 <= Pool.in_flight s <= K /\
     Pool.in_flight s + Pool.permits s = K) /\
  (forall (max_retries : Z) (evs : list Pool.event) (s : Pool.state),
     Pool.run max_retries (Pool.init 10) (Pool.Gather 50 :: evs) = Some s ->
     Pool.in_flight s <= 10) /\
  (exists s,
     Pool.run 3 (Pool.init 10) (Pool.Gather 50 :: Pool.acquire_all 10) = Some s /\
     Pool.in_flight s = 10 /\
     Pool.step 3 s (Pool.Acquire 10) = None).
Proof.
  assert (Hgen : forall K mr evs s,
            0 <= K -> Pool.run mr (Pool.init K) evs = Some s ->
            0 <= Pool.in_flight s <= K /\
            Pool.in_flight s + Pool.permits s = K).
  { intros K mr evs s HK Hrun.
    destruct (PoolFacts.run_balanced K mr evs (Pool.init K) s) as [Hsum Hpos];
      [split; [reflexivity | exact HK] | exact Hrun |].
    split; [|exact Hsum].
    unfold Pool.in_flight in *. lia. }
  split; [exact Hgen|]. split.
  - intros mr evs s Hrun.
    apply (Hgen 10 mr (Pool.Gather 50 :: evs) s); [lia | exact Hrun].
  - eexists. split; [vm_compute; reflexivity|]. split; reflexivity.
Qed.

(** C9, witness: two tasks, one of them in flight, [K = 10]. *)
Lemma C9_at_most_K_in_flight_witness :
  0 <= Pool.in_flight
         (Pool.State 9 [Pool.InFlight 0; Pool.Acquiring 0]) <= 10 /\
  Pool.in_flight (Pool.State 9 [Pool.InFlight 0; Pool.Acquiring 0]) + 9 = 10.
Proof.
  apply (proj1 C9_at_most_K_in_flight 10 3
           [Pool.Gather 2; Pool.Acquire 0]
           (Pool.State 9 [Pool.InFlight 0; Pool.Acquiring 0])).
  - lia.
  - reflexivity.
Defined.

(** C1, counterexample.  On the plain site the second catalog page is
    read and lists no book; the run returns normally and the stored
    status is completed, not failed. *)
Lemma C1_counterexample :
  extract_book_links demo ("<html>" ++ page_2 ++ "</html>") page_2 = [] /\
  fst demo_run = Ok tt /\
  requests (snd demo_run) = [first_page; attic_url; velvet_url; page_2] /\
  stored_status (snd demo_run) = VStr "completed".
Proof. vm_compute. repeat split. Qed.

(** C1, witness: the same run. *)
Lemma C1_empty_page_ends_run_completed_witness :
  exists w',
    crawl_all_books demo 5 false (fresh_world demo) = (Ok tt, w') /\
    (io_fault demo
       (io_count (snd (crawl_page demo page_2 2
                         (snd (crawl_page demo first_page 0
                                 (snd (begin_crawl demo false
                                         (fresh_world demo)))))))) = false ->
     stored_status w' = VStr "completed") /\
    In (WARNING, ("No book links found on " ++ page_2)%string) (log w') /\
    crawler_state
      (snd (crawl_page demo page_2 2
              (snd (crawl_page demo first_page 0
                      (snd (begin_crawl demo false (fresh_world demo)))))))
    = crawler_state
        (snd (crawl_page demo first_page 0
                (snd (begin_crawl demo false (fresh_world demo))))).
Proof.
  apply (proj2 (C1_empty_page_ends_run_completed demo) 5%nat false
           (fresh_world demo) first_page
           (snd (begin_crawl demo false (fresh_world demo)))
           page_2 2
           (snd (crawl_page demo first_page 0
                   (snd (begin_crawl demo false (fresh_world demo)))))).
  - vm_compute. reflexivity.
  - eapply visits_later.
    + reflexivity.
    + vm_compute. reflexivity.
    + apply visits_here. reflexivity.
  - vm_compute. reflexivity.
Defined.

(** C2, counterexample.  The insert of the first book fails; the run
    goes on, stores the second book, returns normally and the stored
    status is completed. *)
Lemma C2_counterexample :
  io_fault failing_store 3 = true /\
  fst failing_run = Ok tt /\
  stored_status (snd failing_run) = VStr "completed" /\
  map (fun d => dict_get "name" (doc_fields d)) (books (snd failing_run))
  = [VStr "Tipping the Velvet"] /\
  List.length (changes (snd failing_run)) = 1%nat.
Proof. vm_compute. repeat split. Qed.

(** C2, witness: over the failing store the insert of the first book of
    the run is refused. *)
Lemma C2_store_failures_are_contained_witness :
  exists w',
    save_book failing_store (attic float_51_77) "<html>" begun_run
    = (Ok None, w') /\
    books w' = books begun_run /\ changes w' = changes begun_run /\
    io_count w' = 4%nat /\
    log w'
    = log (snd (save_html_snapshot failing_store "<html>" (VStr attic_url)
                  begun_run))
      ++ [saving_error (attic float_51_77)].
Proof.
  apply (proj1 (proj2 (proj2 (proj2 (proj2
           (C2_store_failures_are_contained failing_store)))))
           (attic float_51_77) "<html>" begun_run (VStr attic_url)
           "68ae923d54d9f320b7b23bbe6b652c7602c9657176e7c51bc5cfe3388500b5bd").
  - reflexivity.
  - exact hash_attic_51_77.
  - reflexivity.
  - reflexivity.
  - reflexivity.
Defined.

(** C5, witness: two timeouts, then the page. *)
Lemma C5_retry_policy_witness :
  exists w',
    fetch_with_retry flaky attic_url None (fresh_world flaky)
    = (Ok (Some ("<html>" ++ attic_url ++ "</html>")%string), w') /\
    requests w' = requests (fresh_world flaky)
                  ++ [attic_url; attic_url; attic_url] /\
    sleeps w' = sleeps (fresh_world flaky) ++ [2 * 1; 2 * 2] /\
    (0 < 2 -> 2 * 1 < 2 * 2).
Proof.
  apply (proj2 (proj2 (C5_retry_policy flaky attic_url None (fresh_world flaky)
                         ltac:(reflexivity)))).
  - cbn. lia.
  - reflexivity.
  - reflexivity.
  - reflexivity.
Defined.

(** C10, witness: the same fetch. *)
Lemma C10_fetch_with_retry_total_witness :
  exists r w',
    fetch_with_retry flaky attic_url None (fresh_world flaky) = (Ok r, w') /\
    let seen := outcomes_seen flaky attic_url (fresh_world flaky) w' in
    Z.of_nat (List.length seen) <= Z.max 0 (resolve flaky None + 1) /\
    Forall (fun o => transient o = true) (removelast seen) /\
    r = match rev seen with
        | o :: _ => body_of o
        | [] => None
        end.
Proof.
  apply (C10_fetch_with_retry_total flaky attic_url None (fresh_world flaky)).
  reflexivity.
Defined.

(** C6, witness: the cursor of page 5. *)
Lemma C6_resume_starts_at_cursor_witness :
  fst (begin_crawl demo true resumed_world) = Ok page_5 /\
  (0 < sem_value resumed_world -> 0 <= crawler_max_retries (cfg demo) ->
   forall fuel, exists rest,
     requests (snd (crawl_all_books demo (S fuel) true resumed_world))
     = requests resumed_world ++ page_5 :: rest).
Proof.
  apply (proj1 (C6_resume_starts_at_cursor demo resumed_world) page_5).
  - reflexivity.
  - discriminate.
  - reflexivity.
Defined.

(** C7, witness: the attic record and a reordering of it with other
    metadata. *)
Lemma C7_content_hash_canonical_witness :
  compute_content_hash (attic float_51_77)
  = compute_content_hash attic_shuffled.
Proof.
  apply (proj1 C7_content_hash_canonical).
  intros k Hk. cbn in Hk.
  repeat (destruct Hk as [<-|Hk]; [reflexivity|]). contradiction.
Defined.

(* ================================================================== *)
(** * Further properties of the crawler and of the storage layer *)
(* ================================================================== *)

(** * The semaphore around a fetch *)

Lemma same_store_set_log f w : same_store w (set_log f w).
Proof. repeat split. Qed.

Lemma fetch_attempts_restores E url mr : forall n a w,
  sem_value (snd (fetch_attempts E n a mr url w)) = sem_value w /\
  same_store w (snd (fetch_attempts E n a mr url w)).
Proof.
  induction n as [|n IH]; intros a w; cbn [fetch_attempts].
  - split; [reflexivity | apply same_store_refl].
  - unfold semaphore_acquire. msimpl.
    destruct (0 <? sem_value w) eqn:Hs; msimpl;
      [|split; [reflexivity | apply same_store_refl]].
    destruct (http E (http_count w) url) as [text|code|msg|msg]; msimpl.
    + split; [lia | repeat split].
    + destruct (code =? 404); msimpl; [split; [lia | repeat split]|].
      destruct (a <? mr); msimpl; [|split; [lia | repeat split]].
      match goal with
      | |- context [fetch_attempts E n (a + 1) mr url ?w1] =>
          destruct (IH (a + 1) w1) as [H1 H2]; rewrite H1; split;
          [cbn; lia | eapply same_store_trans; [|exact H2]; repeat split]
      end.
    + destruct (a <? mr); msimpl; [|split; [lia | repeat split]].
      match goal with
      | |- context [fetch_attempts E n (a + 1) mr url ?w1] =>
          destruct (IH (a + 1) w1) as [H1 H2]; rewrite H1; split;
          [cbn; lia | eapply same_store_trans; [|exact H2]; repeat split]
      end.
    + split; [lia | repeat split].
Qed.

(** X1.  Whatever the outcomes of its requests, [fetch_with_retry] gives
    back every permit it takes: the semaphore is at the end what it was
    at the start, on each of its paths (a body, a 404, a failure at the
    last attempt, an unexpected exception, a wait that never ends).  It
    touches neither the store nor the visited set nor the clock. *)
Theorem fetch_with_retry_releases_permit
    (E : env) (url : string) (max_retries : option Z) (w : world) :
  sem_value (snd (fetch_with_retry E url max_retries w)) = sem_value w /\
  same_store w (snd (fetch_with_retry E url max_retries w)).
Proof. unfold fetch_with_retry. apply fetch_attempts_restores. Qed.

(** * scrape_book and the visited set *)

(** A field no storage call writes. *)
Ltac untouched :=
  first
    [ let H1 := fresh in let H2 := fresh in
      intros ? ? ? H1 H2; congruence
    | unfold preserves, changes_insert_one, io_op, bind, new_oid, modify,
        semaphore_acquire;
      intros;
      repeat match goal with
             | |- context [if ?b then _ else _] => destruct b
             end;
      reflexivity ].

Lemma save_book_visited E data html w :
  visited_urls (snd (save_book E data html w)) = visited_urls w.
Proof.
  apply (preserves_save_book (fun w w' => visited_urls w' = visited_urls w));
    untouched.
Qed.

(** X2.  [scrape_book] never raises.  For a URL already visited it returns
    [True] at once, with no request and no change of state.  Otherwise
    the URL is in the visited set afterwards exactly when the call
    returns [True]: a [False] (no body, no parse, no id from the store)
    leaves the visited set as it was, and nothing is ever removed from
    it. *)
Theorem scrape_book_marks_visited (E : env) (url : string) (w : world) :
  (mem url (visited_urls w) = true -> scrape_book E url w = (Ok true, w)) /\
  match scrape_book E url w with
  | (Ok true, w') =>
      mem url (visited_urls w') = true /\
      (mem url (visited_urls w) = true \/
       visited_urls w' = visited_urls w ++ [url])
  | (Ok false, w') => visited_urls w' = visited_urls w
  | (Raise _, _) => False
  | (NoReturn _, w') => visited_urls w' = visited_urls w
  end.
Proof.
  unfold scrape_book, get_world. unfold bind at 1. unfold bind at 1.
  destruct (mem url (visited_urls w)) eqn:Hm.
  { split; [reflexivity|]. cbn. split; [exact Hm | now left]. }
  split; [discriminate|].
  unfold scrape_book_task, try_except. unfold bind at 1.
  pose proof (fetch_with_retry_ends E nothing url None w) as Hends.
  destruct (fetch_attempts_restores E url (resolve E None)
              (Z.to_nat (resolve E None + 1)) 0 w) as [_ Hsame].
  change (fetch_attempts E _ 0 _ url w) with (fetch_with_retry E url None w)
    in Hsame.
  destruct (fetch_with_retry E url None w) as [[html|e|s] w1];
    cbn [fst snd] in *; [|contradiction|apply Hsame].
  assert (Hv1 : visited_urls w1 = visited_urls w) by apply Hsame.
  destruct html as [html|]; [|exact Hv1].
  destruct (str_truthy html); [|exact Hv1].
  destruct (parse_book_page E html url) as [[|kv data]|]; [exact Hv1| |exact Hv1].
  unfold bind at 1.
  pose proof (save_book_returns E (kv :: data) html w1) as Hret.
  pose proof (save_book_visited E (kv :: data) html w1) as Hv2.
  destruct (save_book E (kv :: data) html w1) as [[bid|e|s] w2];
    cbn [fst snd] in *; [|contradiction..].
  destruct (opt_str_truthy bid); cbn.
  - rewrite Hv2, Hv1, Hm. split; [|now right].
    unfold mem. rewrite existsb_app. cbn. rewrite String.eqb_refl.
    now rewrite orb_true_r.
  - congruence.
Qed.

#[local] Hint Resolve save_book_ends get_crawl_state_ends update_crawl_state_ends
  fetch_with_retry_ends : ends.
#[local] Hint Resolve scrape_book_task_ends scrape_catalog_page_ends : ends.
#[local] Hint Resolve gather_ends : ends.

(** * A catalog page that cannot be read *)

Section Unread.
Variable E : env.

Lemma crawl_page_raises_unpack url total :
  ends (eq unpack_error) anything (crawl_page E url total).
Proof. unfold crawl_page, unpack_pair. ends_tac. reflexivity. Qed.

Lemma crawl_pages_raises_unpack fuel : forall cur total,
  ends (eq unpack_error) anything (crawl_pages E fuel cur total).
Proof.
  pose proof crawl_page_raises_unpack.
  induction fuel as [|fuel IH]; intros cur total; cbn [crawl_pages]; ends_tac;
    auto.
Qed.

Lemma crawl_all_books_raises_unpack fuel resume :
  ends (eq unpack_error) anything (crawl_all_books E fuel resume).
Proof.
  pose proof crawl_pages_raises_unpack.
  unfold crawl_all_books.
  apply (ends_try _ _ (eq unpack_error)).
  - ends_tac; auto. apply begin_crawl_ends.
  - intros e He. ends_tac. exact He.
Qed.

Lemma crawl_pages_visits_raise fuel cur total w url total' w' e wq :
  visits E fuel cur total w url total' w' ->
  crawl_page E url total' w' = (Raise e, wq) ->
  crawl_pages E fuel cur total w = (Raise e, wq).
Proof.
  intros Hv Hpage.
  induction Hv as [fuel url total w Hurl
                  |fuel u total w nxt total1 w1 url total' w' Hu Hstep Hv IH];
    cbn [crawl_pages opt_str_truthy].
  - rewrite Hurl. unfold bind. now rewrite Hpage.
  - rewrite Hu. unfold bind. rewrite Hstep. now apply IH.
Qed.

(** The page whose first request ends the fetch with no body. *)
Lemma crawl_page_unread url total w :
  0 < sem_value w -> 0 <= crawler_max_retries (cfg E) ->
  transient (http E (http_count w) url) = false ->
  opt_str_truthy (body_of (http E (http_count w) url)) = false ->
  exists wq,
    crawl_page E url total w = (Raise unpack_error, wq) /\
    requests wq = requests w ++ [url] /\
    books wq = books w /\ changes wq = changes w /\
    crawler_state wq = crawler_state w /\ io_count wq = io_count w.
Proof.
  intros Hsem Hmr Htr Hbody.
  unfold crawl_page. unfold bind at 1. cbn [logger modify].
  set (w0 := set_log _ w).
  destruct (fetch_attempts_spec E url (crawler_max_retries (cfg E)) 0
              (Z.to_nat (crawler_max_retries (cfg E) + 1)) 0 w0)
    as (w1 & Hrun & _ & Hreq & _ & _ & Hsame).
  all: try (cbn; lia).
  all: try (intros; lia).
  { left. unfold w0. cbn [http_count set_log]. now rewrite Nat.add_0_r. }
  unfold bind at 1. unfold scrape_catalog_page, try_except. unfold bind at 1.
  unfold fetch_with_retry. rewrite Hrun.
  unfold w0 in *. cbn [http_count set_log] in *. rewrite Nat.add_0_r in *.
  destruct Hsame as (Hb & Hc & Hs & Hio & _).
  assert (Hout : forall r, opt_str_truthy r = false ->
            (match r with
             | Some html =>
                 if str_truthy html
                 then ret (LinksAndNext (extract_book_links E html url)
                                        (get_next_page_url E html url))
                 else ret EmptyList
             | None => ret EmptyList
             end) w1 = (Ok EmptyList, w1)).
  { intros [h|] Hr; cbn in Hr; [rewrite Hr|]; reflexivity. }
  rewrite (Hout _ Hbody). cbn.
  exists w1. split; [reflexivity|].
  cbn in Hreq. repeat split; assumption.
Qed.

End Unread.

(** X3.  A run can raise in one way only: a catalog page gives no body (a
    404, an exhausted retry budget, an unexpected error or an empty
    response), [scrape_catalog_page] returns the bare list of line 137
    and unpacking it raises [ValueError].  (1) No other exception leaves
    [crawl_all_books].  (2) A page whose first request ends the fetch
    with no body raises it, after that one request, with the store as it
    was.  (3) When the loop comes to a page that raises, the run raises
    the same exception; its handler stores the status failed and the
    message of the exception, and leaves the cursor where the last
    checkpoint put it. *)
Theorem unread_catalog_page_fails_run (E : env) :
  (forall fuel resume w e w',
     crawl_all_books E fuel resume w = (Raise e, w') -> e = unpack_error) /\
  (forall url total w,
     0 < sem_value w -> 0 <= crawler_max_retries (cfg E) ->
     transient (http E (http_count w) url) = false ->
     opt_str_truthy (body_of (http E (http_count w) url)) = false ->
     exists wq,
       crawl_page E url total w = (Raise unpack_error, wq) /\
       requests wq = requests w ++ [url] /\
       books wq = books w /\ changes wq = changes w /\
       crawler_state wq = crawler_state w /\ io_count wq = io_count w) /\
  (forall fuel resume w start w1 url total wp e wq,
     begin_crawl E resume w = (Ok start, w1) ->
     visits E fuel (Some start) 0 w1 url total wp ->
     crawl_page E url total wp = (Raise e, wq) ->
     exists w',
       crawl_all_books E fuel resume w = (Raise e, w') /\
       (io_fault E (io_count wq) = false ->
        stored_status w' = VStr "failed" /\
        stored_error_message w' = VStr (str_exn e) /\
        stored_cursor w' = stored_cursor wq)).
Proof.
  split; [|split].
  - intros fuel resume w e w' Hrun.
    pose proof (crawl_all_books_raises_unpack E fuel resume w) as H.
    rewrite Hrun in H. symmetry. exact H.
  - apply crawl_page_unread.
  - intros fuel resume w start w1 url total wp e wq Hbegin Hvisits Hraise.
    pose proof (crawl_pages_visits_raise E _ _ _ _ _ _ _ _ _ Hvisits Hraise)
      as Hloop.
    unfold crawl_all_books, try_except.
    unfold bind at 1. rewrite Hbegin.
    unfold bind at 1. rewrite Hloop.
    unfold bind at 1. cbn [logger modify].
    unfold bind at 1. rewrite update_crawl_state_eq.
    cbn [raise]. eexists. split; [reflexivity|].
    intros Hf. cbn [io_count set_log]. rewrite Hf.
    unfold stored_status, stored_error_message, stored_cursor.
    cbn [crawler_state set_log set_crawler_state set_io_count].
    destruct (crawler_state wq) as [s|]; unfold dict_get, dict_of;
      rewrite !dict_lookup_update; repeat split.
Qed.

(** The site whose first catalog page is not found. *)
Lemma unread_catalog_page_fails_run_witness :
  exists wq,
    crawl_page missing_site first_page 0 (fresh_world missing_site)
    = (Raise unpack_error, wq) /\
    requests wq = requests (fresh_world missing_site) ++ [first_page] /\
    books wq = books (fresh_world missing_site) /\
    changes wq = changes (fresh_world missing_site) /\
    crawler_state wq = crawler_state (fresh_world missing_site) /\
    io_count wq = io_count (fresh_world missing_site).
Proof.
  apply (proj1 (proj2 (unread_catalog_page_fails_run missing_site))
           first_page 0 (fresh_world missing_site)).
  - reflexivity.
  - cbn. lia.
  - reflexivity.
  - reflexivity.
Defined.

Section Nameless.
Variable E : env.

Lemma save_book_no_key data html w :
  dict_lookup "source_url" data = None ->
  save_book E data html w
  = (Ok None,
     set_log (fun lg => lg ++ [(ERROR,
        ("Error saving book "
         ++ match dict_lookup "name" data with
            | Some v => py_str v
            | None => "Unknown"
            end ++ ": " ++ str_exn (KeyError "source_url"))%string)]) w).
Proof. intros H. munfold. msimpl. rewrite H. reflexivity. Qed.

Lemma log_changes_nameless ex data h w :
  dict_lookup "name" data = None ->
  exists w1, _log_changes E ex data h w = (Ok tt, w1) /\
             changes w1 = changes w /\ books w1 = books w.
Proof.
  intros Hname. munfold. msimpl. rewrite Hname.
  destruct (diff_fields tracked_fields (doc_fields ex) data); msimpl;
    eexists; repeat split.
Qed.

Lemma log_new_book_nameless bid data w :
  dict_lookup "name" data = None ->
  exists w1, _log_new_book E bid data w = (Ok tt, w1) /\
             changes w1 = changes w /\ books w1 = books w.
Proof.
  intros Hname. munfold. msimpl. rewrite Hname. msimpl.
  eexists; repeat split.
Qed.

Lemma save_html_snapshot_result html src w :
  exists p w1, save_html_snapshot E html src w = (Ok p, w1) /\
               changes w1 = changes w /\ books w1 = books w.
Proof.
  munfold. msimpl.
  destruct src; msimpl; try fault_case; msimpl;
    do 2 eexists; (split; [reflexivity|]); split; reflexivity.
Qed.

Lemma save_book_no_name data html w :
  dict_lookup "name" data = None ->
  fst (save_book E data html w) = Ok None /\
  changes (snd (save_book E data html w)) = changes w.
Proof.
  intros Hname.
  unfold save_book, books_find_one, books_insert_one, books_update_one, getitem.
  msimpl.
  destruct (dict_lookup "source_url" data) as [src|]; msimpl; [|now split].
  destruct (save_html_snapshot_result html src w) as (p & w1 & -> & Hc1 & _).
  unfold compute_content_hash.
  destruct (Json.dumps_sorted (content_dict data)) as [js|]; msimpl;
    [| now split].
  set (h := Sha256.hexdigest (Text.bytes_of js)).
  fault_case; msimpl; [now split|].
  destruct (find (has_source_url src) (books w1)) as [ex|]; msimpl.
  - destruct (py_eqb _ _); msimpl; rewrite ?Hname; msimpl; [now split|].
    match goal with
    | |- context [_log_changes E ex data h ?w2] =>
        destruct (log_changes_nameless ex data h w2 Hname)
          as (w3 & -> & Hc3 & _)
    end.
    msimpl. fault_case; msimpl; rewrite ?Hname; msimpl;
      (split; [reflexivity | now rewrite Hc3]).
  - fault_case; msimpl; [now split|].
    destruct (existsb _ _); msimpl; [now split|].
    match goal with
    | |- context [_log_new_book E ?bid data ?w2] =>
        destruct (log_new_book_nameless bid data w2 Hname)
          as (w3 & -> & Hc3 & _)
    end.
    msimpl. rewrite Hname. msimpl. split; [reflexivity | now rewrite Hc3].
Qed.

Hypothesis Hrel : reliable E.

Ltac reliable_run :=
  repeat (match goal with
          | |- context [io_fault E ?n] => rewrite (Hrel n)
          end; msimpl).

(** The nameless record is stored all the same. *)
Lemma save_book_no_name_stored data html w url h :
  dict_lookup "source_url" data = Some (VStr url) ->
  dict_lookup "name" data = None ->
  compute_content_hash data = Ok h ->
  find (has_source_url (VStr url)) (books w) = None ->
  exists t1 t2 path,
    books (snd (save_book E data html w))
    = books w ++ [Document (next_oid w)
                    (dict_update data
                       [ ("crawl_timestamp", VDatetime t1);
                         ("last_updated", VDatetime t2);
                         ("status", VStr "active");
                         ("content_hash", VStr h);
                         ("html_snapshot_path", VStr path) ])].
Proof.
  intros Hurl Hname Hhash Hfind.
  assert (Hsrc : forall u, rev u = rev u ->
            dict_lookup "source_url" (rev u) = None ->
            dict_get "source_url" (dict_update data u) = VStr url).
  { intros u _ Hu. unfold dict_get. now rewrite dict_lookup_update, Hu, Hurl. }
  munfold. msimpl. rewrite Hurl. msimpl. reliable_run. msimpl.
  rewrite Hhash. msimpl. reliable_run. msimpl. rewrite Hfind. msimpl. reliable_run. msimpl.
  rewrite Hsrc by reflexivity.
  rewrite (find_none_existsb _ _ Hfind). msimpl.
  rewrite Hname. msimpl. 
  do 3 eexists. reflexivity.
Qed.

End Nameless.

(** X4.  A record that lacks a key [save_book] reads.  (1) Without
    [source_url] it is refused before the store is touched: the call
    returns [None], performs no store or file operation and leaves the
    books, the change log and the snapshots as they were.  (2) Without
    [name] it is reported as a failure whatever the store does: the call
    returns [None] and logs no change event, the [KeyError] of
    [book_data['name']] being caught by the handlers; yet with a
    reliable store and a new key the record has been inserted by then,
    and the collection holds one more document, under that key. *)
Theorem save_book_missing_keys
    (E : env) (data : dict) (html : string) (w : world) :
  (dict_lookup "source_url" data = None ->
   exists w',
     save_book E data html w = (Ok None, w') /\
     books w' = books w /\ changes w' = changes w /\
     html_files w' = html_files w /\ io_count w' = io_count w /\
     next_oid w' = next_oid w) /\
  (dict_lookup "name" data = None ->
   fst (save_book E data html w) = Ok None /\
   changes (snd (save_book E data html w)) = changes w /\
   (reliable E ->
    forall url,
      dict_lookup "source_url" data = Some (VStr url) ->
      (exists h, compute_content_hash data = Ok h) ->
      find (has_source_url (VStr url)) (books w) = None ->
      exists d,
        books (snd (save_book E data html w)) = books w ++ [d] /\
        doc_id d = next_oid w /\
        has_source_url (VStr url) d = true)).
Proof.
  split.
  { intros H. rewrite (save_book_no_key E data html w H).
    eexists. repeat split. }
  intros Hname.
  destruct (save_book_no_name E data html w Hname) as [Hr Hc].
  split; [exact Hr|]. split; [exact Hc|].
  intros Hrel url Hurl [h Hh] Hfind.
  destruct (save_book_no_name_stored E Hrel data html w url h Hurl Hname Hh Hfind)
    as (t1 & t2 & path & ->).
  eexists. split; [reflexivity|]. split; [reflexivity|].
  unfold has_source_url, dict_get. cbn [doc_fields].
  rewrite dict_lookup_update.
  replace (dict_lookup "source_url" (rev _)) with (@None value) by reflexivity.
  rewrite Hurl. cbn. apply String.eqb_refl.
Qed.

(** X4, witness: the record without a name, on the plain site. *)
Lemma save_book_missing_keys_witness :
  fst (save_book demo nameless "<html>" (fresh_world demo)) = Ok None /\
  changes (snd (save_book demo nameless "<html>" (fresh_world demo)))
  = changes (fresh_world demo) /\
  (reliable demo ->
   forall url,
     dict_lookup "source_url" nameless = Some (VStr url) ->
     (exists h, compute_content_hash nameless = Ok h) ->
     find (has_source_url (VStr url)) (books (fresh_world demo)) = None ->
     exists d,
       books (snd (save_book demo nameless "<html>" (fresh_world demo)))
       = books (fresh_world demo) ++ [d] /\
       doc_id d = next_oid (fresh_world demo) /\
       has_source_url (VStr url) d = true).
Proof.
  apply (proj2 (save_book_missing_keys demo nameless "<html>"
                  (fresh_world demo))).
  reflexivity.
Defined.

(** X5.  A snapshot that cannot be written does not fail the upsert:
    [save_html_snapshot] swallows the error and returns the empty path,
    and [save_book] goes on to insert the record, with an empty
    [html_snapshot_path], and to return its id.  No file is recorded. *)
Theorem snapshot_failure_keeps_upsert
    (E : env) (data : dict) (html : string) (w : world)
    (url : string) (name : value) :
  io_fault E (io_count w) = true ->
  (forall n, (io_count w < n)%nat -> io_fault E n = false) ->
  dict_lookup "source_url" data = Some (VStr url) ->
  dict_lookup "name" data = Some name ->
  (exists h, compute_content_hash data = Ok h) ->
  find (has_source_url (VStr url)) (books w) = None ->
  exists w' d,
    save_book E data html w = (Ok (Some (str_oid (next_oid w))), w') /\
    books w' = books w ++ [d] /\
    doc_id d = next_oid w /\
    dict_lookup "html_snapshot_path" (doc_fields d) = Some (VStr "") /\
    html_files w' = html_files w /\
    In (ERROR, ("Error saving HTML snapshot for " ++ url ++ ": "
                ++ str_exn file_error)%string) (log w').
Proof.
  intros Hfile Hrest Hurl Hname [h Hhash] Hfind.
  assert (Hsrc : forall u, rev u = rev u ->
            dict_lookup "source_url" (rev u) = None ->
            dict_get "source_url" (dict_update data u) = VStr url).
  { intros u _ Hu. unfold dict_get. now rewrite dict_lookup_update, Hu, Hurl. }
  munfold. msimpl. rewrite Hurl. msimpl. rewrite Hfile. msimpl.
  rewrite Hhash. msimpl.
  rewrite (Hrest (S (io_count w))) by lia. msimpl.
  rewrite Hfind. msimpl.
  rewrite (Hrest (S (S (io_count w)))) by lia. msimpl.
  rewrite Hsrc by reflexivity.
  rewrite (find_none_existsb _ _ Hfind). msimpl.
  rewrite Hname. msimpl.
  rewrite (Hrest (S (S (S (io_count w))))) by lia. msimpl.
  do 2 eexists. split; [reflexivity|].
  split; [reflexivity|]. split; [reflexivity|].
  cbn [doc_id doc_fields].
  split; [now rewrite dict_lookup_update|].
  split; [reflexivity|].
  cbn [log]. rewrite !in_app_iff. cbn [In py_str]. tauto.
Qed.

Lemma snapshot_failure_keeps_upsert_witness :
  exists w' d,
    save_book read_only_disk (attic float_51_77) "<html>"
      (fresh_world read_only_disk)
    = (Ok (Some (str_oid (next_oid (fresh_world read_only_disk)))), w') /\
    books w' = books (fresh_world read_only_disk) ++ [d] /\
    doc_id d = next_oid (fresh_world read_only_disk) /\
    dict_lookup "html_snapshot_path" (doc_fields d) = Some (VStr "") /\
    html_files w' = html_files (fresh_world read_only_disk) /\
    In (ERROR, ("Error saving HTML snapshot for " ++ attic_url ++ ": "
                ++ str_exn file_error)%string) (log w').
Proof.
  apply (snapshot_failure_keeps_upsert read_only_disk (attic float_51_77)
           "<html>" (fresh_world read_only_disk) attic_url
           (VStr "A Light in the Attic")).
  - reflexivity.
  - intros n Hn. cbn in Hn. destruct n; [lia | reflexivity].
  - reflexivity.
  - reflexivity.
  - eexists. exact hash_attic_51_77.
  - reflexivity.
Defined.

(** * The crawl state, written and read back *)

(** X6.  [update_crawl_state] then [get_crawl_state], the two store
    operations succeeding: the state read back holds every field just
    written, with the value written, and for every other field what the
    stored state held before, or nothing when there was none (the
    defaults of [get_crawl_state] are never stored). *)
Theorem crawl_state_round_trip (E : env) (state_data : dict) (w : world) :
  NoDup (map fst state_data) ->
  io_fault E (io_count w) = false ->
  io_fault E (S (io_count w)) = false ->
  exists s w2,
    (update_crawl_state E state_data ;;; get_crawl_state E) w = (Ok s, w2) /\
    crawler_state w2 = Some s /\
    forall k,
      k <> "_id" ->
      dict_lookup k s
      = match dict_lookup k state_data with
        | Some v => Some v
        | None =>
            match crawler_state w with
            | Some old => dict_lookup k old
            | None => None
            end
        end.
Proof.
  intros Hnd H0 H1.
  unfold bind. rewrite update_crawl_state_eq, H0.
  munfold. msimpl. rewrite H1. msimpl.
  destruct (crawler_state w) as [old|]; msimpl.
  - do 2 eexists. split; [reflexivity|]. split; [reflexivity|].
    intros k _. now apply dict_lookup_update_dict.
  - do 2 eexists. split; [reflexivity|]. split; [reflexivity|].
    intros k _. unfold dict_of. rewrite dict_lookup_update_dict by exact Hnd.
    now destruct (dict_lookup k state_data).
Qed.

Lemma crawl_state_round_trip_witness :
  exists s w2,
    (update_crawl_state demo
       [("status", VStr "running"); ("error_message", VNone)] ;;;
     get_crawl_state demo) resumed_world = (Ok s, w2) /\
    crawler_state w2 = Some s /\
    forall k,
      k <> "_id" ->
      dict_lookup k s
      = match dict_lookup k
                [("status", VStr "running"); ("error_message", VNone)] with
        | Some v => Some v
        | None =>
            match crawler_state resumed_world with
            | Some old => dict_lookup k old
            | None => None
            end
        end.
Proof.
  apply (crawl_state_round_trip demo
           [("status", VStr "running"); ("error_message", VNone)]
           resumed_world).
  - repeat constructor; cbn; intuition discriminate.
  - reflexivity.
  - reflexivity.
Defined.

(** * What an upsert does to the store *)

Section Effect.
Variable E : env.

Lemma log_changes_effect ex data h w :
  exists w1 evs,
    _log_changes E ex data h w = (Ok tt, w1) /\
    books w1 = books w /\ next_oid w <= next_oid w1 /\
    changes w1 = changes w ++ evs /\
    one_event "updated" (str_oid (doc_id ex))
      (diff_fields tracked_fields (doc_fields ex) data) evs.
Proof.
  munfold. msimpl.
  destruct (diff_fields tracked_fields (doc_fields ex) data) as [|c cs] eqn:Hd;
    msimpl.
  { exists w, []. rewrite app_nil_r. repeat split; [lia | now left]. }
  destruct (dict_lookup "name" data) as [name|]; msimpl.
  - fault_case; msimpl.
    + eexists _, []. rewrite app_nil_r.
      repeat split; [cbn; lia | now left].
    + eexists _, [_].
      repeat split; [cbn; lia | right; now eexists _, _, _].
  - eexists _, []. rewrite app_nil_r. repeat split; [cbn; lia | now left].
Qed.

Lemma log_new_book_effect bid data w :
  exists w1 evs,
    _log_new_book E bid data w = (Ok tt, w1) /\
    books w1 = books w /\ next_oid w <= next_oid w1 /\
    changes w1 = changes w ++ evs /\
    one_event "new" bid [] evs.
Proof.
  munfold. msimpl.
  destruct (dict_lookup "name" data) as [name|]; msimpl.
  - fault_case; msimpl.
    + eexists _, []. rewrite app_nil_r.
      repeat split; [cbn; lia | now left].
    + eexists _, [_].
      repeat split; [cbn; lia | right; now eexists _, _, _].
  - eexists _, []. rewrite app_nil_r. repeat split; [cbn; lia | now left].
Qed.

Lemma save_html_snapshot_effect html src w :
  exists p w1,
    save_html_snapshot E html src w = (Ok p, w1) /\
    books w1 = books w /\ changes w1 = changes w /\ next_oid w1 = next_oid w.
Proof.
  munfold. msimpl.
  destruct src; msimpl; try fault_case; msimpl;
    do 2 eexists; (split; [reflexivity|]); repeat split.
Qed.

Ltac settle :=
  cbn [books changes next_oid fst snd] in *;
  first [ lia | congruence | assumption | idtac ].

Lemma save_book_effect data html w :
  upsert_effect data w (snd (save_book E data html w)) /\
  next_oid w <= next_oid (snd (save_book E data html w)).
Proof.
  unfold save_book, books_find_one, books_insert_one, books_update_one, getitem.
  msimpl.
  destruct (dict_lookup "source_url" data) as [src|] eqn:Hsrc; msimpl;
    [|split; [now apply effect_none | lia]].
  destruct (save_html_snapshot_effect html src w)
    as (p & w1 & -> & Hb1 & Hc1 & Ho1).
  destruct (compute_content_hash data) as [h|e|s] eqn:Hh; msimpl;
    [| split; [now apply effect_none | lia]..].
  fault_case; msimpl; [split; [now apply effect_none | lia]|].
  destruct (find (has_source_url src) (books w1)) as [ex|] eqn:Hfind; msimpl.
  - rewrite Hb1 in Hfind.
    destruct (py_eqb (dict_get "content_hash" (doc_fields ex)) (VStr h))
      eqn:Heq; msimpl.
    { destruct (dict_lookup "name" data); msimpl;
        (split; [now apply effect_none | lia]). }
    match goal with
    | |- context [_log_changes E ex data h ?w2] =>
        destruct (log_changes_effect ex data h w2)
          as (w3 & evs & -> & Hb3 & Ho3 & Hc3 & Hev)
    end.
    cbn in Hb3, Ho3, Hc3. msimpl.
    fault_case; msimpl.
    + split; [|settle].
      apply (effect_update _ _ _ src ex h 0 "" evs); settle.
      left. settle.
    + destruct (dict_lookup "name" data); msimpl.
      all: split; [|settle].
      all: eapply (effect_update _ _ _ src ex h _ _ evs); settle.
      all: right; unfold updated_fields; cbn [books]; now rewrite Hb3, Hb1.
  - rewrite Hb1 in Hfind.
    fault_case; msimpl; [split; [now apply effect_none | lia]|].
    destruct (existsb _ _) eqn:Hex; msimpl;
      [split; [now apply effect_none | lia]|].
    match goal with
    | |- context [_log_new_book E ?bid data ?w2] =>
        destruct (log_new_book_effect bid data w2)
          as (w3 & evs & -> & Hb3 & Ho3 & Hc3 & Hev)
    end.
    cbn in Hb3, Ho3, Hc3. msimpl.
    destruct (dict_lookup "name" data); msimpl.
    all: split; [|settle].
    all: eapply (effect_insert _ _ _ src _ _ h p evs); settle.
    all: try (unfold inserted_fields; rewrite Hb3, Hb1, Ho1; reflexivity).
    all: try (rewrite <- Ho1; exact Hev).
Qed.

End Effect.

(** * From one upsert to a whole run *)

(** A relation between the states of the store that every task of a run
    preserves is preserved by the run. *)
Section Run.
Variable E : env.
Variable R : world -> world -> Prop.
Hypothesis R_refl : forall w, R w w.
Hypothesis R_trans : forall a b c, R a b -> R b c -> R a c.
Hypothesis R_frame :
  forall w w',
    books w' = books w -> changes w' = changes w ->
    next_oid w' = next_oid w -> visited_urls w' = visited_urls w -> R w w'.
Hypothesis R_task :
  forall visited url, preserves R (scrape_book_task E visited url).

Lemma framed {A} (m : M A) :
  (forall w, books (snd (m w)) = books w /\ changes (snd (m w)) = changes w /\
             next_oid (snd (m w)) = next_oid w /\
             visited_urls (snd (m w)) = visited_urls w) ->
  preserves R m.
Proof. intros H w. destruct (H w) as (? & ? & ? & ?). now apply R_frame. Qed.

Lemma run_fetch url mr : preserves R (fetch_with_retry E url mr).
Proof.
  apply framed. intros w.
  destruct (fetch_attempts_restores E url (resolve E mr)
              (Z.to_nat (resolve E mr + 1)) 0 w) as [_ H].
  unfold same_store in H. unfold fetch_with_retry. fold (resolve E mr). tauto.
Qed.

Lemma run_update_crawl_state d : preserves R (update_crawl_state E d).
Proof.
  apply framed. intros w. rewrite update_crawl_state_eq.
  destruct (io_fault E (io_count w)); repeat split.
Qed.

Lemma run_get_crawl_state : preserves R (get_crawl_state E).
Proof.
  apply framed. intros w. munfold. msimpl.
  destruct (io_fault E (io_count w)); repeat split.
Qed.

Lemma run_logger l msg : preserves R (logger l msg).
Proof. apply framed. intros w. repeat split. Qed.

Lemma run_datetime_now : preserves R datetime_now.
Proof. apply framed. intros w. repeat split. Qed.

Lemma run_ret {A} (a : A) : preserves R (ret a).
Proof. apply framed. intros w. repeat split. Qed.

Lemma run_raise {A} e : preserves R (@raise A e).
Proof. apply framed. intros w. repeat split. Qed.

Lemma run_no_return {A} s : preserves R (@no_return A s).
Proof. apply framed. intros w. repeat split. Qed.

Lemma run_get_world : preserves R get_world.
Proof. apply framed. intros w. repeat split. Qed.

Ltac task_step :=
  lazymatch goal with
  | |- preserves R (bind _ _) => apply (preserves_bind R R_trans); [|intro]
  | |- preserves R (try_except _ _) => apply (preserves_try R R_trans); [|intro]
  | |- preserves R (match ?x with _ => _ end) => destruct x
  | |- preserves R (if ?b then _ else _) => destruct b
  | |- preserves R _ =>
      first [ apply run_fetch | apply run_update_crawl_state
            | apply run_get_crawl_state | apply run_logger
            | apply run_datetime_now | apply run_ret | apply run_raise
            | apply run_no_return | apply run_get_world | apply R_task ]
  end.

Lemma run_scrape_catalog_page url : preserves R (scrape_catalog_page E url).
Proof. unfold scrape_catalog_page. repeat task_step. Qed.

Lemma run_gather links : preserves R (gather_scrape_book E links).
Proof.
  unfold gather_scrape_book. task_step; [task_step|].
  induction links as [|u links IH]; cbn [mapM]; repeat task_step. exact IH.
Qed.

Lemma run_crawl_page url total : preserves R (crawl_page E url total).
Proof.
  unfold crawl_page, unpack_pair.
  repeat first [apply run_scrape_catalog_page | apply run_gather | task_step].
Qed.

Lemma run_crawl_pages fuel : forall cur total,
  preserves R (crawl_pages E fuel cur total).
Proof.
  induction fuel as [|fuel IH]; intros cur total; cbn [crawl_pages];
    repeat first [apply run_crawl_page | apply IH | task_step].
Qed.

Lemma run_crawl_all_books fuel resume :
  preserves R (crawl_all_books E fuel resume).
Proof.
  unfold crawl_all_books, begin_crawl, start_url.
  repeat first [apply run_crawl_pages | task_step].
Qed.

End Run.

(** A relation that looks at the collections only and that every upsert
    of a parsed record preserves is preserved by a run. *)
Section Upserts.
Variable E : env.
Variable R : world -> world -> Prop.
Hypothesis R_refl : forall w, R w w.
Hypothesis R_trans : forall a b c, R a b -> R b c -> R a c.
Hypothesis R_store :
  forall w w',
    books w' = books w -> changes w' = changes w ->
    next_oid w' = next_oid w -> R w w'.
Hypothesis R_save :
  forall html url data,
    parse_book_page E html url = Some data ->
    preserves R (save_book E data html).

Lemma stored {A} (m : M A) :
  (forall w, books (snd (m w)) = books w /\ changes (snd (m w)) = changes w /\
             next_oid (snd (m w)) = next_oid w) ->
  preserves R m.
Proof. intros H w. destruct (H w) as (? & ? & ?). now apply R_store. Qed.

Lemma upserts_task visited url : preserves R (scrape_book_task E visited url).
Proof.
  unfold scrape_book_task.
  apply (preserves_try R R_trans);
    [|intro; apply stored; intros w; repeat split].
  destruct visited; [apply stored; intros w; repeat split|].
  apply (preserves_bind R R_trans).
  { apply (run_fetch E R); intros; now apply R_store. }
  intros [html|]; [|apply stored; intros w; repeat split].
  destruct (str_truthy html); [|apply stored; intros w; repeat split].
  destruct (parse_book_page E html url) as [[|kv data]|] eqn:Hp;
    try solve [apply stored; intros w; repeat split].
  apply (preserves_bind R R_trans); [now apply (R_save html url)|].
  intros bid. destruct (opt_str_truthy bid);
    apply stored; intros w; repeat split.
Qed.

Lemma upserts_run fuel resume : preserves R (crawl_all_books E fuel resume).
Proof.
  apply run_crawl_all_books; try assumption.
  - intros; now apply R_store.
  - apply upserts_task.
Qed.

End Upserts.

(** * Invariants of the collection [books] *)

Lemma py_eqb_str v u : py_eqb v (VStr u) = true -> v = VStr u.
Proof.
  destruct v; cbn; try discriminate.
  intros H. apply String.eqb_eq in H. now subst.
Qed.

Lemma set_fields_of_ids i u b : map doc_id (set_fields_of i u b) = map doc_id b.
Proof.
  induction b as [|d b IH]; cbn; [reflexivity|].
  destruct (doc_id d =? i); cbn; [reflexivity | now rewrite IH].
Qed.

Lemma set_fields_of_in i u b d :
  In d (set_fields_of i u b) ->
  In d b \/
  exists d0, In d0 b /\ doc_id d0 = i /\
             d = Document i (dict_update (doc_fields d0) u).
Proof.
  induction b as [|d1 b IH]; cbn; [tauto|].
  destruct (doc_id d1 =? i) eqn:Hi; cbn.
  - apply Z.eqb_eq in Hi. intros [<-|H]; [|tauto].
    right. exists d1. rewrite Hi. tauto.
  - intros [->|H]; [tauto|].
    destruct (IH H) as [?|(d0 & ? & ? & ?)]; [tauto|].
    right. exists d0. tauto.
Qed.

Lemma same_id_same_doc b d1 d2 :
  NoDup (map doc_id b) -> In d1 b -> In d2 b -> doc_id d1 = doc_id d2 ->
  d1 = d2.
Proof.
  induction b as [|d b IH]; cbn; [tauto|].
  intros Hnd H1 H2 Hid. inversion Hnd as [|? ? Hnin Hnd']; subst.
  destruct H1 as [->|H1], H2 as [->|H2]; auto.
  - exfalso. apply Hnin. rewrite Hid. now apply in_map.
  - exfalso. apply Hnin. rewrite <- Hid. now apply in_map.
Qed.

Lemma set_fields_of_keys ex u b :
  NoDup (map doc_id b) -> In ex b ->
  source_key (Document (doc_id ex) (dict_update (doc_fields ex) u))
  = source_key ex ->
  map source_key (set_fields_of (doc_id ex) u b) = map source_key b.
Proof.
  intros Hnd Hin Hkey.
  induction b as [|d b IH]; cbn; [reflexivity|].
  inversion Hnd as [|? ? Hnin Hnd']; subst.
  destruct (doc_id d =? doc_id ex) eqn:Hi; cbn.
  - apply Z.eqb_eq in Hi.
    assert (d = ex) as ->
      by (apply (same_id_same_doc (d :: b)); cbn; auto).
    now rewrite Hkey.
  - f_equal. apply IH; [exact Hnd'|].
    destruct Hin as [->|Hin]; [|exact Hin].
    rewrite Z.eqb_refl in Hi. discriminate.
Qed.

Lemma inserted_key data t1 t2 h path :
  dict_get "source_url" (inserted_fields data t1 t2 h path)
  = dict_get "source_url" data.
Proof. now apply dict_get_update_other. Qed.

Lemma updated_key old data h t path url :
  NoDup (map fst data) ->
  dict_lookup "source_url" data = Some (VStr url) ->
  dict_get "source_url" (dict_update old (updated_fields data h t path))
  = VStr url.
Proof.
  intros Hnd Hurl. unfold dict_get, updated_fields.
  rewrite dict_lookup_update_dict by now apply dict_update_nodup.
  rewrite dict_lookup_update.
  replace (dict_lookup "source_url" (rev _)) with (@None value) by reflexivity.
  now rewrite Hurl.
Qed.

Lemma save_book_store_ok E data html w :
  keyed data -> store_ok w -> store_ok (snd (save_book E data html w)).
Proof.
  intros (Hdict & url & Hurl) (Hids & Hlt & Hkeys).
  destruct (save_book_effect E data html w) as [Heff Hoid].
  set (w' := snd (save_book E data html w)) in *.
  unfold store_ok.
  destruct Heff as [Hb Hc
                   |src t1 t2 h path evs Hsrc Hfind Hh Hb Hc Hev Hnew
                   |src ex h t path evs Hsrc Hfind Hh Hne Hb Hc Hev].
  - rewrite Hb. repeat split; try assumption.
    intros d Hd. specialize (Hlt d Hd). lia.
  - rewrite Hb, !map_app. cbn [map doc_id].
    assert (src = VStr url) as -> by congruence.
    repeat split.
    + apply NoDup_app; [exact Hids | repeat constructor; intros [] |].
      intros i Hi [<-|[]]. apply in_map_iff in Hi.
      destruct Hi as (d & Hid & Hd). specialize (Hlt d Hd). lia.
    + intros d Hd. apply in_app_iff in Hd. destruct Hd as [Hd|[<-|[]]].
      * specialize (Hlt d Hd). lia.
      * cbn. lia.
    + apply NoDup_app; [exact Hkeys | repeat constructor; intros [] |].
      intros k Hk [<-|[]]. apply in_map_iff in Hk.
      destruct Hk as (d & Hkd & Hd).
      pose proof (find_none _ _ Hfind d Hd) as Hno.
      unfold has_source_url in Hno. fold (source_key d) in Hno.
      rewrite Hkd in Hno. unfold source_key in Hno. cbn [doc_fields] in Hno.
      rewrite inserted_key in Hno. unfold dict_get in Hno.
      rewrite Hurl in Hno. cbn in Hno. now rewrite String.eqb_refl in Hno.
  - assert (src = VStr url) as -> by congruence.
    destruct Hb as [Hb|Hb]; rewrite Hb.
    + repeat split; try assumption.
      intros d Hd. specialize (Hlt d Hd). lia.
    + pose proof (find_some _ _ Hfind) as [Hin Hhas].
      rewrite set_fields_of_ids. repeat split; [exact Hids | |].
      * intros d Hd. apply set_fields_of_in in Hd.
        destruct Hd as [Hd|(d0 & Hd0 & Hid & ->)].
        -- specialize (Hlt d Hd). lia.
        -- specialize (Hlt d0 Hd0). cbn. lia.
      * rewrite set_fields_of_keys; try assumption.
        unfold source_key at 1. cbn [doc_fields].
        rewrite (updated_key _ _ _ _ _ url) by assumption.
        symmetry. now apply py_eqb_str.
Qed.

(** X7.  The natural key stays unique.  If the collection [books] holds
    each [_id] once and each [source_url] once, it still does after
    [save_book] has run on a record whose key is a string, whatever the
    store does; and after a whole run, the parser building such records.
    An upsert never gives a stored document a second key. *)
Theorem natural_key_stays_unique (E : env) :
  (forall data html w,
     keyed data -> store_ok w -> store_ok (snd (save_book E data html w))) /\
  ((forall html url data, parse_book_page E html url = Some data -> keyed data) ->
   forall fuel resume w,
     store_ok w -> store_ok (snd (crawl_all_books E fuel resume w))).
Proof.
  split; [apply save_book_store_ok|].
  intros Hparse fuel resume w.
  apply (upserts_run E (fun w w' => store_ok w -> store_ok w')).
  - intros a b c H1 H2 H. exact (H2 (H1 H)).
  - intros a b Hb _ Ho. unfold store_ok. now rewrite Hb, Ho.
  - intros html url data Hp a. apply save_book_store_ok. eauto.
Qed.

Lemma natural_key_stays_unique_witness :
  store_ok (snd (save_book demo (attic float_51_77) "<html>" (fresh_world demo))).
Proof.
  apply (proj1 (natural_key_stays_unique demo)).
  - split; [|now exists attic_url].
    cbn. repeat constructor; cbn; intuition discriminate.
  - repeat split; cbn; try constructor. intros d [].
Defined.

(** * Books are kept, and events name stored books *)

Lemma books_kept_refl w : books_kept w w.
Proof. exists []. now rewrite app_nil_r. Qed.

Lemma keeps_refs_trans a b c : keeps_refs a b -> keeps_refs b c -> keeps_refs a c.
Proof.
  intros [(l1 & H1) Hr1] [(l2 & H2) Hr2]. split; [|auto].
  exists (l1 ++ l2). now rewrite H2, H1, app_assoc.
Qed.

Lemma in_ids_doc i b : In i (map doc_id b) -> exists d, In d b /\ doc_id d = i.
Proof.
  intros H. apply in_map_iff in H. destruct H as (d & ? & ?). now exists d.
Qed.

Lemma refs_step w w' :
  books_kept w w' ->
  (forall c, In c (changes w') ->
     In c (changes w) \/ In (book_id c) (map (fun d => str_oid (doc_id d)) (books w'))) ->
  refs_ok w -> refs_ok w'.
Proof.
  intros (added & Hk) Hnew Hok c Hc.
  destruct (Hnew c Hc) as [Hold|Hin].
  - destruct (Hok c Hold) as (d & Hd & Hid).
    assert (Hi : In (doc_id d) (map doc_id (books w')))
      by (rewrite Hk, in_app_iff; left; now apply in_map).
    destruct (in_ids_doc _ _ Hi) as (d' & Hd' & Hid').
    exists d'. now rewrite Hid'.
  - apply in_map_iff in Hin. destruct Hin as (d & Hid & Hd). now exists d.
Qed.

Lemma save_book_keeps_refs E data html w :
  keeps_refs w (snd (save_book E data html w)).
Proof.
  destruct (save_book_effect E data html w) as [Heff _].
  set (w' := snd (save_book E data html w)) in *.
  assert (Hone : forall ty bid fields evs c,
            one_event ty bid fields evs -> In c evs -> book_id c = bid).
  { intros ty bid fields evs c [->|(cid & name & ts & ->)] Hc; [destruct Hc|].
    destruct Hc as [<-|[]]. reflexivity. }
  destruct Heff as [Hb Hc
                   |src t1 t2 h path evs Hsrc Hfind Hh Hb Hc Hev Hnew
                   |src ex h t path evs Hsrc Hfind Hh Hne Hb Hc Hev].
  - assert (Hk : books_kept w w') by (exists []; now rewrite Hb, app_nil_r).
    split; [exact Hk|]. apply refs_step; [exact Hk|].
    intros c Hin. left. now rewrite <- Hc.
  - assert (Hk : books_kept w w')
      by (eexists; rewrite Hb, map_app; reflexivity).
    split; [exact Hk|]. apply refs_step; [exact Hk|].
    intros c Hin. rewrite Hc in Hin. apply in_app_iff in Hin.
    destruct Hin as [Hin|Hin]; [now left | right].
    rewrite (Hone _ _ _ _ _ Hev Hin), Hb, map_app, in_app_iff.
    right. now left.
  - pose proof (find_some _ _ Hfind) as [Hex _].
    assert (Hids : map doc_id (books w') = map doc_id (books w))
      by (destruct Hb as [-> | ->]; [reflexivity | apply set_fields_of_ids]).
    assert (Hk : books_kept w w') by (exists []; now rewrite Hids, app_nil_r).
    split; [exact Hk|]. apply refs_step; [exact Hk|].
    intros c Hin. rewrite Hc in Hin. apply in_app_iff in Hin.
    destruct Hin as [Hin|Hin]; [now left | right].
    rewrite (Hone _ _ _ _ _ Hev Hin).
    rewrite <- (map_map doc_id str_oid), Hids, map_map.
    apply in_map_iff. now exists ex.
Qed.

(** X8.  An upsert and a whole run, whatever the store and the network
    do: no document leaves the collection [books] and no [_id] changes
    (the ids after are the ids before, followed by those of the inserted
    documents); and if every change event carried the id of a stored
    book before, every one does after: [_log_new_book] is given the id
    just inserted, [_log_changes] the id of the document found. *)
Theorem change_events_name_stored_books (E : env) (w : world) :
  (forall data html, keeps_refs w (snd (save_book E data html w))) /\
  (forall fuel resume, keeps_refs w (snd (crawl_all_books E fuel resume w))).
Proof.
  split; [intros; apply save_book_keeps_refs|].
  intros fuel resume.
  apply (upserts_run E keeps_refs).
  - apply keeps_refs_trans.
  - intros a b Hb Hc _. split; [exists []; now rewrite Hb, app_nil_r|].
    unfold refs_ok. now rewrite Hb, Hc.
  - intros html url data _ a. apply save_book_keeps_refs.
Qed.

(** * The stored hash is the hash of the stored content *)

Lemma relevant_not_metadata k :
  In k relevant_fields ->
  dict_lookup k (rev [ ("crawl_timestamp", VNone); ("last_updated", VNone);
                       ("status", VNone); ("content_hash", VNone);
                       ("html_snapshot_path", VNone) ]) = None.
Proof.
  cbn [relevant_fields In]. intros H.
  repeat (destruct H as [<-|H]; [reflexivity|]). destruct H.
Qed.

Lemma inserted_hash data t1 t2 h path :
  compute_content_hash data = Ok h ->
  hash_ok (Document 0 (inserted_fields data t1 t2 h path)).
Proof.
  intros Hh. exists h. cbn [doc_fields]. split.
  - rewrite <- Hh. unfold compute_content_hash.
    rewrite (content_dict_ext _ data); [reflexivity|].
    intros k Hk. unfold inserted_fields. rewrite dict_lookup_update.
    cbn [relevant_fields In] in Hk.
    repeat (destruct Hk as [<-|Hk]; [reflexivity|]). destruct Hk.
  - unfold inserted_fields. now rewrite dict_lookup_update.
Qed.

Lemma updated_hash old data h t path :
  complete data ->
  compute_content_hash data = Ok h ->
  hash_ok (Document 0 (dict_update old (updated_fields data h t path))).
Proof.
  intros [Hnd Hall] Hh. exists h. cbn [doc_fields].
  assert (Hnd' : NoDup (map fst (updated_fields data h t path)))
    by now apply dict_update_nodup.
  split.
  - rewrite <- Hh. unfold compute_content_hash.
    rewrite (content_dict_ext _ data); [reflexivity|].
    intros k Hk. rewrite dict_lookup_update_dict by exact Hnd'.
    assert (Hk' : dict_lookup k (updated_fields data h t path)
                  = dict_lookup k data).
    { unfold updated_fields. rewrite dict_lookup_update.
      cbn [relevant_fields In] in Hk.
      repeat (destruct Hk as [<-|Hk]; [reflexivity|]). destruct Hk. }
    rewrite Hk'. specialize (Hall k Hk). unfold dict_mem in Hall.
    now destruct (dict_lookup k data).
  - rewrite dict_lookup_update_dict by exact Hnd'.
    unfold updated_fields. now rewrite dict_lookup_update.
Qed.

Lemma hash_ok_fields i j f : hash_ok (Document i f) -> hash_ok (Document j f).
Proof. intros H. exact H. Qed.

Lemma save_book_hash_ok E data html w :
  complete data ->
  Forall hash_ok (books w) ->
  Forall hash_ok (books (snd (save_book E data html w))).
Proof.
  intros Hdata Hok.
  destruct (save_book_effect E data html w) as [Heff _].
  set (w' := snd (save_book E data html w)) in *.
  destruct Heff as [Hb Hc
                   |src t1 t2 h path evs Hsrc Hfind Hh Hb Hc Hev Hnew
                   |src ex h t path evs Hsrc Hfind Hh Hne Hb Hc Hev].
  - now rewrite Hb.
  - rewrite Hb. apply Forall_app. split; [exact Hok|].
    constructor; [|constructor].
    eapply hash_ok_fields. now apply inserted_hash.
  - destruct Hb as [-> | ->]; [exact Hok|].
    apply Forall_forall. intros d Hd. apply set_fields_of_in in Hd.
    destruct Hd as [Hd|(d0 & _ & _ & ->)].
    + rewrite Forall_forall in Hok. now apply Hok.
    + eapply hash_ok_fields. now apply updated_hash.
Qed.

(** X9.  The stored hash is the hash of the stored content.  If every
    document of [books] carries in [content_hash] the hash of its own
    fields, every one still does after [save_book] has run on a record
    with all the fields the hash reads, whatever the store does: the
    metadata an insert or an update adds is outside those fields, and an
    update overwrites each of them.  The same holds after a whole run,
    the parser building such records. *)
Theorem stored_hash_matches_content (E : env) :
  (forall data html w,
     complete data ->
     Forall hash_ok (books w) ->
     Forall hash_ok (books (snd (save_book E data html w)))) /\
  ((forall html url data,
      parse_book_page E html url = Some data -> complete data) ->
   forall fuel resume w,
     Forall hash_ok (books w) ->
     Forall hash_ok (books (snd (crawl_all_books E fuel resume w)))).
Proof.
  split; [apply save_book_hash_ok|].
  intros Hparse fuel resume w.
  apply (upserts_run E
           (fun w w' => Forall hash_ok (books w) -> Forall hash_ok (books w'))).
  - intros a b c H1 H2 H. exact (H2 (H1 H)).
  - intros a b Hb _ _. now rewrite Hb.
  - intros html url data Hp a. apply save_book_hash_ok. eauto.
Qed.

Lemma stored_hash_matches_content_witness :
  Forall hash_ok
    (books (snd (save_book demo (attic float_51_77) "<html>"
                   (fresh_world demo)))).
Proof.
  apply (proj1 (stored_hash_matches_content demo)).
  - split.
    + cbn. repeat constructor; cbn; intuition discriminate.
    + intros k Hk. cbn in Hk.
      repeat (destruct Hk as [<-|Hk]; [reflexivity|]). destruct Hk.
  - constructor.
Defined.

(** * The cursor a run stores *)

Section Cursor.
Variable E : env.









End Cursor.



(* ================================================================== *)
(** * The rate limiter *)
(* ================================================================== *)

Module ApiFacts.
Import Api.

Lemma lookup_assign {V} k k' (v : V) d :
  lookup k (assign k' v d) = if String.eqb k k' then Some v else lookup k d.
Proof.
  induction d as [|[k0 v0] d IH]; cbn.
  - reflexivity.
  - destruct (String.eqb k' k0) eqn:H0; cbn.
    + apply String.eqb_eq in H0. subst k0.
      destruct (String.eqb k k'); reflexivity.
    + rewrite IH. destruct (String.eqb k k') eqn:H1; [|reflexivity].
      apply String.eqb_eq in H1. subst k'. now rewrite H0.
Qed.

Lemma window_assign k k' v d :
  window k (assign k' v d) = if String.eqb k k' then v else window k d.
Proof.
  unfold window. rewrite lookup_assign. now destruct (String.eqb k k').
Qed.

(** One call, as the window of its key sees it. *)
Lemma check_rate_limit_step E c w :
  let r := check_rate_limit E c w in
  is_return (fst r) = passes E c w /\
  clock_reads (snd r) = S (clock_reads w) /\
  window (key c) (request_windows (snd r))
  = (if passes E c w
     then kept_at E c w ++ [now_at E (clock_reads w)]
     else kept_at E c w) /\
  (forall k, k <> key c ->
     lookup k (request_windows (snd r)) = lookup k (request_windows w)).
Proof.
  unfold check_rate_limit, passes, kept_at, datetime_now.
  cbv zeta. cbn [fst snd].
  set (now := now_at E (clock_reads w)).
  set (w1 := match lookup (key c) (request_windows (World _ _ _)) with
             | Some _ => _
             | None => _
             end).
  assert (Hw1 : window (key c) (request_windows w1)
                = window (key c) (request_windows w) /\
                clock_reads w1 = S (clock_reads w) /\
                forall k, k <> key c ->
                  lookup k (request_windows w1) = lookup k (request_windows w)).
  { unfold w1. cbn [request_windows].
    destruct (lookup (key c) (request_windows w)) eqn:Hl; cbn.
    - repeat split.
    - split; [|split; [reflexivity|]].
      + rewrite window_assign, String.eqb_refl. unfold window. now rewrite Hl.
      + intros k Hk. rewrite lookup_assign.
        apply String.eqb_neq in Hk. now rewrite Hk. }
  destruct Hw1 as (Hwin & Hclock & Hother).
  rewrite Hwin.
  set (kept := filter _ (window (key c) (request_windows w))).
  assert (Hframe : forall v k, k <> key c ->
            lookup k (assign (key c) v (request_windows w1))
            = lookup k (request_windows w)).
  { intros v k Hk. rewrite lookup_assign.
    pose proof Hk as Hk'. apply String.eqb_neq in Hk'. rewrite Hk'. auto. }
  destruct (rate_limit c <=? Z.of_nat (List.length kept)) eqn:Hfull; cbn [negb].
  - destruct (minimum kept); cbn;
      rewrite ?window_assign, ?String.eqb_refl; repeat split; auto.
  - cbn. rewrite !window_assign, !String.eqb_refl. repeat split; auto.
    intros k Hk. rewrite lookup_assign.
    pose proof Hk as Hk'. apply String.eqb_neq in Hk'. rewrite Hk'. auto.
Qed.


Lemma monotone_le E n m : monotone E -> (n <= m)%nat -> now_at E n <= now_at E m.
Proof.
  intros H Hle. induction Hle as [|m Hle IH]; [lia|].
  specialize (H m). lia.
Qed.

Lemma filter_filter_lt (s s' : Z) l :
  s <= s' ->
  filter (fun a => s' <? a) (filter (fun a => s <? a) l)
  = filter (fun a => s' <? a) l.
Proof.
  intros Hs. induction l as [|a l IH]; cbn; [reflexivity|].
  destruct (s <? a) eqn:H1; cbn; destruct (s' <? a) eqn:H2; cbn;
    rewrite ?IH; try reflexivity.
  apply Z.ltb_lt in H2. apply Z.ltb_ge in H1. lia.
Qed.

Lemma within_app P t l1 l2 : within P t (l1 ++ l2) = within P t l1 ++ within P t l2.
Proof. unfold within. apply filter_app. Qed.

Lemma filter_length_le {A} (f g : A -> bool) l :
  (forall a, In a l -> f a = true -> g a = true) ->
  (List.length (filter f l) <= List.length (filter g l))%nat.
Proof.
  intros H. induction l as [|a l IH]; cbn; [lia|].
  assert (IH' := IH (fun b Hb => H b (or_intror Hb))).
  specialize (H a (or_introl eq_refl)).
  destruct (f a) eqn:Hf; cbn.
  - rewrite (H eq_refl). cbn. lia.
  - destruct (g a); cbn; lia.
Qed.


Lemma serve_bounded E k L P :
  monotone E -> 0 < P ->
  forall keys,
    (forall c, In c keys -> key c = k -> rate_limit c = L /\ rate_period c = P) ->
    forall hist w,
      tracks E k P hist w -> bounded P L hist ->
      bounded P L (hist ++ accepted k keys (fst (serve E keys w))).
Proof.
  intros Hmono HP.
  induction keys as [|c keys IH]; intros Hkeys hist w Htr Hb.
  - cbn. now rewrite app_nil_r.
  - cbn [serve].
    destruct (check_rate_limit_step E c w) as (Hret & Hclock & Hwin & Hother).
    destruct (check_rate_limit E c w) as [o w1]. cbn [fst snd] in *.
    destruct (serve E keys w1) as [os w2] eqn:Hserve. cbn [fst accepted].
    assert (Hrest : forall c', In c' keys -> key c' = k ->
                      rate_limit c' = L /\ rate_period c' = P)
      by (intros c' Hc'; apply Hkeys; now right).
    assert (Hnow : now_at E (clock_reads w) <= now_at E (clock_reads w1))
      by (rewrite Hclock; apply Hmono).
    destruct Htr as [(s & Hs & Hle) Hpast].
    destruct (String.eqb (key c) k) eqn:Hk; cbn [andb].
    + apply String.eqb_eq in Hk.
      destruct (Hkeys c (or_introl eq_refl) Hk) as [HL HPc].
      assert (Hkept : kept_at E c w
                = filter (fun a => now_at E (clock_reads w) - seconds P <? a)
                         hist).
      { unfold kept_at. rewrite Hk, HPc, Hs. now apply filter_filter_lt. }
      rewrite Hret. rewrite Hk in Hwin.
      destruct (passes E c w) eqn:Hpass.
      * replace (hist ++ now_at E (clock_reads w) :: accepted k keys os)
          with ((hist ++ [now_at E (clock_reads w)]) ++ accepted k keys os)
          by (now rewrite <- app_assoc).
        replace os with (fst (serve E keys w1)) by now rewrite Hserve.
        apply IH; [exact Hrest | |].
        -- split.
           ++ exists (now_at E (clock_reads w) - seconds P). split; [|lia].
              rewrite Hwin, Hkept, filter_app. cbn [filter].
              replace (now_at E (clock_reads w) - seconds P
                       <? now_at E (clock_reads w)) with true; [reflexivity|].
              symmetry. apply Z.ltb_lt. unfold seconds. lia.
           ++ intros a Ha. apply in_app_iff in Ha.
              destruct Ha as [Ha|[<-|[]]]; [specialize (Hpast a Ha)|]; lia.
        -- intros t. rewrite within_app, length_app. unfold within at 2.
           cbn [filter].
           destruct ((t - seconds P <? now_at E (clock_reads w))
                     && (now_at E (clock_reads w) <=? t)) eqn:Hin;
             cbn [List.length]; [|specialize (Hb t); lia].
           apply andb_true_iff in Hin. destruct Hin as [H1 H2].
           apply Z.ltb_lt in H1. apply Z.leb_le in H2.
           unfold passes in Hpass. apply negb_true_iff, Z.leb_gt in Hpass.
           rewrite Hkept, HL in Hpass.
           assert (Hcount : (List.length (within P t hist)
                     <= List.length
                          (filter (fun a => (now_at E (clock_reads w)
                                             - seconds P <? a)%Z) hist))%nat).
           { apply filter_length_le. intros a _ Ha.
             apply andb_true_iff in Ha. destruct Ha as [Ha _].
             apply Z.ltb_lt in Ha. apply Z.ltb_lt. lia. }
           lia.
      * replace os with (fst (serve E keys w1)) by now rewrite Hserve.
        apply IH; [exact Hrest | | exact Hb].
        split.
        -- exists (now_at E (clock_reads w) - seconds P). split; [|lia].
           now rewrite Hwin, Hkept.
        -- intros a Ha. specialize (Hpast a Ha). lia.
    + replace os with (fst (serve E keys w1)) by now rewrite Hserve.
      apply IH; [exact Hrest | | exact Hb].
      split.
      * exists s. split; [|lia].
        unfold window. rewrite Hother; [exact Hs|].
        intros ->. now rewrite String.eqb_refl in Hk.
      * intros a Ha. specialize (Hpast a Ha). lia.
Qed.


(** X11.  The sliding window.  Requests are served by a new limiter in
    any order of keys, the clock never going back, and every request of
    the key [k] comes with the limit [L] and the period [P].  Then in
    every window of [P] seconds, wherever it ends, at most [L] requests
    of [k] were let through (none when [L] is negative). *)
Theorem sliding_window_bound
    (E : env) (keys : list APIKey) (k : string) (L P : Z) :
  monotone E ->
  (forall c, In c keys -> key c = k -> rate_limit c = L /\ rate_period c = P) ->
  forall t,
    Z.of_nat (List.length
                (within P t (accepted k keys (fst (serve E keys start)))))
    <= Z.max 0 L.
Proof.
  intros Hmono Hkeys t.
  destruct (Z.ltb_spec 0 P) as [HP|HP].
  - apply (serve_bounded E k L P Hmono HP keys Hkeys [] start).
    + split; [|intros a []].
      exists (now_at E (clock_reads start) - seconds P). split; [reflexivity|lia].
    + intros t'. cbn. lia.
  - assert (Hnone : forall l, within P t l = []).
    { induction l as [|a l IH]; [reflexivity|].
      unfold within in *. cbn [filter]. rewrite IH.
      destruct ((t - seconds P <? a) && (a <=? t)) eqn:Hin; [|reflexivity].
      apply andb_true_iff in Hin. destruct Hin as [H1 H2].
      apply Z.ltb_lt in H1. apply Z.leb_le in H2. unfold seconds in H1. lia. }
    rewrite Hnone. cbn. lia.
Qed.


(** How a call ends, from the requests still counted. *)
Lemma check_rate_limit_outcome E c w :
  fst (check_rate_limit E c w)
  = if passes E c w
    then Return (Build_RateLimitInfo
                   (rate_limit c
                    - (Z.of_nat (List.length (kept_at E c w)) + 1))
                   (rate_limit c)
                   (now_at E (clock_reads w) + seconds (rate_period c)))
    else match minimum (kept_at E c w) with
         | None => Raise min_of_empty
         | Some oldest_request =>
             Raise (HTTPException 429
                      (limit_detail E (rate_limit c) (rate_period c)
                         (oldest_request + seconds (rate_period c)))
                      (limit_headers E (rate_limit c)
                         (oldest_request + seconds (rate_period c))))
         end.
Proof.
  unfold check_rate_limit, passes, kept_at, datetime_now.
  cbv zeta. cbn [fst snd].
  assert (Hwin : forall w1 : world,
            request_windows w1 = request_windows w ->
            window (key c)
              (request_windows
                 match lookup (key c) (request_windows w1) with
                 | Some _ => w1
                 | None => set_request_windows (assign (key c) []) w1
                 end)
            = window (key c) (request_windows w)).
  { intros w1 H1. rewrite H1.
    destruct (lookup (key c) (request_windows w)) eqn:Hl.
    - now rewrite H1.
    - cbn. rewrite H1, window_assign, String.eqb_refl.
      unfold window. now rewrite Hl. }
  rewrite Hwin by reflexivity.
  destruct (rate_limit c <=? _); cbn [negb]; [|reflexivity].
  now destruct (minimum _).
Qed.

Lemma fold_min_in r : forall t, In (fold_left Z.min r t) (t :: r).
Proof.
  induction r as [|a r IH]; intros t; cbn [fold_left]; [now left|].
  destruct (IH (Z.min t a)) as [H|H].
  - destruct (Z.min_spec t a) as [[_ Hm]|[_ Hm]]; rewrite Hm in *;
      rewrite <- H; cbn; tauto.
  - cbn. tauto.
Qed.

Lemma minimum_in l m : minimum l = Some m -> In m l.
Proof.
  destruct l as [|t r]; [discriminate|]. cbn [minimum]. intros [= <-].
  apply fold_min_in.
Qed.

Lemma filter_length_lt {A} (f : A -> bool) l x :
  In x l -> f x = false -> (List.length (filter f l) < List.length l)%nat.
Proof.
  intros Hin Hf. induction l as [|a l IH]; [destruct Hin|].
  cbn. pose proof (filter_length_le f (fun _ => true) l (fun _ _ _ => eq_refl))
    as Hle.
  assert (Hall : filter (fun _ : A => true) l = l)
    by (clear; induction l; cbn; congruence).
  rewrite Hall in Hle.
  destruct Hin as [->|Hin].
  - rewrite Hf. lia.
  - specialize (IH Hin). destruct (f a); cbn; lia.
Qed.

Lemma kept_at_in E c w a :
  In a (kept_at E c w) ->
  now_at E (clock_reads w) - seconds (rate_period c) < a.
Proof.
  unfold kept_at. intros H. apply filter_In in H.
  destruct H as [_ H]. now apply Z.ltb_lt.
Qed.

(** X13.  The reset time of a refusal is honoured.  When a request is
    refused with status 429, the window of its key holding no more than
    the limit, the response carries a reset time in the
    [X-RateLimit-Reset] header that lies in the future, the refused
    request is not counted, and a request of the same key made at the
    reset time or later, no other request of the key in between, is let
    through. *)
Theorem reset_time_is_honoured
    (E : env) (c : APIKey) (w : world) (detail : string)
    (headers : list (string * string)) :
  Z.of_nat (List.length (window (key c) (request_windows w))) <= rate_limit c ->
  fst (check_rate_limit E c w) = Raise (HTTPException 429 detail headers) ->
  exists reset,
    lookup "X-RateLimit-Reset" headers = Some (isoformat E reset) /\
    now_at E (clock_reads w) < reset /\
    window (key c) (request_windows (snd (check_rate_limit E c w)))
    = kept_at E c w /\
    forall w2,
      window (key c) (request_windows w2)
      = window (key c) (request_windows (snd (check_rate_limit E c w))) ->
      reset <= now_at E (clock_reads w2) ->
      is_return (fst (check_rate_limit E c w2)) = true.
Proof.
  intros Hfit Hrefused.
  destruct (check_rate_limit_step E c w) as (Hret & _ & Hwin & _).
  rewrite check_rate_limit_outcome in Hrefused.
  destruct (passes E c w) eqn:Hpass; [discriminate|].
  destruct (minimum (kept_at E c w)) as [oldest|] eqn:Hmin; [|discriminate].
  injection Hrefused as <- <-.
  exists (oldest + seconds (rate_period c)).
  pose proof (minimum_in _ _ Hmin) as Hin.
  pose proof (kept_at_in _ _ _ _ Hin) as Hold.
  split; [reflexivity|]. split; [lia|]. split; [exact Hwin|].
  intros w2 Hw2 Hlate.
  destruct (check_rate_limit_step E c w2) as (-> & _).
  unfold passes. apply negb_true_iff, Z.leb_gt.
  assert (Hlen : (List.length (kept_at E c w2)
                  < List.length (kept_at E c w))%nat).
  { unfold kept_at at 1. rewrite Hw2, Hwin.
    apply (filter_length_lt _ _ oldest Hin). apply Z.ltb_ge. lia. }
  assert (Hle : (List.length (kept_at E c w)
                 <= List.length (window (key c) (request_windows w)))%nat).
  { unfold kept_at.
    pose proof (filter_length_le
                  (fun req_time =>
                     now_at E (clock_reads w) - seconds (rate_period c)
                     <? req_time)
                  (fun _ => true) (window (key c) (request_windows w))
                  (fun _ _ _ => eq_refl)) as H.
    assert (Hall : forall l : list Z, filter (fun _ => true) l = l)
      by (induction l; cbn; congruence).
    now rewrite Hall in H. }
  lia.
Qed.

(** X14.  The keys are isolated.  A call of [check_rate_limit] leaves
    the window of every other key as it was, and how it ends depends on
    nothing but the clock and the window of its own key: in two states
    that agree on these, the same request ends the same way and leaves
    the same window. *)
Theorem keys_are_isolated (E : env) (c : APIKey) (w : world) :
  (forall k, k <> key c ->
     lookup k (request_windows (snd (check_rate_limit E c w)))
     = lookup k (request_windows w)) /\
  (forall w',
     clock_reads w' = clock_reads w ->
     window (key c) (request_windows w') = window (key c) (request_windows w) ->
     fst (check_rate_limit E c w') = fst (check_rate_limit E c w) /\
     window (key c) (request_windows (snd (check_rate_limit E c w')))
     = window (key c) (request_windows (snd (check_rate_limit E c w)))).
Proof.
  split; [apply check_rate_limit_step|].
  intros w' Hclock Hwindow.
  assert (Hkept : kept_at E c w' = kept_at E c w)
    by (unfold kept_at; now rewrite Hclock, Hwindow).
  assert (Hpass : passes E c w' = passes E c w)
    by (unfold passes; now rewrite Hkept).
  split.
  - now rewrite !check_rate_limit_outcome, Hpass, Hkept, Hclock.
  - destruct (check_rate_limit_step E c w) as (_ & _ & -> & _).
    destruct (check_rate_limit_step E c w') as (_ & _ & -> & _).
    now rewrite Hpass, Hkept, Hclock.
Qed.


(** ** Up to the limit, then 429 *)

Lemma kept_at_all E c w :
  (forall a, In a (window (key c) (request_windows w)) ->
     now_at E (clock_reads w) - seconds (rate_period c) < a) ->
  kept_at E c w = window (key c) (request_windows w).
Proof.
  intros H. unfold kept_at.
  induction (window (key c) (request_windows w)) as [|a l IH]; [reflexivity|].
  cbn [filter].
  replace (now_at E (clock_reads w) - seconds (rate_period c) <? a) with true
    by (symmetry; apply Z.ltb_lt, H; now left).
  f_equal. apply IH. intros b Hb. apply H. now right.
Qed.


Lemma serve_under_limit E c :
  monotone E ->
  forall m w,
    (forall a, In a (window (key c) (request_windows w)) ->
       now_at E (clock_reads w + m) - seconds (rate_period c) < a) ->
    now_at E (clock_reads w + m) - seconds (rate_period c)
    < now_at E (clock_reads w) ->
    Z.of_nat (List.length (window (key c) (request_windows w))) + Z.of_nat m
    <= rate_limit c ->
    fst (serve E (repeat c m) w)
    = map (granted E c (clock_reads w)
             (List.length (window (key c) (request_windows w))))
          (seq 0 m) /\
    window (key c) (request_windows (snd (serve E (repeat c m) w)))
    = window (key c) (request_windows w)
      ++ map (fun i => now_at E (clock_reads w + i)) (seq 0 m) /\
    clock_reads (snd (serve E (repeat c m) w)) = (clock_reads w + m)%nat.
Proof.
  intros Hmono.
  induction m as [|m IH]; intros w Hold Hspan Hroom.
  - cbn. now rewrite app_nil_r, Nat.add_0_r.
  - cbn [repeat serve].
    assert (Hle : now_at E (clock_reads w)
                  <= now_at E (clock_reads w + S m))
      by (apply monotone_le; [exact Hmono | lia]).
    assert (Hkept : kept_at E c w = window (key c) (request_windows w)).
    { apply kept_at_all. intros a Ha. specialize (Hold a Ha). lia. }
    assert (Hpass : passes E c w = true).
    { unfold passes. rewrite Hkept. apply negb_true_iff, Z.leb_gt. lia. }
    destruct (check_rate_limit_step E c w) as (_ & Hclock & Hwin & _).
    pose proof (check_rate_limit_outcome E c w) as Hout.
    rewrite Hpass, Hkept in Hout, Hwin.
    destruct (check_rate_limit E c w) as [o w1]. cbn [fst snd] in *.
    destruct (IH w1) as (Hserved & Hwindow & Hreads).
    + rewrite Hwin, Hclock. intros a Ha. apply in_app_iff in Ha.
      replace (S (clock_reads w) + m)%nat with (clock_reads w + S m)%nat by lia.
      destruct Ha as [Ha|[<-|[]]]; [now apply Hold | exact Hspan].
    + rewrite Hclock.
      replace (S (clock_reads w) + m)%nat with (clock_reads w + S m)%nat by lia.
      specialize (Hmono (clock_reads w)). lia.
    + rewrite Hwin, length_app. cbn [List.length]. lia.
    + destruct (serve E (repeat c m) w1) as [os w2]. cbn [fst snd] in *.
      rewrite Hserved, Hwindow, Hreads, Hout, !Hwin, !Hclock.
      split; [|split; [|lia]].
      * cbn [seq map]. unfold granted at 2.
        rewrite !Nat.add_0_r. f_equal.
        rewrite <- seq_shift, map_map. apply map_ext. intros i.
        unfold granted. rewrite length_app. cbn [List.length].
        replace (S (clock_reads w) + i)%nat with (clock_reads w + S i)%nat
          by lia.
        replace (List.length (window (key c) (request_windows w)) + 1 + i)%nat
          with (List.length (window (key c) (request_windows w)) + S i)%nat
          by lia.
        reflexivity.
      * rewrite <- app_assoc. cbn [seq map app]. rewrite Nat.add_0_r.
        do 2 f_equal. rewrite <- seq_shift, map_map. apply map_ext.
        intros i. f_equal. lia.
Qed.

Lemma fold_min_head r : forall t,
  (forall a, In a r -> t <= a) -> fold_left Z.min r t = t.
Proof.
  induction r as [|a r IH]; intros t H; cbn; [reflexivity|].
  assert (Ha : t <= a) by (apply H; now left).
  rewrite Z.min_l by exact Ha. apply IH. intros b Hb. apply H. now right.
Qed.

(** X12.  Up to the limit, then 429.  A key with no request counted
    makes [L + 1] requests within one period, with a limit [L] of at
    least one.  The first [L] are let through, the [i]-th of them being
    told [L - i - 1] remaining requests; the next one is refused with
    status 429, and the reset time it is given is the time of the first
    request plus the period. *)
Theorem limit_then_429 (E : env) (c : APIKey) (w : world) :
  monotone E ->
  1 <= rate_limit c ->
  window (key c) (request_windows w) = [] ->
  now_at E (clock_reads w + Z.to_nat (rate_limit c))
  - seconds (rate_period c) < now_at E (clock_reads w) ->
  let n := Z.to_nat (rate_limit c) in
  let reset := now_at E (clock_reads w) + seconds (rate_period c) in
  fst (serve E (repeat c n) w) = map (granted E c (clock_reads w) 0) (seq 0 n) /\
  fst (check_rate_limit E c (snd (serve E (repeat c n) w)))
  = Raise (HTTPException 429
             (limit_detail E (rate_limit c) (rate_period c) reset)
             (limit_headers E (rate_limit c) reset)).
Proof.
  intros Hmono HL Hfresh Hspan n reset.
  destruct (serve_under_limit E c Hmono n w) as (Hserved & Hwindow & Hreads).
  { rewrite Hfresh. intros a []. }
  { exact Hspan. }
  { rewrite Hfresh. cbn [List.length]. unfold n. lia. }
  rewrite Hfresh in Hserved, Hwindow. cbn [List.length app] in Hserved, Hwindow.
  split; [exact Hserved|].
  set (w' := snd (serve E (repeat c n) w)) in *.
  assert (Hkept : kept_at E c w' = window (key c) (request_windows w')).
  { apply kept_at_all. rewrite Hwindow, Hreads. intros a Ha.
    apply in_map_iff in Ha. destruct Ha as (i & <- & Hi). apply in_seq in Hi.
    assert (now_at E (clock_reads w) <= now_at E (clock_reads w + i))
      by (apply monotone_le; [exact Hmono | lia]).
    unfold n. lia. }
  rewrite check_rate_limit_outcome. unfold passes. rewrite Hkept, Hwindow.
  rewrite length_map, length_seq.
  replace (rate_limit c <=? Z.of_nat n) with true
    by (symmetry; apply Z.leb_le; unfold n; lia).
  cbn [negb].
  destruct n as [|n'] eqn:Hn; [unfold n in Hn; lia|].
  cbn [seq map minimum]. rewrite Nat.add_0_r.
  rewrite fold_min_head; [reflexivity|].
  intros a Ha. apply in_map_iff in Ha. destruct Ha as (i & <- & _).
  apply monotone_le; [exact Hmono | lia].
Qed.


(** ** cleanup_old_windows *)

Lemma assign_keys {V} k (v : V) d :
  map fst (assign k v d)
  = match lookup k d with
    | Some _ => map fst d
    | None => map fst d ++ [k]
    end.
Proof.
  induction d as [|[k0 v0] d IH]; cbn; [reflexivity|].
  destruct (String.eqb k k0) eqn:H0; cbn.
  - apply String.eqb_eq in H0. now subst.
  - rewrite IH. now destruct (lookup k d).
Qed.

Lemma lookup_none_keys {V} k (d : list (string * V)) :
  lookup k d = None -> ~ In k (map fst d).
Proof.
  induction d as [|[k0 v0] d IH]; cbn; [tauto|].
  destruct (String.eqb k k0) eqn:H0; [discriminate|].
  apply String.eqb_neq in H0. intros H [Hk|Hk]; [congruence | now apply IH].
Qed.

Lemma lookup_in {V} k (v : V) d : lookup k d = Some v -> In (k, v) d.
Proof.
  induction d as [|[k0 v0] d IH]; cbn; [discriminate|].
  destruct (String.eqb k k0) eqn:H0.
  - apply String.eqb_eq in H0. intros [= ->]. now left; subst.
  - intros H. right. now apply IH.
Qed.

Lemma in_lookup {V} k (v : V) d :
  NoDup (map fst d) -> In (k, v) d -> lookup k d = Some v.
Proof.
  induction d as [|[k0 v0] d IH]; cbn; [tauto|].
  intros Hnd Hin. inversion Hnd as [|? ? Hnin Hnd']; subst.
  destruct Hin as [[= -> ->]|Hin]; [now rewrite String.eqb_refl|].
  destruct (String.eqb k k0) eqn:H0; [|now apply IH].
  apply String.eqb_eq in H0. subst k0. exfalso. apply Hnin.
  apply in_map_iff. now exists (k, v).
Qed.

Lemma assign_nodup {V} k (v : V) d :
  NoDup (map fst d) -> NoDup (map fst (assign k v d)).
Proof.
  intros H. rewrite assign_keys.
  destruct (lookup k d) eqn:Hk; [exact H|].
  apply NoDup_app; [exact H | repeat constructor; intros [] |].
  intros a Ha [<-|[]]. now apply (lookup_none_keys _ _ Hk).
Qed.

Lemma remove_in {V} k (d : list (string * V)) kv : In kv (remove k d) -> In kv d.
Proof.
  induction d as [|[k0 v0] d IH]; cbn; [tauto|].
  destruct (String.eqb k k0); cbn; [tauto|].
  intros [H|H]; [now left | right; now apply IH].
Qed.

Lemma remove_nodup {V} k (d : list (string * V)) :
  NoDup (map fst d) -> NoDup (map fst (remove k d)).
Proof.
  induction d as [|[k0 v0] d IH]; cbn; [auto|].
  intros Hnd. inversion Hnd as [|? ? Hnin Hnd']; subst.
  destruct (String.eqb k k0); cbn; [exact Hnd'|].
  constructor; [|now apply IH].
  intros Hin. apply Hnin. apply in_map_iff in Hin.
  destruct Hin as (kv & Hk & Hkv). apply remove_in in Hkv.
  apply in_map_iff. now exists kv.
Qed.

Lemma lookup_remove {V} k k' (d : list (string * V)) :
  NoDup (map fst d) ->
  lookup k (remove k' d) = if String.eqb k k' then None else lookup k d.
Proof.
  induction d as [|[k0 v0] d IH]; cbn; intros Hnd.
  - now destruct (String.eqb k k').
  - inversion Hnd as [|? ? Hnin Hnd']; subst.
    destruct (String.eqb k' k0) eqn:H0; cbn.
    + apply String.eqb_eq in H0. subst k0.
      destruct (String.eqb k k') eqn:H1; [|reflexivity].
      apply String.eqb_eq in H1. subst k'.
      destruct (lookup k d) eqn:Hl; [|reflexivity].
      exfalso. apply Hnin. apply lookup_in in Hl.
      apply in_map_iff. now exists (k, v).
    + rewrite IH by exact Hnd'.
      destruct (String.eqb k k0) eqn:H2; [|reflexivity].
      apply String.eqb_eq in H2. subst k0.
      destruct (String.eqb k k') eqn:H1; [|reflexivity].
      apply String.eqb_eq in H1. subst k'. now rewrite String.eqb_refl in H0.
Qed.

Lemma lookup_remove_all {V} k ks : forall d : list (string * V),
  NoDup (map fst d) ->
  lookup k (fold_left (fun d key => remove key d) ks d)
  = if existsb (String.eqb k) ks then None else lookup k d.
Proof.
  induction ks as [|k0 ks IH]; intros d Hnd; cbn; [reflexivity|].
  rewrite IH by now apply remove_nodup.
  rewrite lookup_remove by exact Hnd.
  destruct (String.eqb k k0); cbn; [|reflexivity].
  now destruct (existsb (String.eqb k) ks).
Qed.

Lemma remove_all_nodup {V} ks : forall d : list (string * V),
  NoDup (map fst d) ->
  NoDup (map fst (fold_left (fun d key => remove key d) ks d)).
Proof.
  induction ks as [|k0 ks IH]; intros d Hnd; cbn; [exact Hnd|].
  apply IH. now apply remove_nodup.
Qed.

(** The keys the second loop collects. *)
Lemma stale_keys k T d :
  NoDup (map fst d) ->
  existsb (String.eqb k)
          (map fst (filter (fun kv => stale T (snd kv)) d))
  = match lookup k d with
    | Some l => stale T l
    | None => false
    end.
Proof.
  induction d as [|[k0 v0] d IH]; cbn; intros Hnd; [reflexivity|].
  inversion Hnd as [|? ? Hnin Hnd']; subst.
  specialize (IH Hnd').
  destruct (String.eqb k k0) eqn:H0.
  - apply String.eqb_eq in H0. subst k0.
    assert (Hl : lookup k d = None).
    { destruct (lookup k d) eqn:Hl; [|reflexivity].
      exfalso. apply Hnin. apply lookup_in in Hl.
      apply in_map_iff. now exists (k, l). }
    rewrite Hl in IH.
    destruct (stale T v0); cbn; [now rewrite String.eqb_refl | exact IH].
  - destruct (stale T v0); cbn; [rewrite H0; cbn|]; exact IH.
Qed.

Lemma existsb_empty d :
  existsb (fun kv : string * list Z => is_empty (snd kv)) d = true <->
  exists k, In (k, []) d.
Proof.
  rewrite existsb_exists. split.
  - intros ([k l] & Hin & He). destruct l; [|discriminate]. now exists k.
  - intros (k & Hin). now exists (k, []).
Qed.

Lemma cleanup_returns (E : env) (w : world) :
  well_formed w -> no_empty_window w ->
  fst (cleanup_old_windows E w) = Return tt.
Proof.
  intros Hnd Hne. unfold cleanup_old_windows, datetime_now. cbv zeta.
  cbn [request_windows].
  replace (existsb _ (request_windows w)) with false.
  - now destruct (negb (is_empty _)).
  - symmetry. apply not_true_is_false. intros H.
    apply existsb_empty in H. destruct H as (k & Hin).
    apply (Hne k). now apply in_lookup.
Qed.

Lemma cleanup_drops_stale_keys_facts (E : env) (w : world) :
  well_formed w -> no_empty_window w ->
  clock_reads (snd (cleanup_old_windows E w)) = clock_reads (tick w) /\
  forall k,
    lookup k (request_windows (snd (cleanup_old_windows E w)))
    = match lookup k (request_windows w) with
      | Some l =>
          if stale (now_at E (clock_reads w) - hours 1) l
          then None else Some l
      | None => None
      end.
Proof.
  intros Hnd Hne. unfold cleanup_old_windows, datetime_now. cbv zeta.
  cbn [request_windows].
  replace (existsb _ (request_windows w)) with false.
  - destruct (negb (is_empty _)); (split; [reflexivity|]);
      intros k; cbn [snd request_windows logger set_log set_request_windows];
      rewrite lookup_remove_all, stale_keys by exact Hnd;
      (destruct (lookup k (request_windows w)) as [l|]; [|reflexivity]);
      now destruct (stale _ l).
  - symmetry. apply not_true_is_false. intros H.
    apply existsb_empty in H. destruct H as (k & Hin).
    apply (Hne k). now apply in_lookup.
Qed.

(** X15.  What [cleanup_old_windows] does.  If some key has an empty
    window the call raises [UnboundLocalError], the first loop reading
    [keys_to_remove] before the assignment of line 98, and no window is
    dropped.  Otherwise it returns, and drops exactly the keys whose
    newest request is older than one hour before the call: every other
    key keeps its window. *)
Theorem cleanup_drops_stale_keys (E : env) (w : world) :
  well_formed w ->
  ((exists k, lookup k (request_windows w) = Some []) ->
   fst (cleanup_old_windows E w) = Raise (UnboundLocalError "keys_to_remove") /\
   request_windows (snd (cleanup_old_windows E w)) = request_windows w) /\
  (no_empty_window w ->
   fst (cleanup_old_windows E w) = Return tt /\
   well_formed (snd (cleanup_old_windows E w)) /\
   forall k,
     lookup k (request_windows (snd (cleanup_old_windows E w)))
     = match lookup k (request_windows w) with
       | Some l =>
           if stale (now_at E (clock_reads w) - hours 1) l
           then None else Some l
       | None => None
       end).
Proof.
  intros Hnd. unfold cleanup_old_windows, datetime_now. cbv zeta.
  cbn [request_windows].
  split.
  - intros (k & Hk).
    replace (existsb _ (request_windows w)) with true; [now split|].
    symmetry. apply existsb_empty. exists k. now apply lookup_in.
  - intros Hne.
    replace (existsb _ (request_windows w)) with false.
    + assert (Hlook : forall w0 : world,
                request_windows w0
                = fold_left (fun d key => remove key d)
                    (map fst (filter
                       (fun kv => stale (now_at E (clock_reads w) - hours 1)
                                        (snd kv))
                       (request_windows w)))
                    (request_windows w) ->
                well_formed w0 /\
                forall k,
                  lookup k (request_windows w0)
                  = match lookup k (request_windows w) with
                    | Some l =>
                        if stale (now_at E (clock_reads w) - hours 1) l
                        then None else Some l
                    | None => None
                    end).
      { intros w0 H0. unfold well_formed. rewrite H0. split.
        - now apply remove_all_nodup.
        - intros k. rewrite lookup_remove_all, stale_keys by exact Hnd.
          destruct (lookup k (request_windows w)) as [l|]; [|reflexivity].
          now destruct (stale _ l). }
      destruct (negb (is_empty _)); (split; [reflexivity|]);
        apply Hlook; reflexivity.
    + symmetry. apply not_true_is_false. intros H.
      apply existsb_empty in H. destruct H as (k & Hin).
      apply (Hne k). now apply in_lookup.
Qed.

(** ** Empty windows *)

Lemma check_rate_limit_lookup E c w :
  lookup (key c) (request_windows (snd (check_rate_limit E c w)))
  = Some (window (key c) (request_windows (snd (check_rate_limit E c w)))) /\
  (well_formed w -> well_formed (snd (check_rate_limit E c w))).
Proof.
  unfold check_rate_limit, datetime_now, well_formed. cbv zeta.
  set (w1 := match lookup (key c) (request_windows (World _ _ _)) with
             | Some _ => _
             | None => _
             end).
  assert (Hw1 : NoDup (map fst (request_windows w)) ->
                NoDup (map fst (request_windows w1))).
  { unfold w1. cbn [request_windows].
    destruct (lookup (key c) (request_windows w)); cbn; [auto|].
    apply assign_nodup. }
  destruct (rate_limit c <=? _).
  - destruct (minimum _); cbn;
      rewrite window_assign, lookup_assign, String.eqb_refl;
      (split; [reflexivity|]); intros H; now apply assign_nodup, Hw1.
  - cbn. rewrite window_assign, lookup_assign, String.eqb_refl.
    split; [reflexivity|]. intros H. now apply assign_nodup, assign_nodup, Hw1.
Qed.

Lemma check_rate_limit_no_empty E c w :
  1 <= rate_limit c ->
  no_empty_window w -> no_empty_window (snd (check_rate_limit E c w)).
Proof.
  intros HL Hne k.
  destruct (check_rate_limit_step E c w) as (_ & _ & Hwin & Hother).
  destruct (check_rate_limit_lookup E c w) as [Hlook _].
  destruct (String.eqb k (key c)) eqn:Hk.
  - apply String.eqb_eq in Hk. subst k. rewrite Hlook, Hwin.
    destruct (passes E c w) eqn:Hpass.
    + intros [= H]. now destruct (kept_at E c w).
    + unfold passes in Hpass. apply negb_false_iff, Z.leb_le in Hpass.
      intros [= H]. rewrite H in Hpass. cbn in Hpass. lia.
  - apply String.eqb_neq in Hk. rewrite (Hother k Hk). apply Hne.
Qed.

Lemma serve_no_empty E : forall keys w,
  (forall c, In c keys -> 1 <= rate_limit c) ->
  well_formed w -> no_empty_window w ->
  well_formed (snd (serve E keys w)) /\ no_empty_window (snd (serve E keys w)).
Proof.
  induction keys as [|c keys IH]; intros w HL Hwf Hne; [now split|].
  cbn [serve].
  pose proof (check_rate_limit_no_empty E c w (HL c (or_introl eq_refl)) Hne)
    as Hne1.
  destruct (check_rate_limit_lookup E c w) as [_ Hwf1]. specialize (Hwf1 Hwf).
  destruct (check_rate_limit E c w) as [o w1]. cbn [snd] in *.
  specialize (IH w1 (fun c' Hc' => HL c' (or_intror Hc')) Hwf1 Hne1).
  now destruct (serve E keys w1) as [os w2].
Qed.

(** X16.  Empty windows and the cleanup.  (1) Served with limits of at
    least one, the limiter never holds an empty window, so that
    [cleanup_old_windows] returns.  (2) A request whose limit is zero or
    negative and whose key has no request in its window is answered by
    the [ValueError] of [min] on an empty list, not by a 429; it leaves
    an empty window behind, and the next [cleanup_old_windows] raises
    [UnboundLocalError]. *)
Theorem empty_window_breaks_cleanup (E : env) :
  (forall keys w,
     (forall c, In c keys -> 1 <= rate_limit c) ->
     well_formed w -> no_empty_window w ->
     no_empty_window (snd (serve E keys w)) /\
     fst (cleanup_old_windows E (snd (serve E keys w))) = Return tt) /\
  (forall c w,
     rate_limit c <= 0 ->
     kept_at E c w = [] ->
     fst (check_rate_limit E c w) = Raise min_of_empty /\
     lookup (key c) (request_windows (snd (check_rate_limit E c w))) = Some [] /\
     fst (cleanup_old_windows E (snd (check_rate_limit E c w)))
     = Raise (UnboundLocalError "keys_to_remove")).
Proof.
  split.
  - intros keys w HL Hwf Hne.
    destruct (serve_no_empty E keys w HL Hwf Hne) as [Hwf' Hne'].
    split; [exact Hne'|].
    now apply cleanup_returns.
  - intros c w HL Hkept.
    assert (Hpass : passes E c w = false).
    { unfold passes. rewrite Hkept. cbn. apply negb_false_iff, Z.leb_le. lia. }
    destruct (check_rate_limit_step E c w) as (_ & _ & Hwin & _).
    destruct (check_rate_limit_lookup E c w) as [Hlook _].
    rewrite Hpass, Hkept in Hwin. rewrite Hwin in Hlook.
    split; [|split; [exact Hlook|]].
    + now rewrite check_rate_limit_outcome, Hpass, Hkept.
    + unfold cleanup_old_windows, datetime_now. cbv zeta.
      cbn [request_windows].
      replace (existsb _ _) with true; [reflexivity|].
      symmetry. apply existsb_empty. eexists. apply lookup_in. exact Hlook.
Qed.


(** ** The cleanup goes unnoticed *)

Lemma fold_max_ge r : forall t a, In a (t :: r) -> a <= fold_left Z.max r t.
Proof.
  induction r as [|b r IH]; intros t a Ha; cbn [fold_left].
  - destruct Ha as [Ha|[]]. lia.
  - destruct Ha as [Ha|[Ha|Ha]].
    + transitivity (Z.max t b); [lia|]. apply IH. now left.
    + transitivity (Z.max t b); [lia|]. apply IH. now left.
    + apply IH. now right.
Qed.

Lemma stale_old T l : stale T l = true -> forall t, In t l -> t < T.
Proof.
  unfold stale, maximum. destruct l as [|t0 r]; [intros _ t []|].
  intros H t Ht. apply Z.ltb_lt in H.
  pose proof (fold_max_ge r t0 t Ht). lia.
Qed.

Lemma filter_none (s : Z) l :
  (forall t, In t l -> t <= s) -> filter (fun a => s <? a) l = [].
Proof.
  induction l as [|a l IH]; intros H; cbn; [reflexivity|].
  replace (s <? a) with false
    by (symmetry; apply Z.ltb_ge, H; now left).
  apply IH. intros t Ht. apply H. now right.
Qed.

Lemma cleaned_step E T c a b :
  monotone E -> rate_period c <= 3600 ->
  cleaned E T a b ->
  fst (check_rate_limit E c b) = fst (check_rate_limit E c a) /\
  cleaned E T (snd (check_rate_limit E c a)) (snd (check_rate_limit E c b)).
Proof.
  intros Hmono HP (Hclock & Hlate & Hwin).
  assert (Hkept : kept_at E c b = kept_at E c a).
  { unfold kept_at. rewrite Hclock.
    destruct (Hwin (key c)) as [-> | [-> Hold]]; [reflexivity|].
    cbn [filter]. symmetry. apply filter_none.
    intros t Ht. specialize (Hold t Ht). unfold hours, seconds in *. lia. }
  assert (Hpass : passes E c b = passes E c a)
    by (unfold passes; now rewrite Hkept).
  destruct (check_rate_limit_step E c a) as (_ & Hca & Hwa & Hoa).
  destruct (check_rate_limit_step E c b) as (_ & Hcb & Hwb & Hob).
  split.
  - now rewrite !check_rate_limit_outcome, Hpass, Hkept, Hclock.
  - split; [congruence|]. split.
    + rewrite Hca. specialize (Hmono (clock_reads a)). lia.
    + intros k. destruct (String.eqb k (key c)) eqn:Hk.
      * apply String.eqb_eq in Hk. subst k. left.
        now rewrite Hwa, Hwb, Hpass, Hkept, Hclock.
      * apply String.eqb_neq in Hk. unfold window.
        rewrite (Hoa k Hk), (Hob k Hk). apply Hwin.
Qed.

Lemma cleaned_serve E T :
  monotone E ->
  forall keys a b,
    (forall c, In c keys -> rate_period c <= 3600) ->
    cleaned E T a b ->
    fst (serve E keys b) = fst (serve E keys a).
Proof.
  intros Hmono. induction keys as [|c keys IH]; intros a b HP Hcl;
    [reflexivity|].
  cbn [serve].
  destruct (cleaned_step E T c a b Hmono (HP c (or_introl eq_refl)) Hcl)
    as [Hout Hnext].
  destruct (check_rate_limit E c a) as [oa a1].
  destruct (check_rate_limit E c b) as [ob b1]. cbn [fst snd] in *.
  specialize (IH a1 b1 (fun c' Hc' => HP c' (or_intror Hc')) Hnext).
  destruct (serve E keys a1) as [osa a2].
  destruct (serve E keys b1) as [osb b2]. cbn [fst] in *.
  destruct Hcl as (Hclock & _). now rewrite Hout, IH, Hclock.
Qed.

(** X17.  The cleanup goes unnoticed by the keys whose period is at most
    one hour.  Whatever requests follow, with such periods and a clock
    that never goes back, each of them ends in the process that ran
    [cleanup_old_windows] exactly as in the process that did not: what
    the cleanup drops would have left the window at the next request. *)
Theorem cleanup_goes_unnoticed
    (E : env) (w : world) (keys : list APIKey) :
  monotone E ->
  well_formed w ->
  (forall c, In c keys -> rate_period c <= 3600) ->
  fst (serve E keys (snd (cleanup_old_windows E w)))
  = fst (serve E keys (tick w)).
Proof.
  intros Hmono Hwf HP.
  apply (cleaned_serve E (now_at E (clock_reads w) - hours 1) Hmono);
    [exact HP|].
  unfold cleaned.
  destruct (existsb (fun kv => is_empty (snd kv)) (request_windows w))
    eqn:Hempty.
  - unfold cleanup_old_windows, datetime_now. cbv zeta.
    cbn [request_windows]. rewrite Hempty. cbn.
    split; [reflexivity|]. split; [specialize (Hmono (clock_reads w)); lia|].
    intros k. now left.
  - assert (Hne : no_empty_window w).
    { intros k Hk. apply lookup_in in Hk.
      assert (existsb (fun kv => is_empty (snd kv)) (request_windows w) = true)
        by (apply existsb_empty; now exists k).
      congruence. }
    destruct (cleanup_drops_stale_keys_facts E w Hwf Hne) as (Hclock & Hlook).
    split; [exact Hclock|].
    split; [cbn; specialize (Hmono (clock_reads w)); lia|].
    intros k. unfold window. rewrite Hlook. cbn [tick request_windows].
    destruct (lookup k (request_windows w)) as [l|]; [|now left].
    destruct (stale _ l) eqn:Hs; [right | now left].
    split; [reflexivity|]. now apply stale_old.
Qed.


(** ** Witnesses *)

Lemma every_second_monotone : monotone every_second.
Proof. intros n. cbn [now_at every_second]. lia. Qed.

Lemma sliding_window_bound_witness :
  Z.of_nat
    (List.length
       (within 3600 2000000
          (accepted "sk_live_test"
             [sample_key 2; sample_key 2; sample_key 2]
             (fst (serve every_second
                     [sample_key 2; sample_key 2; sample_key 2] start)))))
  <= Z.max 0 2.
Proof.
  apply (sliding_window_bound every_second
           [sample_key 2; sample_key 2; sample_key 2] "sk_live_test" 2 3600).
  - exact every_second_monotone.
  - intros c Hc _. cbn in Hc.
    repeat (destruct Hc as [<-|Hc]; [now split|]). destruct Hc.
Defined.

Lemma limit_then_429_witness :
  fst (serve every_second (repeat (sample_key 2) (Z.to_nat 2)) start)
  = map (granted every_second (sample_key 2) 0 0) (seq 0 (Z.to_nat 2)) /\
  fst (check_rate_limit every_second (sample_key 2)
         (snd (serve every_second (repeat (sample_key 2) (Z.to_nat 2)) start)))
  = Raise (HTTPException 429
             (limit_detail every_second 2 3600 (0 + seconds 3600))
             (limit_headers every_second 2 (0 + seconds 3600))).
Proof.
  apply (limit_then_429 every_second (sample_key 2) start).
  - exact every_second_monotone.
  - cbn. lia.
  - reflexivity.
  - cbn. lia.
Defined.

Lemma reset_time_is_honoured_witness :
  exists reset,
    lookup "X-RateLimit-Reset" (limit_headers every_second 2 (seconds 3600))
    = Some (isoformat every_second reset) /\
    now_at every_second (clock_reads used_up) < reset /\
    window (key (sample_key 2))
      (request_windows (snd (check_rate_limit every_second (sample_key 2)
                               used_up)))
    = kept_at every_second (sample_key 2) used_up /\
    forall w2,
      window (key (sample_key 2)) (request_windows w2)
      = window (key (sample_key 2))
          (request_windows (snd (check_rate_limit every_second (sample_key 2)
                                   used_up))) ->
      reset <= now_at every_second (clock_reads w2) ->
      is_return (fst (check_rate_limit every_second (sample_key 2) w2)) = true.
Proof.
  apply (reset_time_is_honoured every_second (sample_key 2) used_up
           (limit_detail every_second 2 3600 (seconds 3600))).
  - cbn. lia.
  - reflexivity.
Defined.

Lemma every_hour_monotone : monotone every_hour.
Proof. intros n. cbn [now_at every_hour]. lia. Qed.

Lemma cleanup_drops_stale_keys_witness :
  fst (cleanup_old_windows every_hour two_hours_later) = Return tt /\
  lookup "old_key"
    (request_windows (snd (cleanup_old_windows every_hour two_hours_later)))
  = None /\
  lookup "sk_live_test"
    (request_windows (snd (cleanup_old_windows every_hour two_hours_later)))
  = Some [7200000000].
Proof.
  assert (Hwf : well_formed two_hours_later).
  { unfold well_formed. cbn. repeat constructor; cbn; intuition discriminate. }
  assert (Hne : no_empty_window two_hours_later).
  { intros k. cbn. destruct (String.eqb k "old_key"); [discriminate|].
    destruct (String.eqb k "sk_live_test"); discriminate. }
  destruct (proj2 (cleanup_drops_stale_keys every_hour two_hours_later Hwf)
              Hne) as (Hret & _ & Hlook).
  split; [exact Hret|].
  split; [exact (Hlook "old_key") | exact (Hlook "sk_live_test")].
Defined.

Lemma cleanup_goes_unnoticed_witness :
  fst (serve every_hour [sample_key 2; sample_key 2]
         (snd (cleanup_old_windows every_hour two_hours_later)))
  = fst (serve every_hour [sample_key 2; sample_key 2]
           (tick two_hours_later)).
Proof.
  apply (cleanup_goes_unnoticed every_hour two_hours_later
           [sample_key 2; sample_key 2]).
  - exact every_hour_monotone.
  - unfold well_formed. cbn. repeat constructor; cbn; intuition discriminate.
  - intros c Hc. cbn in Hc.
    repeat (destruct Hc as [<-|Hc]; [cbn; lia|]). destruct Hc.
Defined.

End ApiFacts.

(** * The visited set and the store *)

Lemma save_book_keys_kept E data html w :
  keyed data -> store_ok w ->
  exists added,
    map source_key (books (snd (save_book E data html w)))
    = map source_key (books w) ++ added.
Proof.
  intros (Hdict & url & Hurl) (Hids & Hlt & Hkeys).
  destruct (save_book_effect E data html w) as [Heff _].
  destruct Heff as [Hb Hc
                   |src t1 t2 h path evs Hsrc Hfind Hh Hb Hc Hev Hnew
                   |src ex h t path evs Hsrc Hfind Hh Hne Hb Hc Hev].
  - exists []. now rewrite Hb, app_nil_r.
  - eexists. rewrite Hb, map_app. reflexivity.
  - exists []. rewrite app_nil_r.
    destruct Hb as [Hb|Hb]; rewrite Hb; [reflexivity|].
    assert (src = VStr url) as -> by congruence.
    pose proof (find_some _ _ Hfind) as [Hin Hhas].
    apply set_fields_of_keys; try assumption.
    unfold source_key at 1. cbn [doc_fields].
    rewrite (updated_key _ _ _ _ _ url) by assumption.
    symmetry. now apply py_eqb_str.
Qed.



Lemma save_book_id_stored E data html w url bid :
  NoDup (map fst data) ->
  dict_lookup "source_url" data = Some (VStr url) ->
  store_ok w ->
  fst (save_book E data html w) = Ok (Some bid) ->
  In (VStr url) (map source_key (books (snd (save_book E data html w)))).
Proof.
  intros Hnd Hsrc Hok.
  destruct (save_book_keys_kept E data html w) as [added Hkept];
    [split; eauto | exact Hok |].
  revert Hkept.
  unfold save_book, books_find_one, books_insert_one, books_update_one, getitem.
  msimpl. rewrite Hsrc. msimpl.
  destruct (save_html_snapshot_effect E html (VStr url) w)
    as (p & w1 & -> & Hb1 & Hc1 & Ho1).
  destruct (compute_content_hash data) as [h|e|s] eqn:Hh; msimpl;
    try discriminate.
  fault_case; msimpl; try discriminate.
  destruct (find (has_source_url (VStr url)) (books w1)) as [ex|] eqn:Hfind;
    msimpl.
  - intros -> _. rewrite Hb1 in Hfind.
    apply find_some in Hfind. destruct Hfind as [Hin Hhas].
    apply in_or_app. left. apply in_map_iff. exists ex. split; [|exact Hin].
    now apply py_eqb_str.
  - intros _.
    fault_case; msimpl; try discriminate.
    destruct (existsb _ _) eqn:Hex; msimpl; try discriminate.
    match goal with
    | |- context [_log_new_book E ?b data ?w2] =>
        destruct (log_new_book_effect E b data w2)
          as (w3 & evs & -> & Hb3 & Ho3 & Hc3 & Hev)
    end.
    cbn in Hb3. msimpl.
    destruct (dict_lookup "name" data); msimpl; try discriminate.
    intros _. rewrite Hb3, map_app. apply in_or_app. right. left.
    unfold source_key, dict_get. cbn [doc_fields].
    rewrite !dict_lookup_set. cbn. now rewrite Hsrc.
Qed.

Lemma visited_add_stored url w :
  In (VStr url) (map source_key (books w)) ->
  visited_stored w ->
  visited_stored (snd (visited_add url w)).
Proof.
  intros Hin Hvs u. unfold visited_add. msimpl.
  destruct (mem url (visited_urls w)); [apply Hvs|].
  rewrite in_app_iff. intros [Hu|[<-|[]]]; [now apply Hvs | exact Hin].
Qed.

Section Visited.
Variable E : env.
Hypothesis parser_keeps_url : keeps_url E.

Lemma keeps_visited_stored_trans a b c :
  keeps_visited_stored a b -> keeps_visited_stored b c ->
  keeps_visited_stored a c.
Proof. unfold keeps_visited_stored. tauto. Qed.

Lemma keeps_visited_stored_frame w w' :
  books w' = books w -> changes w' = changes w ->
  next_oid w' = next_oid w -> visited_urls w' = visited_urls w ->
  keeps_visited_stored w w'.
Proof.
  intros Hb Hc Ho Hv. unfold keeps_visited_stored, store_ok, visited_stored.
  now rewrite Hb, Ho, Hv.
Qed.

Lemma unmoved {A} (m : M A) :
  (forall w, books (snd (m w)) = books w /\ changes (snd (m w)) = changes w /\
             next_oid (snd (m w)) = next_oid w /\
             visited_urls (snd (m w)) = visited_urls w) ->
  preserves keeps_visited_stored m.
Proof.
  intros H w. destruct (H w) as (? & ? & ? & ?).
  now apply keeps_visited_stored_frame.
Qed.

Lemma task_keeps_visited_stored visited url :
  preserves keeps_visited_stored (scrape_book_task E visited url).
Proof.
  pose proof keeps_visited_stored_trans as Htrans.
  pose proof (@unmoved) as Hframe.
  unfold scrape_book_task.
  apply (preserves_try _ Htrans);
    [|intro; apply Hframe; intros w; repeat split].
  destruct visited; [apply Hframe; intros w; repeat split|].
  apply (preserves_bind _ Htrans).
  { apply (run_fetch E keeps_visited_stored).
    intros; now apply keeps_visited_stored_frame. }
  intros [html|]; [|apply Hframe; intros w; repeat split].
  destruct (str_truthy html); [|apply Hframe; intros w; repeat split].
  destruct (parse_book_page E html url) as [[|kv data]|] eqn:Hp;
    try solve [apply Hframe; intros w; repeat split].
  destruct (parser_keeps_url _ _ _ Hp) as [Hnd Hsrc].
  intros w. unfold bind.
  destruct (save_book E (kv :: data) html w) as [[[bid|]|e|s] w1] eqn:Hsave;
    cbn [fst snd opt_str_truthy].
  all: intros [Hok Hvs].
  all: pose proof (save_book_store_ok E (kv :: data) html w) as Hok1;
    rewrite Hsave in Hok1; cbn [snd] in Hok1;
    specialize (Hok1 (conj Hnd (ex_intro _ url Hsrc)) Hok).
  all: pose proof (save_book_keys_kept E (kv :: data) html w
                     (conj Hnd (ex_intro _ url Hsrc)) Hok) as [added Hkeys];
    rewrite Hsave in Hkeys; cbn [snd] in Hkeys.
  all: pose proof (save_book_visited E (kv :: data) html w) as Hvis;
    rewrite Hsave in Hvis; cbn [snd] in Hvis.
  all: assert (Hvs1 : visited_stored w1)
    by (intros u Hu; rewrite Hkeys; apply in_or_app; left; apply Hvs;
        now rewrite <- Hvis).
  2-4: now split.
  pose proof (save_book_id_stored E (kv :: data) html w url bid Hnd Hsrc Hok)
    as Hin.
  rewrite Hsave in Hin. specialize (Hin eq_refl). cbn [snd] in Hin.
  destruct (str_truthy bid); msimpl; [|now split].
  split; [exact Hok1|].
  now apply (visited_add_stored url w1).
Qed.

End Visited.

(** X18.  Every visited URL has its book in the store.  The parser
    handing on the URL it was given, and the collection holding each
    [_id] and each [source_url] once: if every URL of [visited_urls] is
    the [source_url] of a stored book, this is still so after
    [scrape_book] and after a whole run, whatever the store and the
    network do.  A URL enters the set only after [save_book] returned an
    id, and [save_book] returns an id only when a document with that key
    is in the collection. *)
Theorem visited_urls_are_stored (E : env) (w : world) :
  keeps_url E -> store_ok w -> visited_stored w ->
  (forall url, visited_stored (snd (scrape_book E url w))) /\
  (forall fuel resume,
     visited_stored (snd (crawl_all_books E fuel resume w))).
Proof.
  intros Hparser Hok Hvs. split.
  - intros url. unfold scrape_book, get_world, bind.
    now apply (task_keeps_visited_stored E Hparser).
  - intros fuel resume.
    apply (run_crawl_all_books E keeps_visited_stored); try tauto.
    + exact keeps_visited_stored_trans.
    + exact keeps_visited_stored_frame.
    + exact (task_keeps_visited_stored E Hparser).
Qed.

Lemma demo_keeps_url : keeps_url demo.
Proof.
  intros html url data. cbn.
  destruct (String.eqb url attic_url) eqn:Ha.
  { apply String.eqb_eq in Ha. subst url. intros [= <-].
    split; [|reflexivity].
    repeat constructor; cbn; intuition discriminate. }
  destruct (String.eqb url velvet_url) eqn:Hv; [|discriminate].
  apply String.eqb_eq in Hv. subst url. intros [= <-].
  split; [|reflexivity].
  repeat constructor; cbn; intuition discriminate.
Qed.

Lemma visited_urls_are_stored_witness :
  (forall url, visited_stored (snd (scrape_book demo url (fresh_world demo)))) /\
  (forall fuel resume,
     visited_stored (snd (crawl_all_books demo fuel resume (fresh_world demo)))).
Proof.
  apply (visited_urls_are_stored demo (fresh_world demo)).
  - exact demo_keeps_url.
  - repeat split; cbn; [constructor | tauto | constructor].
  - intros u [].
Defined.

(** * An update the store refuses *)

Ltac update_done :=
  split; [reflexivity|];
  cbn [books changes clock io_count timestamp];
  split; [reflexivity|]; split; [reflexivity|];
  split; [repeat split; cbn [changed_fields]; congruence|];
  cbn [timestamp]; split; [lia | reflexivity].

Lemma save_book_update_steps E data html w url name ex h (refused : bool) :
  dict_lookup "source_url" data = Some (VStr url) ->
  dict_lookup "name" data = Some name ->
  find (has_source_url (VStr url)) (books w) = Some ex ->
  compute_content_hash data = Ok h ->
  py_eqb (dict_get "content_hash" (doc_fields ex)) (VStr h) = false ->
  diff_fields tracked_fields (doc_fields ex) data <> [] ->
  io_fault E (S (io_count w)) = false ->
  io_fault E (S (S (io_count w))) = false ->
  io_fault E (S (S (S (io_count w)))) = refused ->
  exists w' c t path,
    save_book E data html w
    = (Ok (if refused then None else Some (str_oid (doc_id ex))), w') /\
    books w'
    = (if refused then books w
       else set_fields_of (doc_id ex) (updated_fields data h t path) (books w)) /\
    changes w' = changes w ++ [c] /\
    updated_event ex data name c /\
    clock w <= timestamp c < clock w' /\
    io_count w' = S (S (S (S (io_count w)))).
Proof.
  intros Hurl Hname Hfind Hhash Hneq Hdiff H1 H2 H3.
  munfold. msimpl. rewrite Hurl. msimpl.
  destruct (io_fault E (io_count w)); msimpl.
  all: rewrite Hhash; msimpl; rewrite H1; msimpl; rewrite Hfind; msimpl.
  all: rewrite Hneq; msimpl.
  all: destruct (diff_fields tracked_fields (doc_fields ex) data)
         as [|f fs] eqn:Hd; [congruence|]; msimpl.
  all: rewrite Hname; msimpl; rewrite H2; msimpl; rewrite H3.
  all: destruct refused; msimpl; rewrite ?Hname; msimpl.
  all: first [ solve [do 2 eexists; exists 0, ""; update_done]
              | solve [do 4 eexists; update_done] ].
Qed.

(** X19.  An update the store refuses is logged twice.  [save_book]
    writes the change event before it updates the book, and nothing
    undoes the event when [update_one] raises: the call returns [None],
    the book is as before, the event is in the log.  The next call for
    the same record finds the same stored book, logs the same change a
    second time (same book, same fields, old and new values) and only
    then applies it. *)
Theorem refused_update_is_logged_twice
    (E : env) (data : dict) (html : string) (w : world)
    (url : string) (name : value) (ex : document) (h : string) :
  dict_lookup "source_url" data = Some (VStr url) ->
  dict_lookup "name" data = Some name ->
  find (has_source_url (VStr url)) (books w) = Some ex ->
  compute_content_hash data = Ok h ->
  py_eqb (dict_get "content_hash" (doc_fields ex)) (VStr h) = false ->
  diff_fields tracked_fields (doc_fields ex) data <> [] ->
  io_fault E (io_count w + 1) = false ->
  io_fault E (io_count w + 2) = false ->
  io_fault E (io_count w + 3) = true ->
  io_fault E (io_count w + 5) = false ->
  io_fault E (io_count w + 6) = false ->
  io_fault E (io_count w + 7) = false ->
  exists w1 w2 c1 c2,
    save_book E data html w = (Ok None, w1) /\
    books w1 = books w /\
    changes w1 = changes w ++ [c1] /\
    save_book E data html w1 = (Ok (Some (str_oid (doc_id ex))), w2) /\
    changes w2 = changes w ++ [c1; c2] /\
    updated_event ex data name c1 /\
    updated_event ex data name c2 /\
    timestamp c1 < timestamp c2.
Proof.
  intros Hurl Hname Hfind Hhash Hneq Hdiff H1 H2 H3 H5 H6 H7.
  replace (io_count w + 1)%nat with (S (io_count w)) in H1 by lia.
  replace (io_count w + 2)%nat with (S (S (io_count w))) in H2 by lia.
  replace (io_count w + 3)%nat with (S (S (S (io_count w)))) in H3 by lia.
  destruct (save_book_update_steps E data html w url name ex h true)
    as (w1 & c1 & _ & _ & Hrun1 & Hb1 & Hc1 & Hev1 & Ht1 & Hio1);
    try assumption.
  assert (Hfind1 : find (has_source_url (VStr url)) (books w1) = Some ex)
    by now rewrite Hb1.
  destruct (save_book_update_steps E data html w1 url name ex h false)
    as (w2 & c2 & t & path & Hrun2 & Hb2 & Hc2 & Hev2 & Ht2 & Hio2);
    try assumption.
  1-3: rewrite Hio1.
  - now replace (io_count w + 5)%nat
      with (S (S (S (S (S (io_count w)))))) in H5 by lia.
  - now replace (io_count w + 6)%nat
      with (S (S (S (S (S (S (io_count w))))))) in H6 by lia.
  - now replace (io_count w + 7)%nat
      with (S (S (S (S (S (S (S (io_count w)))))))) in H7 by lia.
  - exists w1, w2, c1, c2.
    repeat (split; [assumption|]).
    split; [rewrite Hc2, Hc1, <- app_assoc; reflexivity|].
    repeat (split; [assumption|]). lia.
Qed.

Lemma refused_update_is_logged_twice_witness :
  exists w1 w2 c1 c2,
    save_book failing_store (attic float_49_99) "<html>"
      (new_scraper failing_store [outdated_attic] [] None)
    = (Ok None, w1) /\
    books w1 = [outdated_attic] /\
    changes w1 = [] ++ [c1] /\
    save_book failing_store (attic float_49_99) "<html>" w1
    = (Ok (Some (str_oid 1)), w2) /\
    changes w2 = [] ++ [c1; c2] /\
    updated_event outdated_attic (attic float_49_99)
      (VStr "A Light in the Attic") c1 /\
    updated_event outdated_attic (attic float_49_99)
      (VStr "A Light in the Attic") c2 /\
    timestamp c1 < timestamp c2.
Proof.
  apply (refused_update_is_logged_twice failing_store (attic float_49_99)
           "<html>" (new_scraper failing_store [outdated_attic] [] None)
           attic_url (VStr "A Light in the Attic") outdated_attic
           "fc79f94ec447ccabe957fd226b7152f48f4e6fd6c150fc8049eacb856a565ea5").
  - reflexivity.
  - reflexivity.
  - reflexivity.
  - exact hash_attic_49_99.
  - reflexivity.
  - cbn. discriminate.
  - reflexivity.
  - reflexivity.
  - reflexivity.
  - reflexivity.
  - reflexivity.
  - reflexivity.
Defined.

(* ================================================================== *)
(** * The parser *)
(* ================================================================== *)

Module ParserFacts.
Import Parser.

(** ** Rounding never gives a negative value or a NaN *)

Lemma shr_1_nonneg mrs : 0 <= shr_m mrs -> 0 <= shr_m (shr_1 mrs).
Proof.
  destruct mrs as [m r s]. cbn [shr_m].
  destruct m as [|p|p]; cbn; try lia.
  destruct p; cbn; lia.
Qed.

Lemma iter_shr_1_nonneg p : forall mrs,
  0 <= shr_m mrs -> 0 <= shr_m (iter_pos shr_1 p mrs).
Proof.
  induction p as [p IH|p IH|]; intros mrs H; cbn [iter_pos].
  - apply IH, IH. now apply shr_1_nonneg.
  - now apply IH, IH.
  - now apply shr_1_nonneg.
Qed.

Lemma shr_fexp_nonneg m e l :
  0 <= m -> 0 <= shr_m (fst (shr_fexp 53 1024 m e l)).
Proof.
  intros H. unfold shr_fexp, shr.
  assert (H0 : 0 <= shr_m (shr_record_of_loc m l))
    by (destruct l as [|[]]; exact H).
  destruct (fexp 53 1024 (Zdigits2 m + e) - e); cbn [fst]; try exact H0.
  now apply iter_shr_1_nonneg.
Qed.

Lemma round_nearest_even_nonneg m l : 0 <= m -> 0 <= round_nearest_even m l.
Proof.
  intros H. destruct l as [|[]]; cbn; try lia.
  destruct (Z.even m); lia.
Qed.

Lemma binary_round_aux_price q e l :
  0 <= q -> is_price (binary_round_aux 53 1024 false q e l).
Proof.
  intros H. unfold binary_round_aux.
  pose proof (shr_fexp_nonneg q e l H) as H1.
  destruct (shr_fexp 53 1024 q e l) as [mrs1 e1]. cbn [fst] in H1.
  pose proof (shr_fexp_nonneg
                (round_nearest_even (shr_m mrs1) (loc_of_shr_record mrs1))
                e1 loc_Exact
                (round_nearest_even_nonneg _ _ H1)) as H2.
  destruct (shr_fexp 53 1024 _ e1 loc_Exact) as [mrs2 e2]. cbn [fst] in H2.
  destruct (shr_m mrs2); [exact I | | lia].
  now destruct (e2 <=? 1024 - 53).
Qed.

Lemma nearest_price m k : 0 <= m -> is_price (nearest m k).
Proof.
  intros H. unfold nearest.
  destruct m as [|p|p]; [exact I | | lia].
  unfold SFdiv_core_binary.
  set (s := 0 - 0 - _).
  set (m' := match s with Z0 => Z.pos p | Z.pos _ => Z.shiftl (Z.pos p) s
                        | Z.neg _ => 0 end).
  assert (Hm' : 0 <= m').
  { subst m'. destruct s; try lia. apply Z.shiftl_nonneg. lia. }
  assert (Hq : 0 <= fst (Z.div_eucl m' (10 ^ Z.of_nat k))).
  { change (0 <= m' / 10 ^ Z.of_nat k). apply Z.div_pos; [exact Hm'|].
    apply Z.pow_pos_nonneg; lia. }
  destruct (Z.div_eucl m' (10 ^ Z.of_nat k)) as [q r]. cbn [fst] in Hq.
  now apply binary_round_aux_price.
Qed.

Lemma code_nonneg c : 0 <= Text.code c.
Proof. unfold Text.code. lia. Qed.

Lemma isdigit_range c : isdigit c = true -> 48 <= Text.code c <= 57.
Proof. unfold isdigit. cbv zeta. lia. Qed.

Lemma digits_from_nonneg s : forall acc n,
  0 <= acc -> 0 <= fst (fst (digits_from acc n s)).
Proof.
  induction s as [|c s IH]; intros acc n H; cbn [digits_from fst]; [exact H|].
  destruct (isdigit c) eqn:Hd; cbn [fst]; [|exact H].
  apply IH. apply isdigit_range in Hd. lia.
Qed.

Lemma float_of_digits_price s f : float_of_digits s = Some f -> is_price f.
Proof.
  unfold float_of_digits.
  pose proof (digits_from_nonneg s 0 0 (Z.le_refl 0)) as Hw.
  destruct (digits_from 0 0 s) as [[whole n] rest]. cbn [fst] in Hw.
  destruct rest as [|c frac].
  - destruct (n =? 0)%nat; [discriminate|].
    intros [= <-]. now apply nearest_price.
  - destruct (Ascii.eqb c "."); [|discriminate].
    pose proof (digits_from_nonneg frac whole 0 Hw) as Hm.
    destruct (digits_from whole 0 frac) as [[m k] rest']. cbn [fst] in Hm.
    destruct rest'; [|discriminate].
    destruct ((n =? 0)%nat && (k =? 0)%nat); [discriminate|].
    intros [= <-]. now apply nearest_price.
Qed.

Lemma parse_price_is_price s : is_price (_parse_price s).
Proof.
  unfold _parse_price.
  destruct (float_of_digits (digits_and_dots s)) as [f|] eqn:H; [|exact I].
  exact (float_of_digits_price _ f H).
Qed.

Lemma string_app_nil (s : string) : (s ++ "")%string = s.
Proof. induction s as [|c s IH]; cbn; [reflexivity | now rewrite IH]. Qed.

(** ** What [re.sub] keeps *)

Lemma digits_and_dots_app a b :
  digits_and_dots (a ++ b)%string
  = (digits_and_dots a ++ digits_and_dots b)%string.
Proof.
  induction a as [|c a IH]; cbn [append digits_and_dots]; [reflexivity|].
  destruct (isdigit c || Ascii.eqb c "."); cbn [append]; now rewrite IH.
Qed.

Lemma digits_and_dots_drops c a b :
  isdigit c = false -> c <> "."%char ->
  digits_and_dots (a ++ String c b)%string = digits_and_dots (a ++ b)%string.
Proof.
  intros Hd Hdot. rewrite !digits_and_dots_app. f_equal.
  cbn [digits_and_dots]. rewrite Hd.
  apply Ascii.eqb_neq in Hdot. now rewrite Hdot.
Qed.

Lemma dots_digits_and_dots s : dots (digits_and_dots s) = dots s.
Proof.
  induction s as [|c s IH]; cbn [digits_and_dots dots]; [reflexivity|].
  destruct (Ascii.eqb c ".") eqn:Hdot.
  - rewrite orb_true_r. cbn [dots]. now rewrite Hdot, IH.
  - rewrite orb_false_r. destruct (isdigit c); cbn [dots];
      rewrite ?Hdot, IH; reflexivity.
Qed.

Lemma isdigit_not_dot c : isdigit c = true -> Ascii.eqb c "." = false.
Proof.
  intros H. apply Ascii.eqb_neq. intros ->. discriminate.
Qed.

(** ** Reading digits *)

Lemma digits_from_dots s : forall acc n,
  dots (snd (digits_from acc n s)) = dots s.
Proof.
  induction s as [|c s IH]; intros acc n; cbn [digits_from]; [reflexivity|].
  destruct (isdigit c) eqn:Hd; [|reflexivity].
  rewrite IH. cbn [dots]. now rewrite (isdigit_not_dot c Hd).
Qed.

Lemma digits_from_all w : all_digits w = true -> forall acc n r,
  digits_from acc n (w ++ r)%string
  = digits_from (fst (fst (digits_from acc n w))) (n + String.length w) r.
Proof.
  induction w as [|c w IH]; intros Hw acc n r; cbn [append digits_from].
  - cbn. now rewrite Nat.add_0_r.
  - cbn [all_digits] in Hw. apply andb_prop in Hw. destruct Hw as [Hc Hw].
    rewrite Hc. rewrite (IH Hw). cbn [String.length].
    now rewrite Nat.add_succ_r.
Qed.

Lemma digits_from_value s : forall acc n n',
  fst (fst (digits_from acc n s)) = fst (fst (digits_from acc n' s)).
Proof.
  induction s as [|c s IH]; intros acc n n'; cbn [digits_from]; [reflexivity|].
  destruct (isdigit c); [apply IH | reflexivity].
Qed.

Lemma digits_from_end acc n : digits_from acc n "" = (acc, n, "").
Proof. reflexivity. Qed.

Lemma digits_from_stop acc n c r :
  isdigit c = false -> digits_from acc n (String c r) = (acc, n, String c r).
Proof. intros H. cbn [digits_from]. now rewrite H. Qed.

Lemma float_of_digits_dots s f :
  float_of_digits s = Some f -> (dots s <= 1)%nat.
Proof.
  unfold float_of_digits.
  pose proof (digits_from_dots s 0 0) as H1.
  destruct (digits_from 0 0 s) as [[whole n] rest]. cbn [snd] in H1.
  rewrite <- H1. destruct rest as [|c frac]; [cbn; lia|].
  destruct (Ascii.eqb c ".") eqn:Hc; [|discriminate].
  pose proof (digits_from_dots frac whole 0) as H2.
  destruct (digits_from whole 0 frac) as [[m k] rest']. cbn [snd] in H2.
  destruct rest'; [|discriminate].
  intros _. cbn [dots]. rewrite Hc, <- H2. cbn. lia.
Qed.

Lemma float_of_digits_whole w :
  all_digits w = true -> w <> "" ->
  float_of_digits w = Some (nearest (number w) 0).
Proof.
  intros Hw Hne. unfold float_of_digits, number.
  pose proof (digits_from_all w Hw 0 0 "") as H.
  rewrite string_app_nil in H. rewrite H, digits_from_end.
  destruct w; [congruence|]. reflexivity.
Qed.

Lemma float_of_digits_fraction w f :
  all_digits w = true -> all_digits f = true -> w <> "" \/ f <> "" ->
  float_of_digits (w ++ "." ++ f)%string
  = Some (nearest (number (w ++ f)%string) (String.length f)).
Proof.
  intros Hw Hf Hne. unfold float_of_digits, number.
  rewrite (digits_from_all w Hw 0 0). cbn [append].
  rewrite digits_from_stop by reflexivity.
  rewrite Ascii.eqb_refl.
  pose proof (digits_from_all f Hf (fst (fst (digits_from 0 0 w))) 0 "") as H.
  rewrite string_app_nil in H. rewrite H, digits_from_end.
  rewrite (digits_from_all w Hw 0 0 f). cbn [fst].
  rewrite (digits_from_value f _ (0 + String.length w) 0).
  replace ((0 + String.length w =? 0)%nat && (0 + String.length f =? 0)%nat)
    with false; [reflexivity|].
  destruct w, f; cbn; try reflexivity. destruct Hne; congruence.
Qed.

(** X21.  What [_parse_price] makes of a string.  (1) The price is zero,
    a positive number or plus infinity: never negative, never a NaN.
    (2) Only the digits and the dots of the string count: a character
    that is neither can be dropped anywhere, be it a minus sign, a
    currency sign, a comma, a space or the [e] of an exponent.  (3) With
    two dots or more, the price is 0.0, the value of a string with no
    digit.  (4) Digits, or digits around one dot, give the binary64
    value nearest to the decimal number they spell. *)
Theorem parse_price_reads_digits_and_dots :
  (forall s, is_price (_parse_price s)) /\
  (forall c a b,
     isdigit c = false -> c <> "."%char ->
     _parse_price (a ++ String c b)%string = _parse_price (a ++ b)%string) /\
  (forall s, (2 <= dots s)%nat -> _parse_price s = S754_zero false) /\
  (forall s w,
     digits_and_dots s = w -> all_digits w = true -> w <> "" ->
     _parse_price s = nearest (number w) 0) /\
  (forall s w f,
     digits_and_dots s = (w ++ "." ++ f)%string ->
     all_digits w = true -> all_digits f = true -> w <> "" \/ f <> "" ->
     _parse_price s = nearest (number (w ++ f)%string) (String.length f)).
Proof.
  split; [exact parse_price_is_price|].
  split.
  { intros c a b Hd Hdot. unfold _parse_price.
    now rewrite (digits_and_dots_drops c a b Hd Hdot). }
  split.
  { intros s Hdots. unfold _parse_price.
    destruct (float_of_digits (digits_and_dots s)) as [f|] eqn:Hf;
      [|reflexivity].
    apply float_of_digits_dots in Hf.
    rewrite dots_digits_and_dots in Hf. lia. }
  split.
  - intros s w Hs Hw Hne. unfold _parse_price.
    now rewrite Hs, (float_of_digits_whole w Hw Hne).
  - intros s w f Hs Hw Hf Hne. unfold _parse_price.
    now rewrite Hs, (float_of_digits_fraction w f Hw Hf Hne).
Qed.

(** ** The record of a page *)

Lemma dict_of_record v1 v2 v3 v4 v5 v6 v7 v8 v9 v10 :
  dict_of [ ("name", v1); ("description", v2); ("category", v3);
            ("price_including_tax", v4); ("price_excluding_tax", v5);
            ("availability", v6); ("number_of_reviews", v7);
            ("image_url", v8); ("rating", v9); ("source_url", v10) ]
  = [ ("name", v1); ("description", v2); ("category", v3);
      ("price_including_tax", v4); ("price_excluding_tax", v5);
      ("availability", v6); ("number_of_reviews", v7);
      ("image_url", v8); ("rating", v9); ("source_url", v10) ].
Proof. reflexivity. Qed.

Lemma first_rating_range l :
  exists r, first_rating l = VInt r /\ 0 <= r <= 5.
Proof.
  induction l as [|cls l IH]; cbn [first_rating].
  - exists 0. split; [reflexivity | lia].
  - unfold RATING_MAP. cbn [dict_lookup].
    repeat match goal with
           | |- context [String.eqb cls ?k] => destruct (String.eqb cls k)
           end;
      try exact IH; eexists; (split; [reflexivity | lia]).
Qed.

Lemma book_page_record P html url book_data :
  book_page P html url = Done (Some book_data) ->
  exists name description category price_including_tax price_excluding_tax
         availability number_of_reviews image_url rating,
    book_data
    = [ ("name", VStr name); ("description", VStr description);
        ("category", VStr category);
        ("price_including_tax", VFloat price_including_tax);
        ("price_excluding_tax", VFloat price_excluding_tax);
        ("availability", VStr availability);
        ("number_of_reviews", VInt number_of_reviews);
        ("image_url", VStr image_url); ("rating", VInt rating);
        ("source_url", VStr url) ] /\
    is_price price_including_tax /\ is_price price_excluding_tax /\
    0 <= rating <= 5.
Proof.
  unfold book_page.
  destruct (BeautifulSoup P html) as [e|page]; [discriminate|].
  destruct (select_one page (root page) "div.product_main h1")
    as [name_elem|]; [|discriminate].
  match goal with
  | |- and_then ?m _ = _ -> _ => destruct m as [number_of_reviews|e]
  end; [|discriminate].
  cbn [and_then].
  match goal with
  | |- and_then ?m _ = _ -> _ => destruct m as [image_url|e]
  end; [|discriminate].
  cbn [and_then].
  match goal with
  | |- Done (Some (dict_of [_; _; _; _; _; _; _; _; ("rating", ?r); _])) = _ -> _ =>
      assert (Hr : exists n, r = VInt n /\ 0 <= n <= 5)
  end.
  { destruct (select_one page (root page) "p.star-rating") as [rating_elem|];
      [|exists 0; split; [reflexivity | lia]].
    destruct (get page rating_elem "class") as [[cls|cls]|];
      apply first_rating_range. }
  destruct Hr as (rating & -> & Hrange).
  rewrite dict_of_record. intros [= <-].
  do 9 eexists. split; [reflexivity|].
  split; [apply parse_price_is_price|].
  split; [apply parse_price_is_price | exact Hrange].
Qed.

Lemma parse_book_page_some P html url book_data :
  fst (parse_book_page P html url) = Some book_data <->
  book_page P html url = Done (Some book_data).
Proof.
  unfold parse_book_page.
  destruct (book_page P html url) as [[d|]|e]; cbn [fst];
    split; intros H; congruence.
Qed.

(** The image URL of a page that has a name and a review count. *)
Lemma image_url_none P page (rest : string -> try (option dict)) :
  (forall image_url, exists d, rest image_url = Done (Some d)) ->
  let image :=
    match select_one page (root page) "div.item.active img" with
    | Some image_elem =>
        match get page image_elem "src" with
        | Some src =>
            if attr_truthy src
            then urljoin_attr P "https://books.toscrape.com/" src
            else Done ""
        | None => Done ""
        end
    | None => Done ""
    end in
  (exists e, and_then image rest = Fail e) <->
  (exists image_elem l,
     select_one page (root page) "div.item.active img" = Some image_elem /\
     get page image_elem "src" = Some (StrList l) /\ l <> []) \/
  (exists image_elem src e,
     select_one page (root page) "div.item.active img" = Some image_elem /\
     get page image_elem "src" = Some (Str src) /\ src <> "" /\
     urljoin P "https://books.toscrape.com/" src = inl e).
Proof.
  intros Hrest image. subst image.
  assert (Hdone : forall u, ~ exists e, and_then (Done u) rest = Fail e).
  { intros u [e He]. cbn in He. destruct (Hrest u) as [d Hd]. congruence. }
  destruct (select_one page (root page) "div.item.active img")
    as [image_elem|].
  2:{ split; [intros H; now apply Hdone in H|].
      intros [(? & ? & ? & _)|(? & ? & ? & ? & _)]; discriminate. }
  destruct (get page image_elem "src") as [[src|l]|] eqn:Hsrc.
  3:{ split; [intros H; now apply Hdone in H|].
      intros [(? & ? & ? & ? & _)|(? & ? & ? & ? & ? & _)]; congruence. }
  - destruct src as [|c src].
    { cbn [attr_truthy str_truthy String.eqb negb].
      split; [intros H; now apply Hdone in H|].
      intros [(? & ? & ? & ? & _)|(? & ? & ? & ? & ? & ? & _)]; congruence. }
    cbn [attr_truthy str_truthy String.eqb negb urljoin_attr].
    destruct (urljoin P "https://books.toscrape.com/" (String c src))
      as [e|joined] eqn:Hjoin.
    + split; [|intros _; now exists e].
      intros _. right. exists image_elem, (String c src), e.
      repeat split; try assumption; discriminate.
    + split; [intros H; now apply Hdone in H|].
      intros [(? & ? & ? & ? & _)|(? & ? & ? & ? & ? & ? & ?)]; congruence.
  - destruct l as [|x l].
    { cbn [attr_truthy is_empty negb].
      split; [intros H; now apply Hdone in H|].
      intros [(? & ? & ? & ? & ?)|(? & ? & ? & ? & ? & _)]; congruence. }
    cbn [attr_truthy is_empty negb urljoin_attr and_then].
    split; [|intros _; eexists; reflexivity].
    intros _. left. exists image_elem, (x :: l).
    repeat split; try assumption; discriminate.
Qed.

Lemma parse_book_page_none P html url :
  fst (parse_book_page P html url) = None <-> no_record P html.
Proof.
  unfold parse_book_page, book_page, no_record.
  destruct (BeautifulSoup P html) as [e|page]; cbn [fst]; [tauto|].
  cbv zeta.
  destruct (select_one page (root page) "div.product_main h1")
    as [name_elem|]; cbn [fst]; [|tauto].
  set (product_info :=
         table_rows page (select page (root page) "table.table-striped tr") []).
  assert (Hreviews :
            (exists e,
               match info_get "Number of reviews" product_info with
               | Some s => int_of_str (int_max_str_digits P) (repr P) s
               | None => Done 0
               end = Fail e) <->
            (exists s e,
               info_get "Number of reviews" product_info = Some s /\
               int_of_str (int_max_str_digits P) (repr P) s = Fail e)).
  { destruct (info_get "Number of reviews" product_info) as [s|].
    - split; [intros [e He]; now exists s, e|].
      intros (s' & e & [= <-] & He). now exists e.
    - split; [intros [e He]; discriminate|].
      intros (s' & e & [=] & _). }
  match goal with
  | |- context [and_then ?m ?k] =>
      destruct m as [number_of_reviews|e] eqn:Hn
  end; cbn [and_then].
  2:{ split; [|reflexivity]. intros _. right. left.
      apply Hreviews. now exists e. }
  match goal with
  | |- context [and_then ?m ?k] =>
      pose proof (image_url_none P page k) as Himage
  end.
  cbv zeta in Himage.
  match type of Himage with
  | ?A -> _ => assert (Hrest : A) by (intros image_url; eexists; reflexivity)
  end.
  specialize (Himage Hrest). clear Hrest.
  match goal with
  | |- context [and_then ?m ?k] => destruct (and_then m k) as [[d|]|e] eqn:Hd
  end; cbn [fst].
  - split; [discriminate|].
    intros [H|[H|H]]; [discriminate| |].
    + apply Hreviews in H. destruct H as [e He]. discriminate.
    + apply Himage in H. destruct H as [e He]. discriminate.
  - exfalso. revert Hd.
    match goal with
    | |- and_then ?m _ = _ -> _ => destruct m; cbn [and_then]; discriminate
    end.
  - split; [|reflexivity]. intros _. right. right.
    apply Himage. now exists e.
Qed.

(** X20.  The record [parse_book_page] builds.  A page gives either no
    record or a dictionary of exactly ten keys, in the order of the
    source: five strings (name, description, category, availability,
    image URL), two prices that are neither negative nor NaN, an integer
    number of reviews, a rating between 0 and 5, and as [source_url] the
    URL the parser was given.  It gives no record exactly when the page
    cannot be read, when it has no name element, when the text of the
    review count is not an integer, when the source of the image is a
    non-empty list, or when it is a non-empty string on which [urljoin]
    raises. *)
Theorem parse_book_page_record (P : env) (html url : string) :
  (forall book_data,
     fst (parse_book_page P html url) = Some book_data ->
     exists name description category price_including_tax price_excluding_tax
            availability number_of_reviews image_url rating,
       book_data
       = [ ("name", VStr name); ("description", VStr description);
           ("category", VStr category);
           ("price_including_tax", VFloat price_including_tax);
           ("price_excluding_tax", VFloat price_excluding_tax);
           ("availability", VStr availability);
           ("number_of_reviews", VInt number_of_reviews);
           ("image_url", VStr image_url); ("rating", VInt rating);
           ("source_url", VStr url) ] /\
       is_price price_including_tax /\ is_price price_excluding_tax /\
       0 <= rating <= 5) /\
  (fst (parse_book_page P html url) = None <-> no_record P html).
Proof.
  split.
  - intros book_data H. apply parse_book_page_some in H.
    exact (book_page_record P html url book_data H).
  - apply parse_book_page_none.
Qed.

Lemma parsed_record P html url book_data :
  fst (parse_book_page P html url) = Some book_data ->
  NoDup (map fst book_data) /\
  dict_lookup "source_url" book_data = Some (VStr url) /\
  dict_lookup "status" book_data = None /\
  (forall k, In k relevant_fields -> dict_mem k book_data = true).
Proof.
  intros H. apply parse_book_page_some, book_page_record in H.
  destruct H as (v1 & v2 & v3 & v4 & v5 & v6 & v7 & v8 & v9 & -> & _).
  split; [cbn; repeat constructor; cbn; intuition discriminate|].
  split; [reflexivity|]. split; [reflexivity|].
  intros k Hk. cbn [relevant_fields In] in Hk.
  repeat (destruct Hk as [<-|Hk]; [reflexivity|]). destruct Hk.
Qed.

Lemma parse_attic_page html :
  fst (parse_book_page attic_reader html attic_url) = Some (attic float_51_77).
Proof. vm_compute. reflexivity. Qed.

End ParserFacts.

(** * A run with the parser of the source *)

Lemma save_book_listed E data html w :
  NoDup (map fst data) -> dict_lookup "status" data = None ->
  Forall listed (books w) ->
  Forall listed (books (snd (save_book E data html w))).
Proof.
  intros Hnd Hstatus Hall.
  destruct (save_book_effect E data html w) as [Heff _].
  destruct Heff as [Hb Hc
                   |src t1 t2 h path evs Hsrc Hfind Hh Hb Hc Hev Hnew
                   |src ex h t path evs Hsrc Hfind Hh Hne Hb Hc Hev].
  - now rewrite Hb.
  - rewrite Hb. apply Forall_app. split; [exact Hall|].
    constructor; [|constructor].
    unfold listed, inserted_fields. cbn [doc_fields].
    now rewrite dict_lookup_update.
  - destruct Hb as [Hb|Hb]; rewrite Hb; [exact Hall|].
    rewrite Forall_forall in *. intros d Hd.
    apply set_fields_of_in in Hd.
    destruct Hd as [Hd|(d0 & Hd0 & _ & ->)]; [now apply Hall|].
    unfold listed. cbn [doc_fields].
    rewrite dict_lookup_update_dict
      by (unfold updated_fields; now apply dict_update_nodup).
    unfold updated_fields at 1. rewrite dict_lookup_update.
    cbn [rev app dict_lookup String.eqb Ascii.eqb Bool.eqb].
    rewrite Hstatus. now apply Hall.
Qed.

(** X22.  A run with the parser of the source keeps the store
    consistent.  Whatever pages the site serves and whatever the store
    does, if before the run each [_id] and each [source_url] is stored
    once, every stored [content_hash] is the hash of its document, every
    stored book has the status [active] that the API filters on, and
    every visited URL is the key of a stored book, then all four hold
    after the run.  Nothing is assumed of the parser: the records it
    builds have the shape these invariants need. *)
Theorem crawl_with_parser_keeps_store
    (P : Parser.env) (E : env) (fuel : nat) (resume : bool) (w : world) :
  consistent w ->
  consistent (snd (crawl_all_books (with_parser P E) fuel resume w)).
Proof.
  intros (Hok & Hhash & Hlisted & Hvisited).
  assert (Hurl : keeps_url (with_parser P E)).
  { intros html url data Hp.
    destruct (ParserFacts.parsed_record P html url data Hp) as (? & ? & _).
    now split. }
  destruct (run_crawl_all_books (with_parser P E) keeps_visited_stored
              keeps_visited_stored_trans keeps_visited_stored_frame
              (task_keeps_visited_stored (with_parser P E) Hurl)
              fuel resume w (conj Hok Hvisited)) as [Hok' Hvisited'].
  split; [exact Hok'|]. split; [|split; [|exact Hvisited']].
  - revert Hhash.
    refine (upserts_run (with_parser P E)
              (fun w w' => Forall hash_ok (books w) -> Forall hash_ok (books w'))
              _ _ _ fuel resume w).
    + intros a b c H1 H2 H. exact (H2 (H1 H)).
    + intros a b Hb _ _. now rewrite Hb.
    + intros html url data Hp a. apply save_book_hash_ok.
      destruct (ParserFacts.parsed_record P html url data Hp)
        as (? & _ & _ & ?).
      now split.
  - revert Hlisted.
    refine (upserts_run (with_parser P E)
              (fun w w' => Forall listed (books w) -> Forall listed (books w'))
              _ _ _ fuel resume w).
    + intros a b c H1 H2 H. exact (H2 (H1 H)).
    + intros a b Hb _ _. now rewrite Hb.
    + intros html url data Hp a.
      destruct (ParserFacts.parsed_record P html url data Hp)
        as (? & _ & ? & _).
      now apply save_book_listed.
Qed.

Lemma crawl_with_parser_keeps_store_witness :
  consistent
    (snd (crawl_all_books (with_parser attic_reader demo) 5 false
            (fresh_world demo))).
Proof.
  apply (crawl_with_parser_keeps_store attic_reader demo 5 false
           (fresh_world demo)).
  unfold consistent, store_ok, visited_stored. cbn.
  repeat split; try constructor; intros ? [].
Defined.

(* ================================================================== *)
(** * The API over the store *)
(* ================================================================== *)

Module ServerFacts.
Import Server.

(** ** An id and the string that spells it *)

Lemma string_length_app (a b : string) :
  String.length (a ++ b)%string = (String.length a + String.length b)%nat.
Proof. induction a as [|c a IH]; cbn; [reflexivity | now rewrite IH]. Qed.

Lemma string_app_assoc (a b c : string) :
  ((a ++ b) ++ c)%string = (a ++ b ++ c)%string.
Proof. induction a as [|x a IH]; cbn; [reflexivity | now rewrite IH]. Qed.

Lemma hex_value_digit d : 0 <= d < 16 -> hex_value (Text.digit_char d) = Some d.
Proof.
  intros H.
  assert (Hd : d = 0 \/ d = 1 \/ d = 2 \/ d = 3 \/ d = 4 \/ d = 5 \/ d = 6
               \/ d = 7 \/ d = 8 \/ d = 9 \/ d = 10 \/ d = 11 \/ d = 12
               \/ d = 13 \/ d = 14 \/ d = 15) by lia.
  repeat (destruct Hd as [->|Hd]; [reflexivity|]). now subst d.
Qed.

Lemma int_of_hex_app a : forall acc b,
  int_of_hex acc (a ++ b)%string
  = match int_of_hex acc a with
    | Some v => int_of_hex v b
    | None => None
    end.
Proof.
  induction a as [|c a IH]; intros acc b; cbn [append int_of_hex];
    [reflexivity|].
  destruct (hex_value c); [apply IH | reflexivity].
Qed.

Lemma digits_fuel_hex n : forall z acc k,
  0 <= z < 16 ^ Z.of_nat k -> (1 <= k <= n)%nat ->
  exists d,
    Text.digits_fuel n 16 z acc = (d ++ acc)%string /\
    (String.length d <= k)%nat /\
    forall a, int_of_hex a d = Some (a * 16 ^ Z.of_nat (String.length d) + z).
Proof.
  induction n as [|n IH]; intros z acc k Hz Hk; [lia|].
  cbn [Text.digits_fuel]. cbv zeta.
  destruct (z / 16 =? 0) eqn:Hq.
  - apply Z.eqb_eq in Hq.
    assert (Hlt : z < 16) by (apply Z.div_small_iff in Hq; lia).
    exists (String (Text.digit_char (z mod 16)) "").
    split; [reflexivity|]. split; [cbn; lia|].
    intros a. cbn [int_of_hex String.length].
    rewrite hex_value_digit by (apply Z.mod_pos_bound; lia).
    rewrite Z.mod_small by lia. f_equal.
    change (Z.of_nat 1) with 1. rewrite Z.pow_1_r. lia.
  - apply Z.eqb_neq in Hq.
    assert (Hge : 16 <= z).
    { destruct (Z_lt_le_dec z 16) as [Hlt|]; [|assumption].
      exfalso. apply Hq. apply Z.div_small. lia. }
    assert (Hk2 : (2 <= k)%nat).
    { destruct k as [|[|k]]; [lia | cbn in Hz; lia | lia]. }
    destruct (IH (z / 16) (String (Text.digit_char (z mod 16)) acc) (k - 1)%nat)
      as (d & Hd & Hlen & Hval).
    { split; [apply Z.div_pos; lia|].
      apply Z.div_lt_upper_bound; [lia|].
      replace (16 * 16 ^ Z.of_nat (k - 1)) with (16 ^ Z.of_nat k); [lia|].
      replace (Z.of_nat k) with (Z.succ (Z.of_nat (k - 1))) by lia.
      rewrite Z.pow_succ_r by lia. reflexivity. }
    { lia. }
    exists (d ++ String (Text.digit_char (z mod 16)) "")%string.
    split; [rewrite Hd, string_app_assoc; reflexivity|].
    split; [rewrite string_length_app; cbn; lia|].
    intros a. rewrite int_of_hex_app, Hval. cbn [int_of_hex].
    rewrite hex_value_digit by (apply Z.mod_pos_bound; lia).
    f_equal. rewrite string_length_app. cbn [String.length].
    replace (Z.of_nat (String.length d + 1))
      with (Z.succ (Z.of_nat (String.length d))) by lia.
    rewrite Z.pow_succ_r by lia.
    pose proof (Z.div_mod z 16). lia.
Qed.

Lemma int_of_hex_zeros m : forall d,
  int_of_hex 0 (Text.repeat_char "0" m ++ d)%string = int_of_hex 0 d.
Proof.
  induction m as [|m IH]; intros d; cbn [Text.repeat_char append];
    [reflexivity|].
  cbn [int_of_hex]. change (hex_value "0") with (Some 0). cbn. apply IH.
Qed.

Lemma repeat_char_length c m : String.length (Text.repeat_char c m) = m.
Proof. induction m as [|m IH]; cbn; [reflexivity | now rewrite IH]. Qed.

Lemma log2_fuel z : 0 <= z -> z < 16 ^ Z.of_nat (S (Z.to_nat (Z.log2 z))).
Proof.
  intros Hz.
  destruct (Z.eq_dec z 0) as [->|Hne]; [cbn; lia|].
  pose proof (Z.log2_nonneg z) as Hl.
  assert (Hs : z < 2 ^ Z.succ (Z.log2 z)) by (apply Z.log2_spec; lia).
  replace (Z.of_nat (S (Z.to_nat (Z.log2 z)))) with (Z.succ (Z.log2 z)) by lia.
  eapply Z.lt_le_trans; [exact Hs|].
  apply Z.pow_le_mono_l. lia.
Qed.

Lemma hex_spells i :
  0 <= i < 16 ^ 24 ->
  String.length (str_oid i) = 24%nat /\ int_of_hex 0 (str_oid i) = Some i.
Proof.
  intros Hi. unfold str_oid, Text.hex, Text.zfill, Text.nat_digits.
  set (n := S (Z.to_nat (Z.log2 i))).
  assert (Hex : exists d,
             Text.digits_fuel n 16 i "" = d /\ (String.length d <= 24)%nat /\
             int_of_hex 0 d = Some i).
  { destruct (le_lt_dec 24 n) as [Hn|Hn].
    - destruct (digits_fuel_hex n i "" 24) as (d & Hd & Hlen & Hval);
        [exact Hi | lia |].
      exists d. rewrite Hd, ParserFacts.string_app_nil.
      split; [reflexivity|]. split; [exact Hlen|].
      rewrite Hval. f_equal; lia.
    - destruct (digits_fuel_hex n i "" n) as (d & Hd & Hlen & Hval);
        [split; [lia | apply log2_fuel; lia] | unfold n; lia |].
      exists d. rewrite Hd, ParserFacts.string_app_nil.
      split; [reflexivity|]. split; [lia|].
      rewrite Hval. f_equal; lia. }
  destruct Hex as (d & -> & Hlen & Hval).
  split.
  - rewrite string_length_app, repeat_char_length. lia.
  - now rewrite int_of_hex_zeros.
Qed.

Lemma object_id_of_str_oid E i :
  0 <= i < 16 ^ 24 -> ObjectId E (str_oid i) = Some i.
Proof.
  intros Hi. destruct (hex_spells i Hi) as [Hlen Hval].
  unfold ObjectId. now rewrite Hlen, Hval.
Qed.

(** ** Running a handler *)

Ltac ssimpl :=
  cbv beta iota zeta delta
    [Server.bind Server.ret Server.raise Server.except_exception Server.logger
     Server.datetime_now Server.store_op Server.new_oid Server.set_process
     Server.set_users Server.set_api_keys Server.find_one_by
     Server.find_one_id Server.generate_api_key Server.item
     Server.api_keys_update_one Server.api_key_model];
  cbn [fst snd Server.users Server.api_keys Server.books Server.next_oid
       Server.store_ops Server.tokens Server.process].

Lemma mark_used_splits i now keys keys' d :
  NoDup (map doc_id keys) -> In d keys -> doc_id d = i ->
  mark_used i now keys = Some keys' ->
  exists l1 l2 fields,
    keys = l1 ++ d :: l2 /\
    keys' = l1 ++ Document (doc_id d) fields :: l2 /\
    used now (doc_fields d) = Some fields.
Proof.
  intros Hnd Hin Hid. revert keys' Hnd Hin.
  induction keys as [|x keys IH]; intros keys' Hnd Hin; [destruct Hin|].
  cbn [mark_used]. inversion Hnd as [|? ? Hnin Hnd']; subst.
  destruct (doc_id x =? doc_id d) eqn:Hx.
  - apply Z.eqb_eq in Hx.
    assert (x = d) as ->.
    { destruct Hin as [->|Hin]; [reflexivity|].
      exfalso. apply Hnin. rewrite Hx. now apply in_map. }
    destruct (used now (doc_fields d)) as [fields|] eqn:Hu; [|discriminate].
    intros [= <-]. now exists [], keys, fields.
  - destruct Hin as [->|Hin]; [rewrite Z.eqb_refl in Hx; discriminate|].
    destruct (mark_used (doc_id d) now keys) as [r|] eqn:Hr; [|discriminate].
    intros [= <-].
    destruct (IH r Hnd' Hin) as (l1 & l2 & fields & -> & -> & Hu).
    { reflexivity. }
    now exists (x :: l1), l2, fields.
Qed.

(** The outcome being known, each part of the statement holds or is
    refuted by the facts at hand. *)
Ltac facts :=
  repeat match goal with
         | H : exists _, _ |- _ => destruct H
         | H : _ /\ _ |- _ => destruct H
         | H : _ \/ _ |- _ => destruct H
         | H : Some _ = Some _ |- _ => injection H as H; subst
         | H : Raise _ = Raise _ |- _ => injection H as H; subst
         | H : Return _ = Return _ |- _ => injection H as H; subst
         end.

Ltac verdict :=
  cbn [fst snd users books api_keys];
  repeat match goal with
         | |- _ /\ _ => split
         | |- _ <-> _ => split
         | |- forall _, _ => intro
         | |- _ -> _ => intro
         end;
  facts;
  first [ reflexivity | discriminate | congruence | solve [eauto 12] ].

(** X23.  What [verify_token] answers and what it writes.  It raises
    nothing but an [HTTPException]: with status 401 and the header
    [WWW-Authenticate: Bearer], nothing written to the keys, or with
    status 500.  The status is 401 exactly when there is no token, or
    the lookup of the token answers and finds no stored key or a key
    that is not active.  It is 500 exactly when a token is given and
    the lookup raises, or an active key is found and the update of its
    use raises (the store refuses it, or [request_count] is no number)
    or the document is no valid [APIKey].  The call returns a key
    exactly in the remaining case: the key is stored and active, the
    update is accepted and the document is valid.  Then the use is
    recorded: the document of the token, and no other, has [last_used]
    set to the time of the call and [request_count] one higher,
    whatever the handler does next.  The collections [users] and
    [books] are never touched. *)
Theorem verify_token_outcomes
    (E : env) (credentials : option string) (s : state) :
  let r := verify_token E credentials s in
  let now := Api.now_at (clock E) (Api.clock_reads (process s)) in
  let model key_doc :=
    fst (api_key_model E
           (dict_set "_id" (VStr (str_oid (doc_id key_doc)))
                     (doc_fields key_doc)) s) in
  users (snd r) = users s /\ books (snd r) = books s /\
  (forall e,
     fst r = Raise e ->
     exists detail,
       e = HTTPException 401 detail bearer /\ api_keys (snd r) = api_keys s \/
       e = HTTPException 500 detail []) /\
  ((exists detail headers, fst r = Raise (HTTPException 401 detail headers)) <->
   match credentials with
   | None => True
   | Some token =>
       store_fault E (store_ops s) = false /\
       match find (field_is "key" (VStr token)) (api_keys s) with
       | None => True
       | Some key_doc =>
           truthy (dict_get "is_active" (doc_fields key_doc)) = false
       end
   end) /\
  ((exists detail headers, fst r = Raise (HTTPException 500 detail headers)) <->
   exists token,
     credentials = Some token /\
     (store_fault E (store_ops s) = true \/
      exists key_doc,
        find (field_is "key" (VStr token)) (api_keys s) = Some key_doc /\
        truthy (dict_get "is_active" (doc_fields key_doc)) = true /\
        (store_fault E (S (store_ops s)) = true \/
         mark_used (doc_id key_doc) now (api_keys s) = None \/
         exists e, model key_doc = Raise e))) /\
  (forall k,
     fst r = Return k <->
     exists token key_doc keys,
       credentials = Some token /\
       store_fault E (store_ops s) = false /\
       find (field_is "key" (VStr token)) (api_keys s) = Some key_doc /\
       truthy (dict_get "is_active" (doc_fields key_doc)) = true /\
       store_fault E (S (store_ops s)) = false /\
       mark_used (doc_id key_doc) now (api_keys s) = Some keys /\
       model key_doc = Return k) /\
  (forall k,
     fst r = Return k ->
     exists token key_doc,
       credentials = Some token /\
       find (field_is "key" (VStr token)) (api_keys s) = Some key_doc /\
       mark_used (doc_id key_doc) now (api_keys s) = Some (api_keys (snd r)) /\
       (NoDup (map doc_id (api_keys s)) ->
        exists l1 l2 fields,
          api_keys s = l1 ++ key_doc :: l2 /\
          api_keys (snd r) = l1 ++ Document (doc_id key_doc) fields :: l2 /\
          used now (doc_fields key_doc) = Some fields)).
Proof.
  intros r now model. subst r now.
  unfold verify_token. destruct credentials as [token|].
  2: { ssimpl. verdict. }
  ssimpl.
  destruct (store_fault E (store_ops s)) eqn:Hfault; ssimpl.
  { verdict. }
  destruct (find (field_is "key" (VStr token)) (api_keys s)) as [key_doc|]
    eqn:Hfind; ssimpl.
  2: { verdict. }
  destruct (truthy (dict_get "is_active" (doc_fields key_doc))) eqn:Hactive;
    cbn [negb]; ssimpl.
  2: { verdict. }
  destruct (store_fault E (S (store_ops s))) eqn:Hfault2; ssimpl.
  { verdict. }
  cbn [Api.datetime_now fst snd].
  destruct (mark_used (doc_id key_doc) _ (api_keys s)) as [keys|] eqn:Hmark;
    ssimpl.
  2: { verdict. }
  assert (Hrec : NoDup (map doc_id (api_keys s)) ->
                 exists l1 l2 fields,
                   api_keys s = l1 ++ key_doc :: l2 /\
                   keys = l1 ++ Document (doc_id key_doc) fields :: l2 /\
                   used (Api.now_at (clock E) (Api.clock_reads (process s)))
                        (doc_fields key_doc) = Some fields).
  { intros Hnd. pose proof (find_some _ _ Hfind) as [Hin _].
    now apply (mark_used_splits (doc_id key_doc) _ (api_keys s) keys key_doc). }
  destruct (exact_api_key _) as [k|] eqn:Hexact; ssimpl.
  { assert (Hkey : model key_doc = Return k)
      by (unfold model, api_key_model; now rewrite Hexact).
    clearbody model. verdict. }
  destruct (lax_api_key E _) as [k|] eqn:Hlax; ssimpl.
  - assert (Hkey : model key_doc = Return k)
      by (unfold model, api_key_model; now rewrite Hexact, Hlax).
    clearbody model. verdict.
  - assert (Hkey : model key_doc = Raise (Error validation_error))
      by (unfold model, api_key_model; now rewrite Hexact, Hlax).
    clearbody model. verdict.
Qed.

(** ** A key, created and used *)

Lemma find_app_fresh {A} (f : A -> bool) l1 l2 :
  existsb f l1 = false -> find f (l1 ++ l2) = find f l2.
Proof.
  induction l1 as [|x l1 IH]; cbn; [reflexivity|].
  destruct (f x); [discriminate | exact IH].
Qed.

Lemma mark_used_app_fresh i now l1 l2 :
  (forall d, In d l1 -> doc_id d < i) ->
  mark_used i now (l1 ++ l2)
  = match mark_used i now l2 with
    | Some r => Some (l1 ++ r)
    | None => None
    end.
Proof.
  induction l1 as [|x l1 IH]; intros H; cbn [app mark_used].
  - now destruct (mark_used i now l2).
  - assert (Hx : (doc_id x =? i) = false)
      by (apply Z.eqb_neq; specialize (H x (or_introl eq_refl)); lia).
    rewrite Hx, IH by (intros d Hd; apply H; now right).
    now destruct (mark_used i now l2).
Qed.

(** X24.  A key that was created authenticates.  The store answering,
    and the token drawn not being stored yet: [create_api_key] returns a
    key of the form [sk_live_...] with the user, the name, the limit and
    the period asked for, and [verify_token] with this key as token
    returns a key with the same user, name, limit and period.  After
    this first use the stored document counts one request and holds the
    time of the use. *)
Theorem created_key_authenticates
    (E : env) (user_id name : string) (rate_limit rate_period : Z)
    (s : state) :
  existsb (field_is "key"
             (VStr ("sk_live_" ++ token_urlsafe E (tokens s))%string))
          (api_keys s) = false ->
  (forall d, In d (api_keys s) -> doc_id d < next_oid s) ->
  store_fault E (store_ops s) = false ->
  store_fault E (S (store_ops s)) = false ->
  store_fault E (S (S (store_ops s))) = false ->
  exists k s1 k' s2 fields,
    create_api_key E user_id name rate_limit rate_period s = (Return k, s1) /\
    Api.key k = ("sk_live_" ++ token_urlsafe E (tokens s))%string /\
    Api.request_count k = 0 /\
    verify_token E (Some (Api.key k)) s1 = (Return k', s2) /\
    (forall x, x = k \/ x = k' ->
       Api.user_id x = user_id /\ Api.name x = name /\
       Api.is_active x = true /\
       Api.rate_limit x = rate_limit /\ Api.rate_period x = rate_period) /\
    api_keys s2 = api_keys s ++ [Document (next_oid s) fields] /\
    dict_lookup "request_count" fields = Some (VInt 1) /\
    dict_lookup "last_used" fields
    = Some (VDatetime
              (Api.now_at (clock E) (S (Api.clock_reads (process s))))).
Proof.
  intros Hnew Hids H0 H1 H2.
  unfold create_api_key, api_keys_insert_one. ssimpl.
  rewrite H0. ssimpl.
  cbn [dict_of dict_update fold_left dict_set dict_get dict_lookup fst snd
       String.eqb Ascii.eqb Bool.eqb].
  rewrite Hnew. ssimpl.
  cbn [exact_api_key dict_lookup dict_set String.eqb Ascii.eqb Bool.eqb].
  ssimpl.
  cbn [Api.datetime_now fst snd Api.clock_reads].
  do 5 eexists. split; [reflexivity|].
  split; [reflexivity|]. split; [reflexivity|].
  unfold verify_token.
  cbn [Api.key]. ssimpl. rewrite H1. ssimpl.
  rewrite (find_app_fresh _ _ _ Hnew).
  cbn [find field_is doc_fields dict_get dict_lookup String.eqb Ascii.eqb
       Bool.eqb py_eqb].
  rewrite String.eqb_refl. ssimpl.
  cbn [doc_fields dict_get dict_lookup String.eqb Ascii.eqb Bool.eqb truthy
       negb]. ssimpl.
  rewrite H2. ssimpl.
  cbn [Api.datetime_now Api.logger Api.set_log fst snd Api.clock_reads doc_id].
  rewrite (mark_used_app_fresh _ _ _ _ Hids).
  cbn [mark_used doc_id]. rewrite Z.eqb_refl.
  cbn [used inc doc_fields dict_lookup dict_set String.eqb Ascii.eqb Bool.eqb].
  ssimpl.
  cbn [exact_api_key dict_lookup dict_set String.eqb Ascii.eqb Bool.eqb].
  ssimpl.
  split; [reflexivity|].
  split; [intros x [->| ->]; repeat split|].
  split; [reflexivity|].
  split; reflexivity.
Qed.

Lemma created_key_authenticates_witness :
  exists k s1 k' s2 fields,
    create_api_key quiet "user_1" "Test" 100 3600 empty_server = (Return k, s1) /\
    Api.key k = ("sk_live_" ++ token_urlsafe quiet (tokens empty_server))%string /\
    Api.request_count k = 0 /\
    verify_token quiet (Some (Api.key k)) s1 = (Return k', s2) /\
    (forall x, x = k \/ x = k' ->
       Api.user_id x = "user_1" /\ Api.name x = "Test" /\
       Api.is_active x = true /\
       Api.rate_limit x = 100 /\ Api.rate_period x = 3600) /\
    api_keys s2
    = api_keys empty_server ++ [Document (next_oid empty_server) fields] /\
    dict_lookup "request_count" fields = Some (VInt 1) /\
    dict_lookup "last_used" fields
    = Some (VDatetime
              (Api.now_at (clock quiet)
                 (S (Api.clock_reads (process empty_server))))).
Proof.
  apply (created_key_authenticates quiet "user_1" "Test" 100 3600 empty_server).
  - reflexivity.
  - intros d [].
  - reflexivity.
  - reflexivity.
  - reflexivity.
Defined.

(** ** Registering a user *)

Lemma find_none_field k v l :
  find (field_is k (VStr v)) l = None ->
  ~ In (VStr v) (map (fun d => dict_get k (doc_fields d)) l).
Proof.
  intros Hfind Hin. apply in_map_iff in Hin. destruct Hin as (d & Hd & Hin).
  pose proof (find_none _ _ Hfind d Hin) as Hno.
  unfold field_is in Hno. rewrite Hd in Hno. cbn in Hno.
  now rewrite String.eqb_refl in Hno.
Qed.

Lemma nodup_snoc {A} (l : list A) (x : A) :
  NoDup l -> ~ In x l -> NoDup (l ++ [x]).
Proof.
  intros Hnd Hx. apply NoDup_app; [exact Hnd | repeat constructor; intros [] |].
  intros y Hy [<-|[]]. now apply Hx.
Qed.

(** X25.  [register_user] keeps user names and e-mail addresses unique.
    If each name and each address is stored once, this is still so after
    the call, whatever the store does.  The call returns only when
    neither the name nor the address was stored, and then exactly one
    user is added, under the id it returns.  It raises nothing but an
    [HTTPException]: 400 when the name or the address is taken, 500 for
    any failure of the store; in both cases no user is added.  The other
    collections are never touched. *)
Theorem register_user_keeps_unique
    (E : env) (username email : string) (s : state) :
  users_unique s ->
  let r := register_user E username email s in
  users_unique (snd r) /\
  api_keys (snd r) = api_keys s /\ books (snd r) = books s /\
  match fst r with
  | Return response =>
      created_username response = username /\
      created_email response = email /\
      created_user_id response = str_oid (next_oid s) /\
      find (field_is "username" (VStr username)) (users s) = None /\
      find (field_is "email" (VStr email)) (users s) = None /\
      exists now,
        users (snd r)
        = users s
          ++ [Document (next_oid s)
                [ ("username", VStr username); ("email", VStr email);
                  ("is_active", VBool true); ("created_at", VDatetime now) ]]
  | Raise (HTTPException status_code _ _) =>
      users (snd r) = users s /\
      (status_code = 400 /\
       (find (field_is "username" (VStr username)) (users s) <> None \/
        find (field_is "email" (VStr email)) (users s) <> None)
       \/ status_code = 500)
  | Raise (Error _) => False
  end.
Proof.
  intros [Hnames Hmails]. unfold register_user, create_user, users_insert_one.
  cbv zeta. ssimpl.
  destruct (store_fault E (store_ops s)); ssimpl.
  { repeat split; try assumption. now right. }
  destruct (find (field_is "username" (VStr username)) (users s)) as [d|]
    eqn:Hname; ssimpl.
  { repeat split; try assumption. left. split; [reflexivity|].
    left. discriminate. }
  destruct (store_fault E (S (store_ops s))); ssimpl.
  { repeat split; try assumption. now right. }
  destruct (find (field_is "email" (VStr email)) (users s)) as [d|]
    eqn:Hmail; ssimpl.
  { repeat split; try assumption. left. split; [reflexivity|].
    right. discriminate. }
  destruct (store_fault E (S (S (store_ops s)))); ssimpl.
  { repeat split; try assumption. now right. }
  cbn [dict_of dict_update fold_left dict_set dict_get dict_lookup fst snd
       String.eqb Ascii.eqb Bool.eqb].
  rewrite (find_none_existsb _ _ Hname), (find_none_existsb _ _ Hmail).
  cbn [orb]. ssimpl.
  split.
  { split; cbn [users]; rewrite map_app; cbn [map doc_fields dict_get dict_lookup
                                                 String.eqb Ascii.eqb Bool.eqb];
      apply nodup_snoc; try assumption; now apply find_none_field. }
  repeat split. eexists. reflexivity.
Qed.

Lemma register_user_keeps_unique_witness :
  let r := register_user quiet "johndoe" "john@example.com" empty_server in
  users_unique (snd r) /\
  api_keys (snd r) = api_keys empty_server /\
  books (snd r) = books empty_server /\
  match fst r with
  | Return response =>
      created_username response = "johndoe" /\
      created_email response = "john@example.com" /\
      created_user_id response = str_oid (next_oid empty_server) /\
      find (field_is "username" (VStr "johndoe")) (users empty_server) = None /\
      find (field_is "email" (VStr "john@example.com")) (users empty_server)
      = None /\
      exists now,
        users (snd r)
        = users empty_server
          ++ [Document (next_oid empty_server)
                [ ("username", VStr "johndoe");
                  ("email", VStr "john@example.com");
                  ("is_active", VBool true); ("created_at", VDatetime now) ]]
  | Raise (HTTPException status_code _ _) =>
      users (snd r) = users empty_server /\
      (status_code = 400 /\
       (find (field_is "username" (VStr "johndoe")) (users empty_server)
        <> None \/
        find (field_is "email" (VStr "john@example.com")) (users empty_server)
        <> None)
       \/ status_code = 500)
  | Raise (Error _) => False
  end.
Proof.
  apply (register_user_keeps_unique quiet "johndoe" "john@example.com"
           empty_server).
  split; constructor.
Defined.

(** ** A book by its id *)

Lemma find_by_id d l :
  NoDup (map doc_id l) -> In d l ->
  find (fun x => doc_id x =? doc_id d) l = Some d.
Proof.
  induction l as [|x l IH]; intros Hnd Hin; [destruct Hin|].
  inversion Hnd as [|? ? Hnin Hnd']; subst. cbn [find].
  destruct (doc_id x =? doc_id d) eqn:Hx.
  - apply Z.eqb_eq in Hx. destruct Hin as [->|Hin]; [reflexivity|].
    exfalso. apply Hnin. rewrite Hx. now apply in_map.
  - destruct Hin as [->|Hin]; [rewrite Z.eqb_refl in Hx; discriminate|].
    now apply IH.
Qed.

Lemma format_book_presentable E d s :
  presentable d ->
  exists r, format_book E d s = (Return r, s) /\ shows r d.
Proof.
  intros H. unfold presentable, presentable_fields in H.
  destruct (H "name" is_str) as (v1 & H1 & T1); [cbn; auto 20|].
  destruct (H "description" is_str) as (v2 & H2 & T2); [cbn; auto 20|].
  destruct (H "category" is_str) as (v3 & H3 & T3); [cbn; auto 20|].
  destruct (H "price_including_tax" is_float) as (v4 & H4 & T4);
    [cbn; auto 20|].
  destruct (H "price_excluding_tax" is_float) as (v5 & H5 & T5);
    [cbn; auto 20|].
  destruct (H "availability" is_str) as (v6 & H6 & T6); [cbn; auto 20|].
  destruct (H "number_of_reviews" is_int) as (v7 & H7 & T7); [cbn; auto 20|].
  destruct (H "image_url" is_str) as (v8 & H8 & T8); [cbn; auto 20|].
  destruct (H "rating" is_int) as (v9 & H9 & T9); [cbn; auto 20|].
  destruct (H "source_url" is_str) as (v10 & H10 & T10); [cbn; auto 20|].
  destruct v1; try discriminate T1. destruct v2; try discriminate T2.
  destruct v3; try discriminate T3. destruct v4; try discriminate T4.
  destruct v5; try discriminate T5. destruct v6; try discriminate T6.
  destruct v7; try discriminate T7. destruct v8; try discriminate T8.
  destruct v9; try discriminate T9. destruct v10; try discriminate T10.
  unfold format_book. cbv zeta. ssimpl.
  rewrite H1. ssimpl. rewrite H2. ssimpl. rewrite H3. ssimpl.
  rewrite H4. ssimpl. rewrite H5. ssimpl. rewrite H6. ssimpl.
  rewrite H7. ssimpl. rewrite H8. ssimpl. rewrite H9. ssimpl.
  rewrite H10. ssimpl. cbn [book_response].
  eexists. split; [reflexivity|].
  unfold shows. cbn. repeat split; assumption.
Qed.

Lemma check_rate_limit_run E api_key s :
  check_rate_limit E api_key s
  = (match fst (Api.check_rate_limit (clock E) api_key (process s)) with
     | Api.Return info => Return info
     | Api.Raise e => Raise (of_limiter e)
     end,
     set_process
       (fun _ => snd (Api.check_rate_limit (clock E) api_key (process s))) s).
Proof.
  unfold check_rate_limit.
  now destruct (Api.check_rate_limit (clock E) api_key (process s)) as [[i|e] p].
Qed.

Lemma get_book_by_id_serves E api_key s d :
  In d (books s) -> NoDup (map doc_id (books s)) ->
  0 <= doc_id d < 16 ^ 24 -> presentable d ->
  Api.passes (clock E) api_key (process s) = true ->
  store_fault E (store_ops s) = false ->
  exists r,
    fst (get_book_by_id E (str_oid (doc_id d)) api_key s) = Return r /\
    shows r d.
Proof.
  intros Hin Hnd Hid Hd Hpass Hfault.
  unfold get_book_by_id.
  rewrite (object_id_of_str_oid E _ Hid).
  unfold except_exception, bind at 1. rewrite check_rate_limit_run.
  rewrite ApiFacts.check_rate_limit_outcome, Hpass.
  ssimpl. rewrite Hfault. ssimpl.
  rewrite (find_by_id d _ Hnd Hin).
  match goal with
  | |- context [format_book E d ?s1] =>
      destruct (format_book_presentable E d s1 Hd) as (r & -> & Hr)
  end.
  exists r. now split.
Qed.

Lemma book_response_fails E id v1 v2 v3 v4 v5 v6 v7 v8 v9 v10 last :
  match book_response E id v1 v2 v3 v4 v5 v6 v7 v8 v9 v10 last with
  | Raise (HTTPException _ _ _) => False
  | _ => True
  end.
Proof.
  unfold book_response.
  destruct (lax_book E id [v1; v2; v3; v4; v5; v6; v7; v8; v9; v10] last) as [r|].
  - destruct v1; try exact I. destruct v2; try exact I.
    destruct v3; try exact I. destruct v4; try exact I.
    destruct v5; try exact I. destruct v6; try exact I.
    destruct v7; try exact I. destruct v8; try exact I.
    destruct v9; try exact I. destruct v10; exact I.
  - destruct v1; try exact I. destruct v2; try exact I.
    destruct v3; try exact I. destruct v4; try exact I.
    destruct v5; try exact I. destruct v6; try exact I.
    destruct v7; try exact I. destruct v8; try exact I.
    destruct v9; try exact I. destruct v10; exact I.
Qed.

Lemma format_book_pure E d s :
  snd (format_book E d s) = s /\
  match fst (format_book E d s) with
  | Raise (HTTPException _ _ _) => False
  | _ => True
  end.
Proof.
  unfold format_book. cbv zeta. ssimpl.
  repeat match goal with
         | |- context [dict_lookup ?k (doc_fields d)] =>
             lazymatch k with
             | "last_updated" => fail
             | _ => destruct (dict_lookup k (doc_fields d)); ssimpl;
                    [|split; [reflexivity | exact I]]
             end
         end.
  split; [reflexivity|]. apply book_response_fails.
Qed.

Ltac answered :=
  cbn [Api.logger Api.set_log Api.request_windows];
  repeat split; try discriminate; try assumption;
  try (intros _; assumption).

(** X27.  What [GET /books/{book_id}] answers, and in which order.  The
    rate limiter comes first: a request it refuses is answered 429 (500
    when the limiter itself fails) without any operation on the store.
    A request it lets through is counted in the window of its key
    whatever follows, also when the id is then found invalid (400,
    still before the store is reached) or unknown (404).  A book is
    returned only for the id of a stored book.  Nothing but an
    [HTTPException] with one of these four statuses is raised, and no
    collection is written. *)
Theorem get_book_by_id_answers
    (E : env) (book_id : string) (api_key : Api.APIKey) (s : state) :
  let r := get_book_by_id E book_id api_key s in
  let passes := Api.passes (clock E) api_key (process s) in
  same_collections s (snd r) /\
  (passes = false -> store_ops (snd r) = store_ops s) /\
  (passes = true ->
   Api.window (Api.key api_key) (Api.request_windows (process (snd r)))
   = Api.kept_at (clock E) api_key (process s)
     ++ [Api.now_at (clock E) (Api.clock_reads (process s))]) /\
  match fst r with
  | Return _ =>
      passes = true /\
      exists d, In d (books s) /\ ObjectId E book_id = Some (doc_id d)
  | Raise (HTTPException status_code _ _) =>
      status_code = 429 /\ passes = false
      \/ status_code = 400 /\ passes = true /\ ObjectId E book_id = None /\
         store_ops (snd r) = store_ops s
      \/ status_code = 404 /\ passes = true /\
         (exists oid,
            ObjectId E book_id = Some oid /\
            find (fun d => doc_id d =? oid) (books s) = None)
      \/ status_code = 500
  | Raise (Error _) => False
  end.
Proof.
  cbv zeta.
  pose proof (ApiFacts.check_rate_limit_step (clock E) api_key (process s))
    as Hstep.
  cbv zeta in Hstep. destruct Hstep as (_ & _ & Hwin & _).
  pose proof (ApiFacts.check_rate_limit_outcome (clock E) api_key (process s))
    as Hout.
  unfold get_book_by_id, except_exception, bind.
  rewrite check_rate_limit_run, Hout.
  destruct (Api.passes (clock E) api_key (process s)) eqn:Hpass.
  - ssimpl.
    destruct (ObjectId E book_id) as [oid|]; ssimpl.
    2: { answered.
         right. left. repeat split. }
    destruct (store_fault E (store_ops s)); ssimpl.
    { answered. now do 3 right. }
    destruct (find (fun d => doc_id d =? oid) (books s)) as [d|] eqn:Hfind;
      ssimpl.
    2: { answered.
         right. right. left. repeat split. now exists oid. }
    match goal with
    | |- context [format_book E d ?s1] =>
        destruct (format_book_pure E d s1) as [Hs Hf];
        destruct (format_book E d s1) as [[resp|[c dt h|e]] s2]
    end; cbn [fst snd] in *; subst; ssimpl.
    + answered.
      apply find_some in Hfind. destruct Hfind as [Hin Hid].
      apply Z.eqb_eq in Hid. exists d. split; [exact Hin | now rewrite Hid].
    + destruct Hf.
    + answered. now do 3 right.
  - destruct (Api.minimum _) as [oldest|]; cbn [of_limiter]; ssimpl.
    + answered. now left.
    + answered. now do 3 right.
Qed.

(** ** Pages *)

Lemma firstn_plus {A} (a b : nat) (l : list A) :
  firstn (a + b) l = firstn a l ++ firstn b (skipn a l).
Proof.
  revert l. induction a as [|a IH]; intros l; cbn [Nat.add firstn skipn app];
    [reflexivity|].
  destruct l as [|x l]; [now rewrite firstn_nil|].
  cbn [firstn skipn app]. now rewrite IH.
Qed.

Lemma pages_upto {A} (k n : nat) (l : list A) :
  List.concat (map (fun p => firstn k (skipn ((p - 1) * k) l)) (seq 1 n))
  = firstn (n * k) l.
Proof.
  induction n as [|n IH]; [reflexivity|].
  rewrite seq_S, map_app, List.concat_app, IH. cbn [map List.concat Nat.add].
  rewrite app_nil_r. replace (S n - 1)%nat with n by lia.
  replace (S n * k)%nat with (n * k + k)%nat by lia.
  now rewrite firstn_plus.
Qed.

Lemma page_of_nat {A} (p : nat) (page_size : Z) (l : list A) :
  0 <= page_size ->
  page_of (Z.of_nat p) page_size l
  = firstn (Z.to_nat page_size) (skipn ((p - 1) * Z.to_nat page_size) l).
Proof.
  intros H. unfold page_of, skip. f_equal. f_equal.
  destruct p as [|p].
  - change (Z.of_nat 0 - 1) with (-1). cbn [Nat.sub Nat.mul]. lia.
  - replace (S p - 1)%nat with p by lia.
    replace (Z.of_nat (S p) - 1) with (Z.of_nat p) by lia.
    rewrite Z2Nat.inj_mul, Nat2Z.id by lia. reflexivity.
Qed.

Lemma page_of_length {A} (page page_size : Z) (l : list A) :
  1 <= page -> 1 <= page_size ->
  Z.of_nat (List.length (page_of page page_size l))
  = Z.max 0 (Z.min page_size
               (Z.of_nat (List.length l) - skip page page_size)).
Proof.
  intros Hp Hs. unfold page_of.
  assert (Hskip : 0 <= skip page page_size) by (unfold skip; nia).
  rewrite length_firstn, length_skipn. lia.
Qed.

(** X28.  The pages of a listing partition its matches.  With a page
    size of at least one, the pages 1 to [total_pages] of [GET /books]
    and of [GET /changes], one after the other, are exactly the sorted
    matches, each once and in order, as long as the store gives the
    same matches to each request: every page before the last is full,
    the last one holds at least one item, and every page after it is
    empty.  There is no page exactly when there is no match. *)
Theorem pages_partition_the_matches
    {A : Type} (matches : list A) (page_size : Z) :
  1 <= page_size ->
  let total := Z.of_nat (List.length matches) in
  let pages := total_pages total page_size in
  List.concat (map (fun p => page_of (Z.of_nat p) page_size matches)
              (seq 1 (Z.to_nat pages)))
  = matches /\
  (forall page, 1 <= page < pages ->
     Z.of_nat (List.length (page_of page page_size matches)) = page_size) /\
  (1 <= pages ->
   1 <= Z.of_nat (List.length (page_of pages page_size matches)) <= page_size) /\
  (forall page, pages < page -> page_of page page_size matches = []) /\
  (pages = 0 <-> matches = []).
Proof.
  intros Hs total pages.
  assert (Hdiv : pages * page_size <= total + page_size - 1
                 /\ total <= pages * page_size).
  { unfold pages, total_pages.
    pose proof (Z.div_mod (total + page_size - 1) page_size) as Hdm.
    pose proof (Z.mod_pos_bound (total + page_size - 1) page_size) as Hmod.
    split; nia. }
  assert (Htotal : 0 <= total) by (unfold total; lia).
  assert (Hpages : 0 <= pages).
  { unfold pages, total_pages. apply Z.div_pos; lia. }
  split; [|split; [|split; [|split]]].
  - rewrite (map_ext _ (fun p => firstn (Z.to_nat page_size)
                          (skipn ((p - 1) * Z.to_nat page_size) matches)))
      by (intros p; apply page_of_nat; lia).
    rewrite pages_upto. apply firstn_all2.
    apply Nat2Z.inj_le. rewrite Nat2Z.inj_mul, !Z2Nat.id by lia.
    fold total. lia.
  - intros page Hp. rewrite page_of_length by lia.
    fold total. unfold skip. nia.
  - intros Hp. rewrite page_of_length by lia.
    fold total. unfold skip. nia.
  - intros page Hp.
    assert (Hlen : Z.of_nat (List.length (page_of page page_size matches)) = 0).
    { rewrite page_of_length by lia. fold total. unfold skip. nia. }
    destruct (page_of page page_size matches); [reflexivity | cbn in Hlen; lia].
  - split.
    + intros H0. destruct matches; [reflexivity|].
      unfold total in Hdiv. cbn [List.length] in Hdiv. nia.
    + intros ->. unfold pages, total_pages, total. cbn [List.length].
      apply Z.div_small. lia.
Qed.

Lemma pages_partition_the_matches_witness :
  let total := Z.of_nat (List.length [1; 2; 3; 4; 5]) in
  let pages := total_pages total 2 in
  List.concat (map (fun p => page_of (Z.of_nat p) 2 [1; 2; 3; 4; 5])
              (seq 1 (Z.to_nat pages)))
  = [1; 2; 3; 4; 5] /\
  (forall page, 1 <= page < pages ->
     Z.of_nat (List.length (page_of page 2 [1; 2; 3; 4; 5])) = 2) /\
  (1 <= pages ->
   1 <= Z.of_nat (List.length (page_of pages 2 [1; 2; 3; 4; 5])) <= 2) /\
  (forall page, pages < page -> page_of page 2 [1; 2; 3; 4; 5] = []) /\
  (pages = 0 <-> [1; 2; 3; 4; 5] = []).
Proof.
  apply (pages_partition_the_matches [1; 2; 3; 4; 5] 2). lia.
Defined.

End ServerFacts.

(** * From the crawl to the API *)

Lemma presentable_parsed P html url book_data :
  fst (Parser.parse_book_page P html url) = Some book_data ->
  presentable_fields book_data.
Proof.
  intros H.
  apply ParserFacts.parse_book_page_some, ParserFacts.book_page_record in H.
  destruct H as (v1 & v2 & v3 & v4 & v5 & v6 & v7 & v8 & v9 & -> & _).
  intros k ty Hin. cbn [book_fields In] in Hin.
  repeat (destruct Hin as [[= <- <-]|Hin];
          [eexists; split; reflexivity|]).
  destruct Hin.
Qed.

Lemma lookup_past_metadata k ty (meta : dict) (data : dict) :
  In (k, ty) book_fields ->
  (forall k0, In k0 (map fst meta) ->
     In k0 ["crawl_timestamp"; "last_updated"; "status"; "content_hash";
            "html_snapshot_path"]) ->
  dict_lookup k (dict_update data meta) = dict_lookup k data.
Proof.
  intros Hin Hmeta. rewrite dict_lookup_update.
  destruct (dict_lookup k (rev meta)) as [v|] eqn:Hv; [|reflexivity].
  exfalso.
  assert (Hk : In k (map fst (rev meta))).
  { clear - Hv. induction (rev meta) as [|[k0 v0] r IH]; [discriminate|].
    cbn in Hv |- *. destruct (String.eqb k k0) eqn:He.
    - apply String.eqb_eq in He. now left.
    - right. now apply IH. }
  rewrite map_rev, <- in_rev in Hk. specialize (Hmeta k Hk).
  cbn [book_fields In] in Hin. cbn [In] in Hmeta.
  repeat (destruct Hin as [[= <- <-]|Hin];
          [repeat (destruct Hmeta as [Hmeta|Hmeta]; [discriminate|]);
           destruct Hmeta|]).
  destruct Hin.
Qed.

Lemma save_book_presentable E data html w :
  NoDup (map fst data) -> presentable_fields data ->
  Forall presentable (books w) ->
  Forall presentable (books (snd (save_book E data html w))).
Proof.
  intros Hnd Hdata Hall.
  destruct (save_book_effect E data html w) as [Heff _].
  destruct Heff as [Hb Hc
                   |src t1 t2 h path evs Hsrc Hfind Hh Hb Hc Hev Hnew
                   |src ex h t path evs Hsrc Hfind Hh Hne Hb Hc Hev].
  - now rewrite Hb.
  - rewrite Hb. apply Forall_app. split; [exact Hall|].
    constructor; [|constructor].
    intros k ty Hin. unfold inserted_fields. cbn [doc_fields].
    rewrite (lookup_past_metadata k ty) by (cbn; tauto || exact Hin).
    now apply Hdata.
  - destruct Hb as [Hb|Hb]; rewrite Hb; [exact Hall|].
    rewrite Forall_forall in *. intros d Hd.
    apply set_fields_of_in in Hd.
    destruct Hd as [Hd|(d0 & Hd0 & _ & ->)]; [now apply Hall|].
    intros k ty Hin. cbn [doc_fields].
    rewrite dict_lookup_update_dict
      by (unfold updated_fields; now apply dict_update_nodup).
    unfold updated_fields.
    rewrite (lookup_past_metadata k ty) by (cbn; tauto || exact Hin).
    destruct (Hdata k ty Hin) as (v & Hv & Hty).
    rewrite Hv. now exists v.
Qed.

(** X26.  A book the crawl stored is served by the API.  After a run
    with the parser of the source, started on a store that holds each
    [_id] and each [source_url] once and only books with the fields of a
    parsed record, whatever the site and the store did during the run:
    [GET /books/{book_id}] with the id of any stored book, a request the
    limiter lets through and a store that answers, returns a
    [BookResponse] with this id and with the name, the description, the
    category, the prices, the availability, the number of reviews, the
    image, the rating and the source URL the document holds. *)
Theorem stored_book_is_served
    (P : Parser.env) (E : env) (S : Server.env)
    (fuel : nat) (resume : bool) (w : world)
    (s : Server.state) (api_key : Api.APIKey) (d : document) :
  store_ok w -> Forall presentable (books w) ->
  Server.books s = books (snd (crawl_all_books (with_parser P E) fuel resume w)) ->
  In d (Server.books s) ->
  0 <= doc_id d < 16 ^ 24 ->
  Api.passes (Server.clock S) api_key (Server.process s) = true ->
  Server.store_fault S (Server.store_ops s) = false ->
  exists r,
    fst (Server.get_book_by_id S (str_oid (doc_id d)) api_key s)
    = Server.Return r /\
    shows r d.
Proof.
  intros Hok Hall Hbooks Hin Hid Hpass Hfault.
  assert (Hok' : store_ok (snd (crawl_all_books (with_parser P E) fuel resume w))).
  { revert Hok.
    refine (upserts_run (with_parser P E) (fun w w' => store_ok w -> store_ok w')
              _ _ _ fuel resume w).
    - intros a b c H1 H2 H. exact (H2 (H1 H)).
    - intros a b Hb _ Ho. unfold store_ok. now rewrite Hb, Ho.
    - intros html url data Hp a. apply save_book_store_ok.
      destruct (ParserFacts.parsed_record P html url data Hp) as (? & ? & _).
      split; eauto. }
  assert (Hall' : Forall presentable
                    (books (snd (crawl_all_books (with_parser P E) fuel resume w)))).
  { revert Hall.
    refine (upserts_run (with_parser P E)
              (fun w w' => Forall presentable (books w) ->
                           Forall presentable (books w'))
              _ _ _ fuel resume w).
    - intros a b c H1 H2 H. exact (H2 (H1 H)).
    - intros a b Hb _ _. now rewrite Hb.
    - intros html url data Hp a.
      destruct (ParserFacts.parsed_record P html url data Hp) as (? & _).
      apply save_book_presentable; [assumption|].
      now apply (presentable_parsed P html url). }
  destruct Hok' as (Hids & _).
  rewrite <- Hbooks in Hids, Hall'.
  rewrite Forall_forall in Hall'.
  now apply ServerFacts.get_book_by_id_serves; auto.
Qed.

Lemma stored_book_is_served_witness :
  exists r,
    fst (Server.get_book_by_id quiet (str_oid (doc_id (Document 1 (attic float_51_77))))
           (Api.sample_key 100)
           (Server.State [] [] [Document 1 (attic float_51_77)] 2 0 0 Api.start))
    = Server.Return r /\
    shows r (Document 1 (attic float_51_77)).
Proof.
  apply (stored_book_is_served attic_reader demo quiet 5 false
           (new_scraper demo [Document 1 (attic float_51_77)] [] None)
           (Server.State [] [] [Document 1 (attic float_51_77)] 2 0 0 Api.start)
           (Api.sample_key 100) (Document 1 (attic float_51_77))).
  - repeat split; cbn.
    + repeat constructor. intros [].
    + intros d [<-|[]]. cbn. lia.
    + repeat constructor. intros [].
  - constructor; [|constructor].
    intros k ty Hin. cbn [book_fields In] in Hin.
    repeat (destruct Hin as [[= <- <-]|Hin];
            [eexists; split; reflexivity|]).
    destruct Hin.
  - reflexivity.
  - now left.
  - cbn. lia.
  - reflexivity.
  - reflexivity.
Defined.
